(* ===== verification/_CoqProject ===== *)
-Q . S2P
Prelude.v
GoStrings.v
Float64.v
GoTime.v
GoUrl.v
GoHttp.v
GoMux.v
Json.v
GoFormat.v
JsonEncode.v
JsonDecode.v
Scenario.v
ScenarioJson.v
ScenarioHeap.v
ScenarioAlias.v
K6Script.v
JsonPath.v
Config.v
Guardrails.v
Report.v
Parallel.v
Race.v
RunEvent.v
ReportJson.v
Runner.v
Pacing.v
K6Runner.v
Store.v
PgTables.v
Postgres.v
PgLaws.v
PgFaults.v
PgEffect.v
PgStore.v
PgLocks.v
Memory.v
PgSpec.v
Blob.v
RunExec.v
Worker.v
HttpApi.v
ApiSpec.v
ApiCancel.v
ApiStream.v
ApiRoutes.v
System.v
PgSystem.v
App.v
DemoApi.v
DemoRun.v
