(* ===== verification/Prelude.v ===== *)
(** * Wreckr: a verification development

    Wreckr is a load and failure tester for HTTP services, written in Go.  A
    scenario (a JSON document) names a target, the requests of a setup, a
    traffic and a teardown phase, how the traffic is to be sent (load, burst,
    spike, race, retry storm), thresholds and invariants.  The API validates a
    scenario, checks it against the guardrails, stores a run and either executes
    it in process or queues it for a worker; the executor drives the run through
    its life in the store (in memory or PostgreSQL), the runner sends the
    requests itself or compiles the scenario to a k6 script and judges the
    results, the report summarises them.  A command line tool runs or compiles a scenario
    file.  The code modelled is under src/apps/api/ (internal/ where a file is
    named without more) and src/examples/demo-api/.

    ** How the parts fit

    scenario, guardrails and config are pure; report is pure but for the clock;
    the runner calls the HTTP client and emits events; the store is the shared
    state, written by the API, the executor, the worker and the runner's event
    recorder at the same time; the executor and the worker are clients of the
    store's interface.  The development follows these lines: a file per package,
    and for each interface a class.

    ** Files

    - [Prelude]: results, machine integers, time, tactics and general lemmas.
    - [GoStrings], [Float64], [GoTime], [GoUrl], [GoHttp], [GoMux], [Json],
      [GoFormat], [JsonEncode], [JsonDecode]: what the program uses of Go's
      standard library, as executable definitions: strings and strconv, IEEE 754
      binary64, the calendar and durations of time, net/url, requests, headers
      and the multiplexer of net/http, encoding/json (syntax, dynamic values,
      the three layouts of its text, decoders of typed values), the verb [%v].
      Unicode tables and the texts of the errors of encoding/json are class
      parameters ([UnicodeTables], [JsonErrors], [DecodeErrors],
      [EncodeErrors]); [ascii_tables] and [plain_errors] are instances with which
      the examples compute.
    - [Scenario] (scenario/schema.go): schema, its decoders, [Normalized],
      [WithEnv], [Validate], [LoadFile].  [ScenarioJson]: the encoding of the
      schema.  [JsonPath] (scenario/jsonpath.go).
    - [ScenarioHeap]: [WithEnv] and [Normalized] as they are, programs that work
      in place on slices and maps in a heap.  [ScenarioAlias]: they refine the
      functions of [Scenario]; the copies of a scenario; races.
    - [Config] (config/config.go): [FromEnv].
    - [Guardrails] (guardrails/guardrails.go): every check of [Validate].
    - [Report] (report/report.go): summaries, percentiles, verdict, text.
    - [Parallel], [Race] (runner/runner.go, [runParallel], [runRace]): the
      traffic phases as step relations over all interleavings of the producer,
      the workers (or racers) and a cancellation.
    - [RunEvent] (runevent/event.go): events.  [ReportJson]: reports
      ([Report.JSON]) and events as JSON.
    - [Runner] (the rest of runner/runner.go): requests, checks, control phases,
      [RunWithOptions].  [Pacing]: the rate limiter beside the traffic phases.
    - [K6Script] (k6script/compiler.go): the text of the k6 script.  [K6Runner]
      (runner/k6_runner.go): the records and the report made of k6's summary.
    - [Store] (store/store.go): the records, the abstract life of a run
      ([life_step]) and the interface [RunStore] with its laws [RunStoreLaws].
    - [PgTables], [Postgres] (store/postgres.go and the schema in
      src/deployments/postgres): the tables, the SQL statements on them, and
      every method as a program of statements.  [PgLaws]: the invariant of the
      tables and how a statement may change them.  [PgFaults]: any number of
      calls at once, with the failures of the connection.  [PgEffect], [PgStore]:
      the effect of each operation on a run, and the store as an instance of the
      interface.  [PgLocks]: the locks of the transactions.
    - [Memory] (store/memory.go): the in-memory store, an instance of it.
    - [PgSpec]: the properties of the Postgres store, and a server with which
      the examples compute.
    - [Blob] (blob/memory.go, blob/s3.go): the interface of the blob stores with
      its laws, and the two stores.
    - [RunExec] (runexec/executor.go): [Execute], over any store that keeps the
      interface, with arbitrary calls of other processes between its own.
    - [Worker] (worker/worker.go, runqueue/asynq.go): task payloads, the handler
      and the error handler, over the same interface.
    - [HttpApi] (httpapi/server.go): every handler, the registry of running
      executions.  [ApiSpec]: what the handlers store and answer.  [ApiCancel]: a
      cancel request against an execution, as a step relation.  [ApiStream]: the
      event stream.  [ApiRoutes]: the routing table and the wrappers, requests as
      the server receives them ([GoMux]: the multiplexer of net/http).
    - [System]: the API, the queue, the workers and the goroutines over one store,
      as a step relation; what the theorem needs of a store beside its laws is the
      class [RunRecords].  [PgSystem]: the Postgres store keeps it.
    - [App] (app/store.go, cmd/api, cmd/worker, cmd/wreckr): the stores that a
      process opens, what the API and the worker serve, the command line tool.
    - [DemoApi] (src/examples/demo-api): the service that the examples attack.
      [DemoRun]: the runner with the scenario
      src/examples/scenarios/checkout-idempotency-race.json against it, the race
      and the service in one step relation.

    ** State and operations

    A Go struct is a record, a map a [gmap], a slice a list, nil maps and
    pointers are [None].  [int], [int64] and [time.Duration] are integers of [Z],
    wrapped with [wrap64] where the code can overflow; [float64] is [SpecFloat]
    at binary64.  A value with an error is a [result]; an index out of range
    (a panic) is [None].  A method of the memory store holds its mutex, so it is
    one function on the state; a function that reads the clock, the
    environment, the network or the context takes what it reads as an argument,
    so the theorems hold for every such reading.  Concurrent code is a step
    relation.

    ** What is shown

    - Scenario: [Validate] accepts exactly the specification; normalisation
      establishes its promises and is idempotent; preparing twice (in the API and
      again in the worker) changes nothing; [LoadFile] is sound.  ScenarioJson:
      a scenario that is written is read back.
    - ScenarioAlias: preparing in place gives what the functions give and leaves
      alone what shares nothing with the scenario; it rewrites the other copies
      of the scenario, and races with encoding or preparing one of them.
    - JsonPath: looking up a printed path is navigating the document.
    - Guardrails: exact characterisation of [Validate]; confinement of every
      path; wildcard entries; the metadata switch does not reach request paths.
    - Report: [Summarize] never panics and counts and bounds as it should; the
      verdict of [Build].  ReportJson: a report of finite numbers is encoded, and
      the text reads back with its status.
    - Parallel, Race: safety, completeness, termination and promptness of
      cancellation over all interleavings; the rounds of a race do not overlap.
      Pacing: the rate limit is kept.
    - Runner: what makes a record free of error; setup and teardown stop at the
      first failure; the verdict of a run; what is requested is what the
      guardrails checked; a run that was cut short can be reported as passed.
    - Store, Memory: the memory store refines the abstract life of a run;
      finished runs are immutable; the log of a run tells its life; identifiers,
      versions and sequence numbers are consistent in every reachable state.
    - PgSpec, PgLocks: Postgres refines the same life of a run and agrees with
      the memory store; no interleaving or failure of calls breaks the tables,
      moves a run backwards or changes one that has ended; the second of two
      concurrent updates of a scenario is refused; what [GetRun] and [ListRuns]
      give of a report; which transactions can wait for each other in a circle.
    - K6Script, K6Runner: the requests in the script are those of the scenario;
      notes stay comments; what k6 counted is what the report has; the verdict.
    - HttpApi and its specifications: whatever requests arrive, everything stored
      was validated and checked against the guardrails; only POST, PUT and DELETE
      change anything; every endpoint is reached at its address; the answers to
      creating a run; a cancellation reaches a run that executes, unless it comes too late; the
      stream sends each event once and in order.
    - RunExec, Worker: a known run always ends; the exact outcome when others
      only log and cancel; a finished run is never executed again; the payload
      round trip; the events of a failed attempt.
    - System: no run is lost, over every store that keeps the interfaces (both
      do): a stored run has ended, is queued or is executing, and ends when the
      workers and the goroutines go on.
    - App: the exit code of the tool is the verdict of the run; the worker of the
      memory backend finds no run.  DemoApi: the numbers of orders, and the count
      of logins under resets.  DemoRun: the shipped scenario finds the bug of the
      demo service in every interleaving of its two checkouts.

    ** Bounds and fuel

    The JSON parser has fuel twice the length of the text plus two (each call
    consumes a byte or hands over to one that does), its string scanner the
    length plus one; the list of the members of an object the length of its text;
    the decoder of k6's groups the nesting that the parser allows;
    [ParseDuration] and [ExpandEnv] the length; the shortest decimal search 17
    digits, which always suffice for binary64.  [Summarize] is shown total below
    [2^53] records, where the conversion of a length to a float is exact; the
    run theorems assume as much ([small_run]).

    ** What is not modelled

    Not modelled: listening on a socket, asynq and Redis (System.v has a queue of tasks that may be delivered
    again), redirects and timeouts inside [http.Client] (part of its answer),
    the usage texts of the package flag, what k6 does with the script, the web
    client.  The heap of scenarios is that of ScenarioHeap.v only: elsewhere a
    scenario is a value.  The client of the AWS SDK is a parameter.  The answers
    of the API are a status and the value that is encoded, not its text.
    In [System] a request, the handling of a task and an execution are one step
    each, with the calls of others in between; a worker that stops half-way is
    covered (its calls are a step of their own, its task is delivered again), an
    API process that stops half-way is not: it can leave a run that is stored but
    not queued, and it takes its goroutines along.  The writes that the store
    cannot represent are left out there ([storable]).

    Of PostgreSQL: a transaction is one step, apart from the reads that take no
    lock (the number of the next version); the advisory lock makes this so for
    events as long as the callers write a run's id in the same way.  Which locks
    conflict is in [PgLocks] alone, where the server's deadlock detector and the
    five seconds of a call are not modelled; elsewhere a call that ends early is
    a lost statement.  The server's clock does not go back and drawn uuids do not
    repeat (an insert that would repeat one is refused).  Which texts are uuids
    and valid text, and what jsonb keeps of a value, are parameters.
    Fused multiply-add, which Go may use on some processors, is not modelled:
    every float operation is rounded on its own.  [sort.Float64s] is the stable
    insertion sort of the same order; the order of Go's map iteration is left
    open by reading lists of a map up to their order. *)

From stdpp Require Export base gmap strings list fin_maps pretty.
From Stdlib Require Export ZArith Lia.

(** Let [simpl] compute string concatenation again. *)
#[global] Arguments String.append !s1 s2 / : simpl nomatch.

(** ** Results of fallible code *)

(** A Go function returning [(T, error)] whose error is only ever turned into
    text is a [result T]: the value, or the error's message. *)
Inductive result (A : Type) : Type :=
| Ok (a : A)
| Err (msg : string).
Arguments Ok {A} a.
Arguments Err {A} msg.

Declare Scope wreckr_scope.
Delimit Scope wreckr_scope with wreckr.
Open Scope wreckr_scope.

Definition result_bind {A B} (r : result A) (k : A → result B) : result B :=
  match r with Ok a => k a | Err m => Err m end.

Notation "'let!' x ':=' r 'in' k" := (result_bind r (fun x => k))
  (at level 10, x pattern, r at level 100, k at level 200)
  : wreckr_scope.

Definition is_ok {A} (r : result A) : bool :=
  match r with Ok _ => true | Err _ => false end.

#[export] Instance result_eq_dec `{EqDecision A} : EqDecision (result A).
Proof. solve_decision. Defined.

(** ** Machine integers *)

(** Go's [int], [int64] and [time.Duration] are 64-bit two's complement. *)
Definition two63 : Z := 9223372036854775808.
Definition wrap64 (z : Z) : Z := (z + two63) `mod` (2 * two63) - two63.
Definition in_int64 (z : Z) : bool := bool_decide (- two63 ≤ z < two63)%Z.

(** Go's division truncates toward zero. *)
Definition go_quot (a b : Z) : Z := Z.quot a b.

(** [time.Time] is modelled by its nanoseconds since the Unix epoch; the zero
    value [time.Time{}] is January 1 of year 1. *)
Abbreviation Time := Z (only parsing).
Definition zero_time : Time := (-62135596800000000000)%Z.
Definition Second : Z := 1000000000.
Definition Millisecond : Z := 1000000.
Definition Minute : Z := 60000000000.

(** ** Shared lemmas and automation *)

Lemma wrap64_id z : (- two63 ≤ z < two63)%Z → wrap64 z = z.
Proof.
  intros H. unfold wrap64, two63 in *. rewrite Z.mod_small; lia.
Qed.

Lemma wrap64_range z : (- two63 ≤ wrap64 z < two63)%Z.
Proof.
  unfold wrap64, two63.
  pose proof (Z.mod_pos_bound (z + 9223372036854775808) (2 * 9223372036854775808)).
  lia.
Qed.

Lemma Forall_existsb_false {A} (f : A → bool) l :
  existsb f l = false ↔ Forall (λ x, f x = false) l.
Proof.
  induction l as [|x l IH]; simpl; [by split|].
  rewrite orb_false_iff, Forall_cons. tauto.
Qed.

Lemma existsb_true {A} (f : A → bool) l :
  existsb f l = true ↔ ∃ x, x ∈ l ∧ f x = true.
Proof.
  rewrite existsb_exists. by setoid_rewrite list_elem_of_In.
Qed.

Lemma map_fmap_ext_id `{Countable K} {A} (f : A → A) (m : gmap K A) :
  (∀ k x, m !! k = Some x → f x = x) → f <$> m = m.
Proof.
  intros Hf. apply map_eq. intros k. rewrite lookup_fmap.
  destruct (m !! k) eqn:E; simpl; [|done]. by rewrite (Hf _ _ E).
Qed.

(** [map_id_on]: mapping a function that is the identity on a list. *)
Lemma map_id_on {A} (f : A → A) (l : list A) :
  (∀ x, x ∈ l → f x = x) → map f l = l.
Proof.
  induction l as [|x l IH]; intros H; simpl; [done|].
  rewrite H by set_solver. f_equal. apply IH. set_solver.
Qed.

Create HintDb wreckr.
Create Rewrite HintDb wreckr.
#[export] Hint Rewrite @lookup_insert_eq @lookup_empty : wreckr.

(** [case_goal] splits the first conditional or match of the goal, keeping the
    equation; [case_hyp] does it in the hypotheses. *)
Ltac case_goal :=
  match goal with
  | |- context [match ?x with _ => _ end] => destruct x eqn:?
  end.
Ltac split_ands := repeat match goal with H : _ ∧ _ |- _ => destruct H end.
