(* ===== verification/GoStrings.v ===== *)
(** * Go strings

    Go strings are byte sequences; a Rocq [string] is a list of 8-bit [ascii],
    so the two coincide byte for byte.  This file gives the operations of the
    packages [strings], [strconv] and [os] (variable expansion) that the
    program uses.  [TrimSpace] is exact on UTF-8: the byte sequences it strips
    are the encodings of the runes of [unicode.White_Space].  The case mappings
    are exact on ASCII text, which is the fast path of the Go library; on other
    text they go through the Unicode tables of [UnicodeTables]. *)

From S2P Require Export Prelude.
From Stdlib Require Import Ascii.
From Stdlib Require String.

(** ** Unicode tables (package unicode), used only for non-ASCII text *)
Class UnicodeTables := {
  uni_ToUpper : string → string;     (* strings.Map(unicode.ToUpper, s) *)
  uni_ToLower : string → string;     (* strings.Map(unicode.ToLower, s) *)
  uni_EqualFold : string → string → bool;
  uni_Quote : string → string;       (* strconv.Quote of a non-ASCII string *)
}.

(** ** Bytes *)
Definition byte_code (c : ascii) : N := N_of_ascii c.
Definition in_range (lo hi : N) (c : ascii) : bool :=
  (lo <=? byte_code c)%N && (byte_code c <=? hi)%N.
Definition is_ascii_byte (c : ascii) : bool := (byte_code c <? 128)%N.
Definition is_digit : ascii → bool := in_range 48 57.
Definition is_lower : ascii → bool := in_range 97 122.
Definition is_upper : ascii → bool := in_range 65 90.
Definition is_alpha (c : ascii) : bool := is_lower c || is_upper c.

Definition byte_upper (c : ascii) : ascii :=
  if is_lower c then ascii_of_N (byte_code c - 32) else c.
Definition byte_lower (c : ascii) : ascii :=
  if is_upper c then ascii_of_N (byte_code c + 32) else c.

(** ** Lists of bytes *)
Fixpoint string_forall (p : ascii → bool) (s : string) : bool :=
  match s with "" => true | String c s => p c && string_forall p s end.
Definition string_exists (p : ascii → bool) (s : string) : bool :=
  negb (string_forall (λ c, negb (p c)) s).
Fixpoint string_map (f : ascii → ascii) (s : string) : string :=
  match s with "" => "" | String c s => String (f c) (string_map f s) end.
Fixpoint string_rev_app (s acc : string) : string :=
  match s with "" => acc | String c s => string_rev_app s (String c acc) end.
Definition string_rev (s : string) : string := string_rev_app s "".

Definition is_ascii_string : string → bool := string_forall is_ascii_byte.

(** ** Package strings *)
Definition HasPrefix (s p : string) : bool := String.prefix p s.
Definition HasSuffix (s p : string) : bool := String.prefix (string_rev p) (string_rev s).
Fixpoint string_drop (n : nat) (s : string) : string :=
  match n, s with
  | O, _ => s
  | S _, "" => ""
  | S n, String _ s => string_drop n s
  end.
Fixpoint string_take (n : nat) (s : string) : string :=
  match n, s with
  | O, _ | _, "" => ""
  | S n, String c s => String c (string_take n s)
  end.
Definition TrimPrefix (s p : string) : string :=
  if HasPrefix s p then string_drop (String.length p) s else s.
Definition TrimSuffix (s p : string) : string :=
  if HasSuffix s p then string_take (String.length s - String.length p) s else s.
Definition Index (s sub : string) : option nat := String.index 0 sub s.
Definition Contains (s sub : string) : bool :=
  match Index s sub with Some _ => true | None => false end.
Definition ContainsAny (s chars : string) : bool :=
  string_exists (λ c, string_exists (Ascii.eqb c) chars) s.

(** Splitting at every occurrence of one byte. *)
Fixpoint Split_byte (sep : ascii) (s : string) : list string :=
  match s with
  | "" => [""]
  | String c s =>
      if Ascii.eqb c sep then "" :: Split_byte sep s
      else match Split_byte sep s with
           | [] => [String c ""]
           | w :: ws => String c w :: ws
           end
  end.

Definition Join (parts : list string) (sep : string) : string :=
  String.concat sep parts.

(** White space: the UTF-8 encodings of the runes with the White_Space
    property, as [unicode.IsSpace] decides it. *)
Definition byte (n : N) : ascii := ascii_of_N n.
Definition bytes_of (l : list N) : string := foldr (λ n s, String (byte n) s) "" l.
Definition space_encodings : list string :=
  map bytes_of
    ([[9]; [10]; [11]; [12]; [13]; [32]; [194; 133]; [194; 160]; [225; 154; 128]]
     ++ map (λ k, [226; 128; k]) [128; 129; 130; 131; 132; 133; 134; 135; 136; 137; 138; 168; 169; 175]
     ++ [[226; 129; 159]; [227; 128; 128]])%N.

Definition strip_one (encs : list string) (s : string) : option string :=
  match List.find (λ e, String.prefix e s) encs with
  | Some e => Some (string_drop (String.length e) s)
  | None => None
  end.
(** Fuel: every round drops at least one byte, so the length is enough. *)
Fixpoint strip_all (fuel : nat) (encs : list string) (s : string) : string :=
  match fuel with
  | O => s
  | S fuel => match strip_one encs s with
              | Some s' => strip_all fuel encs s'
              | None => s
              end
  end.
Definition trim_left (encs : list string) (s : string) : string :=
  strip_all (String.length s) encs s.
Definition TrimLeftSpace (s : string) : string := trim_left space_encodings s.
Definition TrimRightSpace (s : string) : string :=
  string_rev (trim_left (map string_rev space_encodings) (string_rev s)).
Definition TrimSpace (s : string) : string := TrimRightSpace (TrimLeftSpace s).

Section Unicode.
Context `{U : UnicodeTables}.

Definition ToUpper (s : string) : string :=
  if is_ascii_string s then string_map byte_upper s else uni_ToUpper s.
Definition ToLower (s : string) : string :=
  if is_ascii_string s then string_map byte_lower s else uni_ToLower s.
Definition EqualFold (s t : string) : bool :=
  if is_ascii_string s && is_ascii_string t
  then String.eqb (string_map byte_lower s) (string_map byte_lower t)
  else uni_EqualFold s t.
End Unicode.

(** Documented facts about the tables: upper-casing (lower-casing) the result of
    a table mapping changes nothing, no rune is dropped, folding is reflexive. *)
Class UnicodeLaws (U : UnicodeTables) := {
  upper_uni_upper : ∀ s, ToUpper (uni_ToUpper s) = uni_ToUpper s;
  lower_uni_lower : ∀ s, ToLower (uni_ToLower s) = uni_ToLower s;
  upper_uni_nonempty : ∀ s, s ≠ "" → uni_ToUpper s ≠ "";
  uni_fold_refl : ∀ s, uni_EqualFold s s = true;
}.

(** ** Package strconv *)
Definition Itoa (z : Z) : string := pretty z.

Fixpoint digits_value (acc : Z) (s : string) : option Z :=
  match s with
  | "" => Some acc
  | String c s =>
      if is_digit c then digits_value (acc * 10 + Z.of_N (byte_code c - 48)) s
      else None
  end.
Definition parse_uint (s : string) : option Z :=
  match s with "" => None | _ => digits_value 0 s end.
(** [strconv.Atoi]/[strconv.ParseInt(s, 10, 64)]: an optional sign, decimal
    digits, and the range of [int64]; [None] is the error. *)
Definition Atoi (s : string) : option Z :=
  let v := match s with
           | "" => None
           | String c r =>
               if Ascii.eqb c "-"%char then Z.opp <$> parse_uint r
               else if Ascii.eqb c "+"%char then parse_uint r
               else parse_uint s
           end in
  match v with
  | Some z => if in_int64 z then Some z else None
  | None => None
  end.

(** [strconv.Quote], the [%q] verb. *)
Definition hex_digit (n : N) : ascii :=
  if (n <? 10)%N then ascii_of_N (48 + n) else ascii_of_N (87 + n).
Definition quote_byte (c : ascii) : string :=
  let n := byte_code c in
  if Ascii.eqb c (byte 34) then bytes_of [92; 34]%N
  else if Ascii.eqb c (byte 92) then bytes_of [92; 92]%N
  else if in_range 32 126 c then String c ""
  else match n with
       | 7 => "\a" | 8 => "\b" | 12 => "\f" | 10 => "\n" | 13 => "\r"
       | 9 => "\t" | 11 => "\v"
       | _ => "\x" +:+ String (hex_digit (n / 16)) (String (hex_digit (n mod 16)) "")
       end%N.
Definition Quote `{UnicodeTables} (s : string) : string :=
  if is_ascii_string s
  then String (byte 34) (Join (map quote_byte (String.list_ascii_of_string s)) "")
         +:+ String (byte 34) ""
  else uni_Quote s.

(** ** Package os: variable expansion *)
Definition isShellSpecialVar (c : ascii) : bool :=
  string_exists (Ascii.eqb c) "*#$@!?-0123456789".
Definition isAlphaNum (c : ascii) : bool :=
  Ascii.eqb c "_"%char || is_digit c || is_alpha c.

(** The longest alphanumeric prefix, and the rest. *)
Fixpoint span (p : ascii → bool) (s : string) : string * string :=
  match s with
  | "" => ("", "")
  | String c r =>
      if p c then let '(w, t) := span p r in (String c w, t) else ("", s)
  end.
(** The text before the first ["}"], and the text after it. *)
Fixpoint to_brace (s : string) : option (string * string) :=
  match s with
  | "" => None
  | String c r =>
      if Ascii.eqb c "}"%char then Some ("", r)
      else match to_brace r with
           | Some (w, t) => Some (String c w, t)
           | None => None
           end
  end.

(** [getShellName] on the non-empty text after a ["$"]: the name found, whether
    characters were consumed without naming a variable, and the text left. *)
Inductive shell_name : Type :=
| SName (name : string) (rest : string)
| SEat (rest : string)               (* bad syntax: "${}" or "${" *)
| SPlain (rest : string).            (* no name: the dollar stays *)

(** ["{c}"] with a special [c], after the brace. *)
Definition special_braced (r : string) : option (string * string) :=
  match r with
  | String c (String d t) =>
      if isShellSpecialVar c && Ascii.eqb d "}"%char then Some (String c "", t) else None
  | _ => None
  end.

Definition getShellName (s : string) : shell_name :=
  match s with
  | "" => SPlain ""
  | String c r =>
      if Ascii.eqb c "{"%char then
        match special_braced r with
        | Some (w, t) => SName w t
        | None => match to_brace r with
                  | Some ("", t) => SEat t
                  | Some (w, t) => SName w t
                  | None => SEat r
                  end
        end
      else if isShellSpecialVar c then SName (String c "") r
      else match span isAlphaNum s with
           | ("", _) => SPlain s
           | (w, t) => SName w t
           end
  end.

(** [os.Expand]; each round consumes at least one byte, so the length of the
    text is enough fuel. *)
Fixpoint expand_fuel (fuel : nat) (mapping : string → string) (s : string) : string :=
  match fuel with
  | O => s
  | S fuel =>
      match s with
      | "" => ""
      | String c r =>
          if Ascii.eqb c "$"%char then
            match r with
            | "" => "$"
            | _ => match getShellName r with
                   | SName w t => mapping w +:+ expand_fuel fuel mapping t
                   | SEat t => expand_fuel fuel mapping t
                   | SPlain t => String "$"%char (expand_fuel fuel mapping t)
                   end
            end
          else String c (expand_fuel fuel mapping r)
      end
  end.
Definition Expand (mapping : string → string) (s : string) : string :=
  expand_fuel (String.length s) mapping s.
(** [os.ExpandEnv]; [env] is [os.Getenv], which answers the empty string for an
    unset variable. *)
Definition ExpandEnv (env : string → string) (s : string) : string := Expand env s.

(** ** Lemmas *)

Lemma append_nil_r s : s +:+ "" = s.
Proof. induction s; simpl; f_equal; done. Qed.
Lemma append_assoc s t u : (s +:+ t) +:+ u = s +:+ t +:+ u.
Proof. induction s; simpl; f_equal; done. Qed.
Lemma length_append s t :
  String.length (s +:+ t) = (String.length s + String.length t)%nat.
Proof. induction s; simpl; auto. Qed.

Lemma string_forall_app p s t :
  string_forall p (s +:+ t) = string_forall p s && string_forall p t.
Proof. induction s; simpl; [done|]. by rewrite IHs, andb_assoc. Qed.

Lemma string_forall_map p f s :
  string_forall p (string_map f s) = string_forall (λ c, p (f c)) s.
Proof. induction s; simpl; congruence. Qed.

Lemma string_forall_impl (p q : ascii → bool) s :
  (∀ c, p c = true → q c = true) → string_forall p s = true → string_forall q s = true.
Proof.
  intros Hpq. induction s as [|c s IH]; simpl; [done|].
  rewrite !andb_true_iff. intros [??]; auto.
Qed.

Lemma string_map_map_id f s :
  (∀ c, f (f c) = f c) → string_map f (string_map f s) = string_map f s.
Proof. intros Hf. induction s; simpl; congruence. Qed.

(** Facts about single bytes are decided by enumeration. *)
Ltac by_bytes c := destruct c as [[] [] [] [] [] [] [] []]; vm_compute; reflexivity.

Lemma byte_upper_upper c : byte_upper (byte_upper c) = byte_upper c.
Proof. by_bytes c. Qed.
Lemma byte_lower_lower c : byte_lower (byte_lower c) = byte_lower c.
Proof. by_bytes c. Qed.
Lemma byte_upper_ascii c : is_ascii_byte c = true → is_ascii_byte (byte_upper c) = true.
Proof. destruct c as [[] [] [] [] [] [] [] []]; vm_compute; done. Qed.
Lemma byte_lower_ascii c : is_ascii_byte c = true → is_ascii_byte (byte_lower c) = true.
Proof. destruct c as [[] [] [] [] [] [] [] []]; vm_compute; done. Qed.
Lemma isAlphaNum_not_dollar c : isAlphaNum c = true → Ascii.eqb c "$"%char = false.
Proof. destruct c as [[] [] [] [] [] [] [] []]; vm_compute; done. Qed.

Section UnicodeLemmas.
Context `{U : UnicodeTables} `{!UnicodeLaws U}.

Lemma ToUpper_idem s : ToUpper (ToUpper s) = ToUpper s.
Proof.
  unfold ToUpper at 2 3. destruct (is_ascii_string s) eqn:E; [|apply upper_uni_upper].
  unfold ToUpper. unfold is_ascii_string in *.
  rewrite string_forall_map, (string_forall_impl _ _ _ byte_upper_ascii E).
  apply string_map_map_id, byte_upper_upper.
Qed.
Lemma ToUpper_nonempty s : s ≠ "" → ToUpper s ≠ "".
Proof.
  unfold ToUpper. destruct (is_ascii_string s); [|apply upper_uni_nonempty].
  by destruct s.
Qed.
Lemma ToLower_idem s : ToLower (ToLower s) = ToLower s.
Proof.
  unfold ToLower at 2 3. destruct (is_ascii_string s) eqn:E; [|apply lower_uni_lower].
  unfold ToLower. unfold is_ascii_string in *.
  rewrite string_forall_map, (string_forall_impl _ _ _ byte_lower_ascii E).
  apply string_map_map_id, byte_lower_lower.
Qed.
Lemma EqualFold_refl s : EqualFold s s = true.
Proof.
  unfold EqualFold. destruct (is_ascii_string s && is_ascii_string s);
    [apply String.eqb_refl|apply uni_fold_refl].
Qed.
End UnicodeLemmas.

(** A concrete instance: tables that treat every byte as ASCII does. *)
Definition ascii_tables : UnicodeTables := {|
  uni_ToUpper := string_map byte_upper;
  uni_ToLower := string_map byte_lower;
  uni_EqualFold s t := String.eqb (string_map byte_lower s) (string_map byte_lower t);
  uni_Quote s :=
    String (byte 34) (Join (map quote_byte (String.list_ascii_of_string s)) "")
      +:+ String (byte 34) "";
|}.
Lemma ascii_tables_laws : UnicodeLaws ascii_tables.
Proof.
  split; intros s; simpl.
  - unfold ToUpper; simpl. case_match; apply string_map_map_id, byte_upper_upper.
  - unfold ToLower; simpl. case_match; apply string_map_map_id, byte_lower_lower.
  - by destruct s.
  - apply String.eqb_refl.
Qed.

(** *** Variable expansion is settled after one pass *)

Definition dollar_free (s : string) : bool :=
  string_forall (λ c, negb (Ascii.eqb c "$"%char)) s.
(** A byte that may follow a dollar without starting a variable reference. *)
Definition no_name_start (c : ascii) : bool :=
  negb (isShellSpecialVar c) && negb (isAlphaNum c) && negb (Ascii.eqb c "{"%char).
Fixpoint settled (s : string) : bool :=
  match s with
  | "" => true
  | String c r =>
      (if Ascii.eqb c "$"%char
       then match r with "" => true | String d _ => no_name_start d end else true)
      && settled r
  end.

Lemma settled_dollar_free s t :
  dollar_free s = true → settled t = true → settled (s +:+ t) = true.
Proof.
  unfold dollar_free. induction s as [|c s IH]; simpl; [done|].
  rewrite andb_true_iff. intros [Hc Hs] Ht.
  destruct (Ascii.eqb c "$"); [done|]. by apply IH.
Qed.

Lemma settled_dollar_cons d r :
  no_name_start d = true → settled (String d r) = true →
  settled (String "$"%char (String d r)) = true.
Proof. intros Hd Hr. change (no_name_start d && settled (String d r) = true). by rewrite Hd, Hr. Qed.

Lemma span_spec p s w t : span p s = (w, t) → s = w +:+ t.
Proof.
  revert w t. induction s as [|c s IH]; simpl; intros w t H; [by simplify_eq|].
  destruct (p c); [|by simplify_eq].
  destruct (span p s) as [w' t'] eqn:E. simplify_eq/=. f_equal. by apply IH.
Qed.

Lemma to_brace_length s w t :
  to_brace s = Some (w, t) → (String.length t < String.length s)%nat.
Proof.
  revert w t. induction s as [|c s IH]; intros w t; simpl; [done|].
  destruct (Ascii.eqb c "}"); [intros; simplify_eq; lia|].
  destruct (to_brace s) as [[w' t']|]; [|done]. intros; simplify_eq.
  pose proof (IH _ _ eq_refl). lia.
Qed.

(** What [getShellName] leaves to read is no longer than what it was given, and
    a dollar that stays is followed by a byte that names nothing. *)
Lemma getShellName_spec c r :
  match getShellName (String c r) with
  | SName _ t | SEat t => (String.length t ≤ String.length r)%nat
  | SPlain t => t = String c r ∧ no_name_start c = true
  end.
Proof.
  simpl. destruct (Ascii.eqb c "{") eqn:Eb.
  - destruct (special_braced r) as [[w t]|] eqn:Es.
    + destruct r as [|d [|e t']]; simpl in *; try done.
      destruct (isShellSpecialVar d && Ascii.eqb e "}"); simplify_eq. lia.
    + destruct (to_brace r) as [[[|? ?] t]|] eqn:Et; [| |lia];
        apply to_brace_length in Et; lia.
  - destruct (isShellSpecialVar c) eqn:Es; [lia|].
    destruct (isAlphaNum c) eqn:Ea.
    + destruct (span isAlphaNum r) as [w t] eqn:E. apply span_spec in E as ->.
      rewrite length_append. lia.
    + split; [done|]. unfold no_name_start. by rewrite Eb, Es, Ea.
Qed.

Section Expansion.
Variable env : string → string.

(** Enough fuel settles the text, when no variable's value has a dollar. *)
Lemma expand_fuel_settled n s :
  (∀ w, dollar_free (env w) = true) →
  (String.length s ≤ n)%nat → settled (expand_fuel n env s) = true.
Proof.
  intros Henv. revert s. induction n as [|n IH]; intros s Hlen.
  { by destruct s; [|simpl in Hlen; lia]. }
  destruct s as [|c r]; [done|]. simpl in Hlen |- *.
  destruct (Ascii.eqb c "$") eqn:Ec.
  2:{ simpl. rewrite Ec. simpl. apply IH. lia. }
  destruct r as [|d r]; [done|]. pose proof (getShellName_spec d r) as Hs.
  destruct (getShellName (String d r)) as [w t|t|t]; simpl in Hlen.
  - apply settled_dollar_free; [done|]. apply IH. lia.
  - apply IH. lia.
  - destruct Hs as [-> Hd]. destruct n as [|n]; [lia|].
    assert (Hx : expand_fuel (S n) env (String d r) = String d (expand_fuel n env r)).
    { simpl. destruct (Ascii.eqb d "$") eqn:Ed; [|done].
      apply Ascii.eqb_eq in Ed as ->. done. }
    pose proof (IH (String d r)) as IHr. rewrite Hx in IHr |- *.
    apply settled_dollar_cons; [done|]. apply IHr. simpl. lia.
Qed.

(** A settled text is left alone, whatever the fuel. *)
Lemma expand_fuel_id n s : settled s = true → expand_fuel n env s = s.
Proof.
  revert s. induction n as [|n IH]; intros s; [done|].
  destruct s as [|c r]; [done|]. simpl. rewrite andb_true_iff. intros [Hc Hr].
  destruct (Ascii.eqb c "$") eqn:Ec; [|by rewrite IH].
  apply Ascii.eqb_eq in Ec as ->. destruct r as [|d r]; [done|].
  unfold no_name_start in Hc. rewrite !andb_true_iff, !negb_true_iff in Hc.
  destruct Hc as [[Hsp Hal] Hbr]. simpl. rewrite Hbr, Hsp, Hal. by rewrite IH.
Qed.

Lemma ExpandEnv_settled s :
  (∀ w, dollar_free (env w) = true) → settled (ExpandEnv env s) = true.
Proof. intros Henv. by apply expand_fuel_settled. Qed.
Lemma ExpandEnv_id s : settled s = true → ExpandEnv env s = s.
Proof. apply expand_fuel_id. Qed.
End Expansion.

(** Expanding an expanded text, in any second environment, changes nothing when
    no value of the first one contains a dollar. *)
Lemma ExpandEnv_twice env env' s :
  (∀ w, dollar_free (env w) = true) →
  ExpandEnv env' (ExpandEnv env s) = ExpandEnv env s.
Proof. intros Henv. apply ExpandEnv_id. by apply ExpandEnv_settled. Qed.

(** ** Byte-level facts about decimal text *)

Lemma dollar_free_empty : dollar_free "" = true.
Proof. done. Qed.
#[export] Hint Resolve dollar_free_empty : wreckr.

(** *** Slicing and searching *)

Lemma string_take_app s t : string_take (String.length s) (s +:+ t) = s.
Proof. induction s; simpl; [by destruct t|]. by f_equal. Qed.
Lemma string_drop_app s t : string_drop (String.length s) (s +:+ t) = t.
Proof. induction s; simpl; [by destruct t|done]. Qed.
Lemma string_take_length s : string_take (String.length s) s = s.
Proof. rewrite <-(append_nil_r s) at 2. apply string_take_app. Qed.

Lemma prefix_app s t : String.prefix s (s +:+ t) = true.
Proof.
  induction s as [|c s IH]; simpl; [by destruct t|].
  destruct (ascii_dec c c); [done|congruence].
Qed.

Lemma string_rev_app_spec s t u : string_rev_app s t +:+ u = string_rev_app s (t +:+ u).
Proof. revert t. induction s as [|c s IH]; intros t; simpl; [done|]. by rewrite IH. Qed.
Lemma string_rev_append s t : string_rev (s +:+ t) = string_rev t +:+ string_rev s.
Proof.
  unfold string_rev.
  assert (H : ∀ acc, string_rev_app (s +:+ t) acc = string_rev_app t "" +:+ string_rev_app s acc).
  { induction s as [|c s IH]; intros acc; simpl; [|apply IH].
    by rewrite string_rev_app_spec. }
  apply H.
Qed.
Lemma string_rev_rev s : string_rev (string_rev s) = s.
Proof.
  induction s as [|c s IH]; [done|]. change (String c s) with (String c "" +:+ s).
  rewrite string_rev_append, string_rev_append, IH. reflexivity.
Qed.

Lemma prefix_spec s t : String.prefix s t = true ↔ ∃ u, t = s +:+ u.
Proof.
  split; [|intros [u ->]; apply prefix_app].
  revert t. induction s as [|c s IH]; intros t; simpl; [by exists t|].
  destruct t as [|d t]; simpl; [done|]. destruct (ascii_dec c d) as [->|]; [|done].
  intros H. destruct (IH t H) as [u ->]. by exists u.
Qed.

Lemma HasSuffix_spec s t : HasSuffix s t = true ↔ ∃ u, s = u +:+ t.
Proof.
  unfold HasSuffix. rewrite prefix_spec. split; intros [u Hu].
  - exists (string_rev u). rewrite <-(string_rev_rev s), Hu, string_rev_append.
    by rewrite string_rev_rev.
  - exists (string_rev u). by rewrite Hu, string_rev_append.
Qed.

(** [lacks c s]: byte [c] does not occur in [s]. *)
Lemma TrimPrefix_app p s : TrimPrefix (p +:+ s) p = s.
Proof. unfold TrimPrefix, HasPrefix. by rewrite prefix_app, string_drop_app. Qed.
Lemma HasSuffix_app s p : HasSuffix (s +:+ p) p = true.
Proof. apply HasSuffix_spec. by exists s. Qed.
Lemma TrimSuffix_app s p : TrimSuffix (s +:+ p) p = s.
Proof.
  unfold TrimSuffix. rewrite HasSuffix_app, length_append.
  replace (String.length s + String.length p - String.length p)%nat with (String.length s) by lia.
  apply string_take_app.
Qed.
Lemma TrimSuffix_none s p : HasSuffix s p = false → TrimSuffix s p = s.
Proof. unfold TrimSuffix. by intros ->. Qed.

Definition lacks (c : ascii) (s : string) : bool :=
  string_forall (λ d, negb (Ascii.eqb d c)) s.

Lemma lacks_app c s t : lacks c (s +:+ t) = lacks c s && lacks c t.
Proof. apply string_forall_app. Qed.

Lemma Index_app c s t :
  lacks c s = true → Index (s +:+ String c t) (String c "") = Some (String.length s).
Proof.
  unfold lacks, Index. induction s as [|d s IH]; simpl.
  { intros _. destruct (ascii_dec c c); [by destruct t|congruence]. }
  rewrite andb_true_iff, negb_true_iff. intros [Hd Hs].
  destruct (ascii_dec c d) as [->|_]; [by rewrite Ascii.eqb_refl in Hd|].
  by rewrite IH.
Qed.
Lemma Index_none c s : lacks c s = true → Index s (String c "") = None.
Proof.
  unfold lacks, Index. induction s as [|d s IH]; simpl; [done|].
  rewrite andb_true_iff, negb_true_iff. intros [Hd Hs].
  destruct (ascii_dec c d) as [->|_]; [by rewrite Ascii.eqb_refl in Hd|].
  by rewrite IH.
Qed.

(** Splitting undoes joining when no part has the separator. *)
Lemma Split_byte_lacks c s : lacks c s = true → Split_byte c s = [s].
Proof.
  unfold lacks. induction s as [|d s IH]; simpl; [done|].
  rewrite andb_true_iff, negb_true_iff. intros [-> Hs]. by rewrite IH.
Qed.
Lemma Split_byte_app c s t :
  lacks c s = true → Split_byte c (s +:+ String c t) = s :: Split_byte c t.
Proof.
  unfold lacks. induction s as [|d s IH]; simpl.
  { by rewrite Ascii.eqb_refl. }
  rewrite andb_true_iff, negb_true_iff. intros [-> Hs]. by rewrite IH.
Qed.
Lemma Split_byte_Join c l :
  l ≠ [] → Forall (λ s, lacks c s = true) l → Split_byte c (Join l (String c "")) = l.
Proof.
  unfold Join. induction l as [|s l IH]; [done|]. intros _ Hl.
  apply Forall_cons in Hl as [Hs Hl].
  destruct l as [|t l]; [by apply Split_byte_lacks|].
  change (Split_byte c (s +:+ String c (String.concat (String c "") (t :: l))) = s :: t :: l).
  rewrite Split_byte_app by done. by rewrite IH.
Qed.

(** *** Decimal text *)

Lemma digits_value_app a s t :
  digits_value a (s +:+ t) = (a' ← digits_value a s; digits_value a' t).
Proof.
  revert a. induction s as [|c s IH]; intros a; simpl; [done|].
  by destruct (is_digit c).
Qed.

Lemma pretty_N_char_digit (d : N) :
  (d < 10)%N →
  is_digit (pretty_N_char d) = true ∧ (byte_code (pretty_N_char d) - 48 = d)%N.
Proof.
  intros H. destruct d as [|p]; [by vm_compute|].
  do 4 (destruct p as [p|p|]; try lia; try (by vm_compute)).
Qed.

Lemma pretty_N_go_value (x : N) (s : string) (a : Z) :
  (0 < x)%N → ∃ k : Z,
    (0 ≤ k)%Z ∧
    digits_value a (pretty_N_go x s) = digits_value (a * 10 ^ k + Z.of_N x)%Z s.
Proof.
  revert s a. induction (N.lt_wf_0 x) as [x _ IH]; intros s a Hx.
  rewrite pretty_N_go_step by done.
  destruct (pretty_N_char_digit (x `mod` 10)) as [Hd Hv]; [by apply N.mod_lt|].
  destruct (decide (x `div` 10 = 0)%N) as [E|E].
  - rewrite E, pretty_N_go_0. simpl. rewrite Hd, Hv.
    exists 1%Z. split; [lia|]. f_equal.
    apply N.div_small_iff in E; [|done]. rewrite N.mod_small by done. rewrite Z.pow_1_r. lia.
  - destruct (IH (x `div` 10)%N) with (s := String (pretty_N_char (x `mod` 10)) s) (a := a)
      as (k & Hk & ->); [by apply N.div_lt|by apply N.neq_0_lt_0|].
    simpl. rewrite Hd, Hv. exists (k + 1)%Z. split; [lia|]. f_equal.
    rewrite Z.pow_add_r by lia. pose proof (N.div_mod x 10). lia.
Qed.

Lemma pretty_N_go_head (x : N) (s : string) :
  (0 < x)%N → ∃ c r, pretty_N_go x s = String c r ∧ is_digit c = true.
Proof.
  revert s. induction (N.lt_wf_0 x) as [x _ IH]; intros s Hx.
  rewrite pretty_N_go_step by done.
  destruct (decide (x `div` 10 = 0)%N) as [E|E].
  - rewrite E, pretty_N_go_0. eexists _, _. split; [done|].
    apply pretty_N_char_digit. by apply N.mod_lt.
  - apply IH; [by apply N.div_lt|by apply N.neq_0_lt_0].
Qed.

Lemma parse_uint_pretty (x : N) : parse_uint (pretty x) = Some (Z.of_N x).
Proof.
  unfold pretty, pretty_N. case_decide as E; [by subst|].
  destruct (pretty_N_go_head x "") as (c & r & Hc & _); [lia|].
  destruct (pretty_N_go_value x "" 0) as (k & _ & Hk); [lia|].
  rewrite Hc in Hk |- *. unfold parse_uint. by rewrite Hk.
Qed.

Lemma pretty_N_head (x : N) : ∃ c r, pretty x = String c r ∧ is_digit c = true.
Proof.
  unfold pretty, pretty_N. case_decide; [by eexists _, _|].
  apply pretty_N_go_head. lia.
Qed.

(** [strconv.Atoi] undoes [strconv.Itoa] on 64-bit integers. *)
Lemma Atoi_Itoa z : in_int64 z = true → Atoi (Itoa z) = Some z.
Proof.
  intros Hz. unfold Itoa, Atoi.
  assert (Hpos : ∀ x : N, (match pretty x with
      | "" => None
      | String c r => if Ascii.eqb c "-"%char then Z.opp <$> parse_uint r
                      else if Ascii.eqb c "+"%char then parse_uint r
                      else parse_uint (pretty x) end) = Some (Z.of_N x)).
  { intros x. rewrite parse_uint_pretty.
    destruct (pretty_N_head x) as (c & r & -> & Hd).
    destruct (Ascii.eqb_spec c "-"%char) as [->|_]; [done|].
    by destruct (Ascii.eqb_spec c "+"%char) as [->|_]. }
  destruct z as [|p|p].
  - done.
  - change (pretty (Zpos p)) with (pretty (Npos p)). rewrite Hpos.
    change (Z.of_N (Npos p)) with (Zpos p). by rewrite Hz.
  - change (pretty (Zneg p)) with ("-" +:+ pretty (Npos p)). simpl.
    rewrite parse_uint_pretty. change (Z.opp <$> Some (Z.of_N (Npos p))) with (Some (Zneg p)).
    cbv iota beta. by rewrite Hz.
Qed.

Lemma string_forall_pretty_N_go p (x : N) (s : string) :
  (∀ d, is_digit d = true → p d = true) → string_forall p s = true →
  string_forall p (pretty_N_go x s) = true.
Proof.
  intros Hp. revert s. induction (N.lt_wf_0 x) as [x _ IH]; intros s Hs.
  destruct (decide (x = 0)%N) as [->|Hx]; [by rewrite pretty_N_go_0|].
  rewrite pretty_N_go_step by lia. apply IH; [apply N.div_lt; lia|].
  simpl. rewrite Hs, Hp; [done|]. apply pretty_N_char_digit. by apply N.mod_lt.
Qed.

(** A decimal text has only digits and possibly a leading dash. *)
Lemma string_forall_Itoa p z :
  (∀ d, is_digit d = true → p d = true) → p "-"%char = true → string_forall p (Itoa z) = true.
Proof.
  intros Hp Hm. unfold Itoa.
  assert (Hn : ∀ x : N, string_forall p (pretty x) = true).
  { intros x. unfold pretty, pretty_N. case_decide; [simpl; by rewrite Hp|].
    by apply string_forall_pretty_N_go. }
  destruct z as [|q|q]; [apply (Hn 0%N)|apply (Hn (Npos q))|].
  change (p "-"%char && string_forall p (pretty (Npos q)) = true). by rewrite Hm, Hn.
Qed.
Lemma lacks_Itoa c z :
  is_digit c = false → Ascii.eqb c "-"%char = false → lacks c (Itoa z) = true.
Proof.
  intros Hd Hm. apply string_forall_Itoa.
  - intros d Hx. destruct (Ascii.eqb_spec d c); simpl; congruence.
  - destruct (Ascii.eqb_spec "-" c) as [<-|]; [by rewrite Ascii.eqb_refl in Hm|done].
Qed.

#[export] Instance Itoa_inj : Inj (=) (=) Itoa.
Proof. intros x y. apply pretty_Z_inj. Qed.
