(* ===== verification/Float64.v ===== *)
(** * float64

    Go's [float64] is IEEE 754 binary64.  The model is the executable reference
    semantics of the Standard Library ([SpecFloat]) at precision 53 and maximal
    exponent 1024: every operation below is the correctly rounded one, NaN,
    infinities and signed zeros included, and evaluates inside the kernel.  The
    file also gives the [%.kf] formatting of package fmt (exact decimal value,
    ties to even) and [sort.Float64s]. *)

From S2P Require Export GoStrings.
From Stdlib Require Export Floats.SpecFloat.
From Stdlib Require Import Ascii Sorting.Sorted.

Open Scope Z_scope.

Abbreviation float64 := spec_float (only parsing).

#[export] Instance float64_eq_dec : EqDecision float64.
Proof. solve_decision. Defined.
#[export] Instance float64_inhabited : Inhabited float64 := populate S754_nan.

Definition fprec : Z := 53.
Definition femax : Z := 1024.

Definition float_of_int (z : Z) : float64 := binary_normalize fprec femax z 0 false.
Definition f0 : float64 := S754_zero false.
Definition fadd : float64 → float64 → float64 := SFadd fprec femax.
Definition fsub : float64 → float64 → float64 := SFsub fprec femax.
Definition fmul : float64 → float64 → float64 := SFmul fprec femax.
Definition fdiv : float64 → float64 → float64 := SFdiv fprec femax.
Definition fleb : float64 → float64 → bool := SFleb.
Definition fltb : float64 → float64 → bool := SFltb.
Definition feqb : float64 → float64 → bool := SFeqb.
Definition fabs : float64 → float64 := SFabs.
Definition IsNaN (f : float64) : bool :=
  match f with S754_nan => true | _ => false end.

(** The float64 nearest to the decimal constant [m / 10^k] of the source. *)
Definition float_dec (m : Z) (k : N) : float64 :=
  match m with
  | Zpos p => fdiv (S754_finite false p 0) (S754_finite false (Z.to_pos (10 ^ Z.of_N k)) 0)
  | Zneg p => fdiv (S754_finite true p 0) (S754_finite false (Z.to_pos (10 ^ Z.of_N k)) 0)
  | Z0 => f0
  end.

(** [int(math.Floor(f))] and [int(math.Ceil(f))] for finite [f]; the program
    only applies them to finite values. *)
Definition int_floor (f : float64) : Z :=
  match f with
  | S754_finite s m e =>
      let z := if s then Zneg m else Zpos m in
      if 0 <=? e then z * 2 ^ e else z / 2 ^ (- e)
  | _ => 0
  end.
Definition int_ceil (f : float64) : Z :=
  match f with
  | S754_finite s m e =>
      let z := if s then Zneg m else Zpos m in
      if 0 <=? e then z * 2 ^ e else - ((- z) / 2 ^ (- e))
  | _ => 0
  end.

(** ** Formatting: the verbs [%.1f], [%.2f] and [%.4f] *)

(** [m * 2^e * 10^k] rounded to an integer, ties to even. *)
Definition scaled_round (m : positive) (e : Z) (k : Z) : Z :=
  let n := Zpos m * 10 ^ k in
  if 0 <=? e then n * 2 ^ e
  else let d := 2 ^ (- e) in
       let q := n / d in
       let r := n mod d in
       match 2 * r ?= d with
       | Lt => q
       | Gt => q + 1
       | Eq => if Z.even q then q else q + 1
       end.

Fixpoint zeros (n : nat) : string :=
  match n with O => "" | S n => String "0"%char (zeros n) end.
Definition pad_digits (k : nat) (n : Z) : string :=
  let s := Itoa n in zeros (k - String.length s) +:+ s.

Definition format_fixed (k : nat) (f : float64) : string :=
  let decimal (n : Z) : string :=
    let p := 10 ^ Z.of_nat k in
    Itoa (n / p) +:+ (if (k =? 0)%nat then "" else "." +:+ pad_digits k (n mod p)) in
  match f with
  | S754_nan => "NaN"
  | S754_infinity false => "+Inf"
  | S754_infinity true => "-Inf"
  | S754_zero s => (if s then "-" else "") +:+ decimal 0
  | S754_finite s m e => (if s then "-" else "") +:+ decimal (scaled_round m e (Z.of_nat k))
  end.

(** ** [sort.Float64s]

    The order of the library is [x < y || (isNaN x && !isNaN y)]; floats it
    does not separate are equal up to the sign of zero, so the result of any
    correct sorting algorithm is the one below up to that sign. *)
Definition float_less (x y : float64) : bool := fltb x y || (IsNaN x && negb (IsNaN y)).

Fixpoint insert_float (x : float64) (l : list float64) : list float64 :=
  match l with
  | [] => [x]
  | y :: l' => if float_less y x then y :: insert_float x l' else x :: l
  end.
Fixpoint Float64s (l : list float64) : list float64 :=
  match l with [] => [] | x :: l => insert_float x (Float64s l) end.

(** A key that orders floats as [float_less] does. *)
Definition float_key (f : float64) : Z * Z * Z :=
  match f with
  | S754_nan => (-3, 0, 0)
  | S754_infinity true => (-2, 0, 0)
  | S754_finite true m e => (-1, - e, Zneg m)
  | S754_zero _ => (0, 0, 0)
  | S754_finite false m e => (1, e, Zpos m)
  | S754_infinity false => (2, 0, 0)
  end.
Definition key_lt (a b : Z * Z * Z) : Prop :=
  let '(x1, y1, z1) := a in
  let '(x2, y2, z2) := b in
  x1 < x2 ∨ (x1 = x2 ∧ (y1 < y2 ∨ (y1 = y2 ∧ z1 < z2))).

(** ** Lemmas *)

Lemma float_less_key x y : float_less x y = true ↔ key_lt (float_key x) (float_key y).
Proof.
  unfold float_less, fltb, SFltb, key_lt.
  destruct x as [[]|[]| |[] m1 e1], y as [[]|[]| |[] m2 e2]; simpl;
    try (split; [discriminate|lia]); try (split; [lia|done]).
  - destruct (Z.compare_spec e1 e2); simpl; try (split; [discriminate|lia]);
      try (split; [lia|done]).
    subst. change (Pcompare m1 m2 Eq) with (Pos.compare m1 m2).
    destruct (Pos.compare_spec m1 m2); simpl;
      try (split; [discriminate|lia]); try (split; [lia|done]).
  - destruct (Z.compare_spec e1 e2); simpl; try (split; [discriminate|lia]);
      try (split; [lia|done]).
    subst. change (Pcompare m1 m2 Eq) with (Pos.compare m1 m2).
    destruct (Pos.compare_spec m1 m2); simpl;
      try (split; [discriminate|lia]); try (split; [lia|done]).
Qed.

Lemma float_less_irrefl x : float_less x x = false.
Proof.
  apply not_true_iff_false. rewrite float_less_key. unfold key_lt.
  destruct (float_key x) as [[??]?]. lia.
Qed.

Lemma float_nless_trans x y z :
  float_less y x = false → float_less z y = false → float_less z x = false.
Proof.
  rewrite <-!not_true_iff_false, !float_less_key. unfold key_lt.
  destruct (float_key x) as [[??]?], (float_key y) as [[??]?], (float_key z) as [[??]?].
  lia.
Qed.

Lemma float_less_asym x y : float_less x y = true → float_less y x = false.
Proof.
  rewrite <-!not_true_iff_false, !float_less_key. unfold key_lt.
  destruct (float_key x) as [[??]?], (float_key y) as [[??]?]. lia.
Qed.

(** [float_le x y]: [x] may come before [y] in a sorted list. *)
Definition float_le (x y : float64) : Prop := float_less y x = false.

#[export] Instance float_le_trans : Transitive float_le.
Proof. intros x y z. apply float_nless_trans. Qed.
#[export] Instance float_le_refl : Reflexive float_le.
Proof. intros x. apply float_less_irrefl. Qed.

Lemma insert_float_perm x l : insert_float x l ≡ₚ x :: l.
Proof.
  induction l as [|y l IH]; simpl; [done|].
  destruct (float_less y x); [|done].
  rewrite IH. by constructor.
Qed.

Lemma Float64s_perm l : Float64s l ≡ₚ l.
Proof.
  induction l as [|x l IH]; simpl; [done|].
  by rewrite insert_float_perm, IH.
Qed.

Lemma insert_float_sorted x l :
  StronglySorted float_le l → StronglySorted float_le (insert_float x l).
Proof.
  induction 1 as [|y l Hs IH Hy]; simpl; [repeat constructor|].
  destruct (float_less y x) eqn:E.
  - constructor; [done|]. rewrite insert_float_perm. constructor; [|done].
    by apply float_less_asym.
  - constructor; [by constructor|]. constructor; [done|].
    eapply Forall_impl; [exact Hy|]. intros z Hz. by transitivity y.
Qed.

Lemma Float64s_sorted l : StronglySorted float_le (Float64s l).
Proof. induction l; simpl; [constructor|by apply insert_float_sorted]. Qed.

Lemma Float64s_length l : length (Float64s l) = length l.
Proof. by rewrite Float64s_perm. Qed.

(** In a sorted list the first element is least and the last is greatest. *)
Lemma sorted_lookup_le (l : list float64) i j x y :
  StronglySorted float_le l → (i ≤ j)%nat → l !! i = Some x → l !! j = Some y →
  float_le x y.
Proof.
  intros Hs. revert i j. induction Hs as [|z l Hs IH Hz]; intros i j Hij; [done|].
  destruct i as [|i], j as [|j]; simpl; intros; simplify_eq; [done| |lia|].
  - rewrite Forall_lookup in Hz. eauto.
  - eapply (IH i j); eauto with lia.
Qed.

#[export] Hint Resolve float_less_irrefl float_less_asym : wreckr.

(** ** Rounding bounds

    The product of a float below one and an integer does not exceed the
    integer, so the positions that [percentile] computes stay in range. *)

Lemma digits2_pos_bound (p : positive) : Zpos p < 2 ^ Zpos (digits2_pos p).
Proof.
  induction p as [p IH|p IH|]; simpl digits2_pos; [| |by vm_compute];
    rewrite Pos2Z.inj_succ, Z.pow_succ_r by lia; lia.
Qed.
Lemma digits2_pos_lower (p : positive) : 2 ^ (Zpos (digits2_pos p) - 1) ≤ Zpos p.
Proof.
  induction p as [p IH|p IH|]; simpl digits2_pos; [| |by vm_compute].
  all: rewrite Pos2Z.inj_succ.
  all: replace (Z.succ (Zpos (digits2_pos p)) - 1) with (Z.succ (Zpos (digits2_pos p) - 1)) by lia.
  all: rewrite Z.pow_succ_r by lia; lia.
Qed.

(** A number below a power of two has no more digits than the exponent. *)
Lemma digits2_pos_le (p : positive) (d : Z) :
  Zpos p < 2 ^ d → Zpos (digits2_pos p) ≤ d.
Proof.
  intros H. pose proof (digits2_pos_lower p) as Hl.
  assert (0 ≤ d). { destruct (Z.neg_nonneg_cases d) as [Hd|]; [|done].
    rewrite Z.pow_neg_r in H by done. lia. }
  assert (Zpos (digits2_pos p) - 1 < d); [|lia].
  apply (Z.pow_lt_mono_r_iff 2); lia.
Qed.

Lemma shr_1_value m r s :
  0 ≤ m → ∃ r' s', shr_1 (Build_shr_record m r s) = Build_shr_record (m / 2) r' s'.
Proof.
  intros Hm. destruct m as [|[p|p|]|p]; try lia; simpl.
  - by eexists _, _.
  - eexists _, _. f_equal. apply Z.div_unique_pos with (r := 1); lia.
  - eexists _, _. f_equal. apply Z.div_unique_pos with (r := 0); lia.
  - by eexists _, _.
Qed.

Lemma iter_shr_value n m r s :
  0 ≤ m → ∃ r' s',
    SpecFloat.iter_pos shr_1 n (Build_shr_record m r s)
    = Build_shr_record (m / 2 ^ Zpos n) r' s'.
Proof.
  revert m r s. induction n as [n IH|n IH|]; intros m r s Hm; cbn [SpecFloat.iter_pos].
  - destruct (shr_1_value m r s Hm) as (r1 & s1 & ->).
    destruct (IH (m / 2) r1 s1) as (r2 & s2 & ->); [by apply Z.div_pos|].
    destruct (IH (m / 2 / 2 ^ Zpos n) r2 s2) as (r3 & s3 & ->).
    { apply Z.div_pos; [by apply Z.div_pos|lia]. }
    eexists _, _. f_equal. rewrite !Z.div_div by lia. f_equal.
    rewrite (Pos2Z.inj_xI n), <-Z.pow_add_r by lia.
    replace (2 * Zpos n + 1) with (1 + (Zpos n + Zpos n)) by lia.
    by rewrite (Z.pow_add_r 2 1) by lia.
  - destruct (IH m r s Hm) as (r2 & s2 & ->).
    destruct (IH (m / 2 ^ Zpos n) r2 s2) as (r3 & s3 & ->); [apply Z.div_pos; lia|].
    eexists _, _. f_equal. rewrite Z.div_div by lia. f_equal.
    rewrite (Pos2Z.inj_xO n), <-Z.pow_add_r by lia. f_equal. lia.
  - destruct (shr_1_value m r s Hm) as (r1 & s1 & ->). by eexists _, _.
Qed.

(** What [shr_fexp] does to a value below [k]: it divides the mantissa by a
    power of two and the exponent stays at most zero. *)
Lemma shr_fexp_bound M e k :
  0 < M → e ≤ 0 → 0 ≤ k < 2 ^ 53 → M ≤ k * 2 ^ (- e) →
  ∃ n r s,
    0 ≤ n ∧ e + n ≤ 0
    ∧ shr_fexp fprec femax M e loc_Exact = (Build_shr_record (M / 2 ^ n) r s, e + n).
Proof.
  intros HM He Hk Hle. unfold shr_fexp, shr_record_of_loc.
  destruct M as [|p|p]; try lia. cbn [Zdigits2].
  assert (Hd : Zpos (digits2_pos p) ≤ 53 - e).
  { apply digits2_pos_le. pose proof (Z.pow_pos_nonneg 2 (- e)).
    replace (53 - e) with (53 + - e) by lia. rewrite Z.pow_add_r by lia. nia. }
  assert (Hn : fexp fprec femax (Zpos (digits2_pos p) + e) ≤ 0)
    by (unfold fexp, emin, fprec, femax; lia).
  assert (Hno : ∃ n r s, 0 ≤ n ∧ e + n ≤ 0
            ∧ (Build_shr_record (Zpos p) false false, e)
              = (Build_shr_record (Zpos p / 2 ^ n) r s, e + n)).
  { exists 0, false, false. by rewrite Z.pow_0_r, Z.div_1_r, Z.add_0_r. }
  destruct (fexp fprec femax (Zpos (digits2_pos p) + e) - e) as [|n|n] eqn:En;
    unfold shr; [done| |done].
  destruct (iter_shr_value n (Zpos p) false false) as (r & s & ->); [lia|].
  exists (Zpos n), r, s. split_and!; [lia|lia|done].
Qed.

(** The floats between zero and the integer [k], as the operations produce
    them below [2^53]. *)
Definition float_between (k : Z) (f : float64) : Prop :=
  f = S754_zero false
  ∨ ∃ m e, f = S754_finite false m e ∧ e ≤ 0 ∧ Zpos m ≤ k * 2 ^ (- e).

Lemma binary_round_aux_between M e k :
  0 < M → e ≤ 0 → 0 ≤ k < 2 ^ 53 → M < k * 2 ^ (- e) →
  float_between k (binary_round_aux fprec femax false M e loc_Exact).
Proof.
  intros HM He Hk Hlt. unfold binary_round_aux.
  destruct (shr_fexp_bound M e k HM He Hk) as (n & r & s & Hn & Hen & ->); [lia|].
  set (E := e + n) in *. cbn [shr_m].
  set (q := round_nearest_even (M / 2 ^ n) _).
  assert (HK : k * 2 ^ (- e) = k * 2 ^ (- E) * 2 ^ n).
  { rewrite <-Z.mul_assoc, <-Z.pow_add_r by lia. do 2 f_equal. lia. }
  assert (HM2 : M / 2 ^ n < k * 2 ^ (- E)).
  { apply Z.div_lt_upper_bound; [lia|]. lia. }
  assert (HM3 : 0 ≤ M / 2 ^ n) by (apply Z.div_pos; lia).
  assert (Hq : 0 ≤ q ≤ k * 2 ^ (- E)).
  { unfold q, round_nearest_even. destruct (loc_of_shr_record _) as [|[]]; try lia.
    destruct (Z.even _); lia. }
  clearbody q. destruct (Z.eq_dec q 0) as [->|Hq0].
  { left. unfold shr_fexp, shr_record_of_loc, shr. cbn [Zdigits2].
    destruct (fexp fprec femax (0 + E) - E) as [|p|p]; [done| |done].
    destruct (iter_shr_value p 0 false false) as (r2 & s2 & ->); [done|].
    by rewrite Z.div_0_l by lia. }
  destruct (shr_fexp_bound q E k) as (n2 & r2 & s2 & Hn2 & HE2 & ->); [lia|lia|lia|lia|].
  cbn [shr_m].
  assert (Hm : 0 ≤ q / 2 ^ n2) by (apply Z.div_pos; lia).
  destruct (q / 2 ^ n2) as [|m|m] eqn:Em; [by left| |lia].
  rewrite (proj2 (Z.leb_le _ _)) by (unfold femax, fprec; lia).
  right. exists m, (E + n2). split_and!; [done|done|].
  assert (Zpos m * 2 ^ n2 ≤ q).
  { rewrite <-Em, Z.mul_comm. apply Z.mul_div_le. lia. }
  assert (k * 2 ^ (- E) = k * 2 ^ (- (E + n2)) * 2 ^ n2).
  { rewrite <-Z.mul_assoc, <-Z.pow_add_r by lia. do 2 f_equal. lia. }
  nia.
Qed.


(** Integers below [2^53] convert exactly. *)
Lemma iter_xO_value p n : Zpos (Pos.iter xO p n) = Zpos p * 2 ^ Zpos n.
Proof.
  induction n as [|n IH] using Pos.peano_ind; [simpl; lia|].
  rewrite Pos.iter_succ, Pos2Z.inj_succ, Z.pow_succ_r by lia. lia.
Qed.

Lemma shr_fexp_same m e :
  Zpos (digits2_pos m) = 53 → -1074 ≤ e →
  shr_fexp fprec femax (Zpos m) e loc_Exact = (Build_shr_record (Zpos m) false false, e).
Proof.
  intros Hd He. unfold shr_fexp, shr_record_of_loc, shr. cbn [Zdigits2].
  replace (fexp fprec femax (Zpos (digits2_pos m) + e) - e) with 0; [done|].
  unfold fexp, emin, fprec, femax. lia.
Qed.

Lemma float_of_int_exact k :
  0 < k < 2 ^ 53 →
  ∃ m e, float_of_int k = S754_finite false m e ∧ e ≤ 0 ∧ Zpos m = k * 2 ^ (- e).
Proof.
  intros Hk. destruct k as [|p|p]; try lia.
  assert (Hd : Zpos (digits2_pos p) ≤ 53) by (apply digits2_pos_le; lia).
  unfold float_of_int, binary_normalize, binary_round.
  assert (HE : fexp fprec femax (Zpos (digits2_pos p) + 0) = Zpos (digits2_pos p) - 53)
    by (unfold fexp, emin, fprec, femax; lia).
  rewrite HE. set (E := Zpos (digits2_pos p) - 53).
  assert (∃ mz, shl_align p 0 E = (mz, E) ∧ Zpos mz = Zpos p * 2 ^ (- E)) as (mz & -> & Hmz).
  { unfold shl_align. rewrite Z.sub_0_r. destruct E as [|q|q] eqn:Eq; [|lia|].
    - exists p. split; [done|]. simpl. lia.
    - eexists. split; [done|]. by rewrite iter_xO_value. }
  assert (Hdm : Zpos (digits2_pos mz) = 53).
  { pose proof (digits2_pos_bound p). pose proof (digits2_pos_lower p).
    assert (Zpos mz < 2 ^ 53).
    { replace 53 with (Zpos (digits2_pos p) + - E) by lia.
      rewrite Hmz, Z.pow_add_r by lia. nia. }
    assert (2 ^ 52 ≤ Zpos mz).
    { replace 52 with ((Zpos (digits2_pos p) - 1) + - E) by lia.
      rewrite Hmz, Z.pow_add_r by lia. nia. }
    assert (Zpos (digits2_pos mz) ≤ 53) by (apply digits2_pos_le; lia).
    pose proof (digits2_pos_bound mz).
    assert (52 < Zpos (digits2_pos mz)); [|lia].
    apply (Z.pow_lt_mono_r_iff 2); lia. }
  exists mz, E. split_and!; [|lia|done].
  unfold binary_round_aux. rewrite shr_fexp_same by lia. cbn [shr_m].
  change (round_nearest_even (Zpos mz) _) with (Zpos mz).
  rewrite shr_fexp_same by lia. cbn [shr_m].
  by rewrite (proj2 (Z.leb_le _ _)) by (unfold femax, fprec; lia).
Qed.

(** A fraction below one of an integer stays between zero and that integer. *)
Lemma fmul_fraction_between m e k :
  0 < k < 2 ^ 53 → e ≤ 0 → Zpos m < 2 ^ (- e) →
  float_between k (fmul (S754_finite false m e) (float_of_int k)).
Proof.
  intros Hk He Hm. destruct (float_of_int_exact k Hk) as (m' & e' & -> & He' & Hm').
  unfold fmul. cbn [SFmul xorb]. apply binary_round_aux_between; [lia|lia|lia|].
  rewrite Pos2Z.inj_mul, Hm'. replace (- (e + e')) with (- e + - e') by lia.
  rewrite Z.pow_add_r by lia. pose proof (Z.pow_pos_nonneg 2 (- e')). nia.
Qed.

Lemma float_between_floor k f : 0 ≤ k → float_between k f → 0 ≤ int_floor f ≤ k.
Proof.
  intros Hk [->|(m & e & -> & He & Hm)]; [done|]. unfold int_floor.
  pose proof (Z.pow_pos_nonneg 2 (- e)). case_match eqn:Hz.
  - assert (e = 0) as -> by lia. simpl in *. lia.
  - split; [apply Z.div_pos; lia|]. apply Z.div_le_upper_bound; lia.
Qed.
Lemma float_between_ceil k f : 0 ≤ k → float_between k f → 0 ≤ int_ceil f ≤ k.
Proof.
  intros Hk [->|(m & e & -> & He & Hm)]; [done|]. unfold int_ceil.
  pose proof (Z.pow_pos_nonneg 2 (- e)). case_match eqn:Hz.
  - assert (e = 0) as -> by lia. simpl in *. lia.
  - assert (- k ≤ - Zpos m / 2 ^ (- e)) by (apply Z.div_le_lower_bound; lia).
    assert (- Zpos m / 2 ^ (- e) ≤ 0) by (apply Z.div_le_upper_bound; lia). lia.
Qed.
