(* ===== verification/GoTime.v ===== *)
(** * Package time: formatting and durations

    A time is its nanoseconds since the Unix epoch.  [format_time] is the layout
    RFC 3339 with nanoseconds in a zone given by its offset, which
    [time.Time.MarshalJSON] writes; [ParseDuration] reads "1h30m".  Shown: the
    calendar reads back as the day it was computed from; a formatted time is
    ASCII. *)

From S2P Require Export GoStrings Float64.
From Stdlib Require Import Ascii.

Open Scope Z_scope.

(** ** The calendar *)

(** The civil date of a day counted from the epoch: years start in March, so
    that the leap day ends them, and 400 years are an era. *)
Record date := { date_year : Z; date_month : Z; date_day : Z }.
Definition days_per_era : Z := 146097.
Definition date_of_day (day : Z) : date :=
  let z := day + 719468 in
  let era := z / days_per_era in
  let doe := z mod days_per_era in
  let yoe := (doe - doe / 1460 + doe / 36524 - doe / 146096) / 365 in
  let doy := doe - (365 * yoe + yoe / 4 - yoe / 100) in
  let mp := (5 * doy + 2) / 153 in
  let month := if mp <? 10 then mp + 3 else mp - 9 in
  {| date_year := yoe + era * 400 + (if month <=? 2 then 1 else 0);
     date_month := month;
     date_day := doy - (153 * mp + 2) / 5 + 1 |}.
(** The day of a date. *)
Definition day_of_date (d : date) : Z :=
  let y := if date_month d <=? 2 then date_year d - 1 else date_year d in
  let era := y / 400 in
  let yoe := y mod 400 in
  let mp := if date_month d <=? 2 then date_month d + 9 else date_month d - 3 in
  let doy := (153 * mp + 2) / 5 + date_day d - 1 in
  era * days_per_era + (yoe * 365 + yoe / 4 - yoe / 100 + doy) - 719468.

(** ** Formatting *)

(** A number below [10^width], padded with zeros. *)
Fixpoint padded (width : nat) (n : Z) : string :=
  match width with
  | O => ""
  | S width => padded width (n / 10) +:+ Itoa (n mod 10)
  end.
(** The fraction of a second, without final zeros. *)
Fixpoint trimmed (width : nat) (n : Z) : string :=
  match width with
  | O => ""
  | S width => if n mod 10 =? 0 then trimmed width (n / 10) else padded (S width) n
  end.
Definition fraction_text (ns : Z) : string := if ns =? 0 then "" else "." +:+ trimmed 9 ns.
(** The offset of a zone in minutes. *)
Definition zone_text (offset : Z) : string :=
  if offset =? 0 then "Z"
  else (if offset <? 0 then "-" else "+")
       +:+ padded 2 (Z.abs offset / 60) +:+ ":" +:+ padded 2 (Z.abs offset mod 60).
(** [None] is the error of [MarshalJSON] for a year that has not four digits. *)
Definition format_time (offset : Z) (t : Time) : option string :=
  let local := t + offset * 60000000000 in
  let secs := local / 1000000000 in
  let d := date_of_day (secs / 86400) in
  let s := secs mod 86400 in
  if (date_year d <? 0) || (9999 <? date_year d) then None
  else Some (padded 4 (date_year d) +:+ "-" +:+ padded 2 (date_month d) +:+ "-" +:+ padded 2 (date_day d)
             +:+ "T" +:+ padded 2 (s / 3600) +:+ ":" +:+ padded 2 (s mod 3600 / 60) +:+ ":"
             +:+ padded 2 (s mod 60) +:+ fraction_text (local mod 1000000000) +:+ zone_text offset).

Example format_time_examples :
  map (λ '(o, t), format_time o t)
    [(0, 0); (0, zero_time); (0, 1709210096123450000); (120, 1709164799000000001); (-330, 0);
     (0, -62135596800000000001)]
  = [Some "1970-01-01T00:00:00Z"; Some "0001-01-01T00:00:00Z"; Some "2024-02-29T12:34:56.12345Z";
     Some "2024-02-29T01:59:59.000000001+02:00"; Some "1969-12-31T18:30:00-05:30";
     Some "0000-12-31T23:59:59.999999999Z"].
Proof. vm_compute. reflexivity. Qed.

(** ** The calendar reads back *)
Lemma year_of_era doe :
  0 ≤ doe < days_per_era →
  let yoe := (doe - doe / 1460 + doe / 36524 - doe / 146096) / 365 in
  0 ≤ yoe < 400 ∧ 0 ≤ doe - (365 * yoe + yoe / 4 - yoe / 100) < 366.
Proof. unfold days_per_era. intros H. cbv zeta. Z.div_mod_to_equations. lia. Qed.
Theorem day_of_date_of_day day : day_of_date (date_of_day day) = day.
Proof.
  unfold day_of_date, date_of_day. cbn [date_year date_month date_day].
  set (era := (day + 719468) / days_per_era). set (doe := (day + 719468) mod days_per_era).
  assert (day + 719468 = days_per_era * era + doe) as Hd by (apply Z.div_mod; done).
  assert (0 ≤ doe < days_per_era) as Hr by (apply Z.mod_pos_bound; done).
  destruct (year_of_era doe Hr) as [Hy Hdoy]. clearbody era doe.
  set (yoe := (doe - doe / 1460 + doe / 36524 - doe / 146096) / 365) in *. clearbody yoe.
  set (doy := doe - (365 * yoe + yoe / 4 - yoe / 100)) in *.
  assert (0 ≤ (5 * doy + 2) / 153 < 12) as Hmp by (clearbody doy; Z.div_mod_to_equations; lia).
  set (mp := (5 * doy + 2) / 153) in *. clearbody mp.
  set (month := if mp <? 10 then mp + 3 else mp - 9).
  assert ((if month <=? 2 then month + 9 else month - 3) = mp) as ->
    by (subst month; destruct (Z.ltb_spec mp 10);
        [destruct (Z.leb_spec (mp + 3) 2)|destruct (Z.leb_spec (mp - 9) 2)]; lia).
  set (y := if month <=? 2 then _ - 1 else _).
  assert (y = yoe + era * 400) as -> by (subst y; destruct (month <=? 2); lia).
  rewrite Z.mod_add, Z.div_add by done. rewrite Z.mod_small, Z.div_small by done.
  subst doy. lia.
Qed.

(** ** Formatted times are ASCII *)
Lemma ascii_app s t : is_ascii_string (s +:+ t) = is_ascii_string s && is_ascii_string t.
Proof. apply string_forall_app. Qed.
Lemma ascii_Itoa z : is_ascii_string (Itoa z) = true.
Proof.
  apply string_forall_Itoa; [|done]. intros c. destruct c as [[] [] [] [] [] [] [] []]; done.
Qed.
Lemma ascii_padded width n : is_ascii_string (padded width n) = true.
Proof. revert n. induction width; intros n; [done|]. cbn [padded]. by rewrite ascii_app, IHwidth, ascii_Itoa. Qed.
Lemma ascii_trimmed width n : is_ascii_string (trimmed width n) = true.
Proof.
  revert n. induction width; intros n; [done|]. cbn [trimmed]. destruct (_ =? 0); [done|apply ascii_padded].
Qed.
Lemma format_time_ascii offset t s : format_time offset t = Some s → is_ascii_string s = true.
Proof.
  unfold format_time. destruct (_ || _); [done|]. intros H%(inj Some). subst s.
  assert (∀ ns, is_ascii_string (fraction_text ns) = true) as Hf.
  { intros ns. unfold fraction_text. destruct (ns =? 0); [done|]. by rewrite ascii_app, ascii_trimmed. }
  assert (is_ascii_string (zone_text offset) = true) as Hz.
  { unfold zone_text. destruct (offset =? 0), (offset <? 0); try done; by rewrite !ascii_app, !ascii_padded. }
  by rewrite !ascii_app, !ascii_padded, Hf, Hz.
Qed.

(** ** Durations *)

(** [leadingInt]: the value of the digits at the head, [None] when it is over
    [2^63]; [leadingFraction]: digits that would overflow are skipped. *)
Definition leadingInt (s : string) : option (Z * string) :=
  let '(digits, rest) := span is_digit s in
  v ← digits_value 0 digits;
  if two63 <? v then None else Some (v, rest).
Fixpoint fraction_digits (s : string) (x : Z) (scale : float64) : Z * float64 :=
  match s with
  | "" => (x, scale)
  | String c s =>
      let y := x * 10 + Z.of_N (byte_code c - 48) in
      if ((two63 - 1) / 10 <? x) || (two63 <? y) then (x, scale)
      else fraction_digits s y (fmul scale (float_of_int 10))
  end.
Definition unit_of (u : string) : option Z :=
  if String.eqb u "ns" then Some 1
  else if String.eqb u "us" || String.eqb u (bytes_of [194; 181; 115]%N)
          || String.eqb u (bytes_of [206; 188; 115]%N) then Some 1000
  else if String.eqb u "ms" then Some Millisecond
  else if String.eqb u "s" then Some Second
  else if String.eqb u "m" then Some Minute
  else if String.eqb u "h" then Some (60 * Minute)
  else None.
(** One number with its unit, in nanoseconds, and what follows it. *)
Definition duration_part (s : string) : option (Z * string) :=
  '(v, r) ← leadingInt s;
  let pre := negb (String.eqb r s) in
  let '(digits, r, point) :=
    match r with
    | String "."%char t => let '(digits, t) := span is_digit t in (digits, t, true)
    | _ => ("", r, false)
    end in
  if negb pre && String.eqb digits "" then None
  else
    let '(f, scale) := fraction_digits digits 0 (float_of_int 1) in
    let '(u, r) := span (λ c, negb (Ascii.eqb c "."%char || is_digit c)) r in
    unit ← unit_of u;
    if two63 / unit <? v then None
    else
      let v := v * unit in
      let v := if 0 <? f
               then v + int_floor (fmul (float_of_int f) (fdiv (float_of_int unit) scale)) else v in
      if two63 <? v then None else Some (v, r).
(** The sum of the parts, a uint64.  Each takes at least a byte. *)
Fixpoint duration_parts (fuel : nat) (s : string) (d : Z) : option Z :=
  match fuel, s with
  | _, "" => Some d
  | O, _ => None
  | S fuel, _ =>
      '(v, r) ← duration_part s;
      let d := (d + v) mod (2 * two63) in
      if two63 <? d then None else duration_parts fuel r d
  end.
Definition ParseDuration (s : string) : option Z :=
  let '(neg, s) :=
    match s with
    | String "-"%char r => (true, r)
    | String "+"%char r => (false, r)
    | _ => (false, s)
    end in
  if String.eqb s "0" then Some 0
  else if String.eqb s "" then None
  else
    d ← duration_parts (String.length s) s 0;
    if (neg : bool) then Some (- d) else if two63 - 1 <? d then None else Some d.

Example ParseDuration_examples :
  map ParseDuration
    ["0"; "5m"; "1h30m"; "-1.5h"; "300ms"; ".5s"; "1.s"; "2562047h47m16.854775807s"; "+7ns"]
  = Some <$> [0; 5 * Minute; 90 * Minute; - 90 * Minute; 300 * Millisecond; 500 * Millisecond;
              Second; two63 - 1; 7].
Proof. vm_compute. reflexivity. Qed.
Example ParseDuration_refuses :
  Forall (λ s, ParseDuration s = None)
    [""; "5"; "."; "m"; "1 s"; "1d"; "2562047h47m16.854775808s"; "1s."; "--1s"; "+"].
Proof. repeat constructor. Qed.
(** The sum of two halves of the range of uint64 wraps, and is then accepted. *)
Example ParseDuration_wraps :
  ParseDuration "9223372036854775808ns9223372036854775808ns" = Some 0.
Proof. vm_compute. reflexivity. Qed.

(** A duration has 64 bits. *)
Lemma duration_parts_bound fuel s d r :
  0 ≤ d ≤ two63 → duration_parts fuel s d = Some r → 0 ≤ r ≤ two63.
Proof.
  revert s d. induction fuel as [|fuel IH]; intros s d Hd; destruct s as [|c s];
    cbn [duration_parts]; try done; try (by intros [= <-]).
  destruct (duration_part _) as [[v r0]|]; [|done]. cbn [mbind option_bind].
  destruct (Z.ltb_spec two63 ((d + v) mod (2 * two63))); [done|]. apply IH. split; [|done].
  by apply Z.mod_pos_bound.
Qed.
Theorem ParseDuration_bound s d : ParseDuration s = Some d → in_int64 d = true.
Proof.
  unfold ParseDuration. intros H.
  set (ns := match s with String "-"%char r => _ | _ => _ end) in H. destruct ns as [neg t].
  destruct (String.eqb t "0"); [by injection H as <-|]. destruct (String.eqb t ""); [done|].
  destruct (duration_parts _ _ _) as [r|] eqn:E; [|done]. cbn [mbind option_bind] in H.
  apply duration_parts_bound in E; [|done]. unfold in_int64.
  destruct neg; [injection H as <-|destruct (Z.ltb_spec (two63 - 1) r); [done|injection H as <-]];
    apply bool_decide_eq_true; assert (0 < two63) by done; lia.
Qed.
