(* ===== verification/GoUrl.v ===== *)
(** * Packages net/url and net

    The URL parser, reference resolution and printing of [net/url] (Go 1.24),
    and the address parser behind [net.ParseIP], as far as the program uses
    them: [Parse], [ResolveReference], [String], [Hostname], [IsAbs], and
    equality with the link-local metadata address.  Error texts are kept,
    because the program stores them in its problem lists. *)

From S2P Require Export GoStrings.
From Stdlib Require Import Ascii.

(** ** Byte helpers *)
Definition LastIndex_byte (s : string) (c : ascii) : option nat :=
  (λ i, (String.length s - S i)%nat) <$> Index (string_rev s) (String c "").
Definition Cut (s : string) (sep : ascii) : string * string * bool :=
  match Index s (String sep "") with
  | Some i => (string_take i s, string_drop (S i) s, true)
  | None => (s, "", false)
  end.
Fixpoint Count_byte (s : string) (c : ascii) : nat :=
  match s with
  | "" => 0
  | String d s => (if Ascii.eqb d c then 1 else 0) + Count_byte s c
  end.
Definition is_one_of (set : string) (c : ascii) : bool := string_exists (Ascii.eqb c) set.
Definition str1 (c : ascii) : string := String c "".

(** ** The URL record *)
Record Userinfo := { Userinfo_username : string; Userinfo_password : option string }.
Record URL := {
  URL_Scheme : string;
  URL_Opaque : string;
  URL_User : option Userinfo;
  URL_Host : string;
  URL_Path : string;
  URL_RawPath : string;
  URL_OmitHost : bool;
  URL_ForceQuery : bool;
  URL_RawQuery : string;
  URL_Fragment : string;
  URL_RawFragment : string;
}.
Definition empty_URL : URL :=
  Build_URL "" "" None "" "" "" false false "" "" "".

Inductive encoding : Type :=
| encodePath | encodeHost | encodeZone | encodeUserPassword | encodeFragment.
#[export] Instance encoding_eq_dec : EqDecision encoding.
Proof. solve_decision. Defined.

Definition is_host_mode (m : encoding) : bool :=
  match m with encodeHost | encodeZone => true | _ => false end.

Definition shouldEscape (c : ascii) (mode : encoding) : bool :=
  if is_alpha c || is_digit c then false
  else if is_host_mode mode
          && (is_one_of "!$&'()*+,;=:[]<>" c || Ascii.eqb c (byte 34)) then false
  else if is_one_of "-_.~" c then false
  else if is_one_of "$&+,/:;=?@" c then
    match mode with
    | encodePath => Ascii.eqb c "?"%char
    | encodeUserPassword => is_one_of "@/?:" c
    | encodeFragment => false
    | _ => true
    end
  else if (match mode with encodeFragment => is_one_of "!()*" c | _ => false end)
  then false
  else true.

Definition ishex (c : ascii) : bool :=
  is_digit c || in_range 97 102 c || in_range 65 70 c.
Definition unhex (c : ascii) : N :=
  if is_digit c then (byte_code c - 48)%N
  else if in_range 97 102 c then (byte_code c - 87)%N
  else (byte_code c - 55)%N.
Definition upperhex (n : N) : ascii :=
  if (n <? 10)%N then ascii_of_N (48 + n) else ascii_of_N (55 + n).

Fixpoint escape (s : string) (mode : encoding) : string :=
  match s with
  | "" => ""
  | String c s =>
      if shouldEscape c mode
      then String "%"%char (String (upperhex (byte_code c / 16))
             (String (upperhex (byte_code c mod 16)) (escape s mode)))
      else String c (escape s mode)
  end.

Section Parsing.
Context `{UnicodeTables}.

Definition EscapeError (s : string) : string := "invalid URL escape " +:+ Quote s.

(** [unescape]: percent-decoding with the checks of each mode. *)
Fixpoint unescape (s : string) (mode : encoding) : result string :=
  match s with
  | "" => Ok ""
  | String "%"%char r =>
      match r with
      | String h (String l t) =>
          if ishex h && ishex l then
            let v := ascii_of_N (unhex h * 16 + unhex l) in
            let esc := String "%"%char (String h (String l "")) in
            if bool_decide (mode = encodeHost) && (unhex h <? 8)%N && negb (String.eqb esc "%25")
            then Err (EscapeError esc)
            else if bool_decide (mode = encodeZone) && negb (String.eqb esc "%25")
                    && negb (Ascii.eqb v " "%char) && shouldEscape v encodeHost
            then Err (EscapeError esc)
            else let! u := unescape t mode in Ok (String v u)
          else Err (EscapeError (string_take 3 s))
      | _ => Err (EscapeError (string_take 3 s))
      end
  | String c r =>
      if is_host_mode mode && is_ascii_byte c && shouldEscape c mode
      then Err ("invalid character " +:+ Quote (str1 c) +:+ " in host name")
      else let! u := unescape r mode in Ok (String c u)
  end.

Definition stringContainsCTLByte (s : string) : bool :=
  string_exists (λ c, (byte_code c <? 32)%N || (byte_code c =? 127)%N) s.

(** The scan of [getScheme] from position [i], with the text read so far. *)
Fixpoint getScheme_from (raw s acc : string) : result (string * string) :=
  match s with
  | "" => Ok ("", raw)
  | String c r =>
      if is_alpha c then getScheme_from raw r (String c acc)
      else if is_digit c || is_one_of "+-." c
      then match acc with
           | "" => Ok ("", raw)
           | _ => getScheme_from raw r (String c acc)
           end
      else if Ascii.eqb c ":"%char
      then match acc with
           | "" => Err "missing protocol scheme"
           | _ => Ok (string_rev acc, r)
           end
      else Ok ("", raw)
  end.
Definition getScheme (raw : string) : result (string * string) :=
  getScheme_from raw raw "".

Definition validOptionalPort (port : string) : bool :=
  match port with
  | "" => true
  | String c r => Ascii.eqb c ":"%char && string_forall is_digit r
  end.

Definition parseHost (host : string) : result string :=
  let plain := unescape host encodeHost in
  if HasPrefix host "[" then
    match LastIndex_byte host "]"%char with
    | None => Err "missing ']' in host"
    | Some i =>
        let colonPort := string_drop (S i) host in
        if negb (validOptionalPort colonPort)
        then Err ("invalid port " +:+ Quote colonPort +:+ " after host")
        else match Index (string_take i host) "%25" with
             | Some zone =>
                 let! host1 := unescape (string_take zone host) encodeHost in
                 let! host2 := unescape (string_drop zone (string_take i host)) encodeZone in
                 let! host3 := unescape (string_drop i host) encodeHost in
                 Ok (host1 +:+ host2 +:+ host3)
             | None => plain
             end
    end
  else match LastIndex_byte host ":"%char with
       | Some i =>
           let colonPort := string_drop i host in
           if negb (validOptionalPort colonPort)
           then Err ("invalid port " +:+ Quote colonPort +:+ " after host")
           else plain
       | None => plain
       end.

Definition validUserinfo (s : string) : bool :=
  string_forall (λ c, is_alpha c || is_digit c || is_one_of "-._:~!$&'()*+,;=%@" c) s.

Definition parseAuthority (authority : string) : result (option Userinfo * string) :=
  match LastIndex_byte authority "@"%char with
  | None => let! host := parseHost authority in Ok (None, host)
  | Some i =>
      let! host := parseHost (string_drop (S i) authority) in
      let userinfo := string_take i authority in
      if negb (validUserinfo userinfo) then Err "net/url: invalid userinfo"
      else match Cut userinfo ":"%char with
           | (name, password, true) =>
               let! name := unescape name encodeUserPassword in
               let! password := unescape password encodeUserPassword in
               Ok (Some (Build_Userinfo name (Some password)), host)
           | (name, _, false) =>
               let! name := unescape name encodeUserPassword in
               Ok (Some (Build_Userinfo name None), host)
           end
  end.

(** [setPath]: the decoded path and, when the default encoding would differ,
    the raw one. *)
Definition setPath (p : string) : result (string * string) :=
  let! path := unescape p encodePath in
  Ok (path, if String.eqb p (escape path encodePath) then "" else p).

Definition parse_url (raw : string) : result URL :=
  if stringContainsCTLByte raw then Err "net/url: invalid control character in URL"
  else if String.eqb raw "*" then
    Ok (Build_URL "" "" None "" "*" "" false false "" "" "")
  else
    let! (scheme, rest) := getScheme raw in
    let scheme := ToLower scheme in
    let '(rest, query, force) :=
      if HasSuffix rest "?" && (Count_byte rest "?"%char =? 1)%nat
      then (string_take (String.length rest - 1) rest, "", true)
      else let '(r, q, _) := Cut rest "?"%char in (r, q, false) in
    if negb (HasPrefix rest "/") && negb (String.eqb scheme "") then
      Ok (Build_URL scheme rest None "" "" "" false force query "" "")
    else if negb (HasPrefix rest "/")
            && Contains (Cut rest "/"%char).1.1 ":" then
      Err "first path segment in URL cannot contain colon"
    else
      let! (user, host, rest, omit) :=
        if (negb (String.eqb scheme "") || negb (HasPrefix rest "///"))
           && HasPrefix rest "//" then
          let body := string_drop 2 rest in
          let '(authority, rest) :=
            match Index body "/" with
            | Some i => (string_take i body, string_drop i body)
            | None => (body, "")
            end in
          let! (user, host) := parseAuthority authority in
          Ok (user, host, rest, false)
        else Ok (None, "", rest, negb (String.eqb scheme "") && HasPrefix rest "/") in
      let! (path, rawpath) := setPath rest in
      Ok (Build_URL scheme "" user host path rawpath omit force query "" "").

Definition url_error (u msg : string) : string :=
  "parse " +:+ Quote u +:+ ": " +:+ msg.

(** [url.Parse]. *)
Definition Parse (raw : string) : result URL :=
  let '(u, frag, _) := Cut raw "#"%char in
  match parse_url u with
  | Err msg => Err (url_error u msg)
  | Ok url =>
      if String.eqb frag "" then Ok url
      else match unescape frag encodeFragment with
           | Err msg => Err (url_error raw msg)
           | Ok f =>
               Ok (Build_URL (URL_Scheme url) (URL_Opaque url) (URL_User url) (URL_Host url)
                     (URL_Path url) (URL_RawPath url) (URL_OmitHost url)
                     (URL_ForceQuery url) (URL_RawQuery url) f
                     (if String.eqb frag (escape f encodeFragment) then "" else frag))
           end
  end.

Definition validEncoded (s : string) (mode : encoding) : bool :=
  string_forall (λ c, is_one_of "!$&'()*+,;=:@[]%" c || negb (shouldEscape c mode)) s.

Definition EscapedPath (u : URL) : string :=
  if negb (String.eqb (URL_RawPath u) "") && validEncoded (URL_RawPath u) encodePath
     && (match unescape (URL_RawPath u) encodePath with
         | Ok p => String.eqb p (URL_Path u) | Err _ => false end)
  then URL_RawPath u
  else if String.eqb (URL_Path u) "*" then "*"
  else escape (URL_Path u) encodePath.

Definition EscapedFragment (u : URL) : string :=
  if negb (String.eqb (URL_RawFragment u) "") && validEncoded (URL_RawFragment u) encodeFragment
     && (match unescape (URL_RawFragment u) encodeFragment with
         | Ok p => String.eqb p (URL_Fragment u) | Err _ => false end)
  then URL_RawFragment u
  else escape (URL_Fragment u) encodeFragment.

(** The loop of [resolvePath] over the segments: [dst] is the output after
    its leading slash, [first] whether the next segment goes without one. *)
Fixpoint resolve_segments (elems : list string) (dst : string) (first : bool) : string :=
  match elems with
  | [] => dst
  | e :: es =>
      if String.eqb e "." then resolve_segments es dst false
      else if String.eqb e ".." then
        match LastIndex_byte dst "/"%char with
        | None => resolve_segments es "" true
        | Some i => resolve_segments es (string_take i dst) first
        end
      else resolve_segments es (if first then dst +:+ e else dst +:+ "/" +:+ e) false
  end.
Definition resolvePath (base ref : string) : string :=
  let full :=
    match ref with
    | "" => base
    | String c _ =>
        if Ascii.eqb c "/"%char then ref
        else match LastIndex_byte base "/"%char with
             | Some i => string_take (S i) base +:+ ref
             | None => ref
             end
    end in
  if String.eqb full "" then ""
  else
    let elems := Split_byte "/"%char full in
    let dst := resolve_segments elems "" true in
    let last := List.last elems "" in
    let dst := if String.eqb last "." || String.eqb last ".." then dst +:+ "/" else dst in
    match dst with
    | String c _ => if Ascii.eqb c "/"%char then dst else String "/"%char dst
    | "" => "/"
    end.

(** A setter for the path pair; the error of [setPath] is ignored, as in the
    library. *)
Definition with_path (u : URL) (p : string) : URL :=
  match setPath p with
  | Ok (path, raw) =>
      Build_URL (URL_Scheme u) (URL_Opaque u) (URL_User u) (URL_Host u) path raw
        (URL_OmitHost u) (URL_ForceQuery u) (URL_RawQuery u) (URL_Fragment u) (URL_RawFragment u)
  | Err _ => u
  end.

Definition ResolveReference (u ref : URL) : URL :=
  let scheme := if String.eqb (URL_Scheme ref) "" then URL_Scheme u else URL_Scheme ref in
  let is_none (o : option Userinfo) := match o with None => true | _ => false end in
  if negb (String.eqb (URL_Scheme ref) "") || negb (String.eqb (URL_Host ref) "")
     || negb (is_none (URL_User ref)) then
    with_path
      (Build_URL scheme (URL_Opaque ref) (URL_User ref) (URL_Host ref) (URL_Path ref)
         (URL_RawPath ref) (URL_OmitHost ref) (URL_ForceQuery ref) (URL_RawQuery ref)
         (URL_Fragment ref) (URL_RawFragment ref))
      (resolvePath (EscapedPath ref) "")
  else if negb (String.eqb (URL_Opaque ref) "") then
    Build_URL scheme (URL_Opaque ref) None "" "" (URL_RawPath ref) (URL_OmitHost ref)
      (URL_ForceQuery ref) (URL_RawQuery ref) (URL_Fragment ref) (URL_RawFragment ref)
  else
    let bare := String.eqb (URL_Path ref) "" && negb (URL_ForceQuery ref)
                && String.eqb (URL_RawQuery ref) "" in
    let query := if bare then URL_RawQuery u else URL_RawQuery ref in
    let inherit := bare && String.eqb (URL_Fragment ref) "" in
    let frag := if inherit then URL_Fragment u else URL_Fragment ref in
    let rawfrag := if inherit then URL_RawFragment u else URL_RawFragment ref in
    if String.eqb (URL_Path ref) "" && negb (String.eqb (URL_Opaque u) "") then
      Build_URL scheme (URL_Opaque u) None "" "" (URL_RawPath ref) (URL_OmitHost ref)
        (URL_ForceQuery ref) query frag rawfrag
    else
      with_path
        (Build_URL scheme (URL_Opaque ref) (URL_User u) (URL_Host u) (URL_Path ref)
           (URL_RawPath ref) (URL_OmitHost ref) (URL_ForceQuery ref) query frag rawfrag)
        (resolvePath (EscapedPath u) (EscapedPath ref)).

Definition Userinfo_String (u : Userinfo) : string :=
  if String.eqb (Userinfo_username u) "" && (match Userinfo_password u with None => true | _ => false end)
  then ""
  else escape (Userinfo_username u) encodeUserPassword
       +:+ match Userinfo_password u with
           | Some p => ":" +:+ escape p encodeUserPassword
           | None => ""
           end.

Definition URL_String (u : URL) : string :=
  let has_user := match URL_User u with Some _ => true | None => false end in
  let has_host := negb (String.eqb (URL_Host u) "") in
  let prefix := if String.eqb (URL_Scheme u) "" then "" else URL_Scheme u +:+ ":" in
  let middle :=
    if negb (String.eqb (URL_Opaque u) "") then URL_Opaque u
    else
      let auth :=
        if negb (String.eqb (URL_Scheme u) "") || has_host || has_user then
          if URL_OmitHost u && negb has_host && negb has_user then ""
          else (if has_host || negb (String.eqb (URL_Path u) "") || has_user then "//" else "")
               +:+ (match URL_User u with Some ui => Userinfo_String ui +:+ "@" | None => "" end)
               +:+ (if has_host then escape (URL_Host u) encodeHost else "")
        else "" in
      let path := EscapedPath u in
      let auth := auth +:+ (match path with
                            | String c _ => if negb (Ascii.eqb c "/"%char) && has_host then "/" else ""
                            | "" => "" end) in
      let dot := if String.eqb (prefix +:+ auth) "" && Contains (Cut path "/"%char).1.1 ":"
                 then "./" else "" in
      auth +:+ dot +:+ path in
  prefix +:+ middle
    +:+ (if URL_ForceQuery u || negb (String.eqb (URL_RawQuery u) "")
         then "?" +:+ URL_RawQuery u else "")
    +:+ (if negb (String.eqb (URL_Fragment u) "") then "#" +:+ EscapedFragment u else "").
End Parsing.

Definition IsAbs (u : URL) : bool := negb (String.eqb (URL_Scheme u) "").

(** [Hostname]: the host without the port and without IPv6 brackets. *)
Definition Hostname (u : URL) : string :=
  let host := URL_Host u in
  let host := match LastIndex_byte host ":"%char with
              | Some i => if validOptionalPort (string_drop i host) then string_take i host else host
              | None => host
              end in
  if HasPrefix host "[" && HasSuffix host "]"
  then string_drop 1 (string_take (String.length host - 1) host)
  else host.

(** ** [net.ParseIP], on 16-byte addresses *)
Definition parse_octet (s : string) : option N :=
  match s with
  | "" => None
  | String c r =>
      if string_forall is_digit s
         && ((String.length s =? 1)%nat || negb (Ascii.eqb c "0"%char))
      then match digits_value 0 s with
           | Some z => if (z <=? 255)%Z then Some (Z.to_N z) else None
           | None => None
           end
      else None
  end.
Definition parseIPv4Fields (s : string) : option (list N) :=
  match map parse_octet (Split_byte "."%char s) with
  | [Some a; Some b; Some c; Some d] => Some [a; b; c; d]
  | _ => None
  end.

(** The hexadecimal run at the head of [s]: its digit count, value and the rest. *)
Fixpoint hex_run (s : string) (n : nat) (acc : N) : nat * N * string :=
  match s with
  | String c r => if ishex c then hex_run r (S n) (acc * 16 + unhex c)%N else (n, acc, s)
  | "" => (n, acc, "")
  end.

(** The loop of [parseIPv6] over the groups; [ip] holds the bytes read so far.
    Eight rounds fill the 16 bytes, so eight is enough fuel.  The result is the
    bytes, the position of the ellipsis and the text left over. *)
Fixpoint ipv6_groups (fuel : nat) (s : string) (ip : list N) (ell : option nat)
  : option (list N * option nat * string) :=
  match fuel with
  | O => Some (ip, ell, s)
  | S fuel =>
      let '(n, acc, r) := hex_run s 0 0%N in
      if (n =? 0)%nat || (4 <? n)%nat then None
      else match r with
           | String "."%char _ =>
               if (match ell with None => negb (length ip =? 12)%nat | Some _ => false end)
                  || (16 <? length ip + 4)%nat then None
               else match parseIPv4Fields s with
                    | Some q => Some (ip ++ q, ell, "")
                    | None => None
                    end
           | _ =>
               let ip := ip ++ [(acc / 256)%N; (acc mod 256)%N] in
               match r with
               | "" => Some (ip, ell, "")
               | String ":"%char (String c t as r') =>
                   if Ascii.eqb c ":"%char then
                     match ell with
                     | Some _ => None
                     | None =>
                         match t with
                         | "" => Some (ip, Some (length ip), "")
                         | _ => ipv6_groups fuel t ip (Some (length ip))
                         end
                     end
                   else ipv6_groups fuel r' ip ell
               | _ => None
               end
           end
  end.

Definition parseIPv6 (s : string) : option (list N) :=
  let finish (res : option (list N * option nat * string)) :=
    match res with
    | Some (ip, ell, "") =>
        if (length ip <? 16)%nat then
          match ell with
          | None => None
          | Some k => Some (take k ip ++ replicate (16 - length ip) 0%N ++ drop k ip)
          end
        else match ell with None => Some ip | Some _ => None end
    | _ => None
    end in
  match s with
  | String ":"%char (String ":"%char r) =>
      if String.eqb r "" then Some (replicate 16 0%N)
      else finish (ipv6_groups 8 r [] (Some 0%nat))
  | _ => finish (ipv6_groups 8 s [] None)
  end.

(** [net.ParseIP]: the first ['.'], [':'] or ['%'] decides the family; a zone is
    refused. *)
Fixpoint ip_family (s : string) : option ascii :=
  match s with
  | "" => None
  | String c r => if is_one_of ".:%" c then Some c else ip_family r
  end.
Definition v4_in_v6 (q : list N) : list N := (replicate 10 0 ++ [255; 255] ++ q)%N.
Definition ParseIP (s : string) : option (list N) :=
  match ip_family s with
  | Some "."%char => v4_in_v6 <$> parseIPv4Fields s
  | Some ":"%char => if Contains s "%" then None else parseIPv6 s
  | _ => None
  end.

(** ** Absolute references *)
Section Absolute.
Context `{UnicodeTables}.

Lemma Index_cons_ne c d s :
  Ascii.eqb c d = false → Index (String d s) (String c "") = S <$> Index s (String c "").
Proof.
  intros Hne. unfold Index. simpl. destruct (ascii_dec c d) as [->|_].
  - by rewrite Ascii.eqb_refl in Hne.
  - by destruct (String.index 0 (String c "") s).
Qed.

(** Cutting at a byte that does not occur in a prefix keeps the prefix. *)
Lemma Cut_prefix p s c :
  lacks c p = true → ∃ s', (Cut (p +:+ s) c).1.1 = p +:+ s'.
Proof.
  unfold Cut. induction p as [|d p IH]; intros Hp; [by eexists|].
  simpl in Hp. apply andb_true_iff in Hp as [Hd Hp]. apply negb_true_iff in Hd.
  destruct (IH Hp) as [s' Hs']. change (String d p +:+ s) with (String d (p +:+ s)).
  rewrite Index_cons_ne by (by rewrite Ascii.eqb_sym).
  destruct (Index (p +:+ s) (String c "")) as [i|]; simpl in *; exists s'; by rewrite Hs'.
Qed.

Lemma parse_url_scheme raw u sc rest :
  parse_url raw = Ok u → String.eqb raw "*" = false → getScheme raw = Ok (sc, rest) →
  URL_Scheme u = ToLower sc.
Proof.
  unfold parse_url. intros Hp Hstar Hg. destruct (stringContainsCTLByte raw); [done|].
  rewrite Hstar, Hg in Hp. cbn [result_bind] in Hp.
  destruct (if HasSuffix rest "?" && _ then _ else _) as [[r q] f].
  destruct (negb (HasPrefix r "/") && _); [by injection Hp as <-|].
  destruct (negb (HasPrefix r "/") && _); [done|].
  destruct (if (negb (String.eqb (ToLower sc) "") || _) && _ then _ else _)
    as [[[[user host] r'] omit]|]; [|done]. cbn [result_bind] in Hp.
  destruct (setPath r') as [[path raw']|]; [|done]. by injection Hp as <-.
Qed.

Lemma Parse_absolute p s u :
  (p = "http" ∨ p = "https") → Parse (p +:+ "://" +:+ s) = Ok u → URL_Scheme u = p.
Proof.
  intros Hp. unfold Parse.
  assert (lacks "#"%char (p +:+ "://") = true) as Hl by by destruct Hp as [->| ->].
  destruct (Cut_prefix (p +:+ "://") s "#"%char Hl) as [s' Hs'].
  rewrite !append_assoc in Hs'. destruct (Cut (p +:+ "://" +:+ s) _) as [[raw frag] found].
  cbn [fst] in Hs'. subst raw. intros Hu.
  destruct (parse_url (p +:+ "://" +:+ s')) as [u0|] eqn:Eu; [|done].
  assert (URL_Scheme u0 = p) as Hsc.
  { destruct Hp as [->| ->];
      (etrans; [eapply parse_url_scheme; [exact Eu|reflexivity|reflexivity]|reflexivity]). }
  destruct (String.eqb frag ""); [congruence|].
  destruct (unescape frag encodeFragment); [|done]. by injection Hu as <-.
Qed.

Lemma ResolveReference_absolute base rel :
  URL_Scheme rel ≠ "" →
  let u := ResolveReference base rel in
  URL_Scheme u = URL_Scheme rel ∧ URL_Host u = URL_Host rel ∧ URL_User u = URL_User rel.
Proof.
  intros Hs. unfold ResolveReference. destruct (String.eqb_spec (URL_Scheme rel) ""); [done|].
  simpl. unfold with_path. by destruct (setPath _) as [[]|].
Qed.
End Absolute.
