(* ===== verification/GoHttp.v ===== *)
(** * Requests and headers of package net/http

    What the program uses of [http.NewRequest], [http.Header] and a client's
    answer.  A header holds one value per canonical name: the program only calls
    [Set] and [Get]. *)

From S2P Require Export GoUrl.
From Stdlib Require Import Ascii.

Open Scope Z_scope.

(** Token bytes (RFC 7230). *)
Definition is_token (c : ascii) : bool :=
  is_alpha c || is_digit c
  || existsb (Ascii.eqb c) (map byte [33; 35; 36; 37; 38; 39; 42; 43; 45; 46; 94; 95; 96; 124; 126]%N).

(** [textproto.CanonicalMIMEHeaderKey]: capitals after dashes, unless the key
    has a byte that no header name may have. *)
Fixpoint canonical_key (upper : bool) (s : string) : string :=
  match s with
  | "" => ""
  | String c r =>
      String (if upper then byte_upper c else byte_lower c)
        (canonical_key (Ascii.eqb c "-"%char) r)
  end.
Definition CanonicalHeaderKey (key : string) : string :=
  if string_forall is_token key then canonical_key true key else key.

Abbreviation Header := (gmap string string) (only parsing).
Definition Header_Set (key value : string) (h : Header) : Header :=
  <[CanonicalHeaderKey key := value]> h.
Definition Header_Get (key : string) (h : Header) : string :=
  default "" (h !! CanonicalHeaderKey key).
(** [for key, value := range m { h.Set(key, value) }].  Go leaves the order of
    the map open; it only matters when [m] holds two spellings of one name. *)
Definition Header_SetAll (m : option (gmap string string)) (h : Header) : Header :=
  foldr (λ '(k, v) h, Header_Set k v h) h (map_to_list (default ∅ m)).

Record HttpRequest := {
  hr_Method : string;
  hr_URL : URL;
  hr_Header : Header;
  hr_Body : option string;
}.

(** [http.NewRequest]: an empty method is GET; the method must be a token and
    the URL must parse. *)
Definition validMethod (m : string) : bool :=
  negb (String.eqb m "") && string_forall is_token m.
Definition NewRequest `{UnicodeTables} (method url : string) (body : option string)
  : result HttpRequest :=
  let method := if String.eqb method "" then "GET" else method in
  if negb (validMethod method) then Err ("net/http: invalid method " +:+ Quote method)
  else let! u := Parse url in Ok (Build_HttpRequest method u ∅ body).

Definition with_headers (r : HttpRequest) (h : Header) : HttpRequest :=
  Build_HttpRequest (hr_Method r) (hr_URL r) h (hr_Body r).

(** What [Client.Do] answers: an error, or a status, the bytes of the body and
    the error that ends it, if any ([None] is the end of the stream). *)
Inductive HttpReply :=
| DoError (msg : string)
| Response (status : Z) (body : string) (read_error : option string).

(** [io.ReadAll(io.LimitReader(body, limit))]. *)
Definition read_limited (limit : nat) (body : string) (read_error : option string)
  : string * option string :=
  if (limit <=? String.length body)%nat then (string_take limit body, None)
  else (body, read_error).

Lemma Header_Get_Set k v h : Header_Get k (Header_Set k v h) = v.
Proof. unfold Header_Get, Header_Set. by rewrite lookup_insert_eq. Qed.
Lemma Header_Get_Set_ne k k' v h :
  CanonicalHeaderKey k' ≠ CanonicalHeaderKey k →
  Header_Get k (Header_Set k' v h) = Header_Get k h.
Proof. intros Hne. unfold Header_Get, Header_Set. by rewrite lookup_insert_ne. Qed.

(** Headers set from a map: a name that the map spells keeps one of its values. *)
Lemma Header_SetAll_lookup m h k :
  (∃ key v, default ∅ m !! key = Some v ∧ CanonicalHeaderKey key = k
            ∧ Header_SetAll m h !! k = Some v)
  ∨ Header_SetAll m h !! k = h !! k.
Proof.
  unfold Header_SetAll.
  assert (∀ l, (∀ key v, (key, v) ∈ l → default ∅ m !! key = Some v) →
    (∃ key v, default ∅ m !! key = Some v ∧ CanonicalHeaderKey key = k
       ∧ foldr (λ '(k, v) h, Header_Set k v h) h l !! k = Some v)
    ∨ foldr (λ '(k, v) h, Header_Set k v h) h l !! k = h !! k) as Hl.
  { induction l as [|[key v] l IH]; intros Hin; simpl; [by right|].
    unfold Header_Set at 1 3. destruct (decide (CanonicalHeaderKey key = k)) as [<-|Hne].
    - left. exists key, v. rewrite lookup_insert_eq. split_and!; [apply Hin; set_solver|done|done].
    - rewrite lookup_insert_ne by done. apply IH. set_solver. }
  apply Hl. intros key v. by rewrite elem_of_map_to_list.
Qed.
