(* ===== verification/GoMux.v ===== *)
(** * The request multiplexer of package net/http (Go 1.22 and later)

    What the program uses of [http.ServeMux]: patterns with a method, literal
    segments, [{name}] wildcards and a trailing slash; the cleaning of the path;
    the redirects; and the answers to what no pattern matches.  The routing tree
    of the library is the list of the patterns that are still possible, with
    what is left of their segments.  Also the reading of a query. *)

From S2P Require Export GoHttp.
From Stdlib Require Import Ascii.

Open Scope Z_scope.

(** ** Patterns *)
Inductive segment :=
| SLit (s : string)
| SWild (name : string)
| SMulti.                                (* what a trailing slash stands for *)
Record pattern := { pat_method : string; pat_segments : list segment }.
#[export] Instance segment_dec : EqDecision segment.
Proof. solve_decision. Defined.
#[export] Instance pattern_dec : EqDecision pattern.
Proof. solve_decision. Defined.

Section Mux.
Context `{UnicodeTables}.

(** [url.PathUnescape], or the text itself when it has an invalid escape. *)
Definition pathUnescape (s : string) : string :=
  match unescape s encodePath with Ok u => u | Err _ => s end.

Definition parse_segment (seg : string) : option segment :=
  match Index seg "{" with
  | None => Some (SLit (pathUnescape seg))
  | Some 0%nat =>
      let name := string_take (String.length seg - 2) (string_drop 1 seg) in
      if HasSuffix seg "}" && negb (String.eqb name "") && string_forall isAlphaNum name
      then Some (SWild name) else None
  | Some _ => None
  end.
Fixpoint parse_segments (segs : list string) : option (list segment) :=
  match segs with
  | [] => Some []
  | [seg] => if String.eqb seg "" then Some [SMulti] else (λ s, [s]) <$> parse_segment seg
  | seg :: segs =>
      match parse_segment seg, parse_segments segs with
      | Some s, Some l => Some (s :: l)
      | _, _ => None
      end
  end.
(** [parsePattern] of a pattern with a method and no host. *)
Definition parsePattern (s : string) : option pattern :=
  let '(method, rest, found) := Cut s " "%char in
  if found && validMethod method && HasPrefix rest "/" then
    Build_pattern method <$> parse_segments (Split_byte "/"%char (string_drop 1 rest))
  else None.

(** ** Matching *)
Section Match.
Context {A : Type}.

Abbreviation node := (list (list segment * A)) (only parsing).

(** The children of a node. *)
Definition literal_child (seg : string) : node → node :=
  omap (λ '(p, a), match p with
                   | SLit s :: p => if String.eqb s seg then Some (p, a) else None
                   | _ => None
                   end).
Definition wild_child : node → node :=
  omap (λ '(p, a), match p with SWild _ :: p => Some (p, a) | _ => None end).
Definition leaf (n : node) : option A :=
  head (omap (λ '(p, a), match p with [] => Some a | _ => None end) n).
Definition multi_child (n : node) : option A :=
  head (omap (λ '(p, a), match p with [SMulti] => Some a | _ => None end) n).

(** [matchPath]: a literal is tried before a wildcard, and that before the
    trailing slash. *)
Fixpoint matchPath (n : node) (segs : list string) (matches : list string)
  : option (A * list string) :=
  match segs with
  | [] => (λ a, (a, matches)) <$> leaf n
  | seg :: rest =>
      match matchPath (literal_child seg n) rest matches with
      | Some r => Some r
      | None =>
          match (if String.eqb seg "/" then None
                 else matchPath (wild_child n) rest (matches ++ [seg])) with
          | Some r => Some r
          | None => (λ a, (a, matches)) <$> multi_child n
          end
      end
  end.
End Match.

(** The segments of a path, one after the other ([firstSegment]). *)
Fixpoint path_pieces (pieces : list string) : list string :=
  match pieces with
  | [] => []
  | [last] => [if String.eqb last "" then "/" else pathUnescape last]
  | p :: pieces => pathUnescape p :: path_pieces pieces
  end.
Definition path_segments (path : string) : list string :=
  if String.eqb path "" then [] else path_pieces (Split_byte "/"%char (string_drop 1 path)).

(** [path.Clean] of a rooted path, and [cleanPath]. *)
Definition clean_segments (segs : list string) : list string :=
  rev (fold_left (λ out seg,
         if String.eqb seg "" || String.eqb seg "." then out
         else if String.eqb seg ".." then tail out
         else seg :: out) segs []).
Definition cleanPath (p : string) : string :=
  if String.eqb p "" then "/"
  else
    let p := if HasPrefix p "/" then p else "/" +:+ p in
    let np := "/" +:+ Join (clean_segments (Split_byte "/"%char p)) "/" in
    if HasSuffix p "/" && negb (String.eqb np "/") then np +:+ "/" else np.

(** ** The mux: patterns with what they are registered for *)
Section Routes.
Context {A : Type}.
Variable routes : list (pattern * A).

Definition method_node (m : string) : list (list segment * (pattern * A)) :=
  omap (λ '(p, a), if String.eqb (pat_method p) m then Some (pat_segments p, (p, a)) else None)
    routes.
Definition match_method (m : string) (path : string) : option (pattern * A * list string) :=
  matchPath (method_node m) (path_segments path) [].
(** GET matches HEAD too. *)
Definition match_route (m : string) (path : string) : option (pattern * A * list string) :=
  match match_method m path with
  | Some r => Some r
  | None => if String.eqb m "HEAD" then match_method "GET" path else None
  end.

Definition ends_multi (p : pattern) : bool :=
  match last (pat_segments p) with Some SMulti => true | _ => false end.
Definition exactMatch (r : option (pattern * A * list string)) (path : string) : bool :=
  match r with
  | None => false
  | Some (p, _, _) =>
      if negb (ends_multi p) then true
      else if negb (HasSuffix path "/") then false
      else (length (pat_segments p) =? Count_byte path "/"%char)%nat
  end.
(** The sorted methods with which the path would have matched. *)
Definition insert_method (m : string) (l : list string) : list string :=
  if bool_decide (m ∈ l) then l
  else List.filter (λ x, String.ltb x m) l ++ m :: List.filter (λ x, String.ltb m x) l.
Definition matchingMethods (path : string) : list string :=
  let hits p := omap (λ '(pat, _), (λ _, pat_method pat) <$> match_method (pat_method pat) p) routes in
  let ms := hits path ++ (if HasSuffix path "/" then [] else hits (path +:+ "/")) in
  let ms := if bool_decide ("GET" ∈ ms) then ms ++ ["HEAD"] else ms in
  foldr insert_method [] ms.

(** What [findHandler] finds. *)
Inductive mux_result :=
| MuxBadRequest
| MuxHandler (a : A) (values : gmap string string)
| MuxRedirect (location : URL)
| MuxMethodNotAllowed (allow : string)
| MuxNotFound.

Definition wild_names (p : pattern) : list string :=
  omap (λ s, match s with SWild n => Some n | _ => None end) (pat_segments p).
Definition path_values (p : pattern) (matches : list string) : gmap string string :=
  list_to_map (zip (wild_names p) matches).
Definition redirect_to (path : string) (u : URL) : URL :=
  Build_URL "" "" None "" path "" false false (URL_RawQuery u) "" "".

Definition findHandler (method : string) (u : URL) : mux_result :=
  let escapedPath := EscapedPath u in
  if String.eqb escapedPath "*" then MuxBadRequest
  else
    let path := if String.eqb method "CONNECT" then escapedPath else cleanPath escapedPath in
    let n := match_route method path in
    if negb (exactMatch n path) && negb (HasSuffix path "/")
       && exactMatch (match_route method (path +:+ "/")) (path +:+ "/")
    then MuxRedirect (redirect_to (cleanPath (URL_Path u) +:+ "/") u)
    else if negb (String.eqb path escapedPath) then MuxRedirect (redirect_to path u)
    else match n with
         | Some (p, a, matches) => MuxHandler a (path_values p matches)
         | None =>
             match matchingMethods path with
             | [] => MuxNotFound
             | ms => MuxMethodNotAllowed (Join ms ", ")
             end
         end.
End Routes.

(** ** Queries: [url.ParseQuery] and [Get] *)
Definition QueryUnescape (s : string) : result string :=
  unescape (string_map (λ c, if Ascii.eqb c "+"%char then " "%char else c) s) encodePath.
Definition query_pair (s : string) : option (string * string) :=
  if Contains s ";" || String.eqb s "" then None
  else
    let '(k, v, _) := Cut s "="%char in
    match QueryUnescape k, QueryUnescape v with
    | Ok k, Ok v => Some (k, v)
    | _, _ => None
    end.
Definition Query_Get (key : string) (query : string) : string :=
  default "" (head (omap (λ s, match query_pair s with
                               | Some (k, v) => if String.eqb k key then Some v else None
                               | None => None
                               end) (Split_byte "&"%char query))).
End Mux.
Arguments mux_result : clear implicits.

(** ** What matching means *)
Inductive seg_match : list segment → list string → list string → Prop :=
| sm_end : seg_match [] [] []
| sm_lit s p segs vs : seg_match p segs vs → seg_match (SLit s :: p) (s :: segs) vs
| sm_wild n p s segs vs : s ≠ "/" → seg_match p segs vs → seg_match (SWild n :: p) (s :: segs) (s :: vs)
| sm_multi s segs : seg_match [SMulti] (s :: segs) [].

Lemma literal_child_in {A} seg (n : list (list segment * A)) p a :
  (p, a) ∈ literal_child seg n ↔ (SLit seg :: p, a) ∈ n.
Proof.
  unfold literal_child. rewrite list_elem_of_omap. split.
  - intros ([[|[s|w|] q] b] & Hin & Hq); try done.
    destruct (String.eqb_spec s seg) as [->|]; [|done]. by injection Hq as -> ->.
  - intros Hin. exists (SLit seg :: p, a). by rewrite String.eqb_refl.
Qed.
Lemma wild_child_in {A} (n : list (list segment * A)) p a :
  (p, a) ∈ wild_child n ↔ ∃ w, (SWild w :: p, a) ∈ n.
Proof.
  unfold wild_child. rewrite list_elem_of_omap. split.
  - intros ([[|[s|w|] q] b] & Hin & [= -> ->]). by exists w.
  - intros [w Hin]. by exists (SWild w :: p, a).
Qed.
Lemma head_omap_some {A B} (f : A → option B) (l : list A) b :
  head (omap f l) = Some b → ∃ a, a ∈ l ∧ f a = Some b.
Proof.
  intros Hh. assert (b ∈ omap f l) as Hb by (destruct (omap f l); [done|injection Hh as ->; by left]).
  apply list_elem_of_omap in Hb as (a & Ha & Hf). by exists a.
Qed.
Lemma head_omap_is_some {A B} (f : A → option B) (l : list A) a :
  a ∈ l → is_Some (f a) → is_Some (head (omap f l)).
Proof.
  intros Ha [b Hf]. assert (b ∈ omap f l) as Hb by (apply list_elem_of_omap; by exists a).
  destruct (omap f l); [by apply elem_of_nil in Hb|by eexists].
Qed.

Lemma leaf_in {A} (n : list (list segment * A)) a : leaf n = Some a → ([], a) ∈ n.
Proof. intros ([p b] & Hin & Hp)%head_omap_some. destruct p; [|done]. by injection Hp as ->. Qed.
Lemma multi_child_in {A} (n : list (list segment * A)) a :
  multi_child n = Some a → ([SMulti], a) ∈ n.
Proof.
  intros ([p b] & Hin & Hp)%head_omap_some. destruct p as [|[| |] [|]]; try done.
  by injection Hp as ->.
Qed.

(** What is found is registered and matches. *)
Lemma matchPath_sound {A} (n : list (list segment * A)) segs ms a vs :
  matchPath n segs ms = Some (a, vs) →
  ∃ p v, (p, a) ∈ n ∧ seg_match p segs v ∧ vs = ms ++ v.
Proof.
  revert n ms. induction segs as [|seg segs IH]; intros n ms; simpl.
  - intros (b & Hb%leaf_in & [= <- <-])%fmap_Some_1. exists [], []. rewrite app_nil_r.
    by repeat constructor.
  - destruct (matchPath (literal_child seg n) segs ms) as [[b ws]|] eqn:E1.
    { intros [= <- <-]. destruct (IH _ _ E1) as (p & v & Hin%literal_child_in & Hm & ->).
      exists (SLit seg :: p), v. by repeat constructor. }
    assert (Hmulti : (λ a, (a, ms)) <$> multi_child n = Some (a, vs) →
      ∃ p v, (p, a) ∈ n ∧ seg_match p (seg :: segs) v ∧ vs = ms ++ v).
    { intros (b & Hb%multi_child_in & [= <- <-])%fmap_Some_1. exists [SMulti], [].
      rewrite app_nil_r. by repeat constructor. }
    destruct (String.eqb_spec seg "/") as [->|Hs]; [done|].
    destruct (matchPath (wild_child n) segs (ms ++ [seg])) as [[b ws]|] eqn:E2; [|done].
    intros [= <- <-]. destruct (IH _ _ E2) as (p & v & [w Hin]%wild_child_in & Hm & ->).
    exists (SWild w :: p), (seg :: v). rewrite <-app_assoc. by repeat constructor.
Qed.
(** A path that a registered pattern matches is found. *)
Lemma matchPath_complete {A} (n : list (list segment * A)) p a segs ms v :
  (p, a) ∈ n → seg_match p segs v → is_Some (matchPath n segs ms).
Proof.
  intros Hin Hm. revert n ms Hin. induction Hm as [|s p segs v Hm IH|w p s segs v Hs Hm IH|s segs];
    intros n ms Hin; simpl.
  - destruct (head_omap_is_some (λ '(p, a), match p with [] => Some a | _ => None end) n ([], a))
      as [b Hb]; [done|by eexists|]. unfold leaf. rewrite Hb. by eexists.
  - destruct (IH (literal_child s n) ms) as [r ->]; [by apply literal_child_in|]. by eexists.
  - destruct (matchPath (literal_child s n) segs ms) as [r|]; [by eexists|].
    rewrite (proj2 (String.eqb_neq _ _) Hs).
    destruct (IH (wild_child n) (ms ++ [s])) as [r ->]; [apply wild_child_in; by eexists|].
    by eexists.
  - destruct (matchPath (literal_child s n) segs ms) as [r|]; [by eexists|].
    destruct (if String.eqb s "/" then None else _) as [r|]; [by eexists|].
    destruct (head_omap_is_some (λ '(p, a), match p with [SMulti] => Some a | _ => None end) n
      ([SMulti], a)) as [b Hb]; [done|by eexists|]. unfold multi_child. rewrite Hb. by eexists.
Qed.

Lemma match_method_sound `{UnicodeTables} {A} (routes : list (pattern * A)) m path p a ms :
  match_method routes m path = Some (p, a, ms) →
  (p, a) ∈ routes ∧ pat_method p = m ∧ seg_match (pat_segments p) (path_segments path) ms.
Proof.
  intros (q & v & Hin & Hm & ->)%matchPath_sound. simpl.
  unfold method_node in Hin. apply list_elem_of_omap in Hin as ([p' a'] & Hin & Hq).
  destruct (String.eqb_spec (pat_method p') m) as [<-|]; [|done].
  by injection Hq as <- <- <-.
Qed.
Lemma match_method_complete `{UnicodeTables} {A} (routes : list (pattern * A)) p a path v :
  (p, a) ∈ routes → seg_match (pat_segments p) (path_segments path) v →
  is_Some (match_method routes (pat_method p) path).
Proof.
  intros Hin Hm. eapply matchPath_complete; [|done].
  unfold method_node. apply list_elem_of_omap. exists (p, a). by rewrite String.eqb_refl.
Qed.
