(* ===== verification/Json.v ===== *)
(** * Package encoding/json: decoding into [any]

    [any] is the Go interface value as the program uses it: the six shapes the
    JSON decoder produces, and the integer and slice values that event metadata
    carries.  [parse_json] is the grammar of the Go scanner (RFC 8259, nesting
    limited to 10000); strings are decoded to UTF-8 with lone surrogates and
    invalid bytes replaced by U+FFFD; numbers are correctly rounded to
    [float64], and a number out of range is an error of [Unmarshal] but not of
    [Valid].  Only the wording of syntax errors is left abstract
    ([JsonErrors]). *)

From S2P Require Export Float64.
#[local] Set Warnings "-register-all".
From Stdlib Require Import Ascii.

Inductive any : Type :=
| VNil
| VBool (b : bool)
| VInt (z : Z)                       (* int, int64 *)
| VFloat (f : float64)
| VString (s : string)
| VStrings (l : list string)         (* []string *)
| VInts (l : list Z)                 (* []int *)
| VList (l : list any)               (* []any *)
| VMap (m : list (string * any)).    (* map[string]any, keys distinct *)

Class JsonErrors := { json_error : string → string }.

(** ** UTF-8 *)
Definition utf8_encode (r : N) : string :=
  if (r <? 128)%N then bytes_of [r]
  else if (r <? 2048)%N then bytes_of [192 + r / 64; 128 + r mod 64]%N
  else if (r <? 65536)%N then
    bytes_of [224 + r / 4096; 128 + (r / 64) mod 64; 128 + r mod 64]%N
  else bytes_of [240 + r / 262144; 128 + (r / 4096) mod 64; 128 + (r / 64) mod 64;
                 128 + r mod 64]%N.
Definition rune_error : string := utf8_encode 65533.
Definition is_cont : ascii → bool := in_range 128 191.

(** One non-ASCII rune at the head of [s]: the number of bytes of a valid
    encoding, or [None] for an invalid byte. *)
Definition utf8_width (s : string) : option nat :=
  match s with
  | String a r =>
      let b := byte_code a in
      match r with
      | String c1 r1 =>
          if in_range 194 223 a && is_cont c1 then Some 2%nat
          else match r1 with
               | String c2 r2 =>
                   if in_range 224 239 a
                      && (if (b =? 224)%N then in_range 160 191 c1
                          else if (b =? 237)%N then in_range 128 159 c1 else is_cont c1)
                      && is_cont c2 then Some 3%nat
                   else match r2 with
                        | String c3 _ =>
                            if in_range 240 244 a
                               && (if (b =? 240)%N then in_range 144 191 c1
                                   else if (b =? 244)%N then in_range 128 143 c1 else is_cont c1)
                               && is_cont c2 && is_cont c3 then Some 4%nat else None
                        | "" => None
                        end
               | "" => None
               end
      | "" => None
      end
  | "" => None
  end.

(** [utf8.ValidString]. *)
Fixpoint valid_utf8 (fuel : nat) (s : string) : bool :=
  match fuel, s with
  | _, "" => true
  | O, _ => false
  | S fuel, String c r =>
      if is_ascii_byte c then valid_utf8 fuel r
      else match utf8_width s with
           | Some n => valid_utf8 fuel (string_drop n s)
           | None => false
           end
  end.
Definition ValidString (s : string) : bool := valid_utf8 (String.length s) s.

Lemma ascii_ValidString s : is_ascii_string s = true → ValidString s = true.
Proof.
  unfold ValidString, is_ascii_string. induction s as [|c s IH]; [done|].
  cbn [string_forall String.length valid_utf8]. intros [-> Hs]%andb_true_iff. by apply IH.
Qed.
Lemma utf8_width_bounds s n : utf8_width s = Some n → (2 ≤ n ≤ 4 ∧ n ≤ String.length s)%nat.
Proof.
  destruct s as [|a [|b [|c [|d r]]]]; try done; cbn [utf8_width];
    repeat case_match; try done; intros [= <-]; cbn; lia.
Qed.
(** The width is in the bytes of the rune. *)
Lemma utf8_width_prefix s n x :
  utf8_width s = Some n → utf8_width (string_take n s +:+ x) = Some n.
Proof.
  destruct s as [|a [|b [|c [|d r]]]]; try done; cbn [utf8_width].
  - destruct (in_range 194 223 a && is_cont b) eqn:E2; [|done]. intros [= <-].
    cbn [string_take String.append utf8_width]. by rewrite E2.
  - destruct (in_range 194 223 a && is_cont b) eqn:E2; [intros [= <-];
      cbn [string_take String.append utf8_width]; by rewrite E2|].
    destruct (in_range 224 239 a && _ && is_cont c) eqn:E3; [|done]. intros [= <-].
    cbn [string_take String.append utf8_width]. by rewrite E2, E3.
  - destruct (in_range 194 223 a && is_cont b) eqn:E2; [intros [= <-];
      cbn [string_take String.append utf8_width]; by rewrite E2|].
    destruct (in_range 224 239 a && _ && is_cont c) eqn:E3; [intros [= <-];
      cbn [string_take String.append utf8_width]; by rewrite E2, E3|].
    destruct (in_range 240 244 a && _ && is_cont c && is_cont d) eqn:E4; [|done]. intros [= <-].
    cbn [string_take String.append utf8_width]. by rewrite E2, E3, E4.
Qed.
Lemma take_drop_string n s : string_take n s +:+ string_drop n s = s.
Proof. revert s. induction n; intros [|c s]; [done..|]. cbn. by rewrite IHn. Qed.
Lemma length_drop_string n s : String.length (string_drop n s) = (String.length s - n)%nat.
Proof. revert s. induction n; intros [|c s]; [done..|]. apply IHn. Qed.
Lemma length_take_string n s :
  (n ≤ String.length s)%nat → String.length (string_take n s) = n.
Proof. revert s. induction n; intros [|c s]; cbn; [done|done|lia|]. intros H. rewrite IHn; lia. Qed.

(** ** Syntax trees *)
Inductive json : Type :=
| JNull
| JBool (b : bool)
| JNum (neg : bool) (digits : Z) (exp10 : Z)    (* +- digits * 10^exp10 *)
| JStr (s : string)
| JArr (l : list json)
| JObj (m : list (string * json)).

Definition is_json_space (c : ascii) : bool :=
  match byte_code c with 32 | 9 | 10 | 13 => true | _ => false end%N.
Fixpoint skip_space (s : string) : string :=
  match s with
  | String c r => if is_json_space c then skip_space r else s
  | "" => ""
  end.

Definition hex4 (a b c d : ascii) : option N :=
  let h c := is_digit c || in_range 97 102 c || in_range 65 70 c in
  let v c := if is_digit c then (byte_code c - 48)%N
             else if in_range 97 102 c then (byte_code c - 87)%N else (byte_code c - 55)%N in
  if h a && h b && h c && h d
  then Some (((v a * 16 + v b) * 16 + v c) * 16 + v d)%N else None.

Definition simple_escape (c : ascii) : option string :=
  if Ascii.eqb c (byte 34) then Some (bytes_of [34]%N)
  else if Ascii.eqb c (byte 92) then Some (bytes_of [92]%N)
  else if Ascii.eqb c "/"%char then Some "/"
  else if Ascii.eqb c "b"%char then Some (bytes_of [8]%N)
  else if Ascii.eqb c "f"%char then Some (bytes_of [12]%N)
  else if Ascii.eqb c "n"%char then Some (bytes_of [10]%N)
  else if Ascii.eqb c "r"%char then Some (bytes_of [13]%N)
  else if Ascii.eqb c "t"%char then Some (bytes_of [9]%N)
  else None.

(** A low surrogate escape at the head of [s]. *)
Definition low_surrogate (s : string) : option (N * string) :=
  match s with
  | String b (String u (String h1 (String h2 (String h3 (String h4 t))))) =>
      if Ascii.eqb b (byte 92) && Ascii.eqb u "u"%char then
        match hex4 h1 h2 h3 h4 with
        | Some n => if ((56320 <=? n) && (n <=? 57343))%N then Some (n, t) else None
        | None => None
        end
      else None
  | _ => None
  end.

(** The rest of a string literal after its opening quote.  Every round consumes
    a byte. *)
Fixpoint parse_string_body (fuel : nat) (s : string) : option (string * string) :=
  match fuel with
  | O => None
  | S fuel =>
      let cons w r := match parse_string_body fuel r with
                      | Some (v, t) => Some (w +:+ v, t)
                      | None => None
                      end in
      match s with
      | "" => None
      | String c r =>
          if Ascii.eqb c (byte 34) then Some ("", r)
          else if (byte_code c <? 32)%N then None
          else if Ascii.eqb c (byte 92) then
            match r with
            | String "u"%char (String h1 (String h2 (String h3 (String h4 t)))) =>
                match hex4 h1 h2 h3 h4 with
                | None => None
                | Some n =>
                    if ((55296 <=? n) && (n <=? 56319))%N then
                      match low_surrogate t with
                      | Some (lo, t') =>
                          cons (utf8_encode (65536 + (n - 55296) * 1024 + (lo - 56320))%N) t'
                      | None => cons rune_error t
                      end
                    else if ((56320 <=? n) && (n <=? 57343))%N then cons rune_error t
                    else cons (utf8_encode n) t
                end
            | String e t =>
                match simple_escape e with Some w => cons w t | None => None end
            | "" => None
            end
          else if is_ascii_byte c then cons (String c "") r
          else match utf8_width s with
               | Some n => cons (string_take n s) (string_drop n s)
               | None => cons rune_error r
               end
      end
  end.

(** Numbers: [-? (0 | [1-9][0-9]* ) (. [0-9]+)? ([eE] [+-]? [0-9]+)?]. *)
Definition digit_run (s : string) : string * string := span is_digit s.
Definition int_part (s : string) : string * string :=
  match s with
  | String c r => if Ascii.eqb c "0"%char then ("0", r) else digit_run s
  | "" => ("", "")
  end.
Definition frac_part (s : string) : option (string * string) :=
  match s with
  | String c r =>
      if Ascii.eqb c "."%char then
        let '(fp, t) := digit_run r in
        if String.eqb fp "" then None else Some (fp, t)
      else Some ("", s)
  | "" => Some ("", "")
  end.
Definition exp_sign (s : string) : Z * string :=
  match s with
  | String c r =>
      if Ascii.eqb c "-"%char then ((-1)%Z, r)
      else if Ascii.eqb c "+"%char then (1%Z, r) else (1%Z, s)
  | "" => (1%Z, "")
  end.
Definition exp_part (s : string) : option (Z * string) :=
  match s with
  | String c r =>
      if Ascii.eqb c "e"%char || Ascii.eqb c "E"%char then
        let '(sg, r) := exp_sign r in
        let '(ds, t) := digit_run r in
        match parse_uint ds with Some e => Some ((sg * e)%Z, t) | None => None end
      else Some (0%Z, s)
  | "" => Some (0%Z, "")
  end.
Definition parse_number (s : string) : option (json * string) :=
  let '(neg, s) := match s with
                   | String c r => if Ascii.eqb c "-"%char then (true, r) else (false, s)
                   | "" => (false, "")
                   end in
  let '(ip, r) := int_part s in
  if String.eqb ip "" then None
  else
    match frac_part r with
    | None => None
    | Some (fp, r) =>
        match exp_part r, digits_value 0 (ip +:+ fp) with
        | Some (e, t), Some d => Some (JNum neg d (e - Z.of_nat (String.length fp)), t)
        | _, _ => None
        end
    end.

Definition maxNestingDepth : nat := 10000.

(** The value parser.  [depth] counts the open containers.  Every call consumes
    a byte or hands over to a call that does, so twice the length of the text
    is enough fuel. *)
Fixpoint parse_value (fuel : nat) (depth : nat) (s : string) {struct fuel}
  : option (json * string) :=
  match fuel with
  | O => None
  | S fuel =>
      let s := skip_space s in
      match s with
      | "" => None
      | String c r =>
          if Ascii.eqb c "{"%char then
            if (maxNestingDepth <=? depth)%nat then None
            else match skip_space r with
                 | String "}"%char t => Some (JObj [], t)
                 | t => parse_members fuel (S depth) t []
                 end
          else if Ascii.eqb c "["%char then
            if (maxNestingDepth <=? depth)%nat then None
            else match skip_space r with
                 | String "]"%char t => Some (JArr [], t)
                 | t => parse_elements fuel (S depth) t []
                 end
          else if Ascii.eqb c (byte 34) then
            match parse_string_body (S (String.length r)) r with
            | Some (w, t) => Some (JStr w, t)
            | None => None
            end
          else if HasPrefix s "true" then Some (JBool true, string_drop 4 s)
          else if HasPrefix s "false" then Some (JBool false, string_drop 5 s)
          else if HasPrefix s "null" then Some (JNull, string_drop 4 s)
          else parse_number s
      end
  end
with parse_elements (fuel : nat) (depth : nat) (s : string) (acc : list json) {struct fuel}
  : option (json * string) :=
  match fuel with
  | O => None
  | S fuel =>
      match parse_value fuel depth s with
      | None => None
      | Some (v, r) =>
          match skip_space r with
          | String ","%char t => parse_elements fuel depth t (acc ++ [v])
          | String "]"%char t => Some (JArr (acc ++ [v]), t)
          | _ => None
          end
      end
  end
with parse_members (fuel : nat) (depth : nat) (s : string) (acc : list (string * json)) {struct fuel}
  : option (json * string) :=
  match fuel with
  | O => None
  | S fuel =>
      match skip_space s with
      | String q r =>
          if Ascii.eqb q (byte 34) then
            match parse_string_body (S (String.length r)) r with
            | None => None
            | Some (k, r) =>
                match skip_space r with
                | String ":"%char r =>
                    match parse_value fuel depth r with
                    | None => None
                    | Some (v, r) =>
                        match skip_space r with
                        | String ","%char t => parse_members fuel depth t (acc ++ [(k, v)])
                        | String "}"%char t => Some (JObj (acc ++ [(k, v)]), t)
                        | _ => None
                        end
                    end
                | _ => None
                end
            end
          else None
      | "" => None
      end
  end.

Definition parse_json (s : string) : option json :=
  match parse_value (2 * String.length s + 2) 0 s with
  | Some (v, r) => if String.eqb (skip_space r) "" then Some v else None
  | None => None
  end.

(** [json.Valid]. *)
Definition Valid (s : string) : bool :=
  match parse_json s with Some _ => true | None => false end.

(** ** Conversion to [any] *)

(** [strconv.ParseFloat] of [digits * 10^exp]: correctly rounded, [None] when
    the rounded value overflows.  Powers beyond the range of the format are not
    computed: more than 310 decimal digits before the point overflow, and below
    10^-400 the value rounds to zero. *)
Definition decimal_float (neg : bool) (digits exp10 : Z) : option float64 :=
  match digits with
  | Zpos p =>
      let magnitude := (Z.of_nat (String.length (Itoa digits)) + exp10)%Z in
      if (310 <? magnitude)%Z then None
      else if (magnitude <? -400)%Z then Some (S754_zero neg)
      else
        let f := if (0 <=? exp10)%Z
                 then binary_round fprec femax neg (p * Z.to_pos (10 ^ exp10)) 0
                 else fdiv (S754_finite neg p 0)
                        (S754_finite false (Z.to_pos (10 ^ (- exp10))) 0) in
        match f with S754_infinity _ => None | _ => Some f end
  | _ => Some (S754_zero neg)
  end.

(** Assignment to a key of a map kept as a list with distinct keys. *)
Fixpoint map_put {A} (k : string) (v : A) (m : list (string * A)) : list (string * A) :=
  match m with
  | [] => [(k, v)]
  | (k', v') :: m => if String.eqb k k' then (k, v) :: m else (k', v') :: map_put k v m
  end.
Fixpoint map_get {A} (k : string) (m : list (string * A)) : option A :=
  match m with
  | [] => None
  | (k', v) :: m => if String.eqb k k' then Some v else map_get k m
  end.

Fixpoint to_any (j : json) : option any :=
  match j with
  | JNull => Some VNil
  | JBool b => Some (VBool b)
  | JNum neg d e => VFloat <$> decimal_float neg d e
  | JStr s => Some (VString s)
  | JArr l =>
      (fix go (l : list json) (acc : list any) : option any :=
         match l with
         | [] => Some (VList acc)
         | x :: l => match to_any x with
                     | Some v => go l (acc ++ [v])
                     | None => None
                     end
         end) l []
  | JObj m =>
      (fix go (m : list (string * json)) (acc : list (string * any)) : option any :=
         match m with
         | [] => Some (VMap acc)
         | (k, x) :: m => match to_any x with
                          | Some v => go m (map_put k v acc)
                          | None => None
                          end
         end) m []
  end.

(** [json.Unmarshal(raw, &v)] with [var v any]. *)
Definition Unmarshal `{JsonErrors} (raw : string) : result any :=
  match parse_json raw with
  | Some j => match to_any j with Some v => Ok v | None => Err (json_error raw) end
  | None => Err (json_error raw)
  end.

(** ** Encoding of strings

    The string literals [json.Marshal] writes: HTML-safe escapes, and U+2028,
    U+2029 and invalid bytes escaped. *)
Definition hex_digit (n : N) : ascii :=
  if (n <? 10)%N then byte (48 + n) else byte (87 + n).
Definition escape_u4 (n : N) : string :=
  String (byte 92) (String "u"%char
    (String (hex_digit (n / 4096)) (String (hex_digit ((n / 256) mod 16))
       (String (hex_digit ((n / 16) mod 16)) (String (hex_digit (n mod 16)) ""))))).
Definition escape_js (c : ascii) : string :=
  let short e := String (byte 92) (String e "") in
  match byte_code c with
  | 34 => short (byte 34)
  | 92 => short (byte 92)
  | 8 => short "b"%char
  | 12 => short "f"%char
  | 10 => short "n"%char
  | 13 => short "r"%char
  | 9 => short "t"%char
  | n => if n <? 32 then escape_u4 n else String c ""
  end%N.
Definition escape_html (c : ascii) : string :=
  match byte_code c with
  | 60 | 62 | 38 => escape_u4 (byte_code c)
  | _ => escape_js c
  end%N.

(** The body of a literal, with one of the two ways to write an ASCII byte. *)
Fixpoint escape_string (esc : ascii → string) (fuel : nat) (s : string) : string :=
  match fuel, s with
  | O, _ | _, "" => ""
  | S fuel, String c r =>
      if is_ascii_byte c then esc c +:+ escape_string esc fuel r
      else match utf8_width s with
           | Some n =>
               let w := string_take n s in
               (if String.eqb w (utf8_encode 8232) then escape_u4 8232
                else if String.eqb w (utf8_encode 8233) then escape_u4 8233 else w)
               +:+ escape_string esc fuel (string_drop n s)
           | None => escape_u4 65533 +:+ escape_string esc fuel r
           end
  end.
Definition quote_char : string := String (byte 34) "".
Definition string_literal (esc : ascii → string) (s : string) : string :=
  quote_char +:+ escape_string esc (String.length s) s +:+ quote_char.
(** [json.Marshal] escapes the HTML characters; an encoder may be told not to. *)
Definition json_string : string → string := string_literal escape_html.
Definition json_string_raw : string → string := string_literal escape_js.

(** Decoding an encoded ASCII byte gives it back. *)
Definition good_escape (esc : ascii → string) : Prop :=
  ∀ c, is_ascii_byte c = true →
    (1 ≤ String.length (esc c))%nat ∧
    ∀ fuel t, parse_string_body (S fuel) (esc c +:+ t)
              = match parse_string_body fuel t with
                | Some (v, r) => Some (String c v, r)
                | None => None
                end.
Lemma escape_js_good : good_escape escape_js.
Proof.
  intros c Hc. destruct c as [[] [] [] [] [] [] [] []]; try discriminate Hc;
    (split; [vm_compute; lia|reflexivity]).
Qed.
Lemma escape_html_good : good_escape escape_html.
Proof.
  intros c Hc. destruct c as [[] [] [] [] [] [] [] []]; try discriminate Hc;
    (split; [vm_compute; lia|reflexivity]).
Qed.

Section Escape.
Context (esc : ascii → string) (Hesc : good_escape esc).

(** A rune that is not ASCII is copied, or written as an escape of four digits. *)
Lemma parse_rune c r n fuel x :
  is_ascii_byte c = false → utf8_width (String c r) = Some n →
  let w := string_take n (String c r) in
  let out := if String.eqb w (utf8_encode 8232) then escape_u4 8232
             else if String.eqb w (utf8_encode 8233) then escape_u4 8233 else w in
  (2 ≤ String.length out)%nat ∧ (n ≤ String.length out)%nat
  ∧ parse_string_body (S fuel) (out +:+ x)
    = match parse_string_body fuel x with Some (v, t) => Some (w +:+ v, t) | None => None end.
Proof.
  intros Hc Hw w out. destruct (utf8_width_bounds _ _ Hw) as [Hn Hlen].
  assert (String.length w = n) as Hwl by (by apply length_take_string).
  pose proof (utf8_width_prefix _ _ x Hw) as Hp. fold w in Hp.
  assert (∃ w', w = String c w') as [w' Hcw].
  { subst w. destruct n as [|n]; [lia|]. by eexists. }
  clearbody w. clear Hw Hlen. subst out.
  destruct (String.eqb_spec w (utf8_encode 8232)) as [E|_];
    [|destruct (String.eqb_spec w (utf8_encode 8233)) as [E|_]].
  1-2: assert (n = 3%nat) as -> by (rewrite <-Hwl, E; reflexivity); rewrite E;
    split; [vm_compute; lia|]; (split; [vm_compute; lia|]); reflexivity.
  rewrite Hwl. split; [lia|]. split; [lia|].
  assert (Ascii.eqb c (byte 34) = false ∧ (byte_code c <? 32)%N = false
          ∧ Ascii.eqb c (byte 92) = false) as (H1 & H2 & H3).
  { destruct c as [[] [] [] [] [] [] [] []]; try discriminate Hc; done. }
  rewrite Hcw in Hp |- *. cbn [parse_string_body String.append] in *. rewrite H1, H2, H3, Hc, Hp.
  change (String c (w' +:+ x)) with (String c w' +:+ x). rewrite <-Hcw, <-Hwl.
  rewrite string_take_app, string_drop_app, Hcw. reflexivity.
Qed.

Lemma parse_escaped_fuel f : ∀ s fuel t,
  valid_utf8 f s = true → (String.length s < fuel)%nat →
  parse_string_body fuel (escape_string esc f s +:+ quote_char +:+ t) = Some (s, t).
Proof using Hesc.
  induction f as [|f IH]; intros s fuel t Hs Hf; (destruct fuel as [|fuel]; [lia|]);
    (destruct s as [|c s]; [done|]); [done|].
  cbn [valid_utf8 escape_string] in *. destruct (is_ascii_byte c) eqn:Hc.
  - rewrite append_assoc, (proj2 (Hesc c Hc)), IH; [done|done|]. cbn in Hf. lia.
  - destruct (utf8_width (String c s)) as [n|] eqn:Hw; [|done].
    pose proof (utf8_width_bounds _ _ Hw) as [Hn Hl]. rewrite append_assoc.
    rewrite (proj2 (proj2 (parse_rune c s n fuel _ Hc Hw))).
    rewrite IH; [by rewrite take_drop_string|done|]. rewrite length_drop_string. lia.
Qed.
Lemma parse_escaped s fuel t :
  ValidString s = true → (String.length s < fuel)%nat →
  parse_string_body fuel (escape_string esc (String.length s) s +:+ quote_char +:+ t)
  = Some (s, t).
Proof using Hesc. apply parse_escaped_fuel. Qed.

Lemma escape_length_fuel f : ∀ s,
  valid_utf8 f s = true → (String.length s ≤ String.length (escape_string esc f s))%nat.
Proof using Hesc.
  induction f as [|f IH]; intros [|c s]; [done|done|done|]. cbn [valid_utf8 escape_string].
  destruct (is_ascii_byte c) eqn:Hc.
  - intros Hs. rewrite length_append. specialize (IH s Hs). destruct (Hesc c Hc) as [Hl _]. cbn. lia.
  - destruct (utf8_width (String c s)) as [n|] eqn:Hw; [|done]. intros Hs%IH.
    pose proof (utf8_width_bounds _ _ Hw) as [Hn Hl].
    rewrite length_append. rewrite length_drop_string in Hs.
    destruct (parse_rune c s n 0 "" Hc Hw) as (_ & Hout & _). cbv zeta in Hout. lia.
Qed.
Lemma escape_string_length s :
  ValidString s = true →
  (String.length s ≤ String.length (escape_string esc (String.length s) s))%nat.
Proof using Hesc. apply escape_length_fuel. Qed.

Lemma parse_string_literal s rest fuel depth :
  ValidString s = true →
  parse_value (S fuel) depth (string_literal esc s +:+ rest) = Some (JStr s, rest).
Proof using Hesc.
  intros Hs. unfold string_literal. rewrite !append_assoc.
  change (quote_char +:+ ?x) with (String (byte 34) x). cbn [parse_value skip_space].
  change (is_json_space (byte 34)) with false. cbn iota.
  change (Ascii.eqb (byte 34) "{"%char) with false.
  change (Ascii.eqb (byte 34) "["%char) with false.
  change (Ascii.eqb (byte 34) (byte 34)) with true. cbn iota.
  change (String (byte 34) rest) with (quote_char +:+ rest).
  rewrite parse_escaped; [done|done|].
  rewrite length_append. pose proof (escape_string_length s Hs). lia.
Qed.
End Escape.

Lemma parse_json_string s rest fuel depth :
  ValidString s = true →
  parse_value (S fuel) depth (json_string s +:+ rest) = Some (JStr s, rest).
Proof. apply parse_string_literal, escape_html_good. Qed.
