(* ===== verification/GoFormat.v ===== *)
(** * The verb [%v] of package fmt

    [format_v] prints a value decoded from JSON as [fmt.Sprintf("%v", x)] does:
    floats in the shortest form that reads back as the same float64 (package
    strconv), lists in brackets, maps with sorted keys.  [sort_strings] is
    [sort.Strings]. *)

From S2P Require Export Json.
From Stdlib Require Import Ascii.

Open Scope Z_scope.

(** ** sort.Strings *)
Fixpoint insert_string (x : string) (l : list string) : list string :=
  match l with
  | [] => [x]
  | y :: l' => if String.leb x y then x :: l else y :: insert_string x l'
  end.
Definition sort_strings (l : list string) : list string := foldr insert_string [] l.

Lemma insert_string_perm x l : insert_string x l ≡ₚ x :: l.
Proof.
  induction l as [|y l IH]; [done|]. cbn [insert_string]. destruct (String.leb x y); [done|].
  rewrite IH. constructor.
Qed.
Lemma sort_strings_perm l : sort_strings l ≡ₚ l.
Proof.
  induction l as [|x l IH]; [done|]. change (sort_strings (x :: l)) with
    (insert_string x (sort_strings l)). by rewrite insert_string_perm, IH.
Qed.

(** ** Shortest decimal form of a positive finite float *)

(** The exact value [m * 2^e * 10^k], rounded down, and whether it is exact. *)
Definition scaled_floor (m : positive) (e k : Z) : Z * bool :=
  let n := Zpos m * 2 ^ Z.max 0 e * 10 ^ Z.max 0 k in
  let d := 2 ^ Z.max 0 (- e) * 10 ^ Z.max 0 (- k) in
  (n / d, n mod d =? 0).

(** The number of digits before the decimal point: [10^(d-1) <= f < 10^d].
    Scaling by [10^400] makes every float at least one. *)
Definition decimal_point (m : positive) (e : Z) : Z :=
  Z.of_nat (String.length (Itoa (fst (scaled_floor m e 400)))) - 400.

(** Of the two neighbours of the value with [n] digits, those that read back as
    the float; of two, the nearer. *)
Definition shortest_candidate (m : positive) (e : Z) (d : Z) (n : nat) : option Z :=
  let k := Z.of_nat n - d in
  let '(q, exact) := scaled_floor m e k in
  let reads z := bool_decide (decimal_float false z (- k) = Some (S754_finite false m e)) in
  if exact then Some q
  else
    match reads q, reads (q + 1) with
    | true, true =>
        let '(q2, exact2) := scaled_floor m (e + 1) k in
        (* twice the value against 2q + 1 *)
        if q2 <? 2 * q + 1 then Some q
        else if (q2 =? 2 * q + 1) && exact2 then Some (if Z.even q then q else q + 1)
        else Some (q + 1)
    | true, false => Some q
    | false, true => Some (q + 1)
    | false, false => None
    end.

(** The least number of digits that reads back, at most 17, and the digits. *)
Fixpoint shortest_digits (fuel : nat) (m : positive) (e : Z) (d : Z) (n : nat) : Z * nat :=
  match fuel with
  | O => (fst (scaled_floor m e (17 - d)), 17%nat)
  | S fuel =>
      match shortest_candidate m e d n with
      | Some q => (q, n)
      | None => shortest_digits fuel m e d (S n)
      end
  end.

Definition strip_zeros (s : string) : string :=
  let fix go (r : string) : string :=
    match r with
    | String c r' => if Ascii.eqb c "0"%char then go r' else r
    | "" => ""
    end in
  string_rev (go (string_rev s)).

(** The shortest digits of a positive finite float, without final zeros, and the
    place of the decimal point: the value is [0.digits * 10^d]. *)
Definition float_digits (m : positive) (e : Z) : string * Z :=
  let d := decimal_point m e in
  let '(q, len) := shortest_digits 17 m e d 1 in
  let text := Itoa q in
  (* rounding up to the next power of ten moves the point *)
  (strip_zeros text, if (String.length text =? len)%nat then d else d + 1).

(** The form [%e], the exponent padded to two digits or not. *)
Definition exponent_form (two_digits : bool) (digits : string) (d : Z) : string :=
  let x := d - 1 in
  let ax := Z.abs x in
  string_take 1 digits
  +:+ (if (String.length digits =? 1)%nat then "" else "." +:+ string_drop 1 digits)
  +:+ "e" +:+ (if x <? 0 then "-" else "+")
  +:+ (if two_digits && (ax <? 10) then "0" else "") +:+ Itoa ax.
(** The form [%f]. *)
Definition point_form (digits : string) (d : Z) : string :=
  let n := Z.of_nat (String.length digits) in
  if d <=? 0 then "0." +:+ zeros (Z.to_nat (- d)) +:+ digits
  else if n <=? d then digits +:+ zeros (Z.to_nat (d - n))
  else string_take (Z.to_nat d) digits +:+ "." +:+ string_drop (Z.to_nat d) digits.

(** [%v] of a positive finite float: digits and exponent in the form [%e] when
    the exponent is below -4 or at least 6, else the form [%f]. *)
Definition format_finite (m : positive) (e : Z) : string :=
  let '(digits, d) := float_digits m e in
  if (d - 1 <? -4) || (6 <=? d - 1) then exponent_form true digits d else point_form digits d.

Definition format_float (f : float64) : string :=
  match f with
  | S754_nan => "NaN"
  | S754_infinity false => "+Inf"
  | S754_infinity true => "-Inf"
  | S754_zero false => "0"
  | S754_zero true => "-0"
  | S754_finite s m e => (if s then "-" else "") +:+ format_finite m e
  end.

(** ** Values *)
Definition format_ints (l : list Z) : string := "[" +:+ Join (map Itoa l) " " +:+ "]".

Fixpoint format_v (v : any) : string :=
  match v with
  | VNil => "<nil>"
  | VBool b => if b then "true" else "false"
  | VInt z => Itoa z
  | VFloat f => format_float f
  | VString s => s
  | VStrings l => "[" +:+ Join l " " +:+ "]"
  | VInts l => format_ints l
  | VList l => "[" +:+ Join (map format_v l) " " +:+ "]"
  | VMap m =>
      let texts := map (λ '(k, x), (k, format_v x)) m in
      "map[" +:+ Join (map (λ k, k +:+ ":" +:+ default "" (map_get k texts))
                         (sort_strings (map fst m))) " " +:+ "]"
  end.

Example format_v_examples :
  map (λ s, match parse_json s with
            | Some j => match to_any j with Some v => format_v v | None => "?" end
            | None => "?" end)
    ["1"; "0.1"; "1e21"; "123456789"; "100000000000000000000"; "1.5"; "0.0001"; "0.00001";
     "5e-324"; "-2.50"; "9007199254740993"; "1.7976931348623157e308"; "[1,true,null]"]
  = ["1"; "0.1"; "1e+21"; "1.23456789e+08"; "1e+20"; "1.5"; "0.0001"; "1e-05";
     "5e-324"; "-2.5"; "9.007199254740992e+15"; "1.7976931348623157e+308"; "[1 true <nil>]"].
Proof. vm_compute. reflexivity. Qed.
