(* ===== verification/JsonEncode.v ===== *)
(** * Package encoding/json: encoding

    The value as a tree ([jtree], the members of an object in the order in which
    they are written), and its text ([render]) in one of the layouts that the
    program uses: that of [json.Marshal] and the encoder, that of
    [json.MarshalIndent], and that of an encoder with [SetEscapeHTML(false)]
    followed by [json.Indent] with two spaces.  [any_tree] is the tree of a
    dynamic value; a map is written with its keys sorted.  [render_parses] says
    that the text reads back as the tree, in every layout. *)

From S2P Require Export GoFormat.
#[local] Set Warnings "-register-all".
From Stdlib Require Import Ascii.

Open Scope Z_scope.

Inductive jtree :=
| TNull
| TBool (b : bool)
| TNum (text : string)
| TStr (s : string)
| TArr (l : list jtree)
| TObj (m : list (string * jtree)).

(** ** Values *)

(** A finite float: the form [%e] below 10^-6 and from 10^21 on. *)
Definition json_float (f : float64) : option string :=
  match f with
  | S754_nan | S754_infinity _ => None
  | S754_zero s => Some (if s then "-0" else "0")
  | S754_finite s m e =>
      let '(digits, d) := float_digits m e in
      let abs := S754_finite false m e in
      Some ((if s then "-" else "")
            +:+ (if fltb abs (float_dec 1 6) || fleb (float_of_int (10 ^ 21)) abs
                 then exponent_form false digits d else point_form digits d))
  end.

Fixpoint any_tree (v : any) : option jtree :=
  match v with
  | VNil => Some TNull
  | VBool b => Some (TBool b)
  | VInt z => Some (TNum (Itoa z))
  | VFloat f => TNum <$> json_float f
  | VString s => Some (TStr s)
  | VStrings l => Some (TArr (map TStr l))
  | VInts l => Some (TArr (map (λ z, TNum (Itoa z)) l))
  | VList l =>
      TArr <$> (fix go (l : list any) : option (list jtree) :=
                  match l with
                  | [] => Some []
                  | x :: l => match any_tree x, go l with
                              | Some t, Some ts => Some (t :: ts)
                              | _, _ => None
                              end
                  end) l
  | VMap m =>
      let trees :=
        (fix go (m : list (string * any)) : option (list (string * jtree)) :=
           match m with
           | [] => Some []
           | (k, x) :: m => match any_tree x, go m with
                            | Some t, Some ts => Some ((k, t) :: ts)
                            | _, _ => None
                            end
           end) m in
      match trees with
      | Some ts => Some (TObj (map (λ k, (k, default TNull (map_get k ts)))
                                 (sort_strings (map fst m))))
      | None => None
      end
  end.

(** A [map[string]string]; the nil map is null. *)
Definition strings_tree (h : option (gmap string string)) : jtree :=
  match h with
  | None => TNull
  | Some h => TObj (map (λ k, (k, TStr (default "" (h !! k))))
                      (sort_strings (map fst (map_to_list h))))
  end.
Definition ints_tree (l : option (list Z)) : jtree :=
  match l with None => TNull | Some l => TArr (map (λ z, TNum (Itoa z)) l) end.

(** ** Text *)
Definition line_feed : string := bytes_of [10]%N.
Fixpoint indent (depth : nat) : string :=
  match depth with O => "" | S depth => "  " +:+ indent depth end.
Definition new_line (depth : nat) : string := line_feed +:+ indent depth.

(** How strings are escaped, what precedes an item or a closing bracket at a
    depth, and what follows a colon. *)
Record layout := {
  ly_escape : ascii → string;
  ly_line : nat → string;
  ly_space : string;
}.
Definition marshal_layout : layout := Build_layout escape_html (λ _, "") "".
Definition marshal_indent_layout : layout := Build_layout escape_html new_line " ".
Definition raw_indent_layout : layout := Build_layout escape_js new_line " ".

Fixpoint render (ly : layout) (depth : nat) (t : jtree) : string :=
  match t with
  | TNull => "null"
  | TBool b => if b then "true" else "false"
  | TNum text => text
  | TStr s => string_literal (ly_escape ly) s
  | TArr [] => "[]"
  | TArr l =>
      "[" +:+ Join (map (λ x, ly_line ly (S depth) +:+ render ly (S depth) x) l) ","
      +:+ ly_line ly depth +:+ "]"
  | TObj [] => "{}"
  | TObj m =>
      "{" +:+ Join (map (λ '(k, x), ly_line ly (S depth) +:+ string_literal (ly_escape ly) k
                                    +:+ ":" +:+ ly_space ly +:+ render ly (S depth) x) m) ","
      +:+ ly_line ly depth +:+ "}"
  end.

(** [Indent] refuses a text whose containers nest too deep, and then writes
    nothing. *)
Fixpoint tree_depth (t : jtree) : nat :=
  match t with
  | TArr l => S (list_max (map tree_depth l))
  | TObj m => S (list_max (map (λ '(_, x), tree_depth x) m))
  | _ => O
  end.
Definition indented (t : jtree) : string :=
  if (tree_depth t <=? maxNestingDepth)%nat then render raw_indent_layout 0 t else "".

Example any_tree_examples :
  map (λ s, match parse_json s with
            | Some j => match to_any j ≫= any_tree with Some t => indented t | None => "?" end
            | None => "?" end)
    ["1"; "-0.5"; "1e21"; "123456789"; "100000000000000000000"; "0.000001"; "1.5e-7";
     "5e-324"; "[]"; "{}"; "[1, [true]]"]
  = ["1"; "-0.5"; "1e+21"; "123456789"; "100000000000000000000"; "0.000001"; "1.5e-7";
     "5e-324"; "[]"; "{}";
     Join ["["; "  1,"; "  ["; "    true"; "  ]"; "]"] line_feed].
Proof. vm_compute. reflexivity. Qed.

(** ** The text reads back

    [tree_json] is what a tree stands for; [tree_ok] asks that strings are
    valid UTF-8 and that numbers are JSON numbers. *)
Fixpoint tree_json (t : jtree) : json :=
  match t with
  | TNull => JNull
  | TBool b => JBool b
  | TNum text => match parse_number text with Some (j, _) => j | None => JNull end
  | TStr s => JStr s
  | TArr l => JArr (map tree_json l)
  | TObj m => JObj (map (λ '(k, x), (k, tree_json x)) m)
  end.
Definition number_ok (text : string) : bool :=
  match parse_number text with Some (_, r) => String.eqb r "" | None => false end.
Fixpoint tree_ok (t : jtree) : bool :=
  match t with
  | TNull | TBool _ => true
  | TNum text => number_ok text
  | TStr s => ValidString s
  | TArr l => forallb tree_ok l
  | TObj m => forallb (λ '(k, x), ValidString k && tree_ok x) m
  end.

Section Induction.
Context (P : jtree → Prop).
Context (Hnull : P TNull) (Hbool : ∀ b, P (TBool b)) (Hnum : ∀ s, P (TNum s))
  (Hstr : ∀ s, P (TStr s)) (Harr : ∀ l, Forall P l → P (TArr l))
  (Hobj : ∀ m, Forall (λ kx, P (snd kx)) m → P (TObj m)).

Fixpoint jtree_nested_ind (t : jtree) : P t :=
  match t with
  | TNull => Hnull
  | TBool b => Hbool b
  | TNum s => Hnum s
  | TStr s => Hstr s
  | TArr l =>
      Harr l ((fix go (l : list jtree) : Forall P l :=
                 match l with
                 | [] => Forall_nil_2 _
                 | x :: l => Forall_cons_2 _ _ _ (jtree_nested_ind x) (go l)
                 end) l)
  | TObj m =>
      Hobj m ((fix go (m : list (string * jtree)) : Forall (λ kx, P (snd kx)) m :=
                 match m with
                 | [] => Forall_nil_2 _
                 | kx :: m => Forall_cons_2 (λ kx, P (snd kx)) _ _
                                (jtree_nested_ind (snd kx)) (go m)
                 end) m)
  end.
End Induction.

(** A text after a value: nothing, or a byte that cannot continue a number. *)
Definition stops (c : ascii) : bool :=
  negb (is_digit c || Ascii.eqb c "."%char || Ascii.eqb c "e"%char || Ascii.eqb c "E"%char).
Definition after_value (rest : string) : bool :=
  match rest with "" => true | String c _ => stops c end.

Lemma digit_run_after s rest w t :
  digit_run s = (w, t) → after_value rest = true →
  digit_run (s +:+ rest) = (w, t +:+ rest).
Proof.
  unfold digit_run. revert w. induction s as [|c s IH]; intros w; cbn [span String.append].
  - intros [= <- <-] Hr. destruct rest as [|c rest]; [done|]. cbn [span String.append].
    cbn in Hr. unfold stops in Hr. destruct (is_digit c); [done|reflexivity].
  - destruct (is_digit c); [|by intros [= <- <-] _].
    destruct (span is_digit s) as [w' t'] eqn:E. intros [= <- <-] Hr. by rewrite (IH w').
Qed.

Lemma int_part_after s rest w t :
  int_part s = (w, t) → w ≠ "" → after_value rest = true →
  int_part (s +:+ rest) = (w, t +:+ rest).
Proof.
  destruct s as [|c s]; [by intros [= <- <-] ?|]. cbn [int_part String.append].
  destruct (Ascii.eqb c "0"%char); [by intros [= <- <-] _ _|].
  intros H _ Hr. by apply (digit_run_after (String c s)).
Qed.
Lemma frac_part_after s rest w t :
  frac_part s = Some (w, t) → after_value rest = true →
  frac_part (s +:+ rest) = Some (w, t +:+ rest).
Proof.
  destruct s as [|c s]; cbn [frac_part String.append].
  - intros [= <- <-] Hr. destruct rest as [|c rest]; [done|]. cbn [frac_part String.append].
    cbn in Hr. unfold stops in Hr. destruct (Ascii.eqb c "."%char), (is_digit c); done.
  - destruct (Ascii.eqb c "."%char); [|by intros [= <- <-] _].
    destruct (digit_run s) as [w' t'] eqn:E. intros H Hr.
    rewrite (digit_run_after _ _ _ _ E Hr).
    destruct (String.eqb w' ""); [done|]. by injection H as <- <-.
Qed.
Lemma exp_part_after s rest e t :
  exp_part s = Some (e, t) → after_value rest = true →
  exp_part (s +:+ rest) = Some (e, t +:+ rest).
Proof.
  destruct s as [|c s]; cbn [exp_part String.append].
  - intros [= <- <-] Hr. destruct rest as [|c rest]; [done|]. cbn [exp_part String.append].
    cbn in Hr. unfold stops in Hr.
    destruct (Ascii.eqb c "e"%char), (Ascii.eqb c "E"%char), (Ascii.eqb c "."%char),
      (is_digit c); done.
  - destruct (_ || _); [|by intros [= <- <-] _]. destruct s as [|d s]; [done|].
    assert (exp_sign (String d s +:+ rest)
            = (fst (exp_sign (String d s)), snd (exp_sign (String d s)) +:+ rest)) as ->.
    { cbn [exp_sign String.append]. by destruct (Ascii.eqb d "-"%char), (Ascii.eqb d "+"%char). }
    destruct (exp_sign (String d s)) as [sg r]. cbn [fst snd].
    destruct (digit_run r) as [ds u] eqn:E. intros H Hr.
    rewrite (digit_run_after _ _ _ _ E Hr). destruct (parse_uint ds); [|done].
    by injection H as <- <-.
Qed.

Lemma parse_number_after s rest j t :
  parse_number s = Some (j, t) → after_value rest = true →
  parse_number (s +:+ rest) = Some (j, t +:+ rest).
Proof.
  unfold parse_number.
  destruct s as [|c s]; [done|]. cbn [String.append].
  set (ns := if Ascii.eqb c "-"%char then _ else _).
  set (ns' := if Ascii.eqb c "-"%char then _ else _).
  assert (ns' = (fst ns, snd ns +:+ rest)) as ->
    by (subst ns ns'; by destruct (Ascii.eqb c "-"%char)).
  destruct ns as [neg u]. cbn [fst snd].
  destruct (int_part u) as [ip r] eqn:Ei. destruct (String.eqb ip "") eqn:Eip; [done|].
  apply String.eqb_neq in Eip. destruct (frac_part r) as [[fp r']|] eqn:Ef; [|done].
  destruct (exp_part r') as [[e v]|] eqn:Ee; [|done].
  intros H Hr. rewrite (int_part_after _ _ _ _ Ei Eip Hr).
  apply String.eqb_neq in Eip. rewrite Eip, (frac_part_after _ _ _ _ Ef Hr),
    (exp_part_after _ _ _ _ Ee Hr).
  destruct (digits_value _ _); [|done]. by injection H as <- <-.
Qed.

(** *** What a text starts with *)
Definition value_head (c : ascii) : bool :=
  negb (is_json_space c || Ascii.eqb c "]"%char || Ascii.eqb c "}"%char).
Definition starts_value (s : string) : bool :=
  match s with String c _ => value_head c | "" => false end.

Lemma starts_value_skip s : starts_value s = true → skip_space s = s.
Proof.
  destruct s as [|c s]; [done|]. cbn. unfold value_head. by destruct (is_json_space c).
Qed.
Lemma skip_indent d s : skip_space (indent d +:+ s) = skip_space s.
Proof. induction d as [|d IH]; [done|]. cbn [indent]. by rewrite append_assoc. Qed.
Lemma skip_new_line d s : skip_space (new_line d +:+ s) = skip_space s.
Proof. unfold new_line. rewrite append_assoc. apply skip_indent. Qed.
Lemma parse_value_skip fuel depth s s' :
  skip_space s = skip_space s' → parse_value fuel depth s = parse_value fuel depth s'.
Proof. intros H. destruct fuel as [|fuel]; [done|]. cbn [parse_value]. by rewrite H. Qed.

Definition number_head (c : ascii) : bool := Ascii.eqb c "-"%char || is_digit c.
Lemma parse_number_head s j t :
  parse_number s = Some (j, t) → ∃ c r, s = String c r ∧ number_head c = true.
Proof.
  destruct s as [|c s]; [done|]. exists c, s. split; [done|]. unfold number_head.
  unfold parse_number in H. destruct (Ascii.eqb c "-"%char); [done|].
  cbn [int_part] in H. destruct (Ascii.eqb c "0"%char) eqn:E0.
  - by apply Ascii.eqb_eq in E0 as ->.
  - unfold digit_run in H. cbn [span] in H. by destruct (is_digit c).
Qed.
Lemma parse_value_number fuel depth c r :
  number_head c = true →
  parse_value (S fuel) depth (String c r) = parse_number (String c r).
Proof. destruct c as [[] [] [] [] [] [] [] []]; try discriminate 1; reflexivity. Qed.
Lemma number_head_value c : number_head c = true → value_head c = true.
Proof. destruct c as [[] [] [] [] [] [] [] []]; done. Qed.

Lemma number_ok_spec text :
  number_ok text = true →
  ∃ c r, text = String c r ∧ number_head c = true
         ∧ ∀ rest, after_value rest = true →
                   parse_number (text +:+ rest) = Some (tree_json (TNum text), rest).
Proof.
  unfold number_ok. destruct (parse_number text) as [[j t]|] eqn:E; [|done].
  intros ->%String.eqb_eq. destruct (parse_number_head _ _ _ E) as (c & r & -> & Hc).
  exists c, r. split_and!; [done..|]. intros rest Hr.
  rewrite (parse_number_after _ _ _ _ E Hr). cbn [tree_json]. by rewrite E.
Qed.

(** A layout adds nothing but white space. *)
Class BlankLayout (ly : layout) : Prop := {
  ly_good_escape : good_escape (ly_escape ly);
  ly_skip_line d s : skip_space (ly_line ly d +:+ s) = skip_space s;
  ly_after_line d c s : stops c = true → after_value (ly_line ly d +:+ String c s) = true;
  ly_skip_space s : skip_space (ly_space ly +:+ s) = skip_space s;
}.
#[export] Instance marshal_blank : BlankLayout marshal_layout.
Proof. split; [exact escape_html_good|done..]. Qed.
#[export] Instance marshal_indent_blank : BlankLayout marshal_indent_layout.
Proof. split; [exact escape_html_good|intros; apply skip_new_line|done..]. Qed.
#[export] Instance raw_indent_blank : BlankLayout raw_indent_layout.
Proof. split; [exact escape_js_good|intros; apply skip_new_line|done..]. Qed.

(** *** Reading back *)
Lemma maxNestingDepth_large : (100 ≤ maxNestingDepth)%nat.
Proof. apply Nat.leb_le. reflexivity. Qed.
#[local] Opaque maxNestingDepth.

Section Layout.
Context (ly : layout) {BL : BlankLayout ly}.

Lemma render_starts d t rest : tree_ok t = true → starts_value (render ly d t +:+ rest) = true.
Proof.
  destruct t as [| [] |text|s|[|x l]|[|kx m]]; try reflexivity.
  cbn [tree_ok render]. intros (c & r & -> & Hc & _)%number_ok_spec.
  by apply number_head_value.
Qed.

Definition reads_back (t : jtree) : Prop :=
  ∀ d pd rest fuel,
    tree_ok t = true → (pd + tree_depth t ≤ maxNestingDepth)%nat →
    (String.length (render ly d t) ≤ fuel)%nat → after_value rest = true →
    parse_value fuel pd (render ly d t +:+ rest) = Some (tree_json t, rest).

Definition item_text (d : nat) (x : jtree) : string := ly_line ly d +:+ render ly d x.
Definition member_text (d : nat) (kx : string * jtree) : string :=
  let '(k, x) := kx in
  ly_line ly d +:+ string_literal (ly_escape ly) k +:+ ":" +:+ ly_space ly +:+ render ly d x.

Lemma Join_cons2 x y l sep : Join (x :: y :: l) sep = x +:+ sep +:+ Join (y :: l) sep.
Proof. reflexivity. Qed.

Lemma list_max_cons x l : list_max (x :: l) = Nat.max x (list_max l).
Proof. reflexivity. Qed.

Lemma parse_elements_render l : ∀ x d pd rest fuel acc,
  Forall reads_back (x :: l) → forallb tree_ok (x :: l) = true →
  (pd + list_max (map tree_depth (x :: l)) ≤ maxNestingDepth)%nat →
  (String.length (Join (map (item_text d) (x :: l)) ",") < fuel)%nat →
  ∀ d', parse_elements fuel pd
          (Join (map (item_text d) (x :: l)) "," +:+ ly_line ly d' +:+ "]" +:+ rest) acc
        = Some (JArr (acc ++ map tree_json (x :: l)), rest).
Proof.
  induction l as [|y l IH]; intros x d pd rest fuel acc Hx Hok Hd Hf d';
    (destruct fuel as [|fuel]; [lia|]);
    apply Forall_cons in Hx as [Hx Hl]; cbn [forallb] in Hok;
    apply andb_true_iff in Hok as [Hokx Hokl]; cbn [map] in Hd; rewrite list_max_cons in Hd;
    cbn [map parse_elements].
  - cbn [map] in Hf. unfold Join, String.concat, item_text in Hf |- *.
    rewrite length_append in Hf.
    rewrite append_assoc, (parse_value_skip _ _ _ _ (ly_skip_line d _)).
    rewrite (Hx d pd); [|done|lia|lia|by apply (ly_after_line d')].
    by rewrite ly_skip_line.
  - cbn [map] in Hf. rewrite Join_cons2 in Hf |- *. rewrite !length_append in Hf.
    unfold item_text at 1 in Hf. unfold item_text at 1. rewrite length_append in Hf.
    change (String.length ",") with 1%nat in Hf.
    rewrite !append_assoc, (parse_value_skip _ _ _ _ (ly_skip_line d _)).
    rewrite (Hx d pd); [|done|lia|lia|done].
    cbn [skip_space String.append]. change (is_json_space ",") with false. cbn iota.
    change (String.append "," ?s) with (String "," s). cbn iota.
    specialize (IH y d pd rest fuel (acc ++ [tree_json x]) Hl Hokl).
    cbn [map] in IH. rewrite IH; [by rewrite <-app_assoc|lia|lia].
Qed.

Lemma parse_key k t :
  ValidString k = true →
  ∃ r, string_literal (ly_escape ly) k +:+ t = String (byte 34) r
       ∧ parse_string_body (S (String.length r)) r = Some (k, t).
Proof.
  intros Hk. exists (escape_string (ly_escape ly) (String.length k) k +:+ quote_char +:+ t).
  split.
  - unfold string_literal. by rewrite !append_assoc.
  - apply (parse_escaped _ ly_good_escape); [done|]. rewrite !length_append.
    pose proof (escape_string_length _ ly_good_escape k Hk). lia.
Qed.

Lemma parse_members_render m : ∀ kx d pd rest fuel acc,
  Forall (λ kx, reads_back (snd kx)) (kx :: m) →
  forallb (λ '(k, x), ValidString k && tree_ok x) (kx :: m) = true →
  (pd + list_max (map (λ '(_, x), tree_depth x) (kx :: m)) ≤ maxNestingDepth)%nat →
  (String.length (Join (map (member_text d) (kx :: m)) ",") < fuel)%nat →
  ∀ d', parse_members fuel pd
          (Join (map (member_text d) (kx :: m)) "," +:+ ly_line ly d' +:+ "}" +:+ rest) acc
        = Some (JObj (acc ++ map (λ '(k, x), (k, tree_json x)) (kx :: m)), rest).
Proof.
  induction m as [|ky m IH]; intros [k x] d pd rest fuel acc Hx Hok Hd Hf d';
    (destruct fuel as [|fuel]; [lia|]);
    apply Forall_cons in Hx as [Hx Hl]; cbn [snd] in Hx; cbn [forallb] in Hok;
    apply andb_true_iff in Hok as [[Hk Hokx]%andb_true_iff Hokl];
    cbn [map] in Hd; rewrite list_max_cons in Hd; cbn [map parse_members].
  - cbn [map] in Hf. unfold Join, String.concat, member_text in Hf |- *.
    rewrite !length_append in Hf.
    rewrite !append_assoc, ly_skip_line.
    destruct (parse_key k (":" +:+ ly_space ly +:+ render ly d x +:+ ly_line ly d' +:+ "}" +:+ rest) Hk)
      as (r & Hr & Hp).
    rewrite Hr. change (skip_space (String (byte 34) r)) with (String (byte 34) r).
    cbn iota. change (Ascii.eqb (byte 34) (byte 34)) with true. cbn iota. rewrite Hp.
    change (skip_space (":" +:+ ?s)) with (String ":" s). cbn iota.
    rewrite (parse_value_skip _ _ _ _ (ly_skip_space _)).
    rewrite (Hx d pd); [|done|lia|lia|by apply (ly_after_line d')].
    by rewrite ly_skip_line.
  - cbn [map] in Hf. rewrite Join_cons2 in Hf |- *. rewrite !length_append in Hf.
    unfold member_text at 1 in Hf. unfold member_text at 1. rewrite !length_append in Hf.
    change (String.length ",") with 1%nat in Hf.
    rewrite !append_assoc, ly_skip_line.
    set (tail := "," +:+ Join (member_text d ky :: map (member_text d) m) ","
                 +:+ ly_line ly d' +:+ "}" +:+ rest).
    destruct (parse_key k (":" +:+ ly_space ly +:+ render ly d x +:+ tail) Hk) as (r & Hr & Hp).
    rewrite Hr. change (skip_space (String (byte 34) r)) with (String (byte 34) r).
    cbn iota. change (Ascii.eqb (byte 34) (byte 34)) with true. cbn iota. rewrite Hp.
    change (skip_space (":" +:+ ?s)) with (String ":" s). cbn iota.
    rewrite (parse_value_skip _ _ _ _ (ly_skip_space _)).
    rewrite (Hx d pd); [|done|lia|lia|done].
    change (skip_space tail) with tail. subst tail.
    change (String.append "," ?s) with (String "," s). cbn iota.
    specialize (IH ky d pd rest fuel (acc ++ [(k, tree_json x)]) Hl Hokl).
    cbn [map] in IH. rewrite IH; [by rewrite <-app_assoc|lia|lia].
Qed.

Lemma skip_space_idem s : skip_space (skip_space s) = skip_space s.
Proof.
  induction s as [|c s IH]; [done|]. cbn [skip_space].
  destruct (is_json_space c) eqn:E; [done|]. cbn [skip_space]. by rewrite E.
Qed.

Lemma parse_open_array fuel pd r :
  (pd < maxNestingDepth)%nat → starts_value (skip_space r) = true →
  parse_value (S fuel) pd ("[" +:+ r) = parse_elements fuel (S pd) r [].
Proof.
  intros Hd Hr. change ("[" +:+ r) with (String "[" r). cbn [parse_value skip_space].
  change (is_json_space "[") with false. cbn iota.
  change (Ascii.eqb "[" "{"%char) with false. change (Ascii.eqb "[" "["%char) with true. cbn iota.
  destruct (Nat.leb_spec maxNestingDepth pd); [lia|].
  transitivity (parse_elements fuel (S pd) (skip_space r) []).
  - destruct (skip_space r) as [|[[] [] [] [] [] [] [] []] t]; done.
  - destruct fuel as [|fuel]; [done|]. cbn [parse_elements].
    by rewrite (parse_value_skip _ _ (skip_space r) r) by apply skip_space_idem.
Qed.
Lemma parse_open_object fuel pd r :
  (pd < maxNestingDepth)%nat → starts_value (skip_space r) = true →
  parse_value (S fuel) pd ("{" +:+ r) = parse_members fuel (S pd) r [].
Proof.
  intros Hd Hr. change ("{" +:+ r) with (String "{" r). cbn [parse_value skip_space].
  change (is_json_space "{") with false. cbn iota.
  change (Ascii.eqb "{" "{"%char) with true. cbn iota.
  destruct (Nat.leb_spec maxNestingDepth pd); [lia|].
  transitivity (parse_members fuel (S pd) (skip_space r) []).
  - destruct (skip_space r) as [|[[] [] [] [] [] [] [] []] t]; done.
  - destruct fuel as [|fuel]; [done|]. cbn [parse_members]. by rewrite skip_space_idem.
Qed.

Lemma item_starts d x l sep rest :
  tree_ok x = true →
  starts_value (skip_space (Join (map (item_text d) (x :: l)) sep +:+ rest)) = true.
Proof.
  intros Hx. assert (∃ t, Join (map (item_text d) (x :: l)) sep = item_text d x +:+ t) as [t ->].
  { destruct l as [|y l]; cbn [map]; [exists ""; by rewrite append_nil_r|by eexists]. }
  unfold item_text. rewrite !append_assoc, ly_skip_line.
  pose proof (render_starts d x (t +:+ rest) Hx). by rewrite starts_value_skip.
Qed.
Lemma member_starts d kx l sep rest :
  starts_value (skip_space (Join (map (member_text d) (kx :: l)) sep +:+ rest)) = true.
Proof.
  assert (∃ t, Join (map (member_text d) (kx :: l)) sep = member_text d kx +:+ t) as [t ->].
  { destruct l as [|y l]; cbn [map]; [exists ""; by rewrite append_nil_r|by eexists]. }
  destruct kx as [k x]. unfold member_text. by rewrite !append_assoc, ly_skip_line.
Qed.

Lemma render_parses t : reads_back t.
Proof.
  induction t as [|b|text|s|l IH|m IH] using jtree_nested_ind;
    intros d pd rest fuel Hok Hd Hf Hr;
    (destruct fuel as [|fuel];
     [pose proof (render_starts d _ "" Hok) as H0; rewrite append_nil_r in H0;
      destruct (render ly d _); [done|simpl in Hf; lia]|]).
  - by destruct rest.
  - by destruct b, rest.
  - cbn [render]. destruct (number_ok_spec text Hok) as (c & r & -> & Hc & Hp).
    cbn [String.append]. rewrite parse_value_number by done.
    change (String c (r +:+ rest)) with (String c r +:+ rest). by rewrite Hp.
  - by apply (parse_string_literal (ly_escape ly) ly_good_escape).
  - destruct l as [|x l].
    + cbn [tree_depth map list_max foldr] in Hd. cbn.
      destruct (Nat.leb_spec maxNestingDepth pd); [lia|done].
    + change (render ly d (TArr (x :: l))) with
        ("[" +:+ Join (map (item_text (S d)) (x :: l)) "," +:+ ly_line ly d +:+ "]") in Hf |- *.
      rewrite !append_assoc. rewrite !length_append in Hf.
      change (tree_depth (TArr (x :: l))) with (S (list_max (map tree_depth (x :: l)))) in Hd.
      change (tree_ok (TArr (x :: l))) with (forallb tree_ok (x :: l)) in Hok.
      change (String.length "[") with 1%nat in Hf. change (String.length "]") with 1%nat in Hf.
      rewrite parse_open_array; [|lia|apply item_starts; cbn in Hok; by destruct (tree_ok x)].
      rewrite (parse_elements_render l x (S d) (S pd)); [done|done|done|lia|lia].
  - destruct m as [|kx m].
    + cbn [tree_depth map list_max foldr] in Hd. cbn.
      destruct (Nat.leb_spec maxNestingDepth pd); [lia|done].
    + change (render ly d (TObj (kx :: m))) with
        ("{" +:+ Join (map (member_text (S d)) (kx :: m)) "," +:+ ly_line ly d +:+ "}") in Hf |- *.
      rewrite !append_assoc. rewrite !length_append in Hf.
      change (tree_depth (TObj (kx :: m)))
        with (S (list_max (map (λ '(_, x), tree_depth x) (kx :: m)))) in Hd.
      change (tree_ok (TObj (kx :: m)))
        with (forallb (λ '(k, x), ValidString k && tree_ok x) (kx :: m)) in Hok.
      change (String.length "{") with 1%nat in Hf.
      change (String.length "{") with 1%nat in Hf. change (String.length "}") with 1%nat in Hf.
      rewrite parse_open_object; [|lia|apply member_starts].
      rewrite (parse_members_render m kx (S d) (S pd)); [done|done|done|lia|lia].
Qed.

End Layout.

(** The whole text, also with white space after it. *)
Lemma rendered_parses ly `{!BlankLayout ly} t rest :
  tree_ok t = true → (tree_depth t ≤ maxNestingDepth)%nat →
  after_value rest = true → skip_space rest = "" →
  parse_json (render ly 0 t +:+ rest) = Some (tree_json t).
Proof.
  intros Hok Hd Hr Hs. unfold parse_json. rewrite (render_parses ly t 0%nat 0%nat rest).
  - by rewrite Hs.
  - done.
  - done.
  - rewrite length_append. lia.
  - done.
Qed.
Lemma indented_parses t :
  tree_ok t = true → (tree_depth t ≤ maxNestingDepth)%nat →
  parse_json (indented t) = Some (tree_json t).
Proof.
  intros Hok Hd. unfold indented. apply Nat.leb_le in Hd as Hd'. rewrite Hd'.
  rewrite <-(append_nil_r (render _ _ _)). by apply (rendered_parses raw_indent_layout).
Qed.

(** An integer is written as a JSON number. *)
Lemma pretty_N_go_nonzero (x : N) (s : string) :
  (0 < x)%N → ∃ c r, pretty_N_go x s = String c r ∧ Ascii.eqb c "0"%char = false.
Proof.
  revert s. induction (N.lt_wf_0 x) as [x _ IH]; intros s Hx.
  rewrite pretty_N_go_step by done.
  destruct (decide (x `div` 10 = 0)%N) as [E|E].
  - rewrite E, pretty_N_go_0. eexists _, _. split; [done|].
    apply N.div_small_iff in E; [|done]. rewrite N.mod_small by done.
    destruct (Ascii.eqb_spec (pretty_N_char x) "0") as [Hc|]; [|done].
    destruct (pretty_N_char_digit x E) as [_ Hv]. rewrite Hc in Hv. vm_compute in Hv. lia.
  - apply IH; [by apply N.div_lt|by apply N.neq_0_lt_0].
Qed.
Lemma span_all p s : string_forall p s = true → span p s = (s, "").
Proof.
  induction s as [|c s IH]; [done|]. cbn [string_forall span].
  intros [-> Hs]%andb_true_iff. by rewrite IH.
Qed.
Lemma int_part_pretty (x : N) : int_part (pretty x) = (pretty x, "").
Proof.
  unfold pretty, pretty_N. case_decide; [done|].
  destruct (pretty_N_go_nonzero x "") as (c & r & Hc & H0); [lia|].
  assert (string_forall is_digit (pretty_N_go x "") = true) as Hd
    by (by apply string_forall_pretty_N_go).
  rewrite Hc in Hd |- *. cbn [int_part]. rewrite H0. by apply span_all.
Qed.
Lemma parse_unsigned (neg : bool) (x : N) :
  (let '(ip, r) := int_part (pretty x) in
   if String.eqb ip "" then None
   else match frac_part r with
        | None => None
        | Some (fp, r) =>
            match exp_part r, digits_value 0 (ip +:+ fp) with
            | Some (e, t), Some d => Some (JNum neg d (e - Z.of_nat (String.length fp)), t)
            | _, _ => None
            end
        end) = Some (JNum neg (Z.of_N x) 0, "").
Proof.
  rewrite int_part_pretty. pose proof (parse_uint_pretty x) as Hv. unfold parse_uint in Hv.
  destruct (pretty x) as [|c r] eqn:E; [done|]. cbn [String.eqb frac_part exp_part].
  by rewrite append_nil_r, Hv.
Qed.
Lemma parse_number_Itoa z :
  parse_number (Itoa z) = Some (JNum (z <? 0) (Z.abs z) 0, "").
Proof.
  assert (∀ x : N, parse_number (pretty x) = Some (JNum false (Z.of_N x) 0, "")) as Hpos.
  { intros x. unfold parse_number. rewrite <-(parse_unsigned false x).
    destruct (pretty_N_head x) as (c & r & -> & Hc).
    destruct (Ascii.eqb_spec c "-"%char) as [->|]; done. }
  unfold Itoa. destruct z as [|p|p]; [apply (Hpos 0%N)|apply (Hpos (Npos p))|].
  change (pretty (Zneg p)) with ("-" +:+ pretty (Npos p)).
  unfold parse_number. cbn [String.append].
  change (Ascii.eqb "-" "-") with true. cbn iota. apply (parse_unsigned true (Npos p)).
Qed.
Lemma number_ok_Itoa z : number_ok (Itoa z) = true.
Proof. unfold number_ok. by rewrite parse_number_Itoa. Qed.
