(* ===== verification/JsonDecode.v ===== *)
(** * Package encoding/json: decoding into typed values

    A decoder is given the texts of the values that are decoded into one
    variable, one after the other, starting from its zero value: a member that
    an object names twice is decoded into what its first value has left, and the
    elements of a slice are decoded into those that were there before.  [None]
    is an error; its text is a parameter ([DecodeErrors]).  Shown: what
    [json.Marshal] writes of a tree is cut into the texts of its parts. *)

From S2P Require Export JsonEncode.
#[local] Set Warnings "-register-all".
From Stdlib Require Import Ascii.

Open Scope Z_scope.

Abbreviation Decoder A := (list string → option A) (only parsing).

(** ** The parts of a text *)

(** The text of the value at the head of [s], and what follows it. *)
Definition value_text (s : string) : option (string * string) :=
  let s := skip_space s in
  match parse_value (2 * String.length s + 2) 0 s with
  | Some (_, r) => Some (string_take (String.length s - String.length r) s, r)
  | None => None
  end.

Fixpoint member_texts (fuel : nat) (s : string) : option (list (string * string)) :=
  match fuel with
  | O => None
  | S fuel =>
      match skip_space s with
      | String q r =>
          if Ascii.eqb q (byte 34) then
            match parse_string_body (S (String.length r)) r with
            | None => None
            | Some (k, r) =>
                match skip_space r with
                | String ":"%char r =>
                    match value_text r with
                    | None => None
                    | Some (v, r) =>
                        match skip_space r with
                        | String ","%char t => cons (k, v) <$> member_texts fuel t
                        | String "}"%char _ => Some [(k, v)]
                        | _ => None
                        end
                    end
                | _ => None
                end
            end
          else None
      | "" => None
      end
  end.
(** The members of an object; [None] when the value is not one. *)
Definition raw_members (raw : string) : option (list (string * string)) :=
  match raw with
  | String "{"%char r =>
      match skip_space r with
      | String "}"%char _ => Some []
      | t => member_texts (String.length raw) t
      end
  | _ => None
  end.

Fixpoint element_texts (fuel : nat) (s : string) : option (list string) :=
  match fuel with
  | O => None
  | S fuel =>
      match value_text s with
      | None => None
      | Some (v, r) =>
          match skip_space r with
          | String ","%char t => cons v <$> element_texts fuel t
          | String "]"%char _ => Some [v]
          | _ => None
          end
      end
  end.
(** The elements of an array. *)
Definition raw_elements (raw : string) : option (list string) :=
  match raw with
  | String "["%char r =>
      match skip_space r with
      | String "]"%char _ => Some []
      | t => element_texts (String.length raw) t
      end
  | _ => None
  end.

(** ** Scalars *)
Definition is_null (raw : string) : bool := String.eqb raw "null".

Definition read_string (raw : string) : option string :=
  match parse_json raw with Some (JStr s) => Some s | _ => None end.
Definition read_bool (raw : string) : option bool :=
  match parse_json raw with Some (JBool b) => Some b | _ => None end.
(** An [int] takes the number literals that [strconv.ParseInt] does. *)
Definition read_int (raw : string) : option Z := Atoi raw.
Definition read_float (raw : string) : option float64 :=
  match parse_json raw with Some (JNum neg d e) => decimal_float neg d e | _ => None end.
Definition read_any (raw : string) : option any := parse_json raw ≫= to_any.

(** Null leaves a scalar alone. *)
Definition decode_scalar {A} (zero : A) (read : string → option A) : Decoder A :=
  λ raws, (λ l, List.last l zero) <$> mapM read (List.filter (λ r, negb (is_null r)) raws).
Definition decode_string : Decoder string := decode_scalar "" read_string.
Definition decode_bool : Decoder bool := decode_scalar false read_bool.
Definition decode_int : Decoder Z := decode_scalar 0 read_int.
Definition decode_float : Decoder float64 := decode_scalar f0 read_float.
(** A pointer: null makes it nil, another value is decoded into what it points
    to. *)
Fixpoint decode_pointee {A} (elem : Decoder A) (into raws : list string) : option (option A) :=
  match raws with
  | [] => match into with [] => Some None | _ => Some <$> elem into end
  | raw :: raws =>
      if is_null raw then _ ← elem into; decode_pointee elem [] raws
      else decode_pointee elem (into ++ [raw]) raws
  end.
Definition decode_pointer {A} (elem : Decoder A) : Decoder (option A) := decode_pointee elem [].
(** An interface, and a [json.RawMessage], which keeps the text, null included. *)
Definition decode_any : Decoder any := λ raws, (λ l, List.last l VNil) <$> mapM read_any raws.
Definition decode_raw : Decoder string := λ raws, Some (List.last raws "").

(** ** Maps and slices *)

(** A map keeps its entries; null makes it nil. *)
Definition decode_entries {A} (elem : Decoder A) (m : gmap string A) (kvs : list (string * string))
  : option (gmap string A) :=
  fold_left (λ m '(k, v), m ← m; x ← elem [v]; Some (<[k := x]> m)) kvs (Some m).
Definition decode_map {A} (elem : Decoder A) : Decoder (option (gmap string A)) :=
  λ raws, fold_left (λ m raw,
    m ← m;
    if is_null raw then Some None
    else kvs ← raw_members raw; Some <$> decode_entries elem (default ∅ m) kvs) raws (Some None).

(** The rows are the arrays since the slice was last nil or empty: an element is
    decoded into what the arrays before have left at its place, which stays when
    an array is shorter. *)
Definition columns (rows : list (list string)) : list (list string) :=
  map (λ i, omap (λ row, row !! i) rows) (seq 0 (list_max (map length rows))).
Definition decode_rows {A} (elem : Decoder A) (rows : list (list string)) : option (list A) :=
  take (length (List.last rows [])) <$> mapM elem (columns rows).
Fixpoint decode_arrays {A} (elem : Decoder A) (rows : list (list string)) (nil : bool)
    (raws : list string) : option (option (list A)) :=
  match raws with
  | [] => xs ← decode_rows elem rows; Some (if nil then None else Some xs)
  | raw :: raws =>
      if is_null raw then _ ← decode_rows elem rows; decode_arrays elem [] true raws
      else row ← raw_elements raw;
           match row with
           | [] => _ ← decode_rows elem rows; decode_arrays elem [] false raws
           | _ => decode_arrays elem (rows ++ [row]) false raws
           end
  end.
Definition decode_slice {A} (elem : Decoder A) : Decoder (option (list A)) :=
  decode_arrays elem [] true.

(** ** Structs *)

(** Names are compared under case folding; beside the letters themselves, the
    long s and the Kelvin sign fold to letters of ASCII. *)
Fixpoint fold_name (s : string) : string :=
  match s with
  | "" => ""
  | String a r =>
      let other := String (byte_upper a) (fold_name r) in
      match r with
      | String b r2 =>
          if Ascii.eqb a (byte 197) && Ascii.eqb b (byte 191) then String "S" (fold_name r2)
          else match r2 with
               | String c r3 =>
                   if Ascii.eqb a (byte 226) && Ascii.eqb b (byte 132) && Ascii.eqb c (byte 170)
                   then String "K" (fold_name r3) else other
               | "" => other
               end
      | "" => other
      end
  end.
(** The field that a key names: its name, or else one that is equal up to case. *)
Definition key_field (names : list string) (key : string) : option string :=
  if existsb (String.eqb key) names then Some key
  else List.find (λ n, String.eqb (fold_name n) (fold_name key)) names.

(** The members of a struct; null has none.  A strict decoder refuses a member
    that names no field ([DisallowUnknownFields]). *)
Definition struct_members (strict : bool) (names : list string) (raws : list string)
  : option (list (string * string)) :=
  ms ← mapM (λ raw, if is_null raw then Some [] else raw_members raw) raws;
  let ms := concat ms in
  if strict && negb (forallb (λ '(k, _), bool_decide (is_Some (key_field names k))) ms) then None
  else Some ms.
Definition field_texts (names : list string) (ms : list (string * string)) (name : string)
  : list string :=
  omap (λ '(k, v), if decide (key_field names k = Some name) then Some v else None) ms.

(** ** Whole texts *)
Class DecodeErrors := { decode_error : bool → string → string → string }.
Definition plain_errors : DecodeErrors := {| decode_error _ _ raw := raw |}.

(** [json.Unmarshal] into a variable of the type named [type]. *)
Definition unmarshal_into `{DecodeErrors} {A} (type : string) (decode : Decoder A) (raw : string)
  : result A :=
  match value_text raw with
  | Some (text, rest) =>
      if String.eqb (skip_space rest) "" then
        match decode [text] with Some v => Ok v | None => Err (decode_error false type raw) end
      else Err (decode_error false type raw)
  | None => Err (decode_error false type raw)
  end.
(** [Decode] of a decoder: the first value; what follows it is not looked at. *)
Definition decode_first `{DecodeErrors} {A} (strict : bool) (type : string) (decode : Decoder A)
    (raw : string) : result A :=
  match value_text raw with
  | Some (text, _) =>
      match decode [text] with Some v => Ok v | None => Err (decode_error strict type raw) end
  | None => Err (decode_error strict type raw)
  end.

(** ** What is written is cut into its parts *)

Section Rendered.
Context (ly : layout) {BL : BlankLayout ly}.

(** A tree that a decoder can read back. *)
Definition readable (t : jtree) : Prop :=
  tree_ok t = true ∧ (tree_depth t ≤ maxNestingDepth)%nat.

Lemma value_text_skip s s' : skip_space s = skip_space s' → value_text s = value_text s'.
Proof. unfold value_text. by intros ->. Qed.
Lemma value_text_render d t rest :
  readable t → after_value rest = true →
  value_text (render ly d t +:+ rest) = Some (render ly d t, rest).
Proof.
  intros [Hok Hd] Hr. unfold value_text.
  rewrite starts_value_skip by (by apply render_starts).
  rewrite (render_parses ly t d 0%nat rest); [|done|done|rewrite length_append; lia|done].
  do 2 f_equal. rewrite length_append.
  replace (_ + String.length rest - String.length rest)%nat with (String.length (render ly d t)) by lia.
  apply string_take_app.
Qed.
Lemma value_text_whole d t : readable t → value_text (render ly d t) = Some (render ly d t, "").
Proof. intros Ht. rewrite <-(append_nil_r (render ly d t)) at 1. by apply value_text_render. Qed.

Lemma readable_members k x m :
  readable (TObj ((k, x) :: m)) → ValidString k = true ∧ readable x ∧ readable (TObj m).
Proof.
  unfold readable. cbn [tree_ok forallb tree_depth map]. rewrite list_max_cons.
  intros [[[Hk Hx]%andb_true_iff Hm]%andb_true_iff Hd]. split; [done|]. split; split; [done|lia|done|].
  cbn [tree_depth]. lia.
Qed.
Lemma readable_elements x l : readable (TArr (x :: l)) → readable x ∧ readable (TArr l).
Proof.
  unfold readable. cbn [tree_ok forallb tree_depth map]. rewrite list_max_cons.
  intros [[Hx Hm]%andb_true_iff Hd]. split; split; [done|lia|done|]. cbn [tree_depth]. lia.
Qed.

Definition texts_of (d : nat) : list (string * jtree) → list (string * string) :=
  map (λ '(k, x), (k, render ly d x)).

Lemma member_texts_render m : ∀ kx d d' rest fuel,
  readable (TObj (kx :: m)) → (length m < fuel)%nat →
  member_texts fuel (Join (map (member_text ly d) (kx :: m)) "," +:+ ly_line ly d' +:+ "}" +:+ rest)
  = Some (texts_of d (kx :: m)).
Proof.
  induction m as [|ky m IH]; intros [k x] d d' rest fuel (Hk & Hx & Hm)%readable_members Hf;
    (destruct fuel as [|fuel]; [cbn in Hf; lia|]); cbn [map member_texts].
  - unfold Join, String.concat, member_text. rewrite !append_assoc, ly_skip_line.
    destruct (parse_key ly k (":" +:+ ly_space ly +:+ render ly d x +:+ ly_line ly d' +:+ "}" +:+ rest) Hk)
      as (r & -> & Hp).
    change (skip_space (String (byte 34) r)) with (String (byte 34) r). cbn iota.
    change (Ascii.eqb (byte 34) (byte 34)) with true. cbn iota. rewrite Hp.
    change (skip_space (":" +:+ ?s)) with (String ":" s). cbn iota.
    rewrite (value_text_skip _ _ (ly_skip_space _)).
    rewrite value_text_render by (try done; by apply (ly_after_line d')). by rewrite ly_skip_line.
  - rewrite Join_cons2. unfold member_text at 1. rewrite !append_assoc, ly_skip_line.
    set (tail := "," +:+ Join (member_text ly d ky :: map (member_text ly d) m) ","
                 +:+ ly_line ly d' +:+ "}" +:+ rest).
    destruct (parse_key ly k (":" +:+ ly_space ly +:+ render ly d x +:+ tail) Hk) as (r & -> & Hp).
    change (skip_space (String (byte 34) r)) with (String (byte 34) r). cbn iota.
    change (Ascii.eqb (byte 34) (byte 34)) with true. cbn iota. rewrite Hp.
    change (skip_space (":" +:+ ?s)) with (String ":" s). cbn iota.
    rewrite (value_text_skip _ _ (ly_skip_space _)), value_text_render by done.
    change (skip_space tail) with tail. subst tail.
    change (String.append "," ?s) with (String "," s). cbn iota.
    change (member_text ly d ky :: map (member_text ly d) m) with (map (member_text ly d) (ky :: m)).
    rewrite IH by (try done; cbn in Hf; lia). done.
Qed.
Lemma element_texts_render l : ∀ x d d' rest fuel,
  readable (TArr (x :: l)) → (length l < fuel)%nat →
  element_texts fuel (Join (map (item_text ly d) (x :: l)) "," +:+ ly_line ly d' +:+ "]" +:+ rest)
  = Some (map (render ly d) (x :: l)).
Proof.
  induction l as [|y l IH]; intros x d d' rest fuel (Hx & Hl)%readable_elements Hf;
    (destruct fuel as [|fuel]; [cbn in Hf; lia|]); cbn [map element_texts].
  - unfold Join, String.concat, item_text. rewrite append_assoc, (value_text_skip _ _ (ly_skip_line d _)).
    rewrite value_text_render by (try done; by apply (ly_after_line d')). by rewrite ly_skip_line.
  - rewrite Join_cons2. unfold item_text at 1. rewrite !append_assoc, (value_text_skip _ _ (ly_skip_line d _)).
    rewrite value_text_render by done.
    change (skip_space ("," +:+ ?s)) with (String "," s). cbn iota.
    change (item_text ly d y :: map (item_text ly d) l) with (map (item_text ly d) (y :: l)).
    rewrite IH by (try done; cbn in Hf; lia). done.
Qed.

Lemma Join_length (l : list string) : (length l ≤ S (String.length (Join l ",")))%nat.
Proof.
  induction l as [|x [|y l] IH]; [cbn; lia|cbn; lia|].
  rewrite Join_cons2, !length_append. change (String.length ",") with 1%nat.
  cbn [length] in *. lia.
Qed.
Lemma raw_members_render d m :
  readable (TObj m) → raw_members (render ly d (TObj m)) = Some (texts_of (S d) m).
Proof.
  destruct m as [|kx m]; [done|]. intros Hm.
  change (render ly d (TObj (kx :: m)))
    with ("{" +:+ Join (map (member_text ly (S d)) (kx :: m)) "," +:+ ly_line ly d +:+ "}").
  set (body := Join _ _ +:+ _). change ("{" +:+ body) with (String "{" body). unfold raw_members.
  pose proof (member_starts ly (S d) kx m "," (ly_line ly d +:+ "}")) as Hs. fold body in Hs.
  transitivity (member_texts (String.length (String "{" body)) (skip_space body)).
  { destruct (skip_space body) as [|[[] [] [] [] [] [] [] []] r]; done. }
  transitivity (member_texts (String.length (String "{" body)) body).
  { cbn [String.length member_texts]. by rewrite skip_space_idem. }
  subst body. replace (ly_line ly d +:+ "}") with (ly_line ly d +:+ "}" +:+ "") by done.
  apply member_texts_render; [done|]. pose proof (Join_length (map (member_text ly (S d)) (kx :: m))) as Hl.
  rewrite length_map in Hl. cbn [length String.length] in *. rewrite length_append. lia.
Qed.
Lemma raw_elements_render d l :
  readable (TArr l) → raw_elements (render ly d (TArr l)) = Some (map (render ly (S d)) l).
Proof.
  destruct l as [|x l]; [done|]. intros Hm.
  change (render ly d (TArr (x :: l)))
    with ("[" +:+ Join (map (item_text ly (S d)) (x :: l)) "," +:+ ly_line ly d +:+ "]").
  set (body := Join _ _ +:+ _). change ("[" +:+ body) with (String "[" body). unfold raw_elements.
  assert (starts_value (skip_space body) = true) as Hs.
  { destruct (readable_elements _ _ Hm) as [[Hx _] _]. by apply item_starts. }
  transitivity (element_texts (String.length (String "[" body)) (skip_space body)).
  { destruct (skip_space body) as [|[[] [] [] [] [] [] [] []] r]; done. }
  transitivity (element_texts (String.length (String "[" body)) body).
  { cbn [String.length element_texts].
    by rewrite (value_text_skip (skip_space body) body) by apply skip_space_idem. }
  subst body. replace (ly_line ly d +:+ "]") with (ly_line ly d +:+ "]" +:+ "") by done.
  apply element_texts_render; [done|]. pose proof (Join_length (map (item_text ly (S d)) (x :: l))) as Hl.
  rewrite length_map in Hl. cbn [length String.length] in *. rewrite length_append. lia.
Qed.
End Rendered.

(** *** The decoders on what is written *)
Section Decodes.
Context (ly : layout) {BL : BlankLayout ly}.

Definition decodes {A} (decode : Decoder A) (t : jtree) (a : A) : Prop :=
  ∀ d, decode [render ly d t] = Some a.

Lemma parse_rendered d t : readable t → parse_json (render ly d t) = Some (tree_json t).
Proof.
  intros [Hok Hd]. unfold parse_json. rewrite <-(append_nil_r (render ly d t)) at 2.
  by rewrite (render_parses ly t d 0%nat "") by (try done; lia).
Qed.
Lemma is_null_render d t : readable t → is_null (render ly d t) = true → tree_json t = JNull.
Proof.
  intros Ht Hn. apply String.eqb_eq in Hn. pose proof (parse_rendered d t Ht) as Hp.
  rewrite Hn in Hp. by injection Hp as <-.
Qed.
Lemma not_null d t : readable t → tree_json t ≠ JNull → is_null (render ly d t) = false.
Proof. intros Ht Hn. destruct (is_null _) eqn:E; [|done]. by apply is_null_render in E. Qed.
Lemma number_not_null text :
  number_ok text = true → is_null text = false.
Proof. intros H. destruct (is_null text) eqn:E; [|done]. by apply String.eqb_eq in E as ->. Qed.

Lemma readable_str s : ValidString s = true → readable (TStr s).
Proof. split; [done|cbn; lia]. Qed.
Lemma readable_num text : number_ok text = true → readable (TNum text).
Proof. split; [done|cbn; lia]. Qed.

Lemma decodes_scalar {A} (zero : A) read t a :
  (∀ d, read (render ly d t) = Some a) → (∀ d, is_null (render ly d t) = false) →
  decodes (decode_scalar zero read) t a.
Proof.
  intros Hr Hn d. unfold decode_scalar. cbn [List.filter]. rewrite Hn. cbn [negb].
  cbn. by rewrite Hr.
Qed.
Lemma decodes_pointer {A} (elem : Decoder A) t a :
  decodes elem t a → (∀ d, is_null (render ly d t) = false) →
  decodes (decode_pointer elem) t (Some a).
Proof. intros Hr Hn d. unfold decode_pointer. cbn. by rewrite Hn, Hr. Qed.

Lemma decodes_string s : ValidString s = true → decodes decode_string (TStr s) s.
Proof.
  intros Hs. apply decodes_scalar; intros d.
  - unfold read_string. by rewrite parse_rendered by (by apply readable_str).
  - by apply not_null; [apply readable_str|].
Qed.
Lemma read_int_render d z : in_int64 z = true → read_int (render ly d (TNum (Itoa z))) = Some z.
Proof. apply Atoi_Itoa. Qed.
Lemma is_null_Itoa d z : is_null (render ly d (TNum (Itoa z))) = false.
Proof. apply number_not_null, number_ok_Itoa. Qed.
Lemma decodes_int z : in_int64 z = true → decodes decode_int (TNum (Itoa z)) z.
Proof. intros Hz. apply decodes_scalar; intros d; [by apply read_int_render|apply is_null_Itoa]. Qed.
Lemma decodes_int_pointer z :
  in_int64 z = true → decodes (decode_pointer decode_int) (TNum (Itoa z)) (Some z).
Proof. intros Hz. apply decodes_pointer; [by apply decodes_int|intros d; apply is_null_Itoa]. Qed.

(** A float whose text reads back. *)
Definition float_reads (f : float64) (text : string) : Prop :=
  json_float f = Some text ∧ number_ok text = true ∧ read_float text = Some f.
Lemma decodes_float_pointer f text :
  float_reads f text → decodes (decode_pointer decode_float) (TNum text) (Some f).
Proof.
  intros (_ & Hn & Hr).
  apply decodes_pointer; [apply decodes_scalar; intros d|intros d]; [done|by apply number_not_null..].
Qed.

(** A value that is null leaves nothing. *)
Lemma decodes_nil_map {A} (elem : Decoder A) : decodes (decode_map elem) TNull None.
Proof. done. Qed.
Lemma decodes_nil_slice {A} (elem : Decoder A) : decodes (decode_slice elem) TNull None.
Proof. done. Qed.

Lemma decode_entries_render {A} (elem : Decoder A) (enc : A → jtree) d (m : gmap string A) kvs :
  Forall (λ kv, decodes elem (enc kv.2) kv.2) kvs →
  decode_entries elem m (texts_of ly d (map (λ '(k, v), (k, enc v)) kvs))
  = Some (foldl (λ m '(k, v), <[k := v]> m) m kvs).
Proof.
  unfold decode_entries. revert m. induction kvs as [|[k v] kvs IH]; intros m H; [done|].
  apply Forall_cons in H as [Hv H]. cbn. cbn in Hv. rewrite (Hv d). cbn. by apply IH.
Qed.
Lemma foldl_insert {A} (h : gmap string A) kvs (m : gmap string A) :
  (∀ k v, (k, v) ∈ kvs → h !! k = Some v) → (∀ k v, h !! k = Some v → (k, v) ∈ kvs ∨ m !! k = Some v) →
  (∀ k v, m !! k = Some v → h !! k = Some v) →
  foldl (λ m '(k, v), <[k := v]> m) m kvs = h.
Proof.
  revert m. induction kvs as [|[k v] kvs IH]; intros m Hk Hh Hm; cbn.
  - apply map_eq. intros k. apply option_eq. intros v. split; [apply Hm|].
    intros Hv. destruct (Hh k v Hv) as [Hn|]; [by apply elem_of_nil in Hn|done].
  - apply IH.
    + intros k' v' Hin. apply Hk. by right.
    + intros k' v' Hv. destruct (decide (k = k')) as [->|Hne].
      * right. rewrite lookup_insert_eq. f_equal. apply (inj Some). rewrite <-Hv. symmetry. apply Hk. left.
      * rewrite lookup_insert_ne by done. destruct (Hh k' v' Hv) as [Hin|]; [|by right].
        apply elem_of_cons in Hin as [[= -> ->]|Hin]; [done|by left].
    + intros k' v' [[<- <-]|[Hne Hv]]%lookup_insert_Some; [apply Hk; left|by apply Hm].
Qed.

Lemma decodes_strings (h : option (gmap string string)) :
  readable (strings_tree h) → decodes (decode_map decode_string) (strings_tree h) h.
Proof.
  destruct h as [h|]; [|done]. intros Ht d.
  set (kvs := map (λ k, (k, default "" (h !! k))) (sort_strings (map fst (map_to_list h)))).
  assert (∀ k v, (k, v) ∈ kvs ↔ h !! k = Some v) as Hkvs.
  { intros k v. unfold kvs. rewrite list_elem_of_fmap. setoid_rewrite sort_strings_perm.
    setoid_rewrite list_elem_of_fmap. split.
    - intros (k' & [= -> ->] & [k2 v2] & -> & Hin%elem_of_map_to_list). cbn. by rewrite Hin.
    - intros Hv. exists k. split; [by rewrite Hv|]. exists (k, v). by rewrite elem_of_map_to_list. }
  assert (strings_tree (Some h) = TObj (map (λ '(k, v), (k, TStr v)) kvs)) as Heq.
  { unfold kvs. rewrite map_map. done. }
  rewrite Heq in Ht |- *. unfold decode_map. cbn [fold_left].
  rewrite not_null by done. cbn [mbind option_bind].
  rewrite raw_members_render by done. cbn [mbind option_bind default].
  change (from_option id ∅ None) with (∅ : gmap string string).
  rewrite (decode_entries_render decode_string TStr).
  - cbn. do 2 f_equal. apply foldl_insert.
    + intros k v. by rewrite Hkvs.
    + intros k v Hv. left. by apply Hkvs.
    + intros k v. by rewrite lookup_empty.
  - destruct Ht as [Ht _]. cbn [tree_ok] in Ht. rewrite forallb_forall in Ht.
    apply Forall_forall. intros [k v] Hin%list_elem_of_In. apply decodes_string.
    apply (in_map (λ '(k, v), (k, TStr v))) in Hin. by apply Ht, andb_true_iff in Hin as [_ Hv].
Qed.

(** *** Slices and structs *)
Lemma columns_one (row : list string) : columns [row] = map (λ x, [x]) row.
Proof.
  unfold columns. cbn [map list_max foldr]. rewrite Nat.max_0_r.
  apply list_eq. intros i. rewrite !list_lookup_fmap. destruct (row !! i) as [x|] eqn:E.
  - rewrite lookup_seq_lt by (by eapply lookup_lt_Some). cbn. by rewrite E.
  - rewrite lookup_seq_ge by (by apply lookup_ge_None). done.
Qed.
Lemma readable_items {A} (enc : A → jtree) l x :
  readable (TArr (map enc l)) → x ∈ l → readable (enc x).
Proof.
  induction l as [|y l IH]; [by intros _ ?%elem_of_nil|]. intros [Hy Hl]%readable_elements.
  intros [->|Hx]%elem_of_cons; [done|by apply IH].
Qed.
Lemma decodes_slice {A} (elem : Decoder A) (enc : A → jtree) (canon : A → A) l :
  readable (TArr (map enc l)) → (∀ x, x ∈ l → readable (enc x) → decodes elem (enc x) (canon x)) →
  decodes (decode_slice elem) (TArr (map enc l)) (Some (map canon l)).
Proof.
  intros Ht Hl d. unfold decode_slice. cbn [decode_arrays]. rewrite not_null by done.
  rewrite raw_elements_render by done. cbn [mbind option_bind].
  assert (∀ x, x ∈ l → elem [render ly (S d) (enc x)] = Some (canon x)) as Hx.
  { intros x Hx. apply Hl; [done|]. by eapply readable_items. }
  assert (decode_rows elem [map (render ly (S d)) (map enc l)] = Some (map canon l)) as Hrows.
  { unfold decode_rows. rewrite columns_one. cbn [List.last]. rewrite !map_map, length_map.
    assert (mapM elem (map (λ x, [render ly (S d) (enc x)]) l) = Some (map canon l)) as ->.
    { clear Ht Hl. induction l as [|x l IH]; [done|]. cbn.
      rewrite (Hx x (list_elem_of_here _ _)). cbn.
      rewrite IH; [done|]. intros y Hy. apply Hx. by right. }
    cbn. f_equal. rewrite <-(length_map canon l). apply firstn_all. }
  destruct l as [|x l]; [done|]. cbn [map] in *. cbn [decode_arrays app]. by rewrite Hrows.
Qed.

Lemma struct_members_render strict names d m :
  readable (TObj m) →
  forallb (λ '(k, _), bool_decide (is_Some (key_field names k))) m = true →
  struct_members strict names [render ly d (TObj m)] = Some (texts_of ly (S d) m).
Proof.
  intros Ht Hn. unfold struct_members. cbn [mapM]. cbn [mbind option_bind].
  rewrite not_null by done. rewrite raw_members_render by done. cbn [mbind option_bind mret option_ret concat].
  rewrite app_nil_r.
  assert (forallb (λ '(k, _), bool_decide (is_Some (key_field names k))) (texts_of ly (S d) m) = true) as ->.
  { rewrite forallb_forall in Hn |- *. intros [k v] Hin. unfold texts_of in Hin.
    apply in_map_iff in Hin as ([k' x] & [= -> _] & Hin). apply (Hn _ Hin). }
  by rewrite andb_false_r.
Qed.
(** The values of a field in a tree. *)
Definition field_trees (names : list string) (m : list (string * jtree)) (name : string) : list jtree :=
  omap (λ '(k, x), if decide (key_field names k = Some name) then Some x else None) m.
Lemma field_texts_render names d m name :
  field_texts names (texts_of ly d m) name = map (render ly d) (field_trees names m name).
Proof.
  unfold field_texts, field_trees. induction m as [|[k x] m IH]; [done|]. cbn.
  destruct (decide _); cbn; by rewrite IH.
Qed.
End Decodes.

(** ** Examples *)
Example fold_name_examples :
  map fold_name ["userId"; "u" +:+ bytes_of [197; 191]%N +:+ "er"; bytes_of [226; 132; 170]%N +:+ "ey"]
  = ["USERID"; "USER"; "KEY"].
Proof. reflexivity. Qed.
Definition quotes (s : string) : string :=
  string_map (λ c, if Ascii.eqb c "'"%char then byte 34 else c) s.
Example raw_members_examples :
  raw_members (quotes "{'a' : [1, {'b':2}] , 'A':null}")
  = Some [("a", quotes "[1, {'b':2}]"); ("A", "null")]
  ∧ raw_elements (quotes "[ {'a':1},2 , []]") = Some [quotes "{'a':1}"; "2"; "[]"].
Proof. vm_compute. done. Qed.
(** A shorter array keeps what lies beyond it for a later one. *)
Example decode_slice_examples :
  map (decode_slice decode_int)
    [["[1,2,3]"]; ["[1,2,3]"; "[null]"; "[7,null]"]; ["[1]"; "null"; "[null]"]; ["[1]"; "[]"];
     ["[1.0]"]; ["[9223372036854775808]"]; []]
  = [Some (Some [1; 2; 3]); Some (Some [7; 2]); Some (Some [0]); Some (Some []); None; None; Some None].
Proof. vm_compute. done. Qed.
