(* ===== verification/Scenario.v ===== *)
(** * Scenarios (src/apps/api/internal/scenario/schema.go)

    The scenario contract: its data, [Normalized], [WithEnv], [Validate] and
    [LoadFile].  A Go slice is a list; where nil and empty differ in what the
    program prints (the expected statuses) it is an [option].  A Go map is an
    optional [gmap], [None] being the nil map. *)

From S2P Require Export GoUrl JsonDecode.
From Stdlib Require Import Ascii.

Open Scope Z_scope.

(** ** Data *)
Definition CurrentVersion : Z := 1.

(** [TrafficType] is a string type with five named values; the decoder accepts
    any other string, which [Validate] then refuses. *)
Definition TrafficLoad : string := "load".
Definition TrafficBurst : string := "burst".
Definition TrafficSpike : string := "spike".
Definition TrafficRace : string := "race".
Definition TrafficRetryStorm : string := "retry_storm".

Abbreviation headers := (option (gmap string string)) (only parsing).

Record Target := {
  Target_ID : string;
  Target_BaseURL : string;
  Target_Headers : headers;
}.
Record RetryPolicy := {
  RetryPolicy_Attempts : Z;
  RetryPolicy_BackoffMS : Z;
}.
Record Traffic := {
  Traffic_Type : string;
  Traffic_Concurrency : Z;
  Traffic_Iterations : Z;
  Traffic_RatePerSecond : Z;
  Traffic_Retry : RetryPolicy;
}.
Record Request := {
  Request_Name : string;
  Request_Method : string;
  Request_Path : string;
  Request_Headers : headers;
  Request_JSON : string;
  Request_Body : string;
  Request_Status : option (list Z);      (* Expect.Status *)
}.
Record Thresholds := {
  Thresholds_MaxErrorRate : option float64;
  Thresholds_P95MS : option float64;
}.
Record ProbeExpectation := {
  ProbeExpectation_JSONPath : string;
  ProbeExpectation_Equals : any;
}.
Record Invariant := {
  Invariant_Name : string;
  Invariant_Type : string;
  Invariant_Request : string;
  Invariant_Method : string;
  Invariant_Path : string;
  Invariant_Headers : headers;
  Invariant_Status : option Z;
  Invariant_Equals : option Z;
  Invariant_Min : option Z;
  Invariant_Max : option Z;
  Invariant_Expect : ProbeExpectation;
}.
Record Scenario := {
  Scenario_Version : Z;
  Scenario_Name : string;
  Scenario_Description : string;
  Scenario_Target : Target;
  Scenario_Traffic : Traffic;
  Scenario_Setup : list Request;
  Scenario_Requests : list Request;
  Scenario_Teardown : list Request;
  Scenario_Thresholds : Thresholds;
  Scenario_Invariants : list Invariant;
}.

Definition zero_Target : Target := Build_Target "" "" None.
Definition zero_Traffic : Traffic := Build_Traffic "" 0 0 0 (Build_RetryPolicy 0 0).
(** [Scenario{}], the zero value returned beside an error. *)
Definition zero_Scenario : Scenario :=
  Build_Scenario 0 "" "" zero_Target zero_Traffic [] [] [] (Build_Thresholds None None) [].

(** ** Decoding: the field names of the schema, and the decoders of encoding/json
    for its types, strict or not. *)
Section Decoding.
Variable strict : bool.

Definition Target_names : list string := ["target_id"; "base_url"; "headers"].
Definition decode_Target : Decoder Target := λ raws,
  ms ← struct_members strict Target_names raws;
  let field := field_texts Target_names ms in
  id ← decode_string (field "target_id");
  base_url ← decode_string (field "base_url");
  hs ← decode_map decode_string (field "headers");
  Some (Build_Target id base_url hs).

Definition RetryPolicy_names : list string := ["attempts"; "backoff_ms"].
Definition decode_RetryPolicy : Decoder RetryPolicy := λ raws,
  ms ← struct_members strict RetryPolicy_names raws;
  let field := field_texts RetryPolicy_names ms in
  attempts ← decode_int (field "attempts");
  backoff_ms ← decode_int (field "backoff_ms");
  Some (Build_RetryPolicy attempts backoff_ms).

Definition Traffic_names : list string :=
  ["type"; "concurrency"; "iterations"; "rate_per_second"; "retry"].
Definition decode_Traffic : Decoder Traffic := λ raws,
  ms ← struct_members strict Traffic_names raws;
  let field := field_texts Traffic_names ms in
  type ← decode_string (field "type");
  concurrency ← decode_int (field "concurrency");
  iterations ← decode_int (field "iterations");
  rate_per_second ← decode_int (field "rate_per_second");
  retry ← decode_RetryPolicy (field "retry");
  Some (Build_Traffic type concurrency iterations rate_per_second retry).

Definition RequestExpectation_names : list string := ["status"].
Definition decode_RequestExpectation : Decoder (option (list Z)) := λ raws,
  ms ← struct_members strict RequestExpectation_names raws;
  decode_slice decode_int (field_texts RequestExpectation_names ms "status").

Definition Request_names : list string :=
  ["name"; "method"; "path"; "headers"; "json"; "body"; "expect"].
Definition decode_Request : Decoder Request := λ raws,
  ms ← struct_members strict Request_names raws;
  let field := field_texts Request_names ms in
  name ← decode_string (field "name");
  method ← decode_string (field "method");
  path ← decode_string (field "path");
  hs ← decode_map decode_string (field "headers");
  json ← decode_raw (field "json");
  body ← decode_string (field "body");
  status ← decode_RequestExpectation (field "expect");
  Some (Build_Request name method path hs json body status).
Definition decode_Requests : Decoder (list Request) := λ raws,
  default [] <$> decode_slice decode_Request raws.

Definition Thresholds_names : list string := ["max_error_rate"; "p95_ms"].
Definition decode_Thresholds : Decoder Thresholds := λ raws,
  ms ← struct_members strict Thresholds_names raws;
  let field := field_texts Thresholds_names ms in
  max_error_rate ← decode_pointer decode_float (field "max_error_rate");
  p95_ms ← decode_pointer decode_float (field "p95_ms");
  Some (Build_Thresholds max_error_rate p95_ms).

Definition ProbeExpectation_names : list string := ["json_path"; "equals"].
Definition decode_ProbeExpectation : Decoder ProbeExpectation := λ raws,
  ms ← struct_members strict ProbeExpectation_names raws;
  let field := field_texts ProbeExpectation_names ms in
  json_path ← decode_string (field "json_path");
  equals ← decode_any (field "equals");
  Some (Build_ProbeExpectation json_path equals).

Definition Invariant_names : list string :=
  ["name"; "type"; "request"; "method"; "path"; "headers"; "status"; "equals"; "min"; "max"; "expect"].
Definition decode_Invariant : Decoder Invariant := λ raws,
  ms ← struct_members strict Invariant_names raws;
  let field := field_texts Invariant_names ms in
  name ← decode_string (field "name");
  type ← decode_string (field "type");
  request ← decode_string (field "request");
  method ← decode_string (field "method");
  path ← decode_string (field "path");
  hs ← decode_map decode_string (field "headers");
  status ← decode_pointer decode_int (field "status");
  equals ← decode_pointer decode_int (field "equals");
  min ← decode_pointer decode_int (field "min");
  max ← decode_pointer decode_int (field "max");
  expect ← decode_ProbeExpectation (field "expect");
  Some (Build_Invariant name type request method path hs status equals min max expect).

Definition Scenario_names : list string :=
  ["version"; "name"; "description"; "target"; "traffic"; "setup"; "requests"; "teardown";
   "thresholds"; "invariants"].
Definition decode_Scenario : Decoder Scenario := λ raws,
  ms ← struct_members strict Scenario_names raws;
  let field := field_texts Scenario_names ms in
  version ← decode_int (field "version");
  name ← decode_string (field "name");
  description ← decode_string (field "description");
  target ← decode_Target (field "target");
  traffic ← decode_Traffic (field "traffic");
  setup ← decode_Requests (field "setup");
  requests ← decode_Requests (field "requests");
  teardown ← decode_Requests (field "teardown");
  thresholds ← decode_Thresholds (field "thresholds");
  invariants ← decode_slice decode_Invariant (field "invariants");
  Some (Build_Scenario version name description target traffic setup requests teardown thresholds
          (default [] invariants)).
End Decoding.

(** An [error] is the text of its message, [None] when nil. *)
Abbreviation error := (option string) (only parsing).
(** The problem a failed check appends to [problems]. *)
Definition problem_if (b : bool) (msg : string) : list string := if b then [msg] else [].

Definition string_in (s : string) (l : list string) : bool := existsb (String.eqb s) l.
Definition is_blank (s : string) : bool := String.eqb (TrimSpace s) "".
(** The field name [prefix[i]rest]. *)
Definition indexed (prefix : string) (i : nat) (rest : string) : string :=
  prefix +:+ "[" +:+ Itoa (Z.of_nat i) +:+ "]" +:+ rest.

Section Scenario.
Context `{U : UnicodeTables}.

(** ** Normalisation *)
Definition normalize_method (m : string) : string :=
  ToUpper (if String.eqb m "" then "GET" else m).
Definition normalize_headers (h : headers) : headers :=
  Some (default ∅ h).

Definition normalizeRequest (r : Request) : Request :=
  Build_Request (Request_Name r) (normalize_method (Request_Method r)) (Request_Path r)
    (normalize_headers (Request_Headers r)) (Request_JSON r) (Request_Body r)
    (Request_Status r).
Definition normalizeRequests (requests : list Request) : list Request :=
  map normalizeRequest requests.

Definition normalizeInvariant (i : Invariant) : Invariant :=
  Build_Invariant (Invariant_Name i) (Invariant_Type i) (Invariant_Request i)
    (normalize_method (Invariant_Method i)) (Invariant_Path i)
    (normalize_headers (Invariant_Headers i)) (Invariant_Status i) (Invariant_Equals i)
    (Invariant_Min i) (Invariant_Max i) (Invariant_Expect i).

Definition normalizeTraffic (t : Traffic) : Traffic :=
  let type := if String.eqb (Traffic_Type t) "" then TrafficLoad else Traffic_Type t in
  let concurrency := if Traffic_Concurrency t <=? 0 then 1 else Traffic_Concurrency t in
  let iterations := if Traffic_Iterations t <=? 0 then 1 else Traffic_Iterations t in
  let retry := Traffic_Retry t in
  let attempts :=
    if String.eqb type TrafficRetryStorm && (RetryPolicy_Attempts retry <=? 0)
    then 3 else RetryPolicy_Attempts retry in
  Build_Traffic type concurrency iterations (Traffic_RatePerSecond t)
    (Build_RetryPolicy attempts (RetryPolicy_BackoffMS retry)).

Definition Normalized (s : Scenario) : Scenario :=
  Build_Scenario
    (if Scenario_Version s =? 0 then CurrentVersion else Scenario_Version s)
    (Scenario_Name s) (Scenario_Description s)
    (Build_Target (Target_ID (Scenario_Target s)) (Target_BaseURL (Scenario_Target s))
       (normalize_headers (Target_Headers (Scenario_Target s))))
    (normalizeTraffic (Scenario_Traffic s))
    (normalizeRequests (Scenario_Setup s))
    (normalizeRequests (Scenario_Requests s))
    (normalizeRequests (Scenario_Teardown s))
    (Scenario_Thresholds s)
    (map normalizeInvariant (Scenario_Invariants s)).

(** ** Environment expansion *)
Section Env.
Variable env : string → string.      (* os.Getenv *)

Definition expandHeaders (h : headers) : headers :=
  fmap (M := gmap string) (ExpandEnv env) <$> h.

Definition expandRequest (r : Request) : Request :=
  Build_Request (ExpandEnv env (Request_Name r)) (Request_Method r)
    (ExpandEnv env (Request_Path r)) (expandHeaders (Request_Headers r))
    (if (0 <? String.length (Request_JSON r))%nat
     then ExpandEnv env (Request_JSON r) else Request_JSON r)
    (ExpandEnv env (Request_Body r)) (Request_Status r).
Definition expandRequestEnv (requests : list Request) : list Request :=
  map expandRequest requests.

Definition expandInvariant (i : Invariant) : Invariant :=
  Build_Invariant (ExpandEnv env (Invariant_Name i)) (Invariant_Type i)
    (ExpandEnv env (Invariant_Request i)) (Invariant_Method i)
    (ExpandEnv env (Invariant_Path i)) (expandHeaders (Invariant_Headers i))
    (Invariant_Status i) (Invariant_Equals i) (Invariant_Min i) (Invariant_Max i)
    (Invariant_Expect i).

Definition WithEnv (s : Scenario) : Scenario :=
  Build_Scenario (Scenario_Version s) (ExpandEnv env (Scenario_Name s))
    (ExpandEnv env (Scenario_Description s))
    (Build_Target (Target_ID (Scenario_Target s))
       (ExpandEnv env (Target_BaseURL (Scenario_Target s)))
       (expandHeaders (Target_Headers (Scenario_Target s))))
    (Scenario_Traffic s)
    (expandRequestEnv (Scenario_Setup s))
    (expandRequestEnv (Scenario_Requests s))
    (expandRequestEnv (Scenario_Teardown s))
    (Scenario_Thresholds s)
    (map expandInvariant (Scenario_Invariants s)).

(** [sc.WithEnv().Normalized()], the preparation every entry point performs. *)
Definition prepare (s : Scenario) : Scenario := Normalized (WithEnv s).
End Env.

(** ** Validation *)
Definition parseHTTPURL (raw : string) : result URL :=
  if is_blank raw then Err "is required"
  else
    let! u := Parse raw in
    if negb (String.eqb (URL_Scheme u) "http") && negb (String.eqb (URL_Scheme u) "https")
    then Err "must use http or https"
    else if String.eqb (URL_Host u) "" then Err "must include a host"
    else Ok u.

Definition validateRequest (prefix : string) (i : nat) (req : Request) : list string :=
  problem_if (is_blank (Request_Name req)) (indexed prefix i ".name is required")
  ++ problem_if (String.eqb (Request_Path req) "") (indexed prefix i ".path is required")
  ++ problem_if ((0 <? String.length (Request_JSON req))%nat && negb (Valid (Request_JSON req)))
       (indexed prefix i ".json must be valid JSON").
Definition validateRequests (prefix : string) (requests : list Request) : list string :=
  concat (imap (validateRequest prefix) requests).

Definition is_nil {A} (o : option A) : bool := match o with None => true | _ => false end.

Definition validateInvariant (i : nat) (inv : Invariant) : list string :=
  problem_if (is_blank (Invariant_Name inv)) (indexed "invariants" i ".name is required")
  ++ (if String.eqb (Invariant_Type inv) "response_count" then
        problem_if (is_nil (Invariant_Equals inv) && is_nil (Invariant_Min inv)
                    && is_nil (Invariant_Max inv))
          (indexed "invariants" i " response_count needs equals, min, or max")
      else if String.eqb (Invariant_Type inv) "http_probe" then
        problem_if (String.eqb (Invariant_Path inv) "")
          (indexed "invariants" i " http_probe needs path")
        ++ problem_if (String.eqb (ProbeExpectation_JSONPath (Invariant_Expect inv)) "")
             (indexed "invariants" i " http_probe needs expect.json_path")
      else [indexed "invariants" i ".type must be response_count or http_probe"]).

Definition traffic_types : list string :=
  [TrafficLoad; TrafficBurst; TrafficSpike; TrafficRace; TrafficRetryStorm].

Definition validateTraffic (t : Traffic) : list string :=
  problem_if (negb (string_in (Traffic_Type t) traffic_types))
    "traffic.type must be one of load, burst, spike, race, retry_storm"
  ++ problem_if (Traffic_Concurrency t <? 1) "traffic.concurrency must be >= 1"
  ++ problem_if (Traffic_Iterations t <? 1) "traffic.iterations must be >= 1"
  ++ problem_if (Traffic_RatePerSecond t <? 0) "traffic.rate_per_second must be >= 0"
  ++ problem_if (RetryPolicy_Attempts (Traffic_Retry t) <? 0)
       "traffic.retry.attempts must be >= 0"
  ++ problem_if (RetryPolicy_BackoffMS (Traffic_Retry t) <? 0)
       "traffic.retry.backoff_ms must be >= 0".

Definition ValidateProblems (s : Scenario) : list string :=
  problem_if (negb (Scenario_Version s =? CurrentVersion))
    ("version must be " +:+ Itoa CurrentVersion)
  ++ problem_if (is_blank (Scenario_Name s)) "name is required"
  ++ (match parseHTTPURL (Target_BaseURL (Scenario_Target s)) with
      | Ok _ => []
      | Err msg => ["target.base_url " +:+ msg]
      end)
  ++ problem_if (length (Scenario_Requests s) =? 0)%nat "at least one request is required"
  ++ validateTraffic (Scenario_Traffic s)
  ++ validateRequests "setup" (Scenario_Setup s)
  ++ validateRequests "requests" (Scenario_Requests s)
  ++ validateRequests "teardown" (Scenario_Teardown s)
  ++ concat (imap validateInvariant (Scenario_Invariants s)).

(** [Validate]: nil, or one error joining every problem found. *)
Definition Validate (s : Scenario) : error :=
  let problems := ValidateProblems s in
  if (0 <? length problems)%nat then Some (Join problems "; ") else None.

(** ** [LoadFile]: [read] is [os.ReadFile]. *)
Definition unmarshal_scenario `{DecodeErrors} : string → result Scenario :=
  unmarshal_into "Scenario" (decode_Scenario false).
Definition LoadFile `{DecodeErrors} (env : string → string) (read : string → result string)
    (path : string) : result Scenario :=
  let! raw := read path in
  match unmarshal_scenario raw with
  | Err msg => Err ("parse scenario: " +:+ msg)
  | Ok sc =>
      let sc := prepare env sc in
      match Validate sc with
      | Some msg => Err msg
      | None => Ok sc
      end
  end.
End Scenario.
#[global] Arguments normalize_headers : simpl never.
#[global] Arguments expandHeaders : simpl never.
#[global] Arguments ExpandEnv : simpl never.

(** ** Specification: the scenarios the program may run *)

Section Spec.
Context `{U : UnicodeTables}.

Record RequestOK (r : Request) : Prop := {
  request_name : is_blank (Request_Name r) = false;
  request_path : Request_Path r ≠ "";
  request_json : Request_JSON r = "" ∨ Valid (Request_JSON r) = true;
}.
Inductive InvariantTypeOK (i : Invariant) : Prop :=
| count_ok :
    Invariant_Type i = "response_count" →
    Invariant_Equals i ≠ None ∨ Invariant_Min i ≠ None ∨ Invariant_Max i ≠ None →
    InvariantTypeOK i
| probe_ok :
    Invariant_Type i = "http_probe" →
    Invariant_Path i ≠ "" →
    ProbeExpectation_JSONPath (Invariant_Expect i) ≠ "" →
    InvariantTypeOK i.
Record InvariantOK (i : Invariant) : Prop := {
  invariant_name : is_blank (Invariant_Name i) = false;
  invariant_type : InvariantTypeOK i;
}.
Record TrafficOK (t : Traffic) : Prop := {
  traffic_type : Traffic_Type t ∈ traffic_types;
  traffic_concurrency : 1 ≤ Traffic_Concurrency t;
  traffic_iterations : 1 ≤ Traffic_Iterations t;
  traffic_rate : 0 ≤ Traffic_RatePerSecond t;
  traffic_attempts : 0 ≤ RetryPolicy_Attempts (Traffic_Retry t);
  traffic_backoff : 0 ≤ RetryPolicy_BackoffMS (Traffic_Retry t);
}.
(** The base URL parses to an http or https URL with a host. *)
Definition BaseURLOK (raw : string) : Prop :=
  is_blank raw = false ∧
  ∃ u, Parse raw = Ok u ∧ (URL_Scheme u = "http" ∨ URL_Scheme u = "https")
       ∧ URL_Host u ≠ "".
Record ScenarioOK (s : Scenario) : Prop := {
  scenario_version : Scenario_Version s = CurrentVersion;
  scenario_name : is_blank (Scenario_Name s) = false;
  scenario_target : BaseURLOK (Target_BaseURL (Scenario_Target s));
  scenario_nonempty : Scenario_Requests s ≠ [];
  scenario_traffic : TrafficOK (Scenario_Traffic s);
  scenario_setup : Forall RequestOK (Scenario_Setup s);
  scenario_requests : Forall RequestOK (Scenario_Requests s);
  scenario_teardown : Forall RequestOK (Scenario_Teardown s);
  scenario_invariants : Forall InvariantOK (Scenario_Invariants s);
}.
End Spec.

(** ** Lemmas *)

Lemma problem_if_nil b msg : problem_if b msg = [] ↔ b = false.
Proof. by destruct b. Qed.

Lemma concat_imap_nil {A} (f : nat → A → list string) (P : A → Prop) l :
  (∀ i x, f i x = [] ↔ P x) → concat (imap f l) = [] ↔ Forall P l.
Proof.
  revert f. induction l as [|x l IH]; intros f Hf; simpl; [by split|].
  rewrite app_nil, Forall_cons, Hf, (IH (f ∘ S)); [done|]. intros i y. apply Hf.
Qed.

Lemma string_in_spec s l : string_in s l = true ↔ s ∈ l.
Proof.
  unfold string_in. rewrite existsb_true. split.
  - intros (x & Hx & He). by apply String.eqb_eq in He as ->.
  - intros H. exists s. split; [done|]. apply String.eqb_refl.
Qed.

Lemma is_nil_false {A} (o : option A) : is_nil o = false ↔ o ≠ None.
Proof. by destruct o. Qed.

#[export] Hint Rewrite @app_nil problem_if_nil String.eqb_neq andb_false_iff negb_false_iff
  @is_nil_false Z.ltb_ge : wreckr.

Section ScenarioLemmas.
Context `{U : UnicodeTables}.

Lemma validateRequest_nil prefix i r :
  validateRequest prefix i r = [] ↔ RequestOK r.
Proof.
  unfold validateRequest. autorewrite with wreckr. rewrite Nat.ltb_ge.
  split.
  - intros (Hn & Hp & Hj). split; [done|done|].
    destruct Hj as [Hj|Hj]; [left|by right].
    by destruct (Request_JSON r); [|simpl in Hj; lia].
  - intros [Hn Hp Hj]. repeat split; [done|done|].
    destruct Hj as [->|Hj]; [left; simpl; lia|by right].
Qed.

Lemma validateRequests_nil prefix l :
  validateRequests prefix l = [] ↔ Forall RequestOK l.
Proof. apply concat_imap_nil. intros. apply validateRequest_nil. Qed.

Lemma validateInvariant_nil i inv :
  validateInvariant i inv = [] ↔ InvariantOK inv.
Proof.
  unfold validateInvariant. rewrite app_nil, problem_if_nil.
  destruct (String.eqb_spec (Invariant_Type inv) "response_count") as [E|E];
    [|destruct (String.eqb_spec (Invariant_Type inv) "http_probe") as [E'|E']];
    autorewrite with wreckr.
  - split; [intros [? ?]; split; [done|apply count_ok; tauto]|].
    intros [? []]; [tauto|congruence].
  - split; [intros (? & ? & ?); split; [done|by apply probe_ok]|].
    intros [? []]; [congruence|tauto].
  - split; [by intros []|]. intros [? []]; congruence.
Qed.

Lemma validateTraffic_nil t : validateTraffic t = [] ↔ TrafficOK t.
Proof.
  unfold validateTraffic. autorewrite with wreckr. rewrite string_in_spec.
  split; [intros; split_ands; by split|]. intros []. tauto.
Qed.

Lemma parseHTTPURL_ok raw : is_ok (parseHTTPURL raw) = true ↔ BaseURLOK raw.
Proof.
  unfold parseHTTPURL, BaseURLOK. destruct (is_blank raw); simpl.
  { split; [done|]. by intros []. }
  destruct (Parse raw) as [u|msg]; simpl; [|split; [done|]; by intros (_ & u & ? & _)].
  destruct (String.eqb_spec (URL_Scheme u) "http"), (String.eqb_spec (URL_Scheme u) "https"),
    (String.eqb_spec (URL_Host u) ""); simpl;
    (split; [done|]) || (split; [eauto 6|]); intros (_ & u' & ? & [] & ?); congruence.
Qed.

Lemma Validate_nil s : Validate s = None ↔ ValidateProblems s = [].
Proof. unfold Validate. destruct (ValidateProblems s); simpl; split; done. Qed.
End ScenarioLemmas.

Section Preparation.
Context `{U : UnicodeTables}.

Lemma normalize_method_nonempty `{!UnicodeLaws U} m : normalize_method m ≠ "".
Proof.
  unfold normalize_method. apply ToUpper_nonempty.
  by destruct (String.eqb_spec m "").
Qed.
Lemma normalize_method_idem `{!UnicodeLaws U} m :
  normalize_method (normalize_method m) = normalize_method m.
Proof.
  unfold normalize_method at 1.
  rewrite (proj2 (String.eqb_neq _ _) (normalize_method_nonempty m)).
  apply ToUpper_idem.
Qed.

Lemma expandHeaders_normalize env h :
  expandHeaders env (normalize_headers h) = normalize_headers (expandHeaders env h).
Proof.
  destruct h as [h|]; simpl; [done|].
  unfold expandHeaders, normalize_headers; simpl. by rewrite fmap_empty.
Qed.

(** Expansion and normalisation touch different fields, or commute. *)
Lemma WithEnv_Normalized env s :
  WithEnv env (Normalized s) = Normalized (WithEnv env s).
Proof.
  unfold WithEnv, Normalized, expandRequestEnv, normalizeRequests; simpl.
  rewrite !map_map.
  assert (Hr : ∀ r, expandRequest env (normalizeRequest r) = normalizeRequest (expandRequest env r)).
  { intros r. unfold expandRequest, normalizeRequest; simpl. by rewrite expandHeaders_normalize. }
  assert (Hi : ∀ i, expandInvariant env (normalizeInvariant i)
                    = normalizeInvariant (expandInvariant env i)).
  { intros i. unfold expandInvariant, normalizeInvariant; simpl. by rewrite expandHeaders_normalize. }
  by rewrite !(map_ext _ _ Hr), (map_ext _ _ Hi), expandHeaders_normalize.
Qed.

Section TwoEnvs.
Variables env env' : string → string.
Hypothesis Henv : ∀ w, dollar_free (env w) = true.

Lemma expandHeaders_twice h :
  expandHeaders env' (expandHeaders env h) = expandHeaders env h.
Proof.
  destruct h as [h|]; simpl; [|done]. unfold expandHeaders; simpl. f_equal.
  apply map_fmap_ext_id. intros k v. rewrite lookup_fmap.
  destruct (h !! k) as [w|] eqn:E; simpl; intros; simplify_eq.
  by apply ExpandEnv_twice.
Qed.
Lemma expandRequest_twice r :
  expandRequest env' (expandRequest env r) = expandRequest env r.
Proof.
  unfold expandRequest; simpl. rewrite expandHeaders_twice, !ExpandEnv_twice by done.
  f_equal. destruct (0 <? String.length (Request_JSON r))%nat eqn:E.
  - rewrite ExpandEnv_twice by done. by case_match.
  - by rewrite E.
Qed.
Lemma expandInvariant_twice i :
  expandInvariant env' (expandInvariant env i) = expandInvariant env i.
Proof.
  unfold expandInvariant; simpl. by rewrite expandHeaders_twice, !ExpandEnv_twice.
Qed.
Lemma WithEnv_twice s : WithEnv env' (WithEnv env s) = WithEnv env s.
Proof.
  unfold WithEnv, expandRequestEnv; simpl.
  rewrite !map_map, !(map_ext _ _ expandRequest_twice), (map_ext _ _ expandInvariant_twice).
  by rewrite expandHeaders_twice, !ExpandEnv_twice.
Qed.
End TwoEnvs.

Section Idempotence.
Context `{!UnicodeLaws U}.

Lemma normalizeRequest_idem r : normalizeRequest (normalizeRequest r) = normalizeRequest r.
Proof. unfold normalizeRequest; simpl. by rewrite normalize_method_idem. Qed.
Lemma normalizeInvariant_idem i :
  normalizeInvariant (normalizeInvariant i) = normalizeInvariant i.
Proof. unfold normalizeInvariant; simpl. by rewrite normalize_method_idem. Qed.

Lemma normalizeTraffic_bounds t :
  let t' := normalizeTraffic t in
  Traffic_Type t' ≠ "" ∧ 1 ≤ Traffic_Concurrency t' ∧ 1 ≤ Traffic_Iterations t'
  ∧ (Traffic_Type t' = TrafficRetryStorm → 1 ≤ RetryPolicy_Attempts (Traffic_Retry t')).
Proof.
  simpl. repeat split.
  - by destruct (String.eqb_spec (Traffic_Type t) "").
  - destruct (Z.leb_spec (Traffic_Concurrency t) 0); lia.
  - destruct (Z.leb_spec (Traffic_Iterations t) 0); lia.
  - intros ->. simpl. destruct (Z.leb_spec (RetryPolicy_Attempts (Traffic_Retry t)) 0); lia.
Qed.

(** Normalisation leaves a value within its bounds alone. *)
Lemma normalizeTraffic_id t :
  Traffic_Type t ≠ "" → 1 ≤ Traffic_Concurrency t → 1 ≤ Traffic_Iterations t →
  (Traffic_Type t = TrafficRetryStorm → 1 ≤ RetryPolicy_Attempts (Traffic_Retry t)) →
  normalizeTraffic t = t.
Proof.
  destruct t as [type c i rate [att back]]; simpl. intros Ht Hc Hi Ha.
  unfold normalizeTraffic; simpl. rewrite (proj2 (String.eqb_neq _ _) Ht).
  rewrite (proj2 (Z.leb_gt c 0)), (proj2 (Z.leb_gt i 0)) by lia.
  destruct (String.eqb_spec type TrafficRetryStorm) as [E|E]; simpl; [|done].
  by rewrite (proj2 (Z.leb_gt att 0)) by (specialize (Ha E); lia).
Qed.
Lemma normalizeTraffic_idem t : normalizeTraffic (normalizeTraffic t) = normalizeTraffic t.
Proof. apply normalizeTraffic_id; apply normalizeTraffic_bounds. Qed.

Lemma Normalized_idem s : Normalized (Normalized s) = Normalized s.
Proof.
  unfold Normalized, normalizeRequests; simpl.
  rewrite !map_map, !(map_ext _ _ normalizeRequest_idem),
    (map_ext _ _ normalizeInvariant_idem), normalizeTraffic_idem.
  f_equal. by destruct (Scenario_Version s =? 0) eqn:E; [|rewrite E].
Qed.
End Idempotence.
End Preparation.

Section Validation.
Context `{U : UnicodeTables}.

Lemma Validate_spec (s : Scenario) : Validate s = None ↔ ScenarioOK s.
Proof.
  rewrite Validate_nil. unfold ValidateProblems.
  rewrite !app_nil, !problem_if_nil, negb_false_iff, Z.eqb_eq, Nat.eqb_neq,
    validateTraffic_nil, !validateRequests_nil, (concat_imap_nil _ InvariantOK)
    by apply validateInvariant_nil.
  rewrite length_zero_iff_nil.
  assert (Hurl : (match parseHTTPURL (Target_BaseURL (Scenario_Target s)) with
                  | Ok _ => [] | Err msg => ["target.base_url " +:+ msg] end) = []
                 ↔ BaseURLOK (Target_BaseURL (Scenario_Target s))).
  { rewrite <-parseHTTPURL_ok. by destruct (parseHTTPURL _). }
  rewrite Hurl. split; [intros; split_ands; by split|].
  by intros [].
Qed.

Lemma prepare_twice `{!UnicodeLaws U} env env' s :
  (∀ w, dollar_free (env w) = true) → prepare env' (prepare env s) = prepare env s.
Proof.
  intros Henv. unfold prepare. by rewrite WithEnv_Normalized, Normalized_idem, WithEnv_twice.
Qed.
End Validation.

(** ** Properties *)

Section Properties.
Context `{U : UnicodeTables}.

(** C19: [Validate] returns nil exactly on the scenarios the specification
    admits: current version, a name, a base URL that is an http or https URL
    with a host, at least one request, a known traffic type with concurrency
    and iterations at least one and no negative rate or retry setting, every
    request of the three phases named, with a path and with valid JSON if it
    has any, and every invariant of a known kind with the fields its kind
    needs. *)
Theorem Validate_iff (s : Scenario) : Validate s = None ↔ ScenarioOK s.
Proof. apply Validate_spec. Qed.

(** What [Normalized] establishes on every scenario, whatever the JSON
    held: a version, a traffic type, concurrency and iterations of at least
    one, at least one attempt in a retry storm; every request and invariant
    has a method and a header map; and normalising again changes nothing. *)
Theorem Normalized_establishes `{!UnicodeLaws U} (s : Scenario) :
  let n := Normalized s in
  Scenario_Version n ≠ 0
  ∧ (Traffic_Type (Scenario_Traffic n) ≠ ""
     ∧ 1 ≤ Traffic_Concurrency (Scenario_Traffic n)
     ∧ 1 ≤ Traffic_Iterations (Scenario_Traffic n)
     ∧ (Traffic_Type (Scenario_Traffic n) = TrafficRetryStorm →
        1 ≤ RetryPolicy_Attempts (Traffic_Retry (Scenario_Traffic n))))
  ∧ Forall (λ r, Request_Method r ≠ "" ∧ is_Some (Request_Headers r))
      (Scenario_Setup n ++ Scenario_Requests n ++ Scenario_Teardown n)
  ∧ Forall (λ i, Invariant_Method i ≠ "" ∧ is_Some (Invariant_Headers i))
      (Scenario_Invariants n)
  ∧ Normalized n = n.
Proof.
  simpl. split; [by destruct (Z.eqb_spec (Scenario_Version s) 0)|].
  split; [apply normalizeTraffic_bounds|].
  assert (Hr : ∀ l, Forall (λ r, Request_Method r ≠ "" ∧ is_Some (Request_Headers r))
                      (normalizeRequests l)).
  { intros l. apply Forall_map, Forall_true. intros r; simpl.
    split; [apply normalize_method_nonempty|by eexists]. }
  split; [by repeat apply Forall_app_2|]. split; [|apply Normalized_idem].
  apply Forall_map, Forall_true. intros i; simpl.
  split; [apply normalize_method_nonempty|by eexists].
Qed.

(** Preparing a scenario a second time, in any environment, changes
    nothing, provided no variable of the first environment has a dollar in
    its value.  So the scenario that was validated and checked against the
    guardrails when a run was created is the one the worker executes, although
    the runner expands and normalises it again in its own process. *)
Theorem prepare_stable `{!UnicodeLaws U} (env env' : string → string) (s : Scenario)
    (Henv : ∀ w, dollar_free (env w) = true) :
  prepare env' (prepare env s) = prepare env s.
Proof. by apply prepare_twice. Qed.

(** A file that [LoadFile] accepts yields a scenario that satisfies the
    specification and that every later preparation leaves unchanged; it fails
    exactly when reading, decoding or validating does. *)
Theorem LoadFile_sound `{!UnicodeLaws U} `{DE : DecodeErrors} env read path
    (Henv : ∀ w, dollar_free (env w) = true) :
  match LoadFile env read path with
  | Ok sc =>
      ScenarioOK sc ∧ (∀ env', prepare env' sc = sc)
      ∧ ∃ raw sc0, read path = Ok raw ∧ unmarshal_scenario raw = Ok sc0 ∧ sc = prepare env sc0
  | Err _ =>
      is_ok (read path) = false
      ∨ (∃ raw, read path = Ok raw ∧ is_ok (unmarshal_scenario raw) = false)
      ∨ (∃ raw sc0, read path = Ok raw ∧ unmarshal_scenario raw = Ok sc0
                    ∧ ¬ ScenarioOK (prepare env sc0))
  end.
Proof.
  unfold LoadFile. destruct (read path) as [raw|]; simpl; [|by left].
  destruct (unmarshal_scenario raw) as [sc0|] eqn:Eu.
  2:{ right; left. exists raw. by rewrite Eu. }
  pose proof (Validate_spec (prepare env sc0)) as Hv.
  destruct (Validate (prepare env sc0)) as [msg|].
  - right; right. exists raw, sc0. split_and!; [done|done|]. intros H. by apply Hv in H.
  - split; [by apply Hv|]. split; [intros; by apply prepare_twice|]. eauto.
Qed.
End Properties.

(** ** Examples *)
#[local] Existing Instances ascii_tables ascii_tables_laws plain_errors.

Definition sample_request : Request := Build_Request "ping" "" "/health" None "" "" None.
Definition sample_scenario : Scenario :=
  Build_Scenario 0 "smoke" "" (Build_Target "" "http://localhost:8080" None)
    (Build_Traffic "" 0 0 0 (Build_RetryPolicy 0 0)) [] [sample_request] []
    (Build_Thresholds None None) [].
Definition sample_text : string :=
  quotes "{'name': 'smoke', 'target': {'base_url': 'http://localhost:8080'}, 'requests': [{'name': 'ping', 'path': '/health'}]}".
Example sample_decoded : unmarshal_scenario sample_text = Ok sample_scenario.
Proof. vm_compute. reflexivity. Qed.
Definition no_env : string → string := λ _, "".

Lemma Normalized_establishes_witness :
  Normalized (Normalized sample_scenario) = Normalized sample_scenario
  ∧ Traffic_Concurrency (Scenario_Traffic (Normalized sample_scenario)) = 1.
Proof.
  split; [|reflexivity].
  destruct (Normalized_establishes sample_scenario) as (_ & _ & _ & _ & H). exact H.
Defined.

Lemma prepare_stable_witness :
  prepare no_env (prepare no_env sample_scenario) = prepare no_env sample_scenario.
Proof. apply prepare_stable. reflexivity. Defined.

Lemma LoadFile_sound_witness :
  ∃ sc, LoadFile no_env (λ _, Ok sample_text) "f.json" = Ok sc ∧ ScenarioOK sc.
Proof.
  pose proof (LoadFile_sound no_env (λ _, Ok sample_text) "f.json"
                (λ _, eq_refl)) as H.
  destruct (LoadFile no_env (λ _, Ok sample_text) "f.json") as [sc|m] eqn:E.
  - exists sc. split; [reflexivity|exact (proj1 H)].
  - vm_compute in E. discriminate E.
Defined.
