(* ===== verification/ScenarioJson.v ===== *)
(** * Scenarios as JSON (src/apps/api/internal/scenario/schema.go)

    What encoding/json makes of the types of the schema by their tags, as trees
    ([scenario_tree]).  The scenario that the program writes, into its store or
    as an answer, is the one that is read back. *)

From S2P Require Export Scenario.
From Stdlib Require Import Ascii.

Open Scope Z_scope.

(** ** Members that may be left out *)
Definition present (ms : list (string * option jtree)) : list (string * jtree) :=
  omap (λ '(k, x), pair k <$> x) ms.
(** [omitempty]. *)
Definition omitempty (empty : bool) (t : jtree) : option jtree := if empty then None else Some t.
Definition omit_string (s : string) : option jtree := omitempty (String.eqb s "") (TStr s).
Definition omit_int (z : Z) : option jtree := omitempty (z =? 0) (TNum (Itoa z)).
Definition omit_headers (h : headers) : option jtree :=
  match h with
  | Some m => omitempty (bool_decide (m = ∅)) (strings_tree (Some m))
  | None => None
  end.
Definition omit_list {A} (enc : A → jtree) (l : list A) : option jtree :=
  match l with [] => None | _ => Some (TArr (map enc l)) end.
Definition int_tree (z : Z) : jtree := TNum (Itoa z).

(** The tree of a text. *)
Fixpoint text_tree (fuel : nat) (raw : string) : option jtree :=
  match fuel with
  | O => None
  | S fuel =>
      match parse_json raw with
      | Some JNull => Some TNull
      | Some (JBool b) => Some (TBool b)
      | Some (JNum _ _ _) => Some (TNum raw)
      | Some (JStr s) => Some (TStr s)
      | Some (JArr _) => l ← raw_elements raw; TArr <$> mapM (text_tree fuel) l
      | Some (JObj _) =>
          m ← raw_members raw; TObj <$> mapM (λ '(k, v), pair k <$> text_tree fuel v) m
      | None => None
      end
  end.
(** A [json.RawMessage] is written compacted; [compact_json] says that it is
    compact. *)
Definition raw_tree (raw : string) : jtree :=
  default TNull (text_tree (S (String.length raw)) raw).
Definition compact_json (raw : string) : bool :=
  String.eqb (render marshal_layout 0 (raw_tree raw)) raw.
Definition float_tree (f : float64) : jtree := TNum (default "0" (json_float f)).
Definition dynamic_tree (v : any) : jtree := default TNull (any_tree v).

(** ** The schema *)
Definition target_tree (t : Target) : jtree :=
  TObj (present [("target_id", omit_string (Target_ID t)); ("base_url", Some (TStr (Target_BaseURL t)));
                 ("headers", omit_headers (Target_Headers t))]).
Definition retry_tree (r : RetryPolicy) : jtree :=
  TObj (present [("attempts", omit_int (RetryPolicy_Attempts r));
                 ("backoff_ms", omit_int (RetryPolicy_BackoffMS r))]).
Definition traffic_tree (t : Traffic) : jtree :=
  TObj (present [("type", Some (TStr (Traffic_Type t)));
                 ("concurrency", Some (int_tree (Traffic_Concurrency t)));
                 ("iterations", Some (int_tree (Traffic_Iterations t)));
                 ("rate_per_second", omit_int (Traffic_RatePerSecond t));
                 ("retry", Some (retry_tree (Traffic_Retry t)))]).
Definition status_tree (l : option (list Z)) : jtree :=
  TObj (present [("status", omit_list int_tree (default [] l))]).
Definition request_tree (r : Request) : jtree :=
  TObj (present [("name", Some (TStr (Request_Name r))); ("method", Some (TStr (Request_Method r)));
                 ("path", Some (TStr (Request_Path r))); ("headers", omit_headers (Request_Headers r));
                 ("json", omitempty (String.eqb (Request_JSON r) "") (raw_tree (Request_JSON r)));
                 ("body", omit_string (Request_Body r)); ("expect", Some (status_tree (Request_Status r)))]).
Definition thresholds_tree (t : Thresholds) : jtree :=
  TObj (present [("max_error_rate", float_tree <$> Thresholds_MaxErrorRate t);
                 ("p95_ms", float_tree <$> Thresholds_P95MS t)]).
Definition probe_tree (e : ProbeExpectation) : jtree :=
  TObj (present [("json_path", omit_string (ProbeExpectation_JSONPath e));
                 ("equals", omitempty (match ProbeExpectation_Equals e with VNil => true | _ => false end)
                              (dynamic_tree (ProbeExpectation_Equals e)))]).
Definition invariant_tree (i : Invariant) : jtree :=
  TObj (present [("name", Some (TStr (Invariant_Name i))); ("type", Some (TStr (Invariant_Type i)));
                 ("request", omit_string (Invariant_Request i)); ("method", omit_string (Invariant_Method i));
                 ("path", omit_string (Invariant_Path i)); ("headers", omit_headers (Invariant_Headers i));
                 ("status", int_tree <$> Invariant_Status i); ("equals", int_tree <$> Invariant_Equals i);
                 ("min", int_tree <$> Invariant_Min i); ("max", int_tree <$> Invariant_Max i);
                 ("expect", Some (probe_tree (Invariant_Expect i)))]).
(** A scenario with requests: without, an empty slice and a nil one differ. *)
Definition scenario_tree (s : Scenario) : jtree :=
  TObj (present [("version", Some (int_tree (Scenario_Version s)));
                 ("name", Some (TStr (Scenario_Name s)));
                 ("description", omit_string (Scenario_Description s));
                 ("target", Some (target_tree (Scenario_Target s)));
                 ("traffic", Some (traffic_tree (Scenario_Traffic s)));
                 ("setup", omit_list request_tree (Scenario_Setup s));
                 ("requests", Some (TArr (map request_tree (Scenario_Requests s))));
                 ("teardown", omit_list request_tree (Scenario_Teardown s));
                 ("thresholds", Some (thresholds_tree (Scenario_Thresholds s)));
                 ("invariants", omit_list invariant_tree (Scenario_Invariants s))]).

(** What is left out reads back as nil. *)
Definition canonical_headers (h : headers) : headers :=
  match h with Some m => if bool_decide (m = ∅) then None else Some m | None => None end.
Definition canonical_status (l : option (list Z)) : option (list Z) :=
  match l with Some [] => None | _ => l end.
Definition canonical_target (t : Target) : Target :=
  Build_Target (Target_ID t) (Target_BaseURL t) (canonical_headers (Target_Headers t)).
Definition canonical_request (r : Request) : Request :=
  Build_Request (Request_Name r) (Request_Method r) (Request_Path r)
    (canonical_headers (Request_Headers r)) (Request_JSON r) (Request_Body r)
    (canonical_status (Request_Status r)).
Definition canonical_invariant (i : Invariant) : Invariant :=
  Build_Invariant (Invariant_Name i) (Invariant_Type i) (Invariant_Request i) (Invariant_Method i)
    (Invariant_Path i) (canonical_headers (Invariant_Headers i)) (Invariant_Status i)
    (Invariant_Equals i) (Invariant_Min i) (Invariant_Max i) (Invariant_Expect i).
Definition canonical (s : Scenario) : Scenario :=
  Build_Scenario (Scenario_Version s) (Scenario_Name s) (Scenario_Description s)
    (canonical_target (Scenario_Target s)) (Scenario_Traffic s)
    (map canonical_request (Scenario_Setup s)) (map canonical_request (Scenario_Requests s))
    (map canonical_request (Scenario_Teardown s)) (Scenario_Thresholds s)
    (map canonical_invariant (Scenario_Invariants s)).

(** ** A struct field by field *)
Section Fields.
Context (ly : layout) {BL : BlankLayout ly}.

Lemma key_field_exact names k : existsb (String.eqb k) names = true → key_field names k = Some k.
Proof. unfold key_field. by intros ->. Qed.

(** The keys are distinct names of fields. *)
Definition fields_of (names : list string) (ms : list (string * option jtree)) : bool :=
  bool_decide (NoDup (map fst ms)) && forallb (λ '(k, _), existsb (String.eqb k) names) ms.

Lemma field_trees_present names ms name :
  fields_of names ms = true →
  field_trees names (present ms) name = option_list (default None (map_get name ms)).
Proof.
  unfold fields_of. intros [Hd%bool_decide_eq_true Hn]%andb_true_iff.
  assert (∀ ms, forallb (λ '(k, _), existsb (String.eqb k) names) ms = true →
            name ∉ map fst ms → field_trees names (present ms) name = []) as Hnot.
  { clear. induction ms as [|[k [x|]] ms IH]; [done| |].
    - cbn [forallb map fst]. intros [Hk Hn]%andb_true_iff [Hne Hnin]%not_elem_of_cons.
      cbn. rewrite key_field_exact by done. rewrite decide_False by congruence. cbn. by apply IH.
    - cbn [forallb map fst]. intros [Hk Hn]%andb_true_iff [Hne Hnin]%not_elem_of_cons. by apply IH. }
  induction ms as [|[k x] ms IH]; [done|].
  cbn [forallb map fst map_get] in *. apply NoDup_cons in Hd as [Hk Hd]. apply andb_true_iff in Hn as [Hkn Hn].
  destruct (String.eqb_spec name k) as [->|Hne].
  - destruct x as [x|]; cbn; [|by apply Hnot].
    rewrite key_field_exact by done. rewrite decide_True by done. cbn. f_equal. by apply Hnot.
  - destruct x as [x|]; cbn; [|by apply IH].
    rewrite key_field_exact by done. rewrite decide_False by congruence. cbn. by apply IH.
Qed.

Lemma readable_present ms k x :
  readable (TObj (present ms)) → map_get k ms = Some (Some x) → readable x.
Proof.
  induction ms as [|[k' y] ms IH]; [done|]. cbn [map_get]. intros Hr.
  destruct (String.eqb_spec k k') as [<-|Hne].
  - intros [= ->]. cbn in Hr. by apply readable_members in Hr as (_ & Hx & _).
  - apply IH. destruct y as [y|]; cbn in Hr; [by apply readable_members in Hr as (_ & _ & Hx)|done].
Qed.

Lemma present_struct strict names ms d :
  readable (TObj (present ms)) → fields_of names ms = true →
  struct_members strict names [render ly d (TObj (present ms))]
  = Some (texts_of ly (S d) (present ms)).
Proof.
  intros Hr [_ Hn]%andb_true_iff. apply struct_members_render; [done..|].
  clear Hr. induction ms as [|[k [x|]] ms IH]; [done| |]; cbn [forallb] in Hn;
    apply andb_true_iff in Hn as [Hk Hn]; cbn.
  - rewrite key_field_exact by done. apply andb_true_iff. split; [done|by apply IH].
  - by apply IH.
Qed.

(** A field that is written is decoded, one that is left out is zero. *)
Lemma present_field {A} (decode : Decoder A) names ms name d a x :
  readable (TObj (present ms)) → fields_of names ms = true → map_get name ms = Some x →
  match x with Some t => readable t → decodes ly decode t a | None => decode [] = Some a end →
  decode (field_texts names (texts_of ly d (present ms)) name) = Some a.
Proof.
  intros Hr Hn Hx Ha. rewrite field_texts_render, field_trees_present by done. rewrite Hx. cbn.
  destruct x as [t|]; cbn; [|done]. apply Ha. by eapply readable_present.
Qed.
End Fields.

(** ** Reading back *)

(** What cannot go wrong in Go, or is known of the package strconv: an int has
    64 bits; a float reads back from its text, and so does a dynamic value; a raw
    message is compact. *)
Definition ints_fit (l : list Z) : bool := forallb in_int64 l.
Definition float_fits (f : option float64) : Prop :=
  match f with Some f => ∃ text, float_reads f text | None => True end.
Definition any_fits (v : any) : Prop :=
  match v with
  | VNil => True
  | _ => is_Some (any_tree v) ∧ to_any (tree_json (dynamic_tree v)) = Some v
  end.
Record request_fits (r : Request) : Prop := {
  rf_status : ints_fit (default [] (Request_Status r)) = true;
  rf_json : Request_JSON r = "" ∨ compact_json (Request_JSON r) = true;
}.
Record invariant_fits (i : Invariant) : Prop := {
  if_ints : ints_fit (omap id [Invariant_Status i; Invariant_Equals i; Invariant_Min i; Invariant_Max i]) = true;
  if_equals : any_fits (ProbeExpectation_Equals (Invariant_Expect i));
}.
Record scenario_fits (s : Scenario) : Prop := {
  sf_ints :
    let t := Scenario_Traffic s in
    ints_fit [Scenario_Version s; Traffic_Concurrency t; Traffic_Iterations t; Traffic_RatePerSecond t;
              RetryPolicy_Attempts (Traffic_Retry t); RetryPolicy_BackoffMS (Traffic_Retry t)] = true;
  sf_requests :
    Forall request_fits (Scenario_Setup s ++ Scenario_Requests s ++ Scenario_Teardown s);
  sf_error_rate : float_fits (Thresholds_MaxErrorRate (Scenario_Thresholds s));
  sf_p95 : float_fits (Thresholds_P95MS (Scenario_Thresholds s));
  sf_invariants : Forall invariant_fits (Scenario_Invariants s);
}.

Lemma marshal_depth t d d' : render marshal_layout d t = render marshal_layout d' t.
Proof.
  revert d d'. induction t as [| | | |l IH|m IH] using jtree_nested_ind; intros d d'; [done..| |].
  - destruct l as [|x l]; [done|]. cbn [render]. do 2 f_equal. f_equal. apply map_ext_in.
    intros y Hy. rewrite Forall_forall in IH. cbn. apply IH. by apply list_elem_of_In.
  - destruct m as [|kx m]; [done|]. cbn [render]. do 2 f_equal. f_equal. apply map_ext_in.
    intros [k y] Hy. rewrite Forall_forall in IH. cbn. do 3 f_equal.
    apply (IH (k, y)). by apply list_elem_of_In.
Qed.

Section Back.
Variable strict : bool.

Abbreviation back decode t a := (decodes marshal_layout decode t a).
(** A member that may be left out. *)
Definition field_back {A} (decode : Decoder A) (x : option jtree) (a : A) : Prop :=
  match x with Some t => readable t → back decode t a | None => decode [] = Some a end.

Lemma valid_of_readable s : readable (TStr s) → ValidString s = true.
Proof. by intros [H _]. Qed.
Lemma string_back s : field_back decode_string (Some (TStr s)) s.
Proof. intros Hs%valid_of_readable. exact (decodes_string _ s Hs). Qed.
Lemma omit_string_back s : field_back decode_string (omit_string s) s.
Proof.
  unfold omit_string, omitempty. destruct (String.eqb_spec s "") as [->|]; [done|apply string_back].
Qed.
Lemma int_back z : in_int64 z = true → field_back decode_int (Some (int_tree z)) z.
Proof. intros Hz _. by apply decodes_int. Qed.
Lemma omit_int_back z : in_int64 z = true → field_back decode_int (omit_int z) z.
Proof.
  intros Hz. unfold omit_int, omitempty. destruct (Z.eqb_spec z 0) as [->|]; [done|by apply int_back].
Qed.
Lemma int_pointer_back z :
  ints_fit (option_list z) = true → field_back (decode_pointer decode_int) (int_tree <$> z) z.
Proof.
  destruct z as [z|]; [|done]. intros [Hz _]%andb_true_iff _. by apply decodes_int_pointer.
Qed.
Lemma float_pointer_back f : float_fits f → field_back (decode_pointer decode_float) (float_tree <$> f) f.
Proof.
  destruct f as [f|]; [|done]. intros (text & Hf) _. unfold float_tree.
  pose proof Hf as (-> & _). by apply decodes_float_pointer.
Qed.
Lemma headers_back h : field_back (decode_map decode_string) (omit_headers h) (canonical_headers h).
Proof.
  destruct h as [m|]; [|done]. cbn. unfold omitempty. case_bool_decide; [done|].
  intros Hr. exact (decodes_strings _ (Some m) Hr).
Qed.
Lemma items_back {A} (elem : Decoder A) (enc : A → jtree) (canon : A → A) l :
  (∀ x, x ∈ l → readable (enc x) → back elem (enc x) (canon x)) →
  field_back (decode_slice elem) (Some (TArr (map enc l))) (Some (map canon l)).
Proof. intros Hl Hr. exact (decodes_slice _ elem enc canon l Hr Hl). Qed.
Lemma omit_items_back {A} (elem : Decoder A) (enc : A → jtree) (canon : A → A) l :
  (∀ x, x ∈ l → readable (enc x) → back elem (enc x) (canon x)) →
  field_back (decode_slice elem) (omit_list enc l)
    (match l with [] => None | _ => Some (map canon l) end).
Proof. destruct l; [done|apply items_back]. Qed.

(** *** The types *)
Ltac ints := unfold ints_fit in *; cbn [forallb omap list_omap id] in *; rewrite ?andb_true_iff in *; tauto.
Ltac field name lemma :=
  erewrite (present_field marshal_layout _ _ _ name);
  [cbn [mbind option_bind]|eassumption|reflexivity|reflexivity|apply lemma; try ints].
Ltac struct :=
  cbn beta; rewrite (present_struct marshal_layout); [cbn [mbind option_bind]|eassumption|reflexivity].

Lemma target_back t :
  field_back (decode_Target strict) (Some (target_tree t)) (canonical_target t).
Proof.
  intros Hr d. unfold decode_Target, target_tree in *. struct.
  field "target_id" omit_string_back. field "base_url" string_back. field "headers" headers_back.
  reflexivity.
Qed.
Lemma retry_back r :
  ints_fit [RetryPolicy_Attempts r; RetryPolicy_BackoffMS r] = true →
  field_back (decode_RetryPolicy strict) (Some (retry_tree r)) r.
Proof.
  intros Hi Hr d. destruct r. unfold decode_RetryPolicy, retry_tree in *. struct.
  field "attempts" omit_int_back. field "backoff_ms" omit_int_back. reflexivity.
Qed.
Lemma traffic_back t :
  ints_fit [Traffic_Concurrency t; Traffic_Iterations t; Traffic_RatePerSecond t;
            RetryPolicy_Attempts (Traffic_Retry t); RetryPolicy_BackoffMS (Traffic_Retry t)] = true →
  field_back (decode_Traffic strict) (Some (traffic_tree t)) t.
Proof.
  intros Hi Hr d. destruct t as [? ? ? ? rp].
  unfold decode_Traffic, traffic_tree in *. struct.
  field "type" string_back. field "concurrency" int_back. field "iterations" int_back.
  field "rate_per_second" omit_int_back. field "retry" retry_back. reflexivity.
Qed.
Lemma status_back l :
  ints_fit (default [] l) = true →
  field_back (decode_RequestExpectation strict) (Some (status_tree l)) (canonical_status l).
Proof.
  intros Hi Hr d. unfold decode_RequestExpectation, status_tree in *. struct.
  eapply (present_field marshal_layout _ _ _ "status"); [exact Hr|reflexivity|reflexivity|].
  destruct l as [[|z l]|]; [done| |done]. cbn [default from_option id omit_list] in *. intros Hl.
  rewrite <-(map_id (z :: l)) at 2. apply (decodes_slice _ decode_int int_tree id); [done|].
  intros x Hx _. apply decodes_int. unfold ints_fit in Hi. rewrite forallb_forall in Hi.
  by apply Hi, list_elem_of_In.
Qed.
Lemma raw_back raw :
  raw = "" ∨ compact_json raw = true →
  field_back decode_raw (omitempty (String.eqb raw "") (raw_tree raw)) raw.
Proof.
  intros [->|H]; [done|]. unfold omitempty. destruct (String.eqb_spec raw "") as [->|]; [done|].
  intros _ d. unfold decode_raw. cbn [List.last]. f_equal. rewrite (marshal_depth _ d 0%nat).
  by apply String.eqb_eq.
Qed.
Lemma request_back r :
  request_fits r → field_back (decode_Request strict) (Some (request_tree r)) (canonical_request r).
Proof.
  intros [Hs Hj] Hr d. unfold decode_Request, request_tree in *. struct.
  field "name" string_back. field "method" string_back. field "path" string_back.
  field "headers" headers_back. field "json" raw_back. field "body" omit_string_back.
  field "expect" status_back. reflexivity.
Qed.
Lemma thresholds_back t :
  float_fits (Thresholds_MaxErrorRate t) → float_fits (Thresholds_P95MS t) →
  field_back (decode_Thresholds strict) (Some (thresholds_tree t)) t.
Proof.
  intros H1 H2 Hr d. destruct t. unfold decode_Thresholds, thresholds_tree in *. struct.
  field "max_error_rate" float_pointer_back. field "p95_ms" float_pointer_back. reflexivity.
Qed.
Lemma any_back v :
  any_fits v →
  field_back decode_any (omitempty (match v with VNil => true | _ => false end) (dynamic_tree v)) v.
Proof.
  intros Hv. assert (∀ t, t = dynamic_tree v → to_any (tree_json (dynamic_tree v)) = Some v →
                      readable t → back decode_any t v) as Hb.
  { intros t -> H Hr d. unfold decode_any. cbn [mapM]. unfold read_any.
    rewrite (parse_rendered marshal_layout) by done. cbn [mbind option_bind]. by rewrite H. }
  destruct v; try done; destruct Hv as [_ Hv]; cbn [omitempty]; intros Hr; by apply Hb.
Qed.
Lemma probe_back e :
  any_fits (ProbeExpectation_Equals e) →
  field_back (decode_ProbeExpectation strict) (Some (probe_tree e)) e.
Proof.
  intros He Hr d. destruct e. unfold decode_ProbeExpectation, probe_tree in *. struct.
  field "json_path" omit_string_back. field "equals" any_back. reflexivity.
Qed.
Lemma invariant_back i :
  invariant_fits i → field_back (decode_Invariant strict) (Some (invariant_tree i)) (canonical_invariant i).
Proof.
  intros [Hi He] Hr d. destruct i as [? ? ? ? ? ? st eq mi ma ex]. cbn in Hi, He.
  assert (ints_fit (option_list st) = true ∧ ints_fit (option_list eq) = true
          ∧ ints_fit (option_list mi) = true ∧ ints_fit (option_list ma) = true) as (? & ? & ? & ?)
    by (destruct st, eq, mi, ma; cbn in *; ints).
  unfold decode_Invariant, invariant_tree in *. struct.
  field "name" string_back. field "type" string_back. field "request" omit_string_back.
  field "method" omit_string_back. field "path" omit_string_back. field "headers" headers_back.
  field "status" int_pointer_back. field "equals" int_pointer_back. field "min" int_pointer_back.
  field "max" int_pointer_back. field "expect" probe_back. reflexivity.
Qed.
Lemma field_back_map {A B} (f : A → B) (decode : Decoder A) x a :
  field_back decode x a → field_back (λ raws, f <$> decode raws) x (f a).
Proof. destruct x as [t|]; cbn; [intros H Hr d; by rewrite (H Hr d)|by intros ->]. Qed.
Lemma requests_back l :
  Forall request_fits l →
  field_back (decode_Requests strict) (Some (TArr (map request_tree l))) (map canonical_request l).
Proof.
  intros Hl. rewrite Forall_forall in Hl.
  apply (field_back_map (default []) (decode_slice (decode_Request strict)) _ (Some (map canonical_request l))).
  apply items_back. intros r Hin. exact (request_back r (Hl r Hin)).
Qed.
Lemma omit_requests_back l :
  Forall request_fits l →
  field_back (decode_Requests strict) (omit_list request_tree l) (map canonical_request l).
Proof. destruct l; [done|apply requests_back]. Qed.
Lemma invariants_back l :
  Forall invariant_fits l →
  field_back (decode_slice (decode_Invariant strict)) (omit_list invariant_tree l)
    (match l with [] => None | _ => Some (map canonical_invariant l) end).
Proof.
  intros Hl. rewrite Forall_forall in Hl. apply omit_items_back. intros i Hin.
  exact (invariant_back i (Hl i Hin)).
Qed.
Lemma scenario_back s :
  scenario_fits s → field_back (decode_Scenario strict) (Some (scenario_tree s)) (canonical s).
Proof.
  intros [Hi [Hs [Hq Ht]%Forall_app]%Forall_app H1 H2 Hv] Hr d.
  unfold decode_Scenario, scenario_tree in *. struct.
  field "version" int_back. field "name" string_back. field "description" omit_string_back.
  field "target" target_back. field "traffic" traffic_back.
  field "setup" omit_requests_back. field "requests" requests_back.
  field "teardown" omit_requests_back. field "thresholds" thresholds_back.
  field "invariants" invariants_back.
  unfold canonical. by destruct (Scenario_Invariants s).
Qed.
End Back.

(** ** Property *)

(** C20: the round trip of a scenario: what [json.Marshal] writes of a scenario
    that has requests is decoded, strictly or not and whatever follows in the
    text, as the same scenario, except that an empty header map and an empty list
    of statuses come back as nil.  That holds of every value of 64-bit ints,
    floats that read back from their shortest text, and compact raw messages, when
    its strings are valid UTF-8 and it is not nested too deep. *)
Theorem scenario_roundtrip `{DecodeErrors} strict s rest :
  readable (scenario_tree s) → scenario_fits s → after_value rest = true →
  let text := render marshal_layout 0 (scenario_tree s) in
  decode_first strict "Scenario" (decode_Scenario strict) (text +:+ rest) = Ok (canonical s)
  ∧ unmarshal_scenario text = Ok (canonical s).
Proof.
  intros Hr Hs Hrest text. subst text. split.
  - unfold decode_first. rewrite (value_text_render marshal_layout) by done.
    by rewrite (scenario_back strict s Hs Hr 0%nat).
  - unfold unmarshal_scenario, unmarshal_into. rewrite (value_text_whole marshal_layout) by done.
    cbn [skip_space String.eqb]. by rewrite (scenario_back false s Hs Hr 0%nat).
Qed.

(** Nothing else is lost: preparing what was read back gives the prepared
    scenario, when no list of statuses is there but empty. *)
Lemma normalize_canonical `{UnicodeTables} env h :
  normalize_headers (expandHeaders env (canonical_headers h)) = normalize_headers (expandHeaders env h).
Proof.
  destruct h as [m|]; [|done]. cbn [canonical_headers]. case_bool_decide as E; [|done].
  subst. unfold expandHeaders, normalize_headers. cbn. by rewrite fmap_empty.
Qed.
Theorem prepare_canonical `{UnicodeTables} env s :
  Forall (λ r, Request_Status r ≠ Some [])
    (Scenario_Setup s ++ Scenario_Requests s ++ Scenario_Teardown s) →
  prepare env (canonical s) = prepare env s.
Proof.
  intros [Hs [Hq Ht]%Forall_app]%Forall_app.
  assert (∀ l, Forall (λ r, Request_Status r ≠ Some []) l →
            map normalizeRequest (map (expandRequest env) (map canonical_request l))
            = map normalizeRequest (map (expandRequest env) l)) as Hreq.
  { intros l Hl. rewrite !map_map. apply map_ext_in. intros r Hr%list_elem_of_In.
    rewrite Forall_forall in Hl. specialize (Hl r Hr). unfold normalizeRequest, expandRequest. cbn.
    rewrite normalize_canonical. by destruct (Request_Status r) as [[|]|]. }
  unfold prepare, Normalized, WithEnv, normalizeRequests, expandRequestEnv. cbn.
  rewrite !Hreq, normalize_canonical by done. f_equal. rewrite !map_map. apply map_ext.
  intros i. unfold normalizeInvariant, expandInvariant. cbn. by rewrite normalize_canonical.
Qed.

(** ** Examples *)
#[local] Existing Instance plain_errors.

Definition full_scenario : Scenario :=
  Build_Scenario 1 "orders" "" (Build_Target "" "http://localhost:9090" (Some ∅))
    (Build_Traffic "race" 2 1 0 (Build_RetryPolicy 0 0)) []
    [Build_Request "order" "POST" "/orders" (Some {["X-Key" := "<1>"]})
       (quotes "{'sku':'a','n':[1,2.50]}") "" (Some [201; 409])] []
    (Build_Thresholds (Some (float_dec 5 2)) None)
    [Build_Invariant "one" "http_probe" "" "GET" "/orders" (Some ∅) None None (Some (-1)) None
       (Build_ProbeExpectation "$.count" (VFloat (float_of_int 1)))].
Lemma full_scenario_fits : scenario_fits full_scenario.
Proof.
  split.
  - vm_compute. reflexivity.
  - apply Forall_singleton. split; [reflexivity|right; vm_compute; reflexivity].
  - exists "0.05". split; [vm_compute; reflexivity|split; vm_compute; reflexivity].
  - exact I.
  - constructor; [|constructor]. split; [vm_compute; reflexivity|].
    split; [eexists; vm_compute; reflexivity|vm_compute; reflexivity].
Qed.
Lemma scenario_roundtrip_witness :
  unmarshal_scenario (render marshal_layout 0 (scenario_tree full_scenario))
  = Ok (canonical full_scenario).
Proof.
  refine (proj2 (scenario_roundtrip true full_scenario "}" _ full_scenario_fits _)).
  - split; [vm_compute; reflexivity|]. apply Nat.leb_le. vm_compute. reflexivity.
  - reflexivity.
Defined.
Example full_scenario_text :
  render marshal_layout 0 (scenario_tree full_scenario)
  = quotes "{'version':1,'name':'orders','target':{'base_url':'http://localhost:9090'},'traffic':{'type':'race','concurrency':2,'iterations':1,'retry':{}},'requests':[{'name':'order','method':'POST','path':'/orders','headers':{'X-Key':'\u003c1\u003e'},'json':{'sku':'a','n':[1,2.50]},'expect':{'status':[201,409]}}],'thresholds':{'max_error_rate':0.05},'invariants':[{'name':'one','type':'http_probe','method':'GET','path':'/orders','min':-1,'expect':{'json_path':'$.count','equals':1}}]}".
Proof. vm_compute. reflexivity. Qed.
