(* ===== verification/ScenarioHeap.v ===== *)
(** * Scenarios in memory (src/apps/api/internal/scenario/schema.go)

    [WithEnv] and [Normalized] take a scenario by value and change it in place:
    the struct is copied, but its slices and header maps are references that the
    copy shares with the argument, and with every other copy of it (the record
    in the memory store, the version, the run).  Here they are programs on a
    heap, with the accesses they make, and the lemmas for their loops: a loop
    works on the footprint of one part of the scenario and leaves the others
    as they are.  The properties are in ScenarioAlias.v. *)

From S2P Require Export Scenario.

Open Scope Z_scope.

(** ** The heap *)
Abbreviation ref := positive (only parsing).
Record HRequest := {
  hq_Name : string;
  hq_Method : string;
  hq_Path : string;
  hq_Headers : option ref;               (* None is the nil map *)
  hq_JSON : string;
  hq_Body : string;
  hq_Status : option (list Z);
}.
Record HInvariant := {
  hi_Name : string;
  hi_Type : string;
  hi_Request : string;
  hi_Method : string;
  hi_Path : string;
  hi_Headers : option ref;
  hi_Status : option Z;
  hi_Equals : option Z;
  hi_Min : option Z;
  hi_Max : option Z;
  hi_Expect : ProbeExpectation;
}.
Record HScenario := {
  hs_Version : Z;
  hs_Name : string;
  hs_Description : string;
  hs_TargetID : string;
  hs_BaseURL : string;
  hs_Headers : option ref;
  hs_Traffic : Traffic;
  hs_Setup : option ref;                 (* None is the nil slice *)
  hs_Requests : option ref;
  hs_Teardown : option ref;
  hs_Thresholds : Thresholds;
  hs_Invariants : option ref;
}.
Record heap := {
  h_maps : gmap ref (gmap string string);
  h_requests : gmap ref (list HRequest);
  h_invariants : gmap ref (list HInvariant);
}.
Definition set_maps (m : gmap ref (gmap string string)) (h : heap) : heap :=
  Build_heap m (h_requests h) (h_invariants h).
Definition set_requests (m : gmap ref (list HRequest)) (h : heap) : heap :=
  Build_heap (h_maps h) m (h_invariants h).
Definition set_invariants (m : gmap ref (list HInvariant)) (h : heap) : heap :=
  Build_heap (h_maps h) (h_requests h) m.

(** An access to a map or to an element of an array. *)
Inductive location :=
| LMap (r : ref)
| LRequest (r : ref) (i : nat)
| LInvariant (r : ref) (i : nat).
Record access := { acc_write : bool; acc_location : location }.
#[export] Instance location_dec : EqDecision location.
Proof. solve_decision. Defined.

(** ** Programs on the heap *)
Definition prog (A : Type) : Type := heap → A * heap * list access.
Definition p_ret {A} (a : A) : prog A := λ h, (a, h, []).
Definition p_bind {A B} (p : prog A) (k : A → prog B) : prog B := λ h,
  let '(a, h, log1) := p h in
  let '(b, h, log2) := k a h in
  (b, h, log1 ++ log2).

Declare Scope heap_scope.
Delimit Scope heap_scope with heap.
Notation "'let*' x := p 'in' k" := (p_bind p (λ x, k))
  (at level 10, x pattern, p at level 100, k at level 200) : heap_scope.
Notation "p1 ;* p2" := (p_bind p1 (λ _, p2)) (at level 199, right associativity) : heap_scope.
Open Scope heap_scope.

Definition read_map (r : ref) : prog (gmap string string) := λ h,
  (default ∅ (h_maps h !! r), h, [Build_access false (LMap r)]).
Definition assign_map (r : ref) (k v : string) : prog () := λ h,
  ((), set_maps (alter <[k := v]> r (h_maps h)) h, [Build_access true (LMap r)]).
(** [map[string]string{}]. *)
Definition new_map : prog ref := λ h,
  let r := fresh (dom (h_maps h)) in (r, set_maps (<[r := ∅]> (h_maps h)) h, []).

(** The arrays of one type of element; the fields of an element are one
    location. *)
Class HeapArray (E : Type) := {
  arrays : heap → gmap ref (list E);
  set_arrays : gmap ref (list E) → heap → heap;
  element : ref → nat → location;
  headers_of : E → option ref;
}.
#[export] Instance request_array : HeapArray HRequest :=
  {| arrays := h_requests; set_arrays := set_requests; element := LRequest; headers_of := hq_Headers |}.
#[export] Instance invariant_array : HeapArray HInvariant :=
  {| arrays := h_invariants; set_arrays := set_invariants; element := LInvariant;
     headers_of := hi_Headers |}.

Section Loops.
Context `{HA : HeapArray E}.
Definition array_of (h : heap) (o : option ref) : list E := default [] (o ≫= λ r, arrays h !! r).
Definition read_element (r : ref) (i : nat) : prog (option E) := λ h,
  (array_of h (Some r) !! i, h, [Build_access false (element r i)]).
Definition write_element (r : ref) (i : nat) (x : E) : prog () := λ h,
  ((), set_arrays (alter <[i := x]> r (arrays h)) h, [Build_access true (element r i)]).

Lemma insert_alter_same (r : ref) (A : gmap ref (list E)) (f : list E → list E) l :
  A !! r = Some l → alter f r A = <[r := f l]> A.
Proof.
  intros Hl. apply map_eq. intros q. destruct (decide (q = r)) as [->|Hq].
  - by rewrite lookup_insert_eq, lookup_alter_eq, Hl.
  - by rewrite lookup_insert_ne, lookup_alter_ne.
Qed.

(** [for i := range slice { ... }]. *)
Fixpoint for_elements (r : ref) (body : ref → nat → prog ()) (i n : nat) : prog () :=
  match n with
  | O => p_ret ()
  | S n => body r i;* for_elements r body (S i) n
  end.
Definition for_range (slice : option ref) (body : ref → nat → prog ()) : prog () := λ h,
  match slice with
  | Some r => for_elements r body 0 (length (array_of h slice)) h
  | None => p_ret () h
  end.
(** The element [i], which a loop over the array finds present. *)
Definition with_element (r : ref) (i : nat) (k : E → prog ()) : prog () :=
  let* x := read_element r i in
  match x with Some x => k x | None => p_ret () end.
End Loops.

Section Programs.
Context `{U : UnicodeTables}.

(** ** WithEnv *)
Section Env.
Variable env : string → string.

(** [for k, v := range m { m[k] = os.ExpandEnv(v) }]; the order of the keys
    does not matter ([expand_map_maps]). *)
Definition expand_map (o : option ref) : prog () :=
  match o with
  | None => p_ret ()
  | Some r =>
      let* m := read_map r in
      foldr (λ '(k, v) p, assign_map r k (ExpandEnv env v);* p) (p_ret ()) (map_to_list m)
  end.
Definition expand_HRequest (r : ref) (i : nat) : prog () :=
  with_element r i (λ x,
    write_element r i
      (Build_HRequest (ExpandEnv env (hq_Name x)) (hq_Method x) (ExpandEnv env (hq_Path x))
         (hq_Headers x)
         (if (0 <? String.length (hq_JSON x))%nat then ExpandEnv env (hq_JSON x) else hq_JSON x)
         (ExpandEnv env (hq_Body x)) (hq_Status x));*
    expand_map (hq_Headers x)).
Definition expand_HInvariant (r : ref) (i : nat) : prog () :=
  with_element r i (λ x,
    write_element r i
      (Build_HInvariant (ExpandEnv env (hi_Name x)) (hi_Type x) (ExpandEnv env (hi_Request x))
         (hi_Method x) (ExpandEnv env (hi_Path x)) (hi_Headers x) (hi_Status x) (hi_Equals x)
         (hi_Min x) (hi_Max x) (hi_Expect x));*
    expand_map (hi_Headers x)).
(** The fields of the struct itself, which is a copy. *)
Definition expand_HScenario (s : HScenario) : HScenario :=
  Build_HScenario (hs_Version s) (ExpandEnv env (hs_Name s))
    (ExpandEnv env (hs_Description s)) (hs_TargetID s) (ExpandEnv env (hs_BaseURL s))
    (hs_Headers s) (hs_Traffic s) (hs_Setup s) (hs_Requests s) (hs_Teardown s)
    (hs_Thresholds s) (hs_Invariants s).
Definition heap_WithEnv (s : HScenario) : prog HScenario :=
  expand_map (hs_Headers s);*
  for_range (E := HRequest) (hs_Setup s) expand_HRequest;*
  for_range (E := HRequest) (hs_Requests s) expand_HRequest;*
  for_range (E := HRequest) (hs_Teardown s) expand_HRequest;*
  for_range (E := HInvariant) (hs_Invariants s) expand_HInvariant;*
  p_ret (expand_HScenario s).
End Env.

(** ** Normalized *)
Definition normalize_map (o : option ref) : prog (option ref) :=
  match o with
  | None => let* r := new_map in p_ret (Some r)
  | Some r => p_ret (Some r)
  end.
Definition normalize_HRequest (r : ref) (i : nat) : prog () :=
  with_element r i (λ x,
    let* hdr := normalize_map (hq_Headers x) in
    write_element r i
      (Build_HRequest (hq_Name x) (normalize_method (hq_Method x)) (hq_Path x) hdr (hq_JSON x)
         (hq_Body x) (hq_Status x))).
Definition normalize_HInvariant (r : ref) (i : nat) : prog () :=
  with_element r i (λ x,
    let* hdr := normalize_map (hi_Headers x) in
    write_element r i
      (Build_HInvariant (hi_Name x) (hi_Type x) (hi_Request x) (normalize_method (hi_Method x))
         (hi_Path x) hdr (hi_Status x) (hi_Equals x) (hi_Min x) (hi_Max x) (hi_Expect x))).
Definition normalize_HScenario (s : HScenario) (hdr : option ref) : HScenario :=
  Build_HScenario (if hs_Version s =? 0 then CurrentVersion else hs_Version s) (hs_Name s)
    (hs_Description s) (hs_TargetID s) (hs_BaseURL s) hdr
    (normalizeTraffic (hs_Traffic s)) (hs_Setup s) (hs_Requests s) (hs_Teardown s)
    (hs_Thresholds s) (hs_Invariants s).
Definition heap_Normalized (s : HScenario) : prog HScenario :=
  let* hdr := normalize_map (hs_Headers s) in
  for_range (E := HRequest) (hs_Setup s) normalize_HRequest;*
  for_range (E := HRequest) (hs_Requests s) normalize_HRequest;*
  for_range (E := HRequest) (hs_Teardown s) normalize_HRequest;*
  for_range (E := HInvariant) (hs_Invariants s) normalize_HInvariant;*
  p_ret (normalize_HScenario s hdr).
Definition heap_prepare (env : string → string) (s : HScenario) : prog HScenario :=
  let* s := heap_WithEnv env s in heap_Normalized s.
End Programs.

(** ** Footprints: the header maps that a part of a scenario uses *)
Abbreviation maps := (gmap ref (gmap string string)).

Definition refs_of (o : option ref) : gset ref :=
  match o with Some r => {[r]} | None => ∅ end.
Definition headers_at (M : maps) (o : option ref) : headers := o ≫= (M !!.).

(** A step that works on the maps [rs] of [M]: the others keep their value, and
    what is used afterwards is of [rs] or new. *)
Record changes (rs : gset ref) (M M' : maps) (rs' : gset ref) : Prop := {
  ch_dom : dom M ⊆ dom M';
  ch_frame : ∀ q, q ∈ dom M → q ∉ rs → M' !! q = M !! q;
  ch_new : rs' ⊆ rs ∪ (dom M' ∖ dom M);
}.

Lemma changes_refl rs M : changes rs M M rs.
Proof. split; set_solver. Qed.
Lemma changes_dom rs M M' rs' : changes rs M M' rs' → rs ⊆ dom M → rs' ⊆ dom M'.
Proof. intros []. set_solver. Qed.
Lemma changes_apart rs M M' rs' ts :
  changes rs M M' rs' → ts ⊆ dom M → ts ## rs →
  ts ## rs' ∧ ts ⊆ dom M' ∧ ∀ q, q ∈ ts → M' !! q = M !! q.
Proof.
  intros [Hd Hf Hn] Ht Hr.
  split; [set_solver|]. split; [set_solver|]. intros q Hq. apply Hf; set_solver.
Qed.
Lemma changes_compose rs M1 M2 rs' ts M3 ts' :
  changes rs M1 M2 rs' → changes ts M2 M3 ts' → rs ⊆ dom M1 → ts ⊆ dom M1 → rs ## ts →
  changes (rs ∪ ts) M1 M3 (rs' ∪ ts').
Proof.
  intros H1 H2 Hrs Hts Ha. destruct H1 as [D1 F1 N1], H2 as [D2 F2 N2]. split.
  - set_solver.
  - intros q Hq Hn. rewrite F2; [apply F1|..]; set_solver.
  - set_solver.
Qed.

(** The maps that a map loop writes: those that [T] says it does not leave
    alone. *)
Definition map_writes (T : gmap string string → bool) (M : maps) (o : option ref)
  : list location :=
  match o with
  | Some r => match M !! r with Some m => if T m then [LMap r] else [] | None => [] end
  | None => []
  end.
Lemma map_writes_local T M M' o :
  (∀ q, q ∈ refs_of o → M' !! q = M !! q) → map_writes T M' o = map_writes T M o.
Proof. destruct o as [r|]; [|done]. intros H. simpl. rewrite H; [done|set_solver]. Qed.
Lemma headers_at_local M M' o :
  (∀ q, q ∈ refs_of o → M' !! q = M !! q) → headers_at M' o = headers_at M o.
Proof. destruct o as [r|]; [|done]. intros H. apply H. set_solver. Qed.

(** What a class of arrays must satisfy: its store is independent of the maps. *)
Class HeapArrayLaws E `{HeapArray E} := {
  arrays_set a h : arrays (set_arrays a h) = a;
  maps_set_arrays a h : h_maps (set_arrays a h) = h_maps h;
  arrays_set_maps M h : arrays (set_maps M h) = arrays h;
  set_arrays_maps a M h : set_arrays a (set_maps M h) = set_maps M (set_arrays a h);
  set_arrays_set a b h : set_arrays a (set_arrays b h) = set_arrays a h;
  set_arrays_same h : set_arrays (arrays h) h = h;
}.
#[export] Instance request_array_laws : HeapArrayLaws HRequest.
Proof. by split; intros; repeat match goal with h : heap |- _ => destruct h end. Qed.
#[export] Instance invariant_array_laws : HeapArrayLaws HInvariant.
Proof. by split; intros; repeat match goal with h : heap |- _ => destruct h end. Qed.
Lemma set_maps_set M M' h : set_maps M (set_maps M' h) = set_maps M h.
Proof. done. Qed.
Lemma set_maps_same h : set_maps (h_maps h) h = h.
Proof. by destruct h. Qed.

(** ** A loop over an array *)
Section LoopLaws.
Context {E V : Type} `{HA : HeapArray E, HL : !HeapArrayLaws E}.
Fixpoint list_refs (l : list E) : gset ref :=
  match l with [] => ∅ | x :: l => refs_of (headers_of x) ∪ list_refs l end.
Fixpoint separate (l : list E) : Prop :=
  match l with [] => True | x :: l => refs_of (headers_of x) ## list_refs l ∧ separate l end.
(** The locations that the loop writes. *)
Definition array_writes (T : gmap string string → bool) (M : maps) (r : ref) (i : nat)
    (l : list E) : list location :=
  concat (imap (λ j x, element r (i + j) :: map_writes T M (headers_of x)) l).

Lemma array_writes_cons T M r i x l :
  array_writes T M r i (x :: l)
  = element r i :: map_writes T M (headers_of x) ++ array_writes T M r (S i) l.
Proof.
  unfold array_writes. simpl. rewrite Nat.add_0_r. do 3 f_equal. apply imap_ext.
  intros j y _. simpl. do 2 f_equal. lia.
Qed.
Lemma array_writes_local T M M' r i l :
  (∀ q, q ∈ list_refs l → M' !! q = M !! q) →
  array_writes T M' r i l = array_writes T M r i l.
Proof.
  revert i. induction l as [|x l IH]; intros i H; [done|].
  rewrite !array_writes_cons. rewrite IH; [|set_solver].
  rewrite (map_writes_local T M M'); [done|]. set_solver.
Qed.
Variable value : maps → E → V.
Hypothesis value_local : ∀ M M' x,
  (∀ q, q ∈ refs_of (headers_of x) → M' !! q = M !! q) → value M' x = value M x.

Lemma values_local M M' l :
  (∀ q, q ∈ list_refs l → M' !! q = M !! q) → map (value M') l = map (value M) l.
Proof.
  induction l as [|x l IH]; simpl; intros H; [done|].
  rewrite IH; [|set_solver]. f_equal. apply value_local. set_solver.
Qed.

(** One iteration: the element [x] becomes one of value [F], its map apart the
    header maps stay, and it writes at least what [T] says. *)
Definition iteration_spec (T : gmap string string → bool) (body : ref → nat → prog ())
    (F : V → V) : Prop :=
  ∀ h r l i x, arrays h !! r = Some l → l !! i = Some x →
    refs_of (headers_of x) ⊆ dom (h_maps h) →
    ∃ M' y log,
      body r i h = ((), set_maps M' (set_arrays (<[r := <[i := y]> l]> (arrays h)) h), log) ∧
      changes (refs_of (headers_of x)) (h_maps h) M' (refs_of (headers_of y)) ∧
      value M' y = F (value (h_maps h) x) ∧
      ∀ loc, loc ∈ element r i :: map_writes T (h_maps h) (headers_of x) →
        Build_access true loc ∈ log.

Lemma for_elements_spec T body F : iteration_spec T body F →
  ∀ suf pre h r, arrays h !! r = Some (pre ++ suf) → list_refs suf ⊆ dom (h_maps h) →
    separate suf →
    ∃ M' suf' log,
      for_elements r body (length pre) (length suf) h
      = ((), set_maps M' (set_arrays (<[r := pre ++ suf']> (arrays h)) h), log) ∧
      changes (list_refs suf) (h_maps h) M' (list_refs suf') ∧ separate suf' ∧
      map (value M') suf' = map F (map (value (h_maps h)) suf) ∧
      ∀ loc, loc ∈ array_writes T (h_maps h) r (length pre) suf → Build_access true loc ∈ log.
Proof.
  intros Hb. induction suf as [|x suf IH]; intros pre h r Hr Hd Hs.
  { exists (h_maps h), [], []. simpl. rewrite insert_id by done. rewrite set_arrays_same, set_maps_same.
    split; [done|]. split; [apply changes_refl|]. repeat split. intros loc []%elem_of_nil. }
  simpl in Hd, Hs. destruct Hs as [Hx Hs].
  destruct (Hb h r (pre ++ x :: suf) (length pre) x Hr) as (M1 & y & log1 & E1 & C1 & V1 & W1);
    [by rewrite list_lookup_middle|set_solver|].
  set (h1 := set_maps M1 _) in E1.
  destruct (changes_apart _ _ _ _ (list_refs suf) C1) as (A1 & A2 & A3); [set_solver..|].
  assert (Ha1 : arrays h1 = <[r := pre ++ y :: suf]> (arrays h)).
  { unfold h1. rewrite arrays_set_maps, arrays_set. by rewrite insert_app_r_alt, Nat.sub_diag. }
  destruct (IH (pre ++ [y]) h1 r) as (M2 & suf' & log2 & E2 & C2 & S2 & V2 & W2).
  { by rewrite Ha1, lookup_insert_eq, <-app_assoc. } { done. } { done. }
  assert (Hy : refs_of (headers_of y) ⊆ dom M1) by (eapply changes_dom; [done|set_solver]).
  destruct (changes_apart _ _ _ _ (refs_of (headers_of y)) C2) as (B1 & B2 & B3);
    [done|set_solver|].
  exists M2, (y :: suf'), (log1 ++ log2).
  rewrite length_app, Nat.add_1_r in E2, W2. simpl. unfold p_bind. rewrite E1, E2, Ha1.
  rewrite insert_insert_eq, <-app_assoc. simpl.
  split; [unfold h1; by rewrite set_arrays_maps, set_arrays_set, set_maps_set|].
  split; [eapply changes_compose; [exact C1|exact C2|set_solver..]|].
  split; [done|]. split.
  { f_equal; [by rewrite (value_local M1)|]. rewrite V2. by rewrite (values_local (h_maps h)). }
  intros loc. rewrite array_writes_cons.
  rewrite app_comm_cons, !elem_of_app. intros [H|H]; [left; by apply W1|right].
  apply W2. by rewrite (array_writes_local T (h_maps h)).
Qed.

(** The slice [o] of the heap [h] is allocated, its elements use different
    maps, all allocated. *)
Definition slice_ok (h : heap) (o : option ref) : Prop :=
  match o with
  | Some r => is_Some (arrays h !! r) ∧ separate (array_of h o)
              ∧ list_refs (array_of h o) ⊆ dom (h_maps h)
  | None => True
  end.
Definition slice_values (h : heap) (o : option ref) : list V :=
  map (value (h_maps h)) (array_of h o).
Definition slice_refs (h : heap) (o : option ref) : gset ref := list_refs (array_of h o).
Definition slice_writes (T : gmap string string → bool) (h : heap) (o : option ref)
  : list location :=
  match o with
  | Some r => array_writes T (h_maps h) r 0 (array_of h o)
  | None => []
  end.
(** [for_range] on a slice: the elements become those of [F]; of the rest of the
    heap only new maps differ. *)
Lemma for_range_spec T body F h o : iteration_spec T body F → slice_ok h o →
  ∃ h' log,
    for_range o body h = ((), h', log) ∧
    changes (slice_refs h o) (h_maps h) (h_maps h') (slice_refs h' o) ∧ slice_ok h' o ∧
    slice_values h' o = map F (slice_values h o) ∧
    (∀ q, o ≠ Some q → arrays h' !! q = arrays h !! q) ∧
    (∃ a, h' = set_maps (h_maps h') (set_arrays a h)) ∧
    ∀ loc, loc ∈ slice_writes T h o → Build_access true loc ∈ log.
Proof.
  intros Hb Ho. destruct o as [r|].
  - unfold slice_ok, slice_refs, slice_values, slice_writes, for_range, array_of in *.
    simpl in *. destruct Ho as ([l Hl] & Hs & Hd). rewrite Hl in Hs, Hd |- *. simpl in *.
    destruct (for_elements_spec T body F Hb l [] h r Hl Hd Hs)
      as (M' & l' & log & E1 & C & S' & Hv & W).
    simpl in E1. rewrite E1. do 2 eexists. split; [done|].
    rewrite arrays_set_maps, arrays_set, lookup_insert_eq. simpl. split; [done|].
    split; [split; [done|split; [done|by eapply changes_dom]]|].
    split; [done|]. split; [intros q Hq; by rewrite lookup_insert_ne by congruence|].
    split; [by eexists|done].
  - exists h, []. split; [done|]. split; [apply changes_refl|]. do 3 (split; [done|]).
    split; [|intros loc []%elem_of_nil].
    exists (arrays h). by rewrite set_arrays_same, set_maps_same.
Qed.
End LoopLaws.

(** ** The bodies of the loops *)
Definition request_at (M : maps) (x : HRequest) : Request :=
  Build_Request (hq_Name x) (hq_Method x) (hq_Path x) (headers_at M (hq_Headers x)) (hq_JSON x)
    (hq_Body x) (hq_Status x).
Definition invariant_at (M : maps) (x : HInvariant) : Invariant :=
  Build_Invariant (hi_Name x) (hi_Type x) (hi_Request x) (hi_Method x) (hi_Path x)
    (headers_at M (hi_Headers x)) (hi_Status x) (hi_Equals x) (hi_Min x) (hi_Max x)
    (hi_Expect x).
Lemma request_at_local M M' (x : HRequest) :
  (∀ q, q ∈ refs_of (headers_of x) → M' !! q = M !! q) → request_at M' x = request_at M x.
Proof. intros H. unfold request_at. by rewrite (headers_at_local M M'). Qed.
Lemma invariant_at_local M M' (x : HInvariant) :
  (∀ q, q ∈ refs_of (headers_of x) → M' !! q = M !! q) →
  invariant_at M' x = invariant_at M x.
Proof. intros H. unfold invariant_at. by rewrite (headers_at_local M M'). Qed.

Section Bodies.
Context `{U : UnicodeTables}.
Section Env.
Variable env : string → string.

Definition nonempty_map (m : gmap string string) : bool := bool_decide (m ≠ ∅).
Definition expand_maps (o : option ref) (M : maps) : maps :=
  match o with Some r => alter (fmap (ExpandEnv env)) r M | None => M end.

Lemma assign_all (m : gmap string string) (l : list (string * string)) :
  NoDup l.*1 →
  foldl (λ m '(k, v), <[k := ExpandEnv env v]> m) m l
  = (ExpandEnv env <$> list_to_map l) ∪ m.
Proof.
  revert m. induction l as [|[k v] l IH]; simpl; intros m Hn.
  { by rewrite fmap_empty, (left_id_L ∅ (∪)). }
  apply NoDup_cons in Hn as [Hk Hn]. rewrite IH by done.
  rewrite fmap_insert, <-insert_union_l, insert_union_r; [done|].
  rewrite lookup_fmap. by rewrite (not_elem_of_list_to_map_1 l k Hk).
Qed.
Lemma assign_all_same (m : gmap string string) :
  foldl (λ m '(k, v), <[k := ExpandEnv env v]> m) m (map_to_list m) = ExpandEnv env <$> m.
Proof.
  rewrite assign_all by apply NoDup_fst_map_to_list. rewrite list_to_map_to_list.
  apply map_eq. intros k. rewrite lookup_union, !lookup_fmap. by destruct (m !! k).
Qed.
Lemma assign_loop r l h :
  foldr (λ '(k, v) p, assign_map r k (ExpandEnv env v);* p) (p_ret ()) l h
  = ((), set_maps (alter (λ m, foldl (λ m '(k, v), <[k := ExpandEnv env v]> m) m l) r (h_maps h)) h,
     replicate (length l) (Build_access true (LMap r))).
Proof.
  revert h. induction l as [|[k v] l IH]; intros h; simpl.
  - unfold p_ret. rewrite (alter_id (λ m : gmap string string, m)) by done. by destruct h.
  - unfold p_bind. unfold assign_map at 1. rewrite IH. simpl.
    by rewrite alter_alter_eq.
Qed.

(** [expand_map] rewrites every value of the map, and no other map. *)
Lemma expand_map_maps o h :
  ∃ log, expand_map env o h = ((), set_maps (expand_maps o (h_maps h)) h, log) ∧
    ∀ loc, loc ∈ map_writes nonempty_map (h_maps h) o → Build_access true loc ∈ log.
Proof.
  destruct o as [r|].
  - simpl. unfold p_bind at 1. unfold read_map. rewrite assign_loop. eexists. split.
    + do 3 f_equal. apply map_eq. intros q. destruct (decide (q = r)) as [->|Hq].
      * rewrite !lookup_alter_eq. destruct (h_maps h !! r); [|done]. simpl.
        by rewrite assign_all_same.
      * by rewrite !lookup_alter_ne.
    + intros loc Hl. destruct (h_maps h !! r) as [m|]; [|by apply elem_of_nil in Hl].
      unfold nonempty_map in Hl. case_bool_decide as Hm; [|by apply elem_of_nil in Hl].
      apply list_elem_of_singleton in Hl as ->. apply elem_of_app. right. simpl.
      destruct (map_to_list m) as [|kv l] eqn:Hl.
      * by apply map_to_list_empty_iff in Hl.
      * simpl. by left.
  - exists []. split; [by destruct h|]. intros loc []%elem_of_nil.
Qed.
Lemma expand_maps_changes o M : changes (refs_of o) M (expand_maps o M) (refs_of o).
Proof.
  destruct o as [r|]; [|apply changes_refl]. simpl. split.
  - by rewrite dom_alter_L.
  - intros q _ Hq. apply lookup_alter_ne. set_solver.
  - set_solver.
Qed.
Lemma expand_maps_headers o M : headers_at (expand_maps o M) o = expandHeaders env (headers_at M o).
Proof. destruct o as [r|]; [|done]. simpl. by rewrite lookup_alter_eq. Qed.

(** The body of a loop of [WithEnv]. *)
Lemma expand_body {E V} `{HL : HeapArrayLaws E} (value : maps → E → V) (F : V → V)
    (body : ref → nat → prog ()) (up : E → E) :
  (∀ r i, body r i = with_element r i (λ x,
     write_element r i (up x);* expand_map env (headers_of x))) →
  (∀ x, headers_of (up x) = headers_of x) →
  (∀ x M, value (expand_maps (headers_of x) M) (up x) = F (value M x)) →
  iteration_spec value nonempty_map body F.
Proof.
  intros Hbody Hup Hval h r l i x Hl Hi Hd.
  set (h1 := set_arrays (<[r := <[i := up x]> l]> (arrays h)) h).
  destruct (expand_map_maps (headers_of x) h1) as (log & E1 & W).
  assert (Hh1 : h_maps h1 = h_maps h) by apply maps_set_arrays. rewrite Hh1 in E1, W.
  exists (expand_maps (headers_of x) (h_maps h)), (up x). eexists. rewrite Hup.
  split; [|split; [apply expand_maps_changes|split; [apply Hval|]]].
  - rewrite Hbody. unfold with_element, p_bind, read_element, array_of. simpl. rewrite Hl.
    simpl. rewrite Hi. unfold write_element.
    rewrite (insert_alter_same r _ _ l Hl). fold h1. by rewrite E1.
  - intros loc [->|Hl']%elem_of_cons; simpl; [right; by left|]. right. right. by apply W.
Qed.
Lemma expand_HRequest_spec :
  iteration_spec request_at nonempty_map (expand_HRequest env) (expandRequest env).
Proof.
  eapply expand_body; [done|done|]. intros x M. unfold request_at, expandRequest. simpl.
  by rewrite expand_maps_headers.
Qed.
Lemma expand_HInvariant_spec :
  iteration_spec invariant_at nonempty_map (expand_HInvariant env) (expandInvariant env).
Proof.
  eapply expand_body; [done|done|]. intros x M. unfold invariant_at, expandInvariant. simpl.
  by rewrite expand_maps_headers.
Qed.
End Env.

(** [normalize_map] gives a nil map a fresh one. *)
Lemma normalize_map_maps o h : refs_of o ⊆ dom (h_maps h) →
  ∃ M' o', normalize_map o h = (o', set_maps M' h, []) ∧
    changes (refs_of o) (h_maps h) M' (refs_of o') ∧
    headers_at M' o' = normalize_headers (headers_at (h_maps h) o).
Proof.
  intros Ho. destruct o as [r|]; simpl.
  - exists (h_maps h), (Some r). rewrite set_maps_same. split; [done|].
    split; [apply changes_refl|]. simpl.
    assert (is_Some (h_maps h !! r)) as [m ->] by (apply elem_of_dom; set_solver). done.
  - set (r := fresh (dom (h_maps h))). assert (r ∉ dom (h_maps h)) by apply is_fresh.
    exists (<[r := ∅]> (h_maps h)), (Some r). split; [done|]. split.
    + split.
      * rewrite dom_insert_L. set_solver.
      * intros q Hq _. rewrite lookup_insert_ne; [done|]. congruence.
      * rewrite dom_insert_L. set_solver.
    + simpl. by rewrite lookup_insert_eq.
Qed.

(** The body of a loop of [Normalized]. *)
Lemma normalize_body {E V} `{HL : HeapArrayLaws E} (value : maps → E → V) (F : V → V)
    (body : ref → nat → prog ()) (up : E → option ref → E) :
  (∀ r i, body r i = with_element r i (λ x,
     let* hdr := normalize_map (headers_of x) in write_element r i (up x hdr))) →
  (∀ x o, headers_of (up x o) = o) →
  (∀ x M M' o, headers_at M' o = normalize_headers (headers_at M (headers_of x)) →
    value M' (up x o) = F (value M x)) →
  iteration_spec value (λ _, false) body F.
Proof.
  intros Hbody Hup Hval h r l i x Hl Hi Hd.
  destruct (normalize_map_maps (headers_of x) h Hd) as (M' & o' & E1 & C & Hh).
  exists M', (up x o'). eexists. rewrite Hup.
  split; [|split; [exact C|split; [by apply Hval|]]].
  - rewrite Hbody. unfold with_element, p_bind, read_element, array_of. simpl. rewrite Hl.
    simpl. rewrite Hi, E1. unfold write_element. rewrite arrays_set_maps, set_arrays_maps.
    by rewrite (insert_alter_same r _ _ l Hl).
  - intros loc [->|Hl']%elem_of_cons; simpl; [right; by left|].
    unfold map_writes in Hl'. destruct (headers_of x) as [q|]; [|by apply elem_of_nil in Hl'].
    destruct (h_maps h !! q); by apply elem_of_nil in Hl'.
Qed.
Lemma normalize_HRequest_spec :
  iteration_spec request_at (λ _, false) normalize_HRequest normalizeRequest.
Proof.
  eapply (normalize_body _ _ _ (λ x hdr, Build_HRequest _ _ _ hdr _ _ _)); [done|done|].
  intros x M M' o H. unfold request_at, normalizeRequest. simpl. by rewrite H.
Qed.
Lemma normalize_HInvariant_spec :
  iteration_spec invariant_at (λ _, false) normalize_HInvariant normalizeInvariant.
Proof.
  eapply (normalize_body _ _ _ (λ x hdr, Build_HInvariant _ _ _ _ _ hdr _ _ _ _ _)); [done|done|].
  intros x M M' o H. unfold invariant_at, normalizeInvariant. simpl. by rewrite H.
Qed.
End Bodies.

(** ** The parts of a scenario *)
Inductive part :=
| PHeaders (o : option ref)
| PRequests (o : option ref)
| PInvariants (o : option ref).

Definition part_refs (h : heap) (p : part) : gset ref :=
  match p with
  | PHeaders o => refs_of o
  | PRequests o => slice_refs (E := HRequest) h o
  | PInvariants o => slice_refs (E := HInvariant) h o
  end.
Definition part_ok (h : heap) (p : part) : Prop :=
  match p with
  | PHeaders o => refs_of o ⊆ dom (h_maps h)
  | PRequests o => slice_ok (E := HRequest) h o
  | PInvariants o => slice_ok (E := HInvariant) h o
  end.
(** The arrays of two parts. *)
Definition other_array (p q : part) : Prop :=
  match p, q with
  | PRequests (Some r), PRequests (Some r')
  | PInvariants (Some r), PInvariants (Some r') => r ≠ r'
  | _, _ => True
  end.
Definition apart (h : heap) (p q : part) : Prop :=
  part_refs h p ## part_refs h q ∧ other_array p q.
Definition parts_ok (h : heap) (ps : list part) : Prop :=
  (∀ i p, ps !! i = Some p → part_ok h p) ∧
  (∀ i j p q, i ≠ j → ps !! i = Some p → ps !! j = Some q → apart h p q).

(** The part [q] reads the same in [h'] as in [h]. *)
Definition part_same (h h' : heap) (q : part) : Prop :=
  (∀ r, r ∈ part_refs h q → h_maps h' !! r = h_maps h !! r) ∧
  match q with
  | PHeaders _ => True
  | PRequests o => array_of (E := HRequest) h' o = array_of h o
  | PInvariants o => array_of (E := HInvariant) h' o = array_of h o
  end.
(** What a step over the part [p], which becomes [p'], does to the heap. *)
Record part_step (h : heap) (p : part) (h' : heap) (p' : part) : Prop := {
  ps_maps : changes (part_refs h p) (h_maps h) (h_maps h') (part_refs h' p');
  ps_ok : part_ok h' p';
  ps_array : ∀ q, other_array p q → other_array p' q;
  ps_requests : ∀ r, p ≠ PRequests (Some r) → h_requests h' !! r = h_requests h !! r;
  ps_invariants : ∀ r, p ≠ PInvariants (Some r) → h_invariants h' !! r = h_invariants h !! r;
}.

Lemma part_refs_dom h p : part_ok h p → part_refs h p ⊆ dom (h_maps h).
Proof.
  destruct p as [o|[r|]|[r|]]; simpl; try done; unfold slice_refs; simpl; set_solver.
Qed.
Lemma slice_ok_same {E} `{HL : HeapArrayLaws E} (h h' : heap) (o : option ref) :
  match o with Some r => arrays h' !! r = arrays h !! r | None => True end →
  (dom (h_maps h) ⊆ dom (h_maps h')) → slice_ok (E := E) h o → slice_ok (E := E) h' o.
Proof.
  destruct o as [r|]; [|done]. unfold slice_ok, array_of. simpl. intros -> Hd (H1 & H2 & H3).
  split; [done|]. split; [done|]. set_solver.
Qed.
Lemma array_of_same {E} `{HA : HeapArray E} (h h' : heap) (o : option ref) :
  match o with Some r => arrays h' !! r = arrays h !! r | None => True end →
  array_of (E := E) h' o = array_of h o.
Proof. destruct o as [r|]; [|done]. unfold array_of. by simpl; intros ->. Qed.

(** A step over one part leaves the parts apart from it as they were. *)
Lemma part_step_apart h p h' p' q :
  part_step h p h' p' → part_ok h q → apart h p q →
  part_same h h' q ∧ part_refs h' q = part_refs h q ∧ part_ok h' q ∧ apart h' p' q.
Proof.
  intros [Hm Hok Ha Hr Hi] Hq [Hd Hpq].
  destruct (changes_apart _ _ _ _ (part_refs h q) Hm) as (A1 & A2 & A3);
    [by apply part_refs_dom|set_solver|].
  assert (Hs : match q with
    | PHeaders _ => True
    | PRequests (Some r) => h_requests h' !! r = h_requests h !! r
    | PInvariants (Some r) => h_invariants h' !! r = h_invariants h !! r
    | _ => True end).
  { destruct q as [o|[r|]|[r|]]; try done; [apply Hr|apply Hi]; intros ->; by simpl in Hpq. }
  assert (Hsame : part_same h h' q).
  { split; [done|]. destruct q as [o|o|o]; [done|by apply array_of_same..]. }
  assert (Hrefs : part_refs h' q = part_refs h q).
  { destruct Hsame as [_ Hs']. destruct q as [o|o|o]; simpl in *; [done|..];
      unfold slice_refs; by rewrite Hs'. }
  split; [done|]. split; [done|]. split.
  - destruct q as [o|o|o]; [done|eapply slice_ok_same..]; try done; apply Hm.
  - split; [rewrite Hrefs; set_solver|by apply Ha].
Qed.

(** A step over the part [i] of well-formed parts. *)
Lemma parts_step h ps i p h' p' :
  parts_ok h ps → ps !! i = Some p → part_step h p h' p' →
  parts_ok h' (<[i := p']> ps) ∧
  ∀ j q, i ≠ j → ps !! j = Some q → part_same h h' q.
Proof.
  intros [Hok Hap] Hi Hs.
  assert (Hall : ∀ j q, i ≠ j → ps !! j = Some q →
    part_same h h' q ∧ part_refs h' q = part_refs h q ∧ part_ok h' q ∧ apart h' p' q).
  { intros j q Hij Hj. eapply part_step_apart; [done|by eapply Hok|by eapply (Hap i j)]. }
  assert (Hsym : ∀ q q', apart h' q q' → apart h' q' q).
  { intros q q' [H1 H2]. split; [set_solver|].
    destruct q as [o|[r|]|[r|]], q' as [o'|[r'|]|[r'|]]; simpl in *; congruence. }
  split; [|intros j q Hij Hj; by destruct (Hall j q Hij Hj)].
  split.
  - intros j q Hj. apply list_lookup_insert_Some in Hj as [(<- & <- & _)|[Hij Hj]].
    + apply Hs.
    + by apply (Hall j q Hij Hj).
  - intros j k q q' Hjk Hj Hk.
    apply list_lookup_insert_Some in Hj as [(<- & <- & _)|[Hij Hj]];
    apply list_lookup_insert_Some in Hk as [(<- & <- & _)|[Hik Hk]]; [done|..].
    + by apply (Hall k q' Hik Hk).
    + apply Hsym. by apply (Hall j q Hij Hj).
    + destruct (Hall j q Hij Hj) as (_ & E1 & _), (Hall k q' Hik Hk) as (_ & E2 & _).
      destruct (Hap j k q q' Hjk Hj Hk). split; [by rewrite E1, E2|done].
Qed.

(** What a part holds, the function it is mapped by, and what a step writes. *)
Inductive part_content :=
| VHeaders (h : headers)
| VRequests (l : list Request)
| VInvariants (l : list Invariant).
Definition map_content (fh : headers → headers) (fr : Request → Request)
    (fi : Invariant → Invariant) (v : part_content) : part_content :=
  match v with
  | VHeaders h => VHeaders (fh h)
  | VRequests l => VRequests (map fr l)
  | VInvariants l => VInvariants (map fi l)
  end.
Definition part_value (h : heap) (p : part) : part_content :=
  match p with
  | PHeaders o => VHeaders (headers_at (h_maps h) o)
  | PRequests o => VRequests (slice_values request_at h o)
  | PInvariants o => VInvariants (slice_values invariant_at h o)
  end.
Definition part_writes (T : gmap string string → bool) (h : heap) (p : part) : list location :=
  match p with
  | PHeaders o => map_writes T (h_maps h) o
  | PRequests o => slice_writes (E := HRequest) T h o
  | PInvariants o => slice_writes (E := HInvariant) T h o
  end.
Definition values (h : heap) (ps : list part) : list part_content := part_value h <$> ps.
Definition all_refs (h : heap) (ps : list part) : gset ref := ⋃ (part_refs h <$> ps).

Record stepped (T : gmap string string → bool) (f : part_content → part_content)
    (h : heap) (p : part) (h' : heap) (p' : part) (log : list access) : Prop := {
  st_step : part_step h p h' p';
  st_value : part_value h' p' = f (part_value h p);
  st_writes : ∀ loc, loc ∈ part_writes T h p → Build_access true loc ∈ log;
}.

Lemma slice_same {E V} `{HL : HeapArrayLaws E} (value : maps → E → V) T h h' o :
  (∀ M M' x, (∀ q, q ∈ refs_of (headers_of x) → M' !! q = M !! q) → value M' x = value M x) →
  (∀ q, q ∈ slice_refs (E := E) h o → h_maps h' !! q = h_maps h !! q) →
  array_of (E := E) h' o = array_of h o →
  slice_values value h' o = slice_values value h o ∧
  slice_writes (E := E) T h' o = slice_writes T h o.
Proof.
  intros Hv Hm Ha. unfold slice_values, slice_writes. rewrite Ha. split.
  - by apply (values_local value Hv).
  - destruct o as [r|]; [|done]. by apply array_writes_local.
Qed.
Lemma part_same_reads T h h' q :
  part_same h h' q → part_value h' q = part_value h q ∧ part_writes T h' q = part_writes T h q.
Proof.
  intros [Hm Ha]. destruct q as [o|o|o]; simpl in *.
  - by rewrite (headers_at_local (h_maps h)), (map_writes_local T (h_maps h)).
  - destruct (slice_same request_at T h h' o request_at_local Hm Ha) as [-> ->]. done.
  - destruct (slice_same invariant_at T h h' o invariant_at_local Hm Ha) as [-> ->]. done.
Qed.

Lemma changes_trans A M M1 B M2 C : changes A M M1 B → changes B M1 M2 C → changes A M M2 C.
Proof.
  intros [D1 F1 N1] [D2 F2 N2]. split; [set_solver| |set_solver].
  intros q Hq Hn. assert (q ∉ B) by (intros Hb; set_solver).
  rewrite F2 by set_solver. by apply F1.
Qed.

Lemma all_refs_lookup h ps i p : ps !! i = Some p → part_refs h p ⊆ all_refs h ps.
Proof.
  intros Hi r Hr. apply elem_of_union_list. exists (part_refs h p). split; [|done].
  apply list_elem_of_fmap. exists p. split; [done|]. by eapply list_elem_of_lookup_2.
Qed.
Lemma all_refs_in h ps r : r ∈ all_refs h ps ↔ ∃ i p, ps !! i = Some p ∧ r ∈ part_refs h p.
Proof.
  split; [|intros (i & p & Hi & Hr); by eapply all_refs_lookup].
  intros (X & HX & Hr)%elem_of_union_list. apply list_elem_of_fmap in HX as (p & -> & Hp).
  apply list_elem_of_lookup_1 in Hp as [i Hi]. by exists i, p.
Qed.

(** The arrays of the parts. *)
Definition uses_requests (ps : list part) (r : ref) : Prop := PRequests (Some r) ∈ ps.
Definition uses_invariants (ps : list part) (r : ref) : Prop := PInvariants (Some r) ∈ ps.

(** What a program over the parts [ps] does: they stay well-formed, the values
    become [vs], and nothing else of the heap changes. *)
Record parts_done (h : heap) (ps : list part) (h' : heap) (ps' : list part)
    (vs : list part_content) : Prop := {
  pd_ok : parts_ok h' ps';
  pd_values : values h' ps' = vs;
  pd_maps : changes (all_refs h ps) (h_maps h) (h_maps h') (all_refs h' ps');
  pd_requests : ∀ r, ¬ uses_requests ps r →
    ¬ uses_requests ps' r ∧ h_requests h' !! r = h_requests h !! r;
  pd_invariants : ∀ r, ¬ uses_invariants ps r →
    ¬ uses_invariants ps' r ∧ h_invariants h' !! r = h_invariants h !! r;
}.
Lemma parts_done_values h ps h' ps' vs :
  parts_done h ps h' ps' vs → parts_done h ps h' ps' (values h' ps').
Proof. by intros []. Qed.
Lemma parts_done_trans h ps h1 ps1 vs1 h2 ps2 vs2 :
  parts_done h ps h1 ps1 vs1 → parts_done h1 ps1 h2 ps2 vs2 → parts_done h ps h2 ps2 vs2.
Proof.
  intros [O1 V1 M1 R1 I1] [O2 V2 M2 R2 I2]. split; [done|done|by eapply changes_trans|..].
  - intros r Hr. destruct (R1 r Hr) as [Hr1 <-]. by apply R2.
  - intros r Hr. destruct (I1 r Hr) as [Hr1 <-]. by apply I2.
Qed.

(** A step over the part [i] keeps its arrays. *)
Definition same_arrays (p p' : part) : Prop :=
  match p with PHeaders _ => ∃ o, p' = PHeaders o | _ => p' = p end.

Lemma stepped_parts T f h ps i p h' p' log :
  parts_ok h ps → ps !! i = Some p → stepped T f h p h' p' log → same_arrays p p' →
  parts_done h ps h' (<[i := p']> ps) (alter f i (values h ps)) ∧
  ∀ j q, i ≠ j → ps !! j = Some q → part_writes T h' q = part_writes T h q.
Proof.
  intros Hps Hi [Hs Hv Hw] Hsa.
  destruct (parts_step _ _ _ _ _ _ Hps Hi Hs) as [Hok Hsame].
  assert (Hin : ∀ q, q ∉ ps → q ∈ <[i := p']> ps → ∃ o, q = PHeaders o).
  { intros q Hq [k Hk]%list_elem_of_lookup_1.
    apply list_lookup_insert_Some in Hk as [(<- & <- & _)|[_ Hk]].
    - destruct p; simpl in Hsa; [done|subst; apply list_elem_of_lookup_2 in Hi; done..].
    - by apply list_elem_of_lookup_2 in Hk. }
  split; [|intros j q Hij Hj; by apply part_same_reads, Hsame with j].
  split; [done|..].
  - apply list_eq. intros j. unfold values. rewrite list_lookup_fmap.
    destruct (decide (i = j)) as [<-|Hij].
    + rewrite list_lookup_insert_eq by by eapply lookup_lt_Some.
      rewrite list_lookup_alter_eq, list_lookup_fmap, Hi. simpl. by rewrite Hv.
    + rewrite list_lookup_insert_ne, list_lookup_alter_ne, list_lookup_fmap by done.
      destruct (ps !! j) as [q|] eqn:Hj; [|done]. simpl. f_equal.
      by apply (part_same_reads T), (Hsame j).
  - destruct (ps_maps _ _ _ _ Hs) as [Hd Hf Hn]. split; [done|..].
    + intros q Hq Hr. apply Hf; [done|]. intros Hp. apply Hr. by eapply all_refs_lookup.
    + intros r (j & q & Hj & Hr)%all_refs_in. apply elem_of_union.
      apply list_lookup_insert_Some in Hj as [(<- & <- & _)|[Hij Hj]].
      * apply Hn, elem_of_union in Hr as [Hr|Hr]; [left|by right]. by eapply all_refs_lookup.
      * left. eapply all_refs_lookup; [done|].
        destruct (part_step_apart h p h' p' q Hs) as (_ & <- & _); [|by eapply Hps|done].
        by eapply (proj1 Hps).
  - intros r Hr. split; [intros Hr'; by destruct (Hin _ Hr Hr')|].
    apply (ps_requests _ _ _ _ Hs). intros ->. by apply list_elem_of_lookup_2 in Hi.
  - intros r Hr. split; [intros Hr'; by destruct (Hin _ Hr Hr')|].
    apply (ps_invariants _ _ _ _ Hs). intros ->. by apply list_elem_of_lookup_2 in Hi.
Qed.

(** ** Scenarios *)
Definition scenario_parts (s : HScenario) : list part :=
  [PHeaders (hs_Headers s); PRequests (hs_Setup s); PRequests (hs_Requests s);
   PRequests (hs_Teardown s); PInvariants (hs_Invariants s)].
(** The scenario that [s] denotes in the heap. *)
Definition scenario_at (h : heap) (s : HScenario) : Scenario :=
  Build_Scenario (hs_Version s) (hs_Name s) (hs_Description s)
    (Build_Target (hs_TargetID s) (hs_BaseURL s) (headers_at (h_maps h) (hs_Headers s)))
    (hs_Traffic s) (slice_values request_at h (hs_Setup s))
    (slice_values request_at h (hs_Requests s)) (slice_values request_at h (hs_Teardown s))
    (hs_Thresholds s) (slice_values invariant_at h (hs_Invariants s)).
(** Every reference of [s] is allocated and no two of them are the same, as in a
    scenario that was decoded from JSON. *)
Definition heap_ok (h : heap) (s : HScenario) : Prop := parts_ok h (scenario_parts s).
Definition scenario_writes (T : gmap string string → bool) (h : heap) (s : HScenario)
  : list location := concat (part_writes T h <$> scenario_parts s).

(** ** The loops as steps over a part *)
Lemma requests_loop T fh fi body F h o :
  iteration_spec request_at T body F → part_ok h (PRequests o) →
  ∃ h' log, for_range (E := HRequest) o body h = ((), h', log) ∧
    stepped T (map_content fh F fi) h (PRequests o) h' (PRequests o) log.
Proof.
  intros Hb Ho.
  destruct (for_range_spec request_at request_at_local T body F h o Hb Ho)
    as (h' & log & E1 & C & Ok & Hv & Ha & [a Hh] & W).
  exists h', log. split; [done|]. split; [split|by simpl; rewrite Hv|done]; try done.
  - intros r Hr. apply Ha. congruence.
  - intros r _. by rewrite Hh.
Qed.
Lemma invariants_loop T fh fr body F h o :
  iteration_spec invariant_at T body F → part_ok h (PInvariants o) →
  ∃ h' log, for_range (E := HInvariant) o body h = ((), h', log) ∧
    stepped T (map_content fh fr F) h (PInvariants o) h' (PInvariants o) log.
Proof.
  intros Hb Ho.
  destruct (for_range_spec invariant_at invariant_at_local T body F h o Hb Ho)
    as (h' & log & E1 & C & Ok & Hv & Ha & [a Hh] & W).
  exists h', log. split; [done|]. split; [split|by simpl; rewrite Hv|done]; try done.
  - intros r _. by rewrite Hh.
  - intros r Hr. apply Ha. congruence.
Qed.

Section ScenarioLaws.
Context `{U : UnicodeTables}.

Lemma expand_headers_step env fr fi h o : part_ok h (PHeaders o) →
  ∃ h' log, expand_map env o h = ((), h', log) ∧
    stepped nonempty_map (map_content (expandHeaders env) fr fi) h (PHeaders o) h' (PHeaders o)
      log.
Proof.
  intros Ho. destruct (expand_map_maps env o h) as (log & E1 & W). do 2 eexists.
  split; [done|]. pose proof (expand_maps_changes env o (h_maps h)) as C.
  split; [split|by simpl; rewrite expand_maps_headers|done]; try done.
  by apply (changes_dom _ _ _ _ C).
Qed.
Lemma normalize_headers_step fr fi h o : part_ok h (PHeaders o) →
  ∃ h' o' log, normalize_map o h = (o', h', log) ∧
    stepped (λ _, false) (map_content normalize_headers fr fi) h (PHeaders o) h' (PHeaders o')
      log.
Proof.
  intros Ho. destruct (normalize_map_maps o h Ho) as (M' & o' & E1 & C & Hv).
  exists (set_maps M' h), o', []. split; [done|].
  split; [split|by simpl; rewrite Hv|]; try done.
  - by apply (changes_dom _ _ _ _ C).
  - intros loc. simpl. unfold map_writes. destruct o as [q|]; [|by intros []%elem_of_nil].
    by destruct (h_maps h !! q); intros []%elem_of_nil.
Qed.

(** ** Programs over the parts numbered [I], with result [a] *)
Definition runs {A} (T : gmap string string → bool) (f : part_content → part_content)
    (ps : list part) (I : list nat) (p : prog A) (a : A) : Prop :=
  ∀ h, parts_ok h ps → ∃ h' log,
    p h = (a, h', log) ∧
    parts_done h ps h' ps (foldr (alter f) (values h ps) I) ∧
    (∀ i q, i ∉ I → ps !! i = Some q → part_writes T h' q = part_writes T h q) ∧
    (∀ i q loc, i ∈ I → ps !! i = Some q → loc ∈ part_writes T h q →
      Build_access true loc ∈ log).

Lemma runs_ret {A} T f ps (a : A) : runs T f ps [] (p_ret a) a.
Proof.
  intros h Hps. exists h, []. split; [done|]. split.
  - split; [done|done|apply changes_refl|done|done].
  - split; [done|]. by intros i q loc []%elem_of_nil.
Qed.
Lemma runs_bind {A B} T f ps I1 I2 (p : prog A) a (k : A → prog B) b :
  runs T f ps I1 p a → runs T f ps I2 (k a) b → bool_decide (Forall (λ i, i ∉ I2) I1) = true →
  runs T f ps (I2 ++ I1) (p_bind p k) b.
Proof.
  intros Hp Hk Hd%bool_decide_eq_true_1 h Hps. rewrite Forall_forall in Hd.
  destruct (Hp h Hps) as (h1 & log1 & E1 & D1 & S1 & W1).
  destruct (Hk h1 (pd_ok _ _ _ _ _ D1)) as (h2 & log2 & E2 & D2 & S2 & W2).
  exists h2, (log1 ++ log2). split; [unfold p_bind; by rewrite E1, E2|].
  rewrite (pd_values _ _ _ _ _ D1) in D2. rewrite foldr_app.
  split; [by eapply parts_done_trans|]. setoid_rewrite elem_of_app. split.
  - intros i q Hi Hq. rewrite (S2 i), (S1 i); [done|..]; tauto.
  - intros i q loc [Hi|Hi] Hq Hl; [right|left].
    + eapply W2; [done..|]. rewrite (S1 i); [done| |done]. intros Hi'. by apply (Hd i).
    + by eapply W1.
Qed.
Lemma runs_stepped T f ps i q p :
  ps !! i = Some q →
  (∀ h, part_ok h q → ∃ h' log, p h = ((), h', log) ∧ stepped T f h q h' q log) →
  runs T f ps [i] p ().
Proof.
  intros Hi Hp h Hps. destruct (Hp h) as (h' & log & E1 & S); [by apply (proj1 Hps i)|].
  exists h', log. split; [done|].
  destruct (stepped_parts T f h ps i q h' q log) as [D W]; [done..|by destruct q; [eexists|..]|].
  rewrite list_insert_id in D by done. split; [done|]. split.
  - intros j q' Hj. apply W. intros ->. apply Hj. by left.
  - intros j q' loc ->%list_elem_of_singleton Hq. rewrite Hi in Hq. injection Hq as <-. apply S.
Qed.

(** The last four loops of [WithEnv] and [Normalized]. *)
Definition parts_of (s : HScenario) (o : option ref) : list part :=
  PHeaders o :: tail (scenario_parts s).
Lemma four_loops_spec {A} T s bodyr Fr bodyi Fi fh o (a : A) :
  iteration_spec request_at T bodyr Fr → iteration_spec invariant_at T bodyi Fi →
  runs T (map_content fh Fr Fi) (parts_of s o) [4%nat; 3%nat; 2%nat; 1%nat]
    (for_range (E := HRequest) (hs_Setup s) bodyr;*
     for_range (E := HRequest) (hs_Requests s) bodyr;*
     for_range (E := HRequest) (hs_Teardown s) bodyr;*
     for_range (E := HInvariant) (hs_Invariants s) bodyi;*
     p_ret a) a.
Proof.
  intros Hr Hi.
  assert (L : ∀ k slice, parts_of s o !! k = Some (PRequests slice) →
    runs T (map_content fh Fr Fi) (parts_of s o) [k] (for_range (E := HRequest) slice bodyr) ()).
  { intros k slice Hk. eapply runs_stepped; [done|]. intros h. by apply requests_loop. }
  eapply (runs_bind _ _ _ [1%nat] [4%nat; 3%nat; 2%nat]); [by apply L| |done].
  eapply (runs_bind _ _ _ [2%nat] [4%nat; 3%nat]); [by apply L| |done].
  eapply (runs_bind _ _ _ [3%nat] [4%nat]); [by apply L| |done].
  eapply (runs_bind _ _ _ [4%nat] []); [|apply runs_ret|done].
  eapply runs_stepped; [done|]. intros h. by apply invariants_loop.
Qed.
End ScenarioLaws.

(** The scenario [s] denotes in the heap, from the values of its parts. *)
Section Preparation.
Context `{U : UnicodeTables}.

Lemma heap_WithEnv_runs env h s : heap_ok h s → ∃ s' h' log,
  heap_WithEnv env s h = (s', h', log) ∧ scenario_parts s' = scenario_parts s ∧
  parts_done h (scenario_parts s) h' (scenario_parts s') (values h' (scenario_parts s')) ∧
  scenario_at h' s' = WithEnv env (scenario_at h s) ∧
  ∀ loc, loc ∈ scenario_writes nonempty_map h s → Build_access true loc ∈ log.
Proof.
  intros Hs. set (f := map_content (expandHeaders env) (expandRequest env) (expandInvariant env)).
  assert (R : ∀ s' : HScenario, runs nonempty_map f (scenario_parts s) [4%nat; 3%nat; 2%nat; 1%nat; 0%nat]
    (expand_map env (hs_Headers s);*
     for_range (E := HRequest) (hs_Setup s) (expand_HRequest env);*
     for_range (E := HRequest) (hs_Requests s) (expand_HRequest env);*
     for_range (E := HRequest) (hs_Teardown s) (expand_HRequest env);*
     for_range (E := HInvariant) (hs_Invariants s) (expand_HInvariant env);*
     p_ret s') s').
  { intros s'. eapply (runs_bind _ _ _ [0%nat] [4%nat; 3%nat; 2%nat; 1%nat]);
      [|apply four_loops_spec|done].
    - eapply runs_stepped; [done|]. intros h0. apply expand_headers_step.
    - apply expand_HRequest_spec.
    - apply expand_HInvariant_spec. }
  destruct (R (expand_HScenario env s) h Hs) as (h' & log & E1 & D & _ & W).
  exists (expand_HScenario env s), h', log. split; [exact E1|]. split; [done|].
  split; [by apply (parts_done_values _ _ _ _ _ D)|]. split.
  - pose proof (pd_values _ _ _ _ _ D) as V. simpl in V. unfold values in V. simpl in V.
    unfold scenario_at. simpl. by injection V as -> -> -> -> ->.
  - intros loc. unfold scenario_writes. simpl. rewrite app_nil_r, !elem_of_app.
    intros [H|[H|[H|[H|H]]]].
    + by apply (W 0%nat _ loc ltac:(set_solver) eq_refl).
    + by apply (W 1%nat _ loc ltac:(set_solver) eq_refl).
    + by apply (W 2%nat _ loc ltac:(set_solver) eq_refl).
    + by apply (W 3%nat _ loc ltac:(set_solver) eq_refl).
    + by apply (W 4%nat _ loc ltac:(set_solver) eq_refl).
Qed.

Lemma heap_Normalized_runs h s : heap_ok h s → ∃ s' h' log,
  heap_Normalized s h = (s', h', log) ∧
  tail (scenario_parts s') = tail (scenario_parts s) ∧
  (hs_Headers s ≠ None → hs_Headers s' = hs_Headers s) ∧
  parts_done h (scenario_parts s) h' (scenario_parts s') (values h' (scenario_parts s')) ∧
  scenario_at h' s' = Normalized (scenario_at h s).
Proof.
  intros Hs.
  destruct (normalize_headers_step normalizeRequest normalizeInvariant h (hs_Headers s)
    (proj1 Hs 0%nat _ eq_refl)) as (h1 & o & log1 & E1 & S1).
  destruct (stepped_parts _ _ _ _ 0%nat _ _ _ _ Hs eq_refl S1 (ex_intro _ o eq_refl)) as [D1 _].
  destruct (four_loops_spec (λ _, false) s normalize_HRequest normalizeRequest
    normalize_HInvariant normalizeInvariant normalize_headers o
    (normalize_HScenario s o)
    normalize_HRequest_spec normalize_HInvariant_spec h1 (pd_ok _ _ _ _ _ D1))
    as (h2 & log2 & E2 & D2 & _).
  pose proof (parts_done_trans _ _ _ _ _ _ _ _ D1 D2) as D.
  exists (normalize_HScenario s o), h2, (log1 ++ log2). split.
  { unfold heap_Normalized. unfold p_bind at 1. rewrite E1. by rewrite E2. }
  split; [done|]. split; [|split].
  - simpl. destruct (hs_Headers s) as [r|]; [|done]. intros _. simpl in E1. by injection E1.
  - by apply (parts_done_values _ _ _ _ _ D).
  - pose proof (pd_values _ _ _ _ _ D1) as V1. pose proof (pd_values _ _ _ _ _ D) as V.
    change (<[0%nat := PHeaders o]> (scenario_parts s)) with (parts_of s o) in V1.
    rewrite V1 in V. simpl in V. unfold values in V. simpl in V.
    unfold scenario_at. simpl. by injection V as -> -> -> -> ->.
Qed.
End Preparation.
