(* ===== verification/ScenarioAlias.v ===== *)
(** * Shared scenarios (src/apps/api/internal/scenario/schema.go,
      src/apps/api/internal/httpapi/server.go)

    What preparing a scenario in place does: the result is that of the functions
    of Scenario.v, the other copies of the scenario change with it, and two
    goroutines that prepare or encode copies of one scenario race. *)

From S2P Require Export ScenarioHeap.

Open Scope Z_scope.

(** ** Copies *)
(** [t] is a copy of [s]: it has the same slices and the same header map, as Go
    copies a struct. *)
Definition shares (t s : HScenario) : Prop := scenario_parts t = scenario_parts s.
(** [t] has no reference of [s]. *)
Definition unshared (h : heap) (t s : HScenario) : Prop :=
  ∀ p q, p ∈ scenario_parts s → q ∈ scenario_parts t → apart h p q.

(** ** Encoding: [encoding/json] walks the value it encodes *)
Definition read_headers (o : option ref) : prog headers :=
  match o with
  | None => p_ret None
  | Some r => let* m := read_map r in p_ret (Some m)
  end.
Fixpoint read_elements {E V} `{HA : HeapArray E} (r : ref) (body : E → prog V) (i n : nat)
  : prog (list V) :=
  match n with
  | O => p_ret []
  | S n =>
      let* x := read_element r i in
      match x with
      | Some x => let* v := body x in let* l := read_elements r body (S i) n in p_ret (v :: l)
      | None => p_ret []
      end
  end.
Definition read_slice {E V} `{HA : HeapArray E} (o : option ref) (body : E → prog V)
  : prog (list V) := λ h,
  match o with
  | Some r => read_elements r body 0 (length (array_of h o)) h
  | None => ([], h, [])
  end.
Definition read_HRequest (x : HRequest) : prog Request :=
  let* hdr := read_headers (hq_Headers x) in
  p_ret (Build_Request (hq_Name x) (hq_Method x) (hq_Path x) hdr (hq_JSON x) (hq_Body x)
           (hq_Status x)).
Definition read_HInvariant (x : HInvariant) : prog Invariant :=
  let* hdr := read_headers (hi_Headers x) in
  p_ret (Build_Invariant (hi_Name x) (hi_Type x) (hi_Request x) (hi_Method x) (hi_Path x) hdr
           (hi_Status x) (hi_Equals x) (hi_Min x) (hi_Max x) (hi_Expect x)).
(** The scenario that [writeJSON] finds when it encodes a record. *)
Definition heap_read (s : HScenario) : prog Scenario :=
  let* hdr := read_headers (hs_Headers s) in
  let* setup := read_slice (hs_Setup s) read_HRequest in
  let* requests := read_slice (hs_Requests s) read_HRequest in
  let* teardown := read_slice (hs_Teardown s) read_HRequest in
  let* invariants := read_slice (hs_Invariants s) read_HInvariant in
  p_ret (Build_Scenario (hs_Version s) (hs_Name s) (hs_Description s)
           (Build_Target (hs_TargetID s) (hs_BaseURL s) hdr) (hs_Traffic s)
           setup requests teardown (hs_Thresholds s) invariants).

(** ** Races *)
(** Two goroutines with no synchronisation race at a location that both access,
    one of them writing. *)
Definition races (log1 log2 : list access) (loc : location) : Prop :=
  ∃ w1 w2, Build_access w1 loc ∈ log1 ∧ Build_access w2 loc ∈ log2 ∧ w1 || w2 = true.
Definition log_of {A} (r : A * heap * list access) : list access := r.2.

(** ** Reading *)
Lemma read_headers_spec o h : refs_of o ⊆ dom (h_maps h) →
  ∃ log, read_headers o h = (headers_at (h_maps h) o, h, log) ∧
    ∀ T loc, loc ∈ map_writes T (h_maps h) o → Build_access false loc ∈ log.
Proof.
  intros Ho. destruct o as [r|]; simpl.
  - assert (is_Some (h_maps h !! r)) as [m Hm] by (apply elem_of_dom; set_solver).
    unfold p_bind, read_map. simpl. rewrite Hm. eexists. split; [done|].
    intros T loc Hl. destruct (T m); [|by apply elem_of_nil in Hl].
    apply list_elem_of_singleton in Hl as ->. by left.
  - eexists. split; [done|]. by intros T loc []%elem_of_nil.
Qed.

Section Reading.
Context {E V : Type} `{HA : HeapArray E, HL : !HeapArrayLaws E}.
Variable value : maps → E → V.
Variable body : E → prog V.
(** The body reads the value of the element, and its map. *)
Definition reads : Prop := ∀ x h, refs_of (headers_of x) ⊆ dom (h_maps h) →
  ∃ log, body x h = (value (h_maps h) x, h, log) ∧
    ∀ T loc, loc ∈ map_writes T (h_maps h) (headers_of x) → Build_access false loc ∈ log.

Lemma read_elements_spec h r : reads → ∀ suf pre,
  arrays h !! r = Some (pre ++ suf) → list_refs suf ⊆ dom (h_maps h) →
  ∃ log, read_elements r body (length pre) (length suf) h
         = (map (value (h_maps h)) suf, h, log) ∧
    ∀ T loc, loc ∈ array_writes T (h_maps h) r (length pre) suf →
      Build_access false loc ∈ log.
Proof.
  intros Hb. induction suf as [|x suf IH]; intros pre Hr Hd; simpl in Hd.
  { exists []. split; [done|]. by intros T loc []%elem_of_nil. }
  destruct (Hb x h) as (log1 & E1 & W1); [set_solver|].
  destruct (IH (pre ++ [x])) as (log2 & E2 & W2); [by rewrite <-app_assoc|set_solver|].
  rewrite length_app, Nat.add_1_r in E2, W2.
  exists (Build_access false (element r (length pre)) :: log1 ++ log2 ++ []). simpl.
  unfold p_bind at 1. unfold read_element, array_of. simpl. rewrite Hr. simpl.
  rewrite list_lookup_middle by done. unfold p_bind. rewrite E1, E2. split; [done|].
  intros T loc. rewrite array_writes_cons, app_nil_r.
  intros [->|[Hl|Hl]%elem_of_app]%elem_of_cons; [by left|right..]; apply elem_of_app;
    [left; by eapply W1|right; by eapply W2].
Qed.
Lemma read_slice_spec h o : reads → slice_ok (E := E) h o →
  ∃ log, read_slice o body h = (slice_values value h o, h, log) ∧
    ∀ T loc, loc ∈ slice_writes (E := E) T h o → Build_access false loc ∈ log.
Proof.
  intros Hb Ho. destruct o as [r|].
  - unfold slice_ok, slice_values, slice_writes, read_slice, array_of in *. simpl in *.
    destruct Ho as ([l Hl] & Hs & Hd). rewrite Hl in Hd |- *. simpl in *.
    apply (read_elements_spec h r Hb l []); done.
  - exists []. split; [done|]. by intros T loc []%elem_of_nil.
Qed.
End Reading.
Lemma read_HRequest_spec : reads request_at read_HRequest.
Proof.
  intros x h Hd. destruct (read_headers_spec (hq_Headers x) h Hd) as (log & E1 & W).
  exists (log ++ []). unfold read_HRequest, p_bind. rewrite E1. split; [done|].
  intros T loc Hl. rewrite app_nil_r. by eapply W.
Qed.
Lemma read_HInvariant_spec : reads invariant_at read_HInvariant.
Proof.
  intros x h Hd. destruct (read_headers_spec (hi_Headers x) h Hd) as (log & E1 & W).
  exists (log ++ []). unfold read_HInvariant, p_bind. rewrite E1. split; [done|].
  intros T loc Hl. rewrite app_nil_r. by eapply W.
Qed.

(** Reading a scenario gives what it denotes, changes nothing, and reads every
    location that preparing it writes. *)
Lemma heap_read_spec h s : heap_ok h s →
  ∃ log, heap_read s h = (scenario_at h s, h, log) ∧
    ∀ T loc, loc ∈ scenario_writes T h s → Build_access false loc ∈ log.
Proof.
  intros [Hok _].
  destruct (read_headers_spec (hs_Headers s) h (Hok 0%nat _ eq_refl)) as (log0 & E0 & W0).
  destruct (read_slice_spec request_at _ h (hs_Setup s) read_HRequest_spec (Hok 1%nat _ eq_refl))
    as (log1 & E1 & W1).
  destruct (read_slice_spec request_at _ h (hs_Requests s) read_HRequest_spec
    (Hok 2%nat _ eq_refl)) as (log2 & E2 & W2).
  destruct (read_slice_spec request_at _ h (hs_Teardown s) read_HRequest_spec
    (Hok 3%nat _ eq_refl)) as (log3 & E3 & W3).
  destruct (read_slice_spec invariant_at _ h (hs_Invariants s) read_HInvariant_spec
    (Hok 4%nat _ eq_refl)) as (log4 & E4 & W4).
  exists (log0 ++ log1 ++ log2 ++ log3 ++ log4 ++ []). split.
  { unfold heap_read, p_bind. by rewrite E0, E1, E2, E3, E4. }
  intros T loc. unfold scenario_writes. simpl. rewrite !app_nil_r, !elem_of_app.
  specialize (W0 T loc). specialize (W1 T loc). specialize (W2 T loc).
  specialize (W3 T loc). specialize (W4 T loc). tauto.
Qed.

(** ** Preparing *)
Section Prepare.
Context `{U : UnicodeTables}.

Lemma heap_prepare_spec env h s : heap_ok h s → ∃ s' h' log,
  heap_prepare env s h = (s', h', log) ∧
  tail (scenario_parts s') = tail (scenario_parts s) ∧
  (hs_Headers s ≠ None → hs_Headers s' = hs_Headers s) ∧
  parts_done h (scenario_parts s) h' (scenario_parts s') (values h' (scenario_parts s')) ∧
  scenario_at h' s' = prepare env (scenario_at h s) ∧
  ∀ loc, loc ∈ scenario_writes nonempty_map h s → Build_access true loc ∈ log.
Proof.
  intros Hs. destruct (heap_WithEnv_runs env h s Hs) as (s1 & h1 & log1 & E1 & P1 & D1 & V1 & W1).
  destruct (heap_Normalized_runs h1 s1 (pd_ok _ _ _ _ _ D1))
    as (s2 & h2 & log2 & E2 & P2 & H2 & D2 & V2).
  exists s2, h2, (log1 ++ log2). split; [unfold heap_prepare, p_bind; by rewrite E1, E2|].
  assert (hs_Headers s1 = hs_Headers s) as Hh by by injection P1.
  split; [by rewrite P2, P1|]. split; [by rewrite <-Hh|].
  split; [by eapply parts_done_trans|]. split; [by rewrite V2, V1|].
  intros loc Hl. apply elem_of_app. left. by apply W1.
Qed.
End Prepare.

(** The parts that a program does not work on. *)
Lemma parts_done_apart h ps h' ps' vs q :
  parts_done h ps h' ps' vs → part_ok h q → (∀ p, p ∈ ps → apart h p q) →
  part_same h h' q ∧ part_ok h' q ∧ ∀ p, p ∈ ps' → apart h' p q.
Proof.
  intros [Hok _ Hm Hr Hi] Hq Hap.
  assert (Hall : part_refs h q ## all_refs h ps).
  { intros r Hr1 (i & p & Hp & Hr2)%all_refs_in.
    destruct (Hap p) as [Hd _]; [by eapply list_elem_of_lookup_2|]. by apply (Hd r). }
  destruct (changes_apart _ _ _ _ (part_refs h q) Hm) as (A1 & A2 & A3);
    [by apply part_refs_dom|done|].
  assert (Hreq : ∀ r, q = PRequests (Some r) → ¬ uses_requests ps r).
  { intros r -> Hu. by destruct (Hap _ Hu). }
  assert (Hinv : ∀ r, q = PInvariants (Some r) → ¬ uses_invariants ps r).
  { intros r -> Hu. by destruct (Hap _ Hu). }
  assert (Hsame : part_same h h' q).
  { split; [exact A3|].
    destruct q as [o|[r|]|[r|]]; [exact I|apply array_of_same..]; try exact I;
      [by apply Hr, Hreq|by apply Hi, Hinv]. }
  split; [done|].
  assert (Hrefs : part_refs h' q = part_refs h q).
  { destruct Hsame as [_ Hs']. destruct q as [o|o|o]; simpl in *; [done|..];
      unfold slice_refs; by rewrite Hs'. }
  split.
  - destruct q as [o|[r|]|[r|]]; [exact A2|..];
      (eapply slice_ok_same; [|apply Hm|exact Hq]); try exact I;
      [by apply Hr, Hreq|by apply Hi, Hinv].
  - intros p Hp. split.
    + rewrite Hrefs. apply list_elem_of_lookup_1 in Hp as [i Hp].
      pose proof (all_refs_lookup h' ps' i p Hp). set_solver.
    + destruct p as [o|[r|]|[r|]], q as [o'|[r'|]|[r'|]]; try done; simpl; intros ->;
        [by apply (Hr r' (Hreq _ eq_refl))|by apply (Hi r' (Hinv _ eq_refl))].
Qed.

Lemma part_value_scenario h h' t :
  (∀ q, q ∈ scenario_parts t → part_same h h' q) → scenario_at h' t = scenario_at h t.
Proof.
  intros H. unfold scenario_at.
  assert (V : ∀ q, q ∈ scenario_parts t → part_value h' q = part_value h q).
  { intros q Hq. by apply (part_same_reads nonempty_map), H. }
  pose proof (V _ (list_elem_of_lookup_2 (scenario_parts t) 0%nat _ eq_refl)) as [= ->].
  pose proof (V _ (list_elem_of_lookup_2 (scenario_parts t) 1%nat _ eq_refl)) as [= ->].
  pose proof (V _ (list_elem_of_lookup_2 (scenario_parts t) 2%nat _ eq_refl)) as [= ->].
  pose proof (V _ (list_elem_of_lookup_2 (scenario_parts t) 3%nat _ eq_refl)) as [= ->].
  by pose proof (V _ (list_elem_of_lookup_2 (scenario_parts t) 4%nat _ eq_refl)) as [= ->].
Qed.

(** A scenario with no reference of [s] is not affected. *)
Lemma parts_done_unshared h s h' s' vs t :
  parts_done h (scenario_parts s) h' (scenario_parts s') vs → heap_ok h t → unshared h t s →
  scenario_at h' t = scenario_at h t ∧ heap_ok h' t ∧ unshared h' t s'.
Proof.
  intros D Ht Hu.
  assert (H : ∀ q, q ∈ scenario_parts t →
    part_same h h' q ∧ part_ok h' q ∧ ∀ p, p ∈ scenario_parts s' → apart h' p q).
  { intros q Hq. eapply parts_done_apart; [done| |by intros p Hp; apply Hu].
    apply list_elem_of_lookup_1 in Hq as [i Hi]. by eapply (proj1 Ht). }
  split; [apply part_value_scenario; intros q Hq; by apply H|].
  split; [|by intros p q Hp Hq; apply (H q Hq)].
  split.
  - intros i q Hq%list_elem_of_lookup_2. by apply H.
  - intros i j p q Hij Hi Hj. destruct (proj2 Ht i j p q Hij Hi Hj) as [Hd Ha].
    assert (R : ∀ q, q ∈ scenario_parts t → part_refs h' q = part_refs h q).
    { intros q' Hq'. destruct (H q' Hq') as [[_ Hs] _]. destruct q' as [o|o|o]; simpl in *;
        [done|..]; unfold slice_refs; by rewrite Hs. }
    apply list_elem_of_lookup_2 in Hi, Hj. split; [by rewrite !R|done].
Qed.

(** What preparing writes covers every request and every header in use. *)
Lemma array_writes_in {E} `{HA : HeapArray E} T M r i (l : list E) j x loc :
  l !! j = Some x → loc ∈ element r (i + j) :: map_writes T M (headers_of x) →
  loc ∈ array_writes T M r i l.
Proof.
  revert i j. induction l as [|y l IH]; intros i j Hj Hl; [done|].
  rewrite array_writes_cons, app_comm_cons. apply elem_of_app.
  destruct j as [|j]; simpl in Hj.
  - injection Hj as ->. rewrite Nat.add_0_r in Hl. by left.
  - right. apply (IH (S i) j Hj). by rewrite Nat.add_succ_r in Hl.
Qed.

Lemma array_writes_headers {E} `{HA : HeapArray E} M r i (l : list E) q m :
  q ∈ list_refs l → M !! q = Some m → m ≠ ∅ → LMap q ∈ array_writes nonempty_map M r i l.
Proof.
  intros Hq Hm Hne. assert (∃ j x, l !! j = Some x ∧ headers_of x = Some q) as (j & x & Hj & Hx).
  { induction l as [|x l IH]; simpl in Hq; [set_solver|]. apply elem_of_union in Hq as [Hq|Hq].
    - exists 0%nat, x. split; [done|]. destruct (headers_of x) as [q'|]; simpl in Hq; [|set_solver].
      by apply elem_of_singleton in Hq as ->.
    - destruct (IH Hq) as (j & y & Hj & Hy). by exists (S j), y. }
  apply (array_writes_in _ _ _ _ _ j x); [done|]. right. rewrite Hx. simpl. rewrite Hm.
  unfold nonempty_map. rewrite bool_decide_eq_true_2 by done. by left.
Qed.
Lemma slice_writes_headers {E} `{HA : HeapArray E} h o q m :
  q ∈ slice_refs (E := E) h o → h_maps h !! q = Some m → m ≠ ∅ →
  LMap q ∈ slice_writes (E := E) nonempty_map h o.
Proof.
  destruct o as [r|]; [|unfold slice_refs; simpl; set_solver]. intros. by eapply array_writes_headers.
Qed.
Lemma scenario_writes_headers h s q m :
  q ∈ all_refs h (scenario_parts s) → h_maps h !! q = Some m → m ≠ ∅ →
  LMap q ∈ scenario_writes nonempty_map h s.
Proof.
  intros (i & p & Hp & Hq)%all_refs_in Hm Hne. apply list_elem_of_In, in_concat.
  exists (part_writes nonempty_map h p). rewrite <-!list_elem_of_In.
  split; [apply list_elem_of_fmap; exists p; split; [done|by eapply list_elem_of_lookup_2]|].
  destruct p as [o|o|o]; simpl in *; [|by eapply slice_writes_headers..].
  destruct o as [r|]; simpl in Hq; [|set_solver]. apply elem_of_singleton in Hq as ->. simpl.
  rewrite Hm. unfold nonempty_map. rewrite bool_decide_eq_true_2 by done. by left.
Qed.
Lemma scenario_writes_requests h s r i x :
  hs_Requests s = Some r → array_of (E := HRequest) h (hs_Requests s) !! i = Some x →
  LRequest r i ∈ scenario_writes nonempty_map h s.
Proof.
  intros Hr Hi. unfold scenario_writes. simpl. rewrite !elem_of_app. right. right. left.
  unfold slice_writes. rewrite Hr in Hi |- *. eapply array_writes_in; [exact Hi|]. by left.
Qed.

(** Copies denote and write the same. *)
Lemma shares_ok h t s : shares t s → heap_ok h s → heap_ok h t.
Proof. unfold shares, heap_ok. by intros ->. Qed.
Lemma shares_writes T h t s : shares t s → scenario_writes T h t = scenario_writes T h s.
Proof. unfold shares, scenario_writes. by intros ->. Qed.

(** What the copy [t] denotes once a scenario that shares its references has been
    prepared: its own scalar fields, the prepared slices and header map. *)
Definition copy_after (t : HScenario) (own p : Scenario) : Scenario :=
  Build_Scenario (Scenario_Version own) (Scenario_Name own) (Scenario_Description own)
    (Build_Target (Target_ID (Scenario_Target own)) (Target_BaseURL (Scenario_Target own))
       (match hs_Headers t with
        | Some _ => Target_Headers (Scenario_Target p)
        | None => None
        end))
    (Scenario_Traffic own) (Scenario_Setup p) (Scenario_Requests p) (Scenario_Teardown p)
    (Scenario_Thresholds own) (Scenario_Invariants p).

(** ** Properties *)
Section Properties.
Context `{U : UnicodeTables}.

(** C21: [WithEnv] and [Normalized], which the program runs in place on the
    slices and the header maps of the scenario, return the scenario that the
    functions of Scenario.v give, whatever the heap: its references are again
    allocated and distinct, encoding it gives that scenario, and every scenario
    that shares nothing with it denotes what it did. *)
Theorem prepare_heap_refines (env : string → string) (h : heap) (s : HScenario)
    (Hs : heap_ok h s) :
  let '(s', h', _) := heap_prepare env s h in
  scenario_at h' s' = prepare env (scenario_at h s)
  ∧ heap_ok h' s'
  ∧ (heap_read s' h').1 = (prepare env (scenario_at h s), h')
  ∧ ∀ t, heap_ok h t → unshared h t s →
      scenario_at h' t = scenario_at h t ∧ heap_ok h' t ∧ unshared h' t s'.
Proof.
  destruct (heap_prepare_spec env h s Hs) as (s' & h' & log & E1 & _ & _ & D & V & _).
  rewrite E1. pose proof (pd_ok _ _ _ _ _ D) as Hok.
  split; [done|]. split; [done|]. split.
  - destruct (heap_read_spec h' s' Hok) as (log' & -> & _). simpl. by rewrite V.
  - intros t Ht Hu. by eapply parts_done_unshared.
Qed.

(** C22: preparing a scenario for a run changes every other copy of it: a record
    that shares its slices and its header map (the scenario and the version in
    the memory store, from which [createRun] took it) afterwards denotes its own
    name, target and traffic, but the requests, invariants and headers of the
    prepared scenario.  It is unchanged when it was itself prepared in an
    environment without a dollar in its values. *)
Theorem prepare_rewrites_copies `{!UnicodeLaws U} (env : string → string) (h : heap)
    (s t : HScenario) (Hs : heap_ok h s) (Ht : shares t s) :
  let '(s', h', _) := heap_prepare env s h in
  scenario_at h' t = copy_after t (scenario_at h t) (prepare env (scenario_at h s))
  ∧ ((∃ env0 sc, (∀ w, dollar_free (env0 w) = true) ∧ scenario_at h t = prepare env0 sc) →
     scenario_at h' t = scenario_at h t).
Proof.
  destruct (heap_prepare_spec env h s Hs) as (s' & h' & log & E1 & P & Hh & D & V & _).
  rewrite E1.
  assert (C : scenario_at h' t = copy_after t (scenario_at h t) (prepare env (scenario_at h s))).
  { rewrite <-V. injection Ht as H0 H1 H2 H3 H4. injection P as P1 P2 P3 P4.
    unfold copy_after, scenario_at. simpl. rewrite H0, H1, H2, H3, H4, P1, P2, P3, P4.
    do 2 f_equal. destruct (hs_Headers s); [by rewrite Hh|done]. }
  split; [done|]. intros (env0 & sc & Henv & Esc). rewrite C.
  pose proof (prepare_twice env0 env sc Henv) as T. rewrite <-Esc in T.
  injection Ht as H0 H1 H2 H3 H4. revert T. unfold copy_after, scenario_at, prepare. simpl.
  rewrite H0, H1, H2, H3, H4. unfold Normalized, WithEnv. simpl.
  intros [= _ _ _ _ T0 _ T1 T2 T3 T4]. rewrite T1, T2, T3, T4. do 2 f_equal.
  by destruct (hs_Headers s); [rewrite T0|].
Qed.

(** C23: two goroutines that work on copies of one scenario race, since neither
    holds a lock: one preparing it (the runner, in the goroutine that [createRun]
    starts) against one encoding it ([writeJSON] of the run's record) or
    preparing it again (another run of the scenario).  They race at every
    request, and at every header map that is not empty, where Go's runtime stops
    the process. *)
Theorem prepare_races (env env' : string → string) (h : heap) (s t : HScenario)
    (Hs : heap_ok h s) (Ht : shares t s) (loc : location)
    (Hloc : (∃ r i, loc = LRequest r i ∧ hs_Requests s = Some r
                    ∧ (i < length (array_of (E := HRequest) h (Some r)))%nat)
            ∨ (∃ q m, loc = LMap q ∧ q ∈ all_refs h (scenario_parts s)
                      ∧ h_maps h !! q = Some m ∧ m ≠ ∅)) :
  races (log_of (heap_prepare env s h)) (log_of (heap_read t h)) loc
  ∧ races (log_of (heap_prepare env s h)) (log_of (heap_prepare env' t h)) loc.
Proof.
  assert (W : loc ∈ scenario_writes nonempty_map h s).
  { destruct Hloc as [(r & i & -> & Hr & Hi)|(q & m & -> & Hq & Hm & Hne)].
    - apply lookup_lt_is_Some_2 in Hi as [x Hx].
      eapply scenario_writes_requests; [done|]. by rewrite Hr.
    - by eapply scenario_writes_headers. }
  pose proof (shares_ok h t s Ht Hs) as Hok.
  assert (W' : loc ∈ scenario_writes nonempty_map h t) by (by rewrite (shares_writes _ h t s Ht)).
  destruct (heap_prepare_spec env h s Hs) as (s1 & h1 & log1 & -> & _ & _ & _ & _ & L1).
  destruct (heap_prepare_spec env' h t Hok) as (s2 & h2 & log2 & -> & _ & _ & _ & _ & L2).
  destruct (heap_read_spec h t Hok) as (log3 & -> & L3).
  split; exists true; [exists false|exists true]; split; [by apply L1| |by apply L1|];
    (split; [|done]); [by eapply L3|by apply L2].
Qed.
End Properties.

(** ** Examples *)
#[local] Existing Instances ascii_tables ascii_tables_laws.

Definition login_request : HRequest :=
  Build_HRequest "me" "GET" "/me" (Some 1%positive) "" "" None.
Definition login_heap : heap :=
  Build_heap {[1%positive := {["Authorization" := "Bearer $TOKEN"]}]}
    {[1%positive := [login_request]]} ∅.
Definition login_scenario : HScenario :=
  Build_HScenario 1 "me" "" "" "http://localhost:8080" None
    (Build_Traffic "load" 1 1 0 (Build_RetryPolicy 0 0)) None (Some 1%positive) None
    (Build_Thresholds None None) None.
Definition token_env (w : string) : string := if String.eqb w "TOKEN" then "p$1" else "".

Lemma login_heap_ok : heap_ok login_heap login_scenario.
Proof.
  split.
  - intros [|[|[|[|[|i]]]]] p [= <-]; done.
  - intros [|[|[|[|[|i]]]]] [|[|[|[|[|j]]]]] p q Hij [= <-] [= <-]; try done;
      (split; [|done]); unfold slice_refs; simpl; set_solver.
Qed.

(** The header that the first request of a scenario sends. *)
Definition authorization (sc : Scenario) : option string :=
  match Scenario_Requests sc with
  | r :: _ => Request_Headers r ≫= λ m : gmap string string, m !! "Authorization"
  | [] => None
  end.
(** A token with a dollar: creating the scenario stores it expanded; the first run
    changes it, in the stored scenario too. *)
Example run_rewrites_stored_token :
  let '(created, h1, _) := heap_prepare token_env login_scenario login_heap in
  let '(_, h2, _) := heap_prepare token_env created h1 in
  (authorization (scenario_at h1 created), authorization (scenario_at h2 created))
  = (Some "Bearer p$1", Some "Bearer p").
Proof. vm_compute. reflexivity. Qed.

Lemma prepare_heap_refines_witness :
  let '(s', h', _) := heap_prepare token_env login_scenario login_heap in
  scenario_at h' s' = prepare token_env (scenario_at login_heap login_scenario)
  ∧ heap_ok h' s'.
Proof.
  pose proof (prepare_heap_refines token_env login_heap login_scenario login_heap_ok) as H.
  destruct (heap_prepare token_env login_scenario login_heap) as [[s' h'] log].
  destruct H as (H1 & H2 & _). by split.
Defined.
Lemma prepare_rewrites_copies_witness :
  let '(_, h', _) := heap_prepare token_env login_scenario login_heap in
  authorization (scenario_at h' login_scenario) = Some "Bearer p$1".
Proof.
  pose proof (prepare_rewrites_copies token_env login_heap login_scenario login_scenario
    login_heap_ok eq_refl) as H.
  destruct (heap_prepare token_env login_scenario login_heap) as [[s' h'] log].
  destruct H as [H _]. rewrite H. vm_compute. reflexivity.
Defined.
Lemma prepare_races_witness :
  races (log_of (heap_prepare token_env login_scenario login_heap))
    (log_of (heap_read login_scenario login_heap)) (LMap 1).
Proof.
  apply (prepare_races token_env token_env login_heap login_scenario login_scenario
    login_heap_ok eq_refl). right. exists 1%positive. eexists.
  split; [reflexivity|]. split; [|split; [reflexivity|done]]. unfold all_refs. simpl.
  unfold slice_refs. simpl. set_solver.
Defined.
