(* ===== verification/K6Script.v ===== *)
(** * The k6 compiler (src/apps/api/internal/k6script/compiler.go)

    [Compile] turns a scenario into the text of a k6 script: the options with
    their thresholds, the helper functions, one function per phase whose
    requests are a JSON literal, and the invariants as comments. *)

From S2P Require Export Scenario JsonEncode.
From Stdlib Require Import Ascii.

Open Scope Z_scope.

Record Script := { Script_Name : string; Script_Content : string }.

(** ** Literals *)

(** [jsValue]: the indented text, nothing when the value cannot be encoded. *)
Definition jsValue (t : option jtree) : string :=
  match t with Some t => indented t | None => "" end.
Definition jsString (value : string) : string := jsValue (Some (TStr value)).

Section Compiler.
Context `{U : UnicodeTables} `{JE : JsonErrors}.

(** ** Traffic *)
Definition k6Iterations (sc : Scenario) : Z :=
  let t := Scenario_Traffic sc in
  if String.eqb (Traffic_Type t) TrafficRace
  then wrap64 (Traffic_Concurrency t * Traffic_Iterations t)
  else Traffic_Iterations t.

(** ** Thresholds *)
Definition tracked_codes : list Z :=
  [0; 200; 201; 204; 400; 401; 403; 404; 409; 500; 502; 503; 504].
Definition statusCodesToTrack (req : Request) : list Z :=
  fold_left (λ codes c, if existsb (Z.eqb c) codes then codes else codes ++ [c])
    (default [] (Request_Status req)) tracked_codes.

Definition metric_key (name : string) (code : Z) : string :=
  "http_reqs{name:" +:+ Quote name +:+ ",status:" +:+ Itoa code +:+ "}".
Definition p95_threshold (limit : float64) : string := "p(95)<=" +:+ format_fixed 1 limit.
Definition checks_threshold (limit : float64) : string :=
  "rate>=" +:+ format_fixed 4 (fsub (float_of_int 1) limit).

Definition track_request (out : gmap string (list string)) (req : Request)
  : gmap string (list string) :=
  fold_left (λ out code, <[metric_key (Request_Name req) code := ["count>=0"]]> out)
    (statusCodesToTrack req) out.
(** The thresholds of the scenario itself. *)
Definition append_threshold (key text : string) (out : gmap string (list string))
  : gmap string (list string) :=
  <[key := default [] (out !! key) ++ [text]]> out.
Definition own_thresholds (t : Thresholds) : gmap string (list string) :=
  let out := match Thresholds_P95MS t with
             | Some limit => append_threshold "http_req_duration" (p95_threshold limit) ∅
             | None => ∅
             end in
  match Thresholds_MaxErrorRate t with
  | Some limit => append_threshold "checks" (checks_threshold limit) out
  | None => out
  end.
Definition k6Thresholds (sc : Scenario) : gmap string (list string) :=
  let out := own_thresholds (Scenario_Thresholds sc) in
  let out := fold_left track_request (Scenario_Setup sc) out in
  let out := fold_left track_request (Scenario_Requests sc) out in
  fold_left track_request (Scenario_Teardown sc) out.

Definition text_lines (l : list string) : string :=
  Join (map (λ s, s +:+ line_feed) l) "".

Definition writeOptions (sc : Scenario) : string :=
  let t := Scenario_Traffic sc in
  let thresholds := k6Thresholds sc in
  let keys := sort_strings (map fst (map_to_list thresholds)) in
  text_lines
    ["export const options = {";
     "  scenarios: {";
     "    wreckr: {";
     "      executor: 'shared-iterations',";
     "      vus: " +:+ Itoa (Traffic_Concurrency t) +:+ ",";
     "      iterations: " +:+ Itoa (k6Iterations sc) +:+ ",";
     "      maxDuration: '10m',";
     "    },";
     "  },"]
  +:+ (if 0 <? Traffic_RatePerSecond t
       then text_lines ["  rps: " +:+ Itoa (Traffic_RatePerSecond t) +:+ ","] else "")
  +:+ (if (0 <? size thresholds)%nat
       then text_lines
              (["  thresholds: {"]
               ++ map (λ key, "    " +:+ jsString key +:+ ": "
                              +:+ jsValue (Some (TArr (map TStr (default [] (thresholds !! key)))))
                              +:+ ",") keys
               ++ ["  },"])
       else "")
  +:+ text_lines ["};"; ""].

(** ** Helpers *)
Definition writeHelpers : string :=
  text_lines
    ["function buildURL(path) {";
     "  if (path.startsWith('http://') || path.startsWith('https://')) {";
     "    return path;";
     "  }";
     "  return new URL(path, BASE_URL).toString();";
     "}";
     "";
     "function headers(extraHeaders) {";
     "  return Object.assign({}, TARGET_HEADERS, extraHeaders || {});";
     "}";
     "";
     "function bodyFor(request) {";
     "  if (request.json !== undefined) {";
     "    return JSON.stringify(request.json);";
     "  }";
     "  if (request.body !== undefined) {";
     "    return request.body;";
     "  }";
     "  return null;";
     "}";
     "";
     "function runRequest(request) {";
     "  const params = {";
     "    headers: headers(request.headers),";
     "    tags: { name: request.name, phase: request.phase || 'request' }";
     "  };";
     "  const body = bodyFor(request);";
     "  if (request.json !== undefined && params.headers['Content-Type'] === undefined) {";
     "    params.headers['Content-Type'] = 'application/json';";
     "  }";
     "  const response = http.request(request.method, buildURL(request.path), body, params);";
     "  const expected = request.expected_statuses;";
     "  const checks = {};";
     "  checks[request.name + ' status'] = (r) => expected.length > 0 ? expected.includes(r.status) : r.status < 500;";
     "  check(response, checks);";
     "  return response;";
     "}";
     ""].

(** ** Phases *)

(** The body of a request as a dynamic value: absent when it cannot be decoded,
    and left out when it is null. *)
Definition request_body_value (req : Request) : option any :=
  if (0 <? String.length (Request_JSON req))%nat then
    match Unmarshal (Request_JSON req) with
    | Ok VNil | Err _ => None
    | Ok body => Some body
    end
  else None.

Definition field_if (b : bool) (name : string) (t : jtree) : list (string * jtree) :=
  if b then [(name, t)] else [].
(** The fields of [compiledRequest], [json] being that of the body, if any. *)
Definition request_fields (phase : string) (req : Request) (json : list (string * jtree))
  : list (string * jtree) :=
  [("name", TStr (Request_Name req));
   ("method", TStr (Request_Method req));
   ("path", TStr (Request_Path req))]
  ++ field_if (0 <? size (default ∅ (Request_Headers req)))%nat "headers"
       (strings_tree (Request_Headers req))
  ++ json
  ++ field_if (negb (String.eqb (Request_Body req) "")) "body" (TStr (Request_Body req))
  ++ [("expected_statuses", ints_tree (Request_Status req))]
  ++ field_if (negb (String.eqb phase "")) "phase" (TStr phase).
Definition k6_request_tree (phase : string) (req : Request) : option jtree :=
  match request_body_value req with
  | None => Some (TObj (request_fields phase req []))
  | Some body => t ← any_tree body; Some (TObj (request_fields phase req [("json", t)]))
  end.
Definition k6Requests (requests : list Request) (phase : string) : option jtree :=
  TArr <$> mapM (k6_request_tree phase) requests.

Definition writeLifecycle (name : string) (requests : list Request) : string :=
  if (length requests =? 0)%nat then ""
  else text_lines
         ["export function " +:+ name +:+ "() {";
          "  const requests = " +:+ jsValue (k6Requests requests name) +:+ ";";
          "  for (const request of requests) {";
          "    runRequest(request);";
          "  }";
          "}"; ""].

Definition writeDefault (sc : Scenario) : string :=
  let retry := Traffic_Retry (Scenario_Traffic sc) in
  text_lines
    ["export default function () {";
     "  const requests = " +:+ jsValue (k6Requests (Scenario_Requests sc) "request") +:+ ";"]
  +:+ (if String.eqb (Traffic_Type (Scenario_Traffic sc)) TrafficRetryStorm then
         let attempts := if RetryPolicy_Attempts retry <=? 0 then 3
                         else RetryPolicy_Attempts retry in
         text_lines
           ["  for (let attempt = 0; attempt < " +:+ Itoa attempts +:+ "; attempt += 1) {";
            "    for (const request of requests) {";
            "      runRequest(request);";
            "    }"]
         +:+ (if 0 <? RetryPolicy_BackoffMS retry
              then text_lines
                     ["    sleep("
                      +:+ format_fixed 3 (fdiv (float_of_int (RetryPolicy_BackoffMS retry))
                                            (float_of_int 1000)) +:+ ");"]
              else "")
         +:+ text_lines ["  }"]
       else
         text_lines
           ["  for (const request of requests) {";
            "    runRequest(request);";
            "  }"])
  +:+ text_lines ["}"; ""].

(** ** Notes *)
Definition invariantStatus (inv : Invariant) : string :=
  match Invariant_Status inv with None => "any" | Some status => Itoa status end.
Definition invariant_note (inv : Invariant) : string :=
  if String.eqb (Invariant_Type inv) "http_probe" then
    "// - " +:+ Invariant_Name inv +:+ ": http_probe " +:+ Invariant_Method inv +:+ " "
    +:+ Invariant_Path inv +:+ " with json_path "
    +:+ Quote (ProbeExpectation_JSONPath (Invariant_Expect inv))
  else if String.eqb (Invariant_Type inv) "response_count" then
    "// - " +:+ Invariant_Name inv +:+ ": response_count for request "
    +:+ Quote (Invariant_Request inv) +:+ " and status " +:+ invariantStatus inv
  else "// - " +:+ Invariant_Name inv +:+ ": " +:+ Invariant_Type inv.
Definition writeInvariantNotes (sc : Scenario) : string :=
  if (length (Scenario_Invariants sc) =? 0)%nat then ""
  else text_lines
         (["// Wreckr invariants from the source scenario:"]
          ++ map invariant_note (Scenario_Invariants sc)
          ++ ["// Exact invariant evaluation remains a Wreckr report responsibility."]).

(** ** The script *)
Definition Compile (env : string → string) (sc : Scenario) : result Script :=
  let sc := prepare env sc in
  match Validate sc with
  | Some err => Err err
  | None =>
      Ok {| Script_Name := Scenario_Name sc;
            Script_Content :=
              text_lines
                ["// Generated by Wreckr from scenario " +:+ Quote (Scenario_Name sc) +:+ ".";
                 "// Execute with: k6 run <script.js>"; "";
                 "import http from 'k6/http';";
                 "import { check, sleep } from 'k6';"; ""]
              +:+ writeOptions sc
              +:+ text_lines
                    ["const BASE_URL = " +:+ jsString (Target_BaseURL (Scenario_Target sc)) +:+ ";";
                     "const TARGET_HEADERS = "
                     +:+ jsValue (Some (strings_tree (Target_Headers (Scenario_Target sc))))
                     +:+ ";"; ""]
              +:+ writeHelpers
              +:+ writeLifecycle "setup" (Scenario_Setup sc)
              +:+ writeDefault sc
              +:+ writeLifecycle "teardown" (Scenario_Teardown sc)
              +:+ writeInvariantNotes sc |}
  end.
End Compiler.

(** ** Comments

    In JavaScript a comment ends with its line, at a line feed or a carriage
    return (in ASCII text). *)
Definition carriage_return : ascii := byte 13.
Definition js_lines (s : string) : list string :=
  concat (map (Split_byte carriage_return) (Split_byte (byte 10) s)).
Definition comment_line (s : string) : bool := String.eqb s "" || HasPrefix s "//".
Definition one_line (s : string) : bool := lacks (byte 10) s && lacks carriage_return s.
Definition note_fields (inv : Invariant) : list string :=
  [Invariant_Name inv; Invariant_Type inv; Invariant_Method inv; Invariant_Path inv].
(** Fields written as they are stay on a line; fields that [%q] writes are ASCII. *)
Definition note_safe (inv : Invariant) : bool :=
  forallb one_line (note_fields inv)
  && is_ascii_string (ProbeExpectation_JSONPath (Invariant_Expect inv))
  && is_ascii_string (Invariant_Request inv).

Lemma one_line_app s t : one_line (s +:+ t) = one_line s && one_line t.
Proof. unfold one_line. rewrite !lacks_app. by destruct (lacks (byte 10) s), (lacks (byte 10) t), (lacks carriage_return s). Qed.
Lemma one_line_Itoa z : one_line (Itoa z) = true.
Proof. unfold one_line. by rewrite !lacks_Itoa. Qed.
Lemma one_line_Quote `{U : UnicodeTables} s : is_ascii_string s = true → one_line (Quote s) = true.
Proof.
  intros Hs. unfold Quote. rewrite Hs. rewrite one_line_app.
  change (String (byte 34) (Join ?l "")) with (quote_char +:+ Join l "").
  rewrite one_line_app. change (one_line quote_char) with true. cbn [andb]. rewrite andb_true_r.
  clear Hs. induction s as [|c s IH]; [done|].
  cbn [String.list_ascii_of_string map]. 
  assert (∀ x l, Join (x :: l) "" = x +:+ Join l "") as Hj
    by (intros x [|y l]; [by rewrite append_nil_r|done]).
  rewrite Hj, one_line_app, IH, andb_true_r.
  destruct c as [[] [] [] [] [] [] [] []]; reflexivity.
Qed.

Lemma Join_nil_cons x l : Join (x :: l) "" = x +:+ Join l "".
Proof. destruct l; [by rewrite append_nil_r|done]. Qed.
Lemma text_lines_cons x l : text_lines (x :: l) = x +:+ line_feed +:+ text_lines l.
Proof. unfold text_lines. cbn [map]. by rewrite Join_nil_cons, append_assoc. Qed.

Lemma js_lines_text l :
  forallb one_line l = true → js_lines (text_lines l) = l ++ [""].
Proof.
  unfold js_lines. induction l as [|x l IH]; [done|]. cbn [forallb].
  intros [[Hl Hc]%andb_true_iff Hr]%andb_true_iff.
  rewrite text_lines_cons. change (line_feed +:+ ?t) with (String (byte 10) t).
  rewrite Split_byte_app by done. cbn [map concat].
  by rewrite (Split_byte_lacks carriage_return x), IH.
Qed.

Section Notes.
Context `{U : UnicodeTables} `{JE : JsonErrors}.

Lemma invariant_note_line inv :
  note_safe inv = true →
  one_line (invariant_note inv) = true ∧ comment_line (invariant_note inv) = true.
Proof.
  unfold note_safe, note_fields. cbn [forallb]. rewrite !andb_true_iff.
  intros [[(Hn & Ht & Hm & Hp & _) Hj] Hr].
  assert (∀ t, HasPrefix ("// - " +:+ t) "//" = true) as Hc by (intros [|? ?]; reflexivity).
  unfold invariant_note, comment_line, invariantStatus.
  destruct (String.eqb (Invariant_Type inv) "http_probe");
    [|destruct (String.eqb (Invariant_Type inv) "response_count");
      [destruct (Invariant_Status inv)|]];
    (split; [|by rewrite Hc, orb_true_r]);
    by rewrite !one_line_app, ?Hn, ?Ht, ?Hm, ?Hp, ?one_line_Itoa, ?one_line_Quote.
Qed.

Lemma notes_are_comments sc :
  Forall (λ inv, note_safe inv = true) (Scenario_Invariants sc) →
  Forall (λ l, comment_line l = true) (js_lines (writeInvariantNotes sc)).
Proof.
  intros H. unfold writeInvariantNotes.
  destruct (length (Scenario_Invariants sc) =? 0)%nat; [by repeat constructor|].
  rewrite js_lines_text.
  - apply Forall_app; split; [|by repeat constructor]. cbn [app]. constructor; [done|].
    apply Forall_app; split; [|by repeat constructor].
    apply Forall_map. eapply Forall_impl; [exact H|]. intros inv Hi.
    by apply invariant_note_line.
  - cbn [app forallb]. rewrite forallb_app. cbn [forallb]. rewrite !andb_true_iff.
    split; [done|]. split; [|done].
    apply forallb_forall. intros x Hx. apply in_map_iff in Hx as (inv & <- & Hi).
    rewrite Forall_forall in H. apply invariant_note_line, H. by apply list_elem_of_In.
Qed.
End Notes.

(** ** The requests as data *)
Definition member (name : string) (j : json) : option json :=
  match j with JObj m => map_get name m | _ => None end.
Definition int_json (z : Z) : json := JNum (z <? 0) (Z.abs z) 0.

Lemma map_get_app {A} k (l1 l2 : list (string * A)) :
  map_get k (l1 ++ l2) = match map_get k l1 with Some v => Some v | None => map_get k l2 end.
Proof. induction l1 as [|[k' v] l1 IH]; [done|]. simpl. by destruct (String.eqb k k'). Qed.
Lemma map_get_keys {A} k (f : string → A) (l : list string) :
  map_get k (map (λ k, (k, f k)) l) = if bool_decide (k ∈ l) then Some (f k) else None.
Proof.
  induction l as [|k' l IH]; [done|]. cbn [map map_get].
  destruct (String.eqb_spec k k') as [->|Hk]; [by rewrite bool_decide_true by constructor|].
  rewrite IH. by rewrite (bool_decide_ext (k ∈ k' :: l) (k ∈ l)) by (rewrite elem_of_cons; tauto).
Qed.
Lemma map_keys_elem {A} k (h : gmap string A) :
  k ∈ sort_strings (map fst (map_to_list h)) ↔ is_Some (h !! k).
Proof.
  rewrite sort_strings_perm, list_elem_of_fmap. split.
  - intros ([k' v] & -> & Hk%elem_of_map_to_list). by exists v.
  - intros [v Hv]. exists (k, v). split; [done|by apply elem_of_map_to_list].
Qed.

Section Data.
Context `{U : UnicodeTables} `{JE : JsonErrors}.

(** A request whose texts are valid UTF-8, and whose body is written with JSON numbers
    and does not nest too deep. *)
Definition plain_headers (h : headers) : bool :=
  forallb (λ '(k, v), ValidString k && ValidString v) (map_to_list (default ∅ h)).
Definition plain_body (req : Request) : bool :=
  match request_body_value req with
  | None => true
  | Some body =>
      match any_tree body with
      | Some t => tree_ok t && (tree_depth t + 2 <=? maxNestingDepth)%nat
      | None => false
      end
  end.
Definition plain_request (req : Request) : bool :=
  ValidString (Request_Name req) && ValidString (Request_Method req)
  && ValidString (Request_Path req) && ValidString (Request_Body req)
  && plain_headers (Request_Headers req) && plain_body req.

(** What the script's literal must say of a request. *)
Record ReadsAs (phase : string) (req : Request) (j : json) : Prop := {
  ra_name : member "name" j = Some (JStr (Request_Name req));
  ra_method : member "method" j = Some (JStr (Request_Method req));
  ra_path : member "path" j = Some (JStr (Request_Path req));
  ra_headers k :
    match member "headers" j with Some h => member k h | None => None end
    = JStr <$> default ∅ (Request_Headers req) !! k;
  ra_json : member "json" j = tree_json <$> (request_body_value req ≫= any_tree);
  ra_body :
    member "body" j
    = if String.eqb (Request_Body req) "" then None else Some (JStr (Request_Body req));
  ra_statuses :
    member "expected_statuses" j
    = Some (match Request_Status req with
            | Some l => JArr (map int_json l)
            | None => JNull
            end);
  ra_phase : member "phase" j = if String.eqb phase "" then None else Some (JStr phase);
}.

Lemma strings_tree_json h k :
  match tree_json (strings_tree (Some h)) with JObj m => map_get k m | _ => None end
  = JStr <$> h !! k.
Proof.
  cbn [strings_tree tree_json]. rewrite map_map.
  etrans; [exact (map_get_keys k (λ k, JStr (default "" (h !! k))) _)|].
  destruct (h !! k) as [v|] eqn:E.
  - rewrite bool_decide_true by (rewrite map_keys_elem; by eexists). by rewrite E.
  - rewrite bool_decide_false; [done|]. rewrite map_keys_elem, E. by intros [? ?].
Qed.
Lemma strings_tree_ok h : plain_headers h = true → tree_ok (strings_tree h) = true.
Proof.
  destruct h as [h|]; [|done]. intros H. cbn [strings_tree tree_ok].
  apply forallb_forall. intros x (k & <- & Hk)%in_map_iff.
  unfold plain_headers in H. cbn [default] in H. rewrite forallb_forall in H.
  apply list_elem_of_In, map_keys_elem in Hk as [v Hv].
  rewrite Hv. specialize (H (k, v)). apply H, list_elem_of_In. by apply elem_of_map_to_list.
Qed.
Lemma ints_tree_json l :
  tree_json (ints_tree l) = match l with Some l => JArr (map int_json l) | None => JNull end.
Proof.
  destruct l as [l|]; [|done]. cbn [ints_tree tree_json]. f_equal. rewrite map_map.
  apply map_ext. intros z. cbn [tree_json]. by rewrite parse_number_Itoa.
Qed.
Lemma ints_tree_ok l : tree_ok (ints_tree l) = true.
Proof.
  destruct l as [l|]; [|done]. cbn [ints_tree tree_ok]. apply forallb_forall.
  intros x (z & <- & _)%in_map_iff. apply number_ok_Itoa.
Qed.

#[local] Opaque maxNestingDepth.

Lemma list_max_zero {A} (f : A → nat) (l : list A) : (∀ x, f x = 0%nat) → list_max (map f l) = 0%nat.
Proof. intros H. induction l as [|x l IH]; [done|]. cbn [map]. by rewrite list_max_cons, H, IH. Qed.
Lemma strings_tree_depth h : (tree_depth (strings_tree h) ≤ 1)%nat.
Proof.
  destruct h as [h|]; [|cbn; lia]. cbn [strings_tree tree_depth]. rewrite map_map.
  by rewrite list_max_zero.
Qed.
Lemma ints_tree_depth l : (tree_depth (ints_tree l) ≤ 1)%nat.
Proof.
  destruct l as [l|]; [|cbn; lia]. cbn [ints_tree tree_depth]. rewrite map_map.
  by rewrite list_max_zero.
Qed.
Lemma map_get_map k (m : list (string * jtree)) :
  map_get k (map (λ '(k, x), (k, tree_json x)) m) = tree_json <$> map_get k m.
Proof. induction m as [|[k' x] m IH]; [done|]. cbn. by destruct (String.eqb k k'). Qed.

Lemma headers_absent h :
  (0 <? size (default ∅ h : gmap string string))%nat = false → default ∅ h = (∅ : gmap string string).
Proof. intros H%Nat.ltb_ge. apply map_size_empty_iff. lia. Qed.

(** The field of the body, for a body that is [o]. *)
Definition json_field (js : list (string * jtree)) (o : option jtree) : Prop :=
  js = match o with Some t => [("json", t)] | None => [] end.

Lemma request_fields_get phase req js o k :
  json_field js o →
  map_get k (request_fields phase req js)
  = if String.eqb k "name" then Some (TStr (Request_Name req))
    else if String.eqb k "method" then Some (TStr (Request_Method req))
    else if String.eqb k "path" then Some (TStr (Request_Path req))
    else if (0 <? size (default ∅ (Request_Headers req)))%nat && String.eqb k "headers"
    then Some (strings_tree (Request_Headers req))
    else match (if String.eqb k "json" then o else None) with
         | Some t => Some t
         | None =>
             if negb (String.eqb (Request_Body req) "") && String.eqb k "body"
             then Some (TStr (Request_Body req))
             else if String.eqb k "expected_statuses" then Some (ints_tree (Request_Status req))
             else if negb (String.eqb phase "") && String.eqb k "phase"
             then Some (TStr phase) else None
         end.
Proof.
  assert (∀ b n x, map_get k (field_if b n x) = if b && String.eqb k n then Some x else None)
    as Hf by (intros [] n x; cbn; by destruct (String.eqb k n)).
  unfold json_field, request_fields. intros ->. rewrite !map_get_app, !Hf. cbn [map_get].
  destruct (String.eqb k "name"), (String.eqb k "method"), (String.eqb k "path"); try done.
  destruct ((0 <? size (default ∅ (Request_Headers req)))%nat && String.eqb k "headers");
    [done|].
  destruct o; cbn [map_get]; repeat case_match; done.
Qed.

Lemma request_fields_reads phase req js :
  json_field js (request_body_value req ≫= any_tree) →
  ReadsAs phase req (tree_json (TObj (request_fields phase req js))).
Proof.
  intros Hjs. pose proof (λ k, request_fields_get phase req js _ k Hjs) as Hg.
  assert (∀ k, member k (tree_json (TObj (request_fields phase req js)))
               = tree_json <$> map_get k (request_fields phase req js)) as Hk
    by (intros k; apply map_get_map).
  split; try intros k; rewrite Hk, Hg; cbn [String.eqb Ascii.eqb Bool.eqb]; rewrite ?andb_false_r;
    try done.
  - destruct (0 <? size _)%nat eqn:E; cbn [andb].
    + change (tree_json <$> Some ?t) with (Some (tree_json t)). cbn iota.
      destruct (Request_Headers req) as [h|]; [apply strings_tree_json|done].
    + by rewrite (headers_absent _ E), lookup_empty.
  - by destruct (request_body_value req ≫= any_tree).
  - by destruct (String.eqb (Request_Body req) "").
  - change (tree_json <$> Some ?t) with (Some (tree_json t)). by rewrite ints_tree_json.
  - by destruct (String.eqb phase "").
Qed.

Lemma request_fields_ok phase req js :
  plain_request req = true → ValidString phase = true →
  forallb (λ '(k, x), ValidString k && tree_ok x) js = true →
  tree_ok (TObj (request_fields phase req js)) = true.
Proof.
  unfold plain_request. rewrite !andb_true_iff. intros [[[[[Hn Hm] Hp] Hb] Hh] _] Hph Hjs.
  assert (∀ (b : bool) name x, tree_ok x = true → ValidString name = true →
            forallb (λ '(k, x), ValidString k && tree_ok x) (field_if b name x) = true) as Hf.
  { intros [] name x Hx Hname; [|done]. cbn. by rewrite Hname, Hx. }
  cbn [tree_ok]. unfold request_fields. rewrite !forallb_app. cbn [forallb tree_ok].
  rewrite Hn, Hm, Hp, Hjs, ints_tree_ok, !Hf; try done. by apply strings_tree_ok.
Qed.

Lemma request_fields_depth phase req js :
  (tree_depth (TObj (request_fields phase req js))
   ≤ S (Nat.max 1 (list_max (map (λ '(_, x), tree_depth x) js))))%nat.
Proof.
  assert (∀ b name x, list_max (map (λ '(_, x), tree_depth x) (field_if b name x))
                      ≤ tree_depth x)%nat as Hf by (intros [] name x; cbn; lia).
  pose proof (strings_tree_depth (Request_Headers req)).
  pose proof (ints_tree_depth (Request_Status req)).
  pose proof (Hf (0 <? size (default ∅ (Request_Headers req)))%nat "headers"
                (strings_tree (Request_Headers req))).
  pose proof (Hf (negb (String.eqb (Request_Body req) "")) "body" (TStr (Request_Body req))).
  pose proof (Hf (negb (String.eqb phase "")) "phase" (TStr phase)).
  cbn [tree_depth]. unfold request_fields. rewrite !map_app, !list_max_app.
  cbn [map tree_depth] in *. rewrite !list_max_cons. change (list_max []) with 0%nat. lia.
Qed.

Lemma plain_request_tree phase req :
  plain_request req = true → ValidString phase = true →
  ∃ t, k6_request_tree phase req = Some t ∧ tree_ok t = true
       ∧ (S (tree_depth t) ≤ maxNestingDepth)%nat ∧ ReadsAs phase req (tree_json t).
Proof.
  intros Hreq Hph. pose proof maxNestingDepth_large as Hmax.
  assert (plain_body req = true) as Hb
    by (unfold plain_request in Hreq; by apply andb_true_iff in Hreq as [_ ?]).
  assert (∃ js, k6_request_tree phase req = Some (TObj (request_fields phase req js))
    ∧ json_field js (request_body_value req ≫= any_tree)
    ∧ forallb (λ '(k, x), ValidString k && tree_ok x) js = true
    ∧ (list_max (map (λ '(_, x), tree_depth x) js) + 2 ≤ maxNestingDepth)%nat)
    as (js & -> & Hjs & Hok & Hd).
  { unfold k6_request_tree, plain_body, json_field in *.
    destruct (request_body_value req) as [body|]; [|exists []; split_and!; [done..|cbn; lia]].
    cbn [mbind option_bind]. destruct (any_tree body) as [t|]; [|done].
    apply andb_true_iff in Hb as [Hok Hd%Nat.leb_le].
    exists [("json", t)]. cbn [option_bind]. split_and!; [done|done| |cbn; lia].
    cbn [forallb]. by rewrite Hok. }
  pose proof (request_fields_depth phase req js).
  eexists. split_and!; [done|by apply request_fields_ok|lia|by apply request_fields_reads].
Qed.

Lemma requests_read_back requests phase :
  Forall (λ req, plain_request req = true) requests → ValidString phase = true →
  ∃ js, parse_json (jsValue (k6Requests requests phase)) = Some (JArr js)
        ∧ Forall2 (ReadsAs phase) requests js.
Proof.
  intros H Hp. assert (∃ ts, mapM (k6_request_tree phase) requests = Some ts
    ∧ Forall (λ t, tree_ok t = true) ts
    ∧ (S (list_max (map tree_depth ts)) ≤ maxNestingDepth)%nat
    ∧ Forall2 (ReadsAs phase) requests (map tree_json ts)) as (ts & Hts & Hok & Hd & Hr).
  { induction H as [|req requests Hreq _ (ts & Hts & Hok & Hd & Hr)].
    { exists []. split_and!; [done..|cbn; pose proof maxNestingDepth_large; lia|constructor]. }
    destruct (plain_request_tree phase req Hreq Hp) as (t & Ht & Htok & Htd & Htr).
    exists (t :: ts). cbn [mapM]. rewrite Ht, Hts. split_and!; [done|by constructor| |by constructor].
    cbn [map]. rewrite list_max_cons. lia. }
  exists (map tree_json ts). split; [|done].
  unfold k6Requests. rewrite Hts. apply (indented_parses (TArr ts)); [|exact Hd].
  cbn [tree_ok]. apply forallb_forall. intros x Hx. rewrite Forall_forall in Hok.
  by apply Hok, list_elem_of_In.
Qed.
End Data.

(** ** Properties *)


Definition sample_env (name : string) : string := "".
#[local] Instance sample_tables : UnicodeTables := ascii_tables.
#[local] Instance sample_json : JsonErrors := {| json_error s := s |}.

Definition sample_request : Request :=
  Build_Request "checkout" "POST" "/checkout" (Some {["Idempotency-Key" := "same-key"]})
    ("{" +:+ quote_char +:+ "quantity" +:+ quote_char +:+ ":1}") "" (Some [201; 409]).
Definition sample_k6_scenario (note : string) : Scenario :=
  Build_Scenario 1 "race" "" (Build_Target "" "http://localhost:9090" None)
    (Build_Traffic TrafficRace 2 3 0 (Build_RetryPolicy 0 0)) [] [sample_request] []
    (Build_Thresholds (Some f0) (Some (float_of_int 750)))
    [Build_Invariant note "response_count" "checkout" "" "" None (Some 201) (Some 1) None None
       (Build_ProbeExpectation "" VNil)].


(** The script of a scenario, as the tests of the package look at it. *)
Example compiled_lines :
  match Compile sample_env (sample_k6_scenario "one") with
  | Ok script =>
      forallb (λ l, string_in l (js_lines (Script_Content script)))
        ["import http from 'k6/http';"; "      executor: 'shared-iterations',";
         "      vus: 2,"; "      iterations: 6,";
         "    " +:+ quote_char +:+ "http_req_duration" +:+ quote_char +:+ ": [";
         "  " +:+ quote_char +:+ "p(95)<=750.0" +:+ quote_char;
         "  " +:+ quote_char +:+ "rate>=1.0000" +:+ quote_char;
         "const BASE_URL = " +:+ quote_char +:+ "http://localhost:9090" +:+ quote_char +:+ ";";
         "export default function () {"; "      409";
         "// - one: response_count for request " +:+ quote_char +:+ "checkout" +:+ quote_char
         +:+ " and status 201"]
  | Err _ => false
  end = true.
Proof. vm_compute. reflexivity. Qed.

(** A scenario whose invariant has a name of two lines. *)
Definition two_line_scenario : Scenario :=
  sample_k6_scenario ("one" +:+ line_feed +:+ "throw new Error('injected'); //").
Definition two_line_script : Script :=
  match Compile sample_env two_line_scenario with
  | Ok script => script
  | Err _ => Build_Script "" ""
  end.
Definition injected_line : string :=
  "throw new Error('injected'); //: response_count for request " +:+ quote_char +:+ "checkout"
  +:+ quote_char +:+ " and status 201".

(** The invariants stay comments unless a field has a line break: when the
    names, types, methods and paths of the invariants have no line feed and no
    carriage return, every line of the notes is a comment; but the names are
    not escaped and validation does not look at them, so a scenario that
    compiles can put a line of its own code into the script. *)
Theorem notes_stay_comments :
  (∀ (U : UnicodeTables) sc,
     Forall (λ inv, note_safe inv = true) (Scenario_Invariants sc) →
     Forall (λ l, comment_line l = true) (js_lines (writeInvariantNotes sc)))
  ∧ ∃ sc script code,
      Compile sample_env sc = Ok script ∧ comment_line code = false
      ∧ code ∈ js_lines (writeInvariantNotes (prepare sample_env sc))
      ∧ code ∈ js_lines (Script_Content script).
Proof.
  split; [intros U sc; apply notes_are_comments|].
  exists two_line_scenario, two_line_script, injected_line.
  split; [vm_compute; reflexivity|]. split; [reflexivity|].
  split; apply (bool_decide_eq_true_1 _); vm_compute; reflexivity.
Qed.
