(* ===== verification/JsonPath.v ===== *)
(** * JSON paths (src/apps/api/internal/scenario/jsonpath.go)

    [LookupJSONPath] and [parseSegment], with the language of paths they accept
    and the navigation it denotes. *)

From S2P Require Export Scenario.
From Stdlib Require Import Ascii.

(** A lookup is [(any, bool, error)]: [Ok (Some v)] is found, [Ok None] is not
    found, [Err] is an error. *)
Section JsonPath.
Context `{U : UnicodeTables} `{J : JsonErrors}.

(** The loop over the index suffix; every round drops at least two bytes. *)
Fixpoint parse_indexes (fuel : nat) (segment rest : string) (indexes : list Z)
  : result (list Z) :=
  match fuel with
  | O => Ok indexes
  | S fuel =>
      if String.eqb rest "" then Ok indexes
      else if negb (HasPrefix rest "[") then
        Err ("invalid index segment " +:+ Quote segment)
      else
        match Index rest "]" with
        | None => Err ("unterminated index segment " +:+ Quote segment)
        | Some end_ =>
            let text := string_drop 1 (string_take end_ rest) in
            match Atoi text with
            | None => Err ("invalid array index " +:+ Quote text)
            | Some n => parse_indexes fuel segment (string_drop (S end_) rest) (indexes ++ [n])
            end
        end
  end.

Definition parseSegment (segment : string) : result (string * list Z) :=
  match Index segment "[" with
  | Some idx =>
      let rest := string_drop idx segment in
      let! indexes := parse_indexes (String.length rest) segment rest [] in
      Ok (string_take idx segment, indexes)
  | None => Ok (segment, [])
  end.

(** One array index applied to the current value. *)
Definition index_step (current : any) (index : Z) : option any :=
  match current with
  | VList l =>
      if (index <? 0)%Z || (Z.of_nat (length l) <=? index)%Z then None
      else l !! Z.to_nat index
  | _ => None
  end.
Fixpoint index_all (current : any) (indexes : list Z) : option any :=
  match indexes with
  | [] => Some current
  | i :: ixs => match index_step current i with
               | Some v => index_all v ixs
               | None => None
               end
  end.
Definition field_step (current : any) (name : string) : option any :=
  match current with VMap m => map_get name m | _ => None end.

Fixpoint lookup_segments (segments : list string) (current : any) : result (option any) :=
  match segments with
  | [] => Ok (Some current)
  | segment :: segments =>
      if String.eqb segment "" then Err "invalid empty path segment"
      else if String.eqb segment "length" then
        match current with
        | VList l => lookup_segments segments (VFloat (float_of_int (Z.of_nat (length l))))
        | _ => Ok None
        end
      else
        let! (name, indexes) := parseSegment segment in
        let field := if String.eqb name "" then Some current else field_step current name in
        match field with
        | None => Ok None
        | Some v => match index_all v indexes with
                    | None => Ok None
                    | Some v => lookup_segments segments v
                    end
        end
  end.

Definition LookupJSONPath (raw path : string) : result (option any) :=
  if String.eqb path "" || String.eqb path "$" then
    let! root := Unmarshal raw in Ok (Some root)
  else if negb (HasPrefix path "$.") then Err "only simple $.field paths are supported"
  else
    let! current := Unmarshal raw in
    lookup_segments (Split_byte "."%char (TrimPrefix path "$.")) current.
End JsonPath.

(** ** The path language and what it denotes *)

Inductive segment : Type :=
| SegLength
| SegField (name : string) (indexes : list Z).

Definition print_index (i : Z) : string := "[" +:+ Itoa i +:+ "]".
Definition print_indexes (ixs : list Z) : string :=
  foldr (λ i s, print_index i +:+ s) "" ixs.
Definition print_segment (s : segment) : string :=
  match s with
  | SegLength => "length"
  | SegField name ixs => name +:+ print_indexes ixs
  end.
Definition print_path (p : list segment) : string :=
  match p with
  | [] => "$"
  | _ => "$." +:+ Join (map print_segment p) "."
  end.

(** A field segment prints to something that reads back: its name has no dot
    and no bracket, it is not empty, it is not the word [length], and its
    indexes are 64-bit integers. *)
Definition segment_ok (s : segment) : bool :=
  match s with
  | SegLength => true
  | SegField name ixs =>
      lacks "."%char name && lacks "["%char name
      && negb (String.eqb (name +:+ print_indexes ixs) "")
      && negb (String.eqb (name +:+ print_indexes ixs) "length")
      && forallb in_int64 ixs
  end.

(** The value a path denotes. *)
Definition segment_value (s : segment) (v : any) : option any :=
  match s with
  | SegLength => match v with
                 | VList l => Some (VFloat (float_of_int (Z.of_nat (length l))))
                 | _ => None
                 end
  | SegField name ixs =>
      v ← (if String.eqb name "" then Some v else field_step v name); index_all v ixs
  end.
Fixpoint path_value (p : list segment) (v : any) : option any :=
  match p with
  | [] => Some v
  | s :: p => v ← segment_value s v; path_value p v
  end.

(** ** Lemmas *)

Lemma print_indexes_cons i ixs :
  print_indexes (i :: ixs) = String "["%char (Itoa i +:+ String "]"%char (print_indexes ixs)).
Proof. unfold print_indexes, print_index; simpl. by rewrite append_assoc. Qed.

Section Lemmas.
Context `{U : UnicodeTables} `{J : JsonErrors}.

Lemma parse_indexes_print fuel seg ixs acc :
  (String.length (print_indexes ixs) ≤ fuel)%nat → forallb in_int64 ixs = true →
  parse_indexes fuel seg (print_indexes ixs) acc = Ok (acc ++ ixs).
Proof.
  revert ixs acc. induction fuel as [|fuel IH]; intros ixs acc Hlen Hok.
  { destruct ixs as [|i ixs]; [by rewrite app_nil_r|].
    rewrite print_indexes_cons in Hlen. simpl in Hlen. lia. }
  destruct ixs as [|i ixs]; [simpl; by rewrite app_nil_r|].
  simpl in Hok. apply andb_true_iff in Hok as [Hi His].
  rewrite print_indexes_cons in Hlen |- *.
  set (t := String "["%char (Itoa i)).
  change (String "["%char (Itoa i +:+ String "]"%char (print_indexes ixs)))
    with (t +:+ String "]"%char (print_indexes ixs)).
  assert (Ht : lacks "]"%char t = true).
  { change (true && lacks "]"%char (Itoa i) = true). simpl. by apply lacks_Itoa. }
  assert (Hi' : Index (t +:+ String "]"%char (print_indexes ixs)) "]" = Some (String.length t))
    by by apply Index_app.
  cbn [parse_indexes]. rewrite Hi'.
  replace (string_take (String.length t) (t +:+ String "]"%char (print_indexes ixs)))
    with t by (symmetry; apply string_take_app).
  replace (string_drop (S (String.length t)) (t +:+ String "]"%char (print_indexes ixs)))
    with (print_indexes ixs).
  2:{ symmetry. change (String "]"%char (print_indexes ixs)) with ("]" +:+ print_indexes ixs).
      rewrite <-append_assoc. replace (S (String.length t)) with (String.length (t +:+ "]")).
      - apply string_drop_app.
      - rewrite length_append. simpl. lia. }
  change (string_drop 1 t) with (Itoa i). rewrite Atoi_Itoa by done.
  change (HasPrefix (t +:+ String "]"%char (print_indexes ixs)) "[")
    with (HasPrefix (String "["%char (Itoa i +:+ String "]"%char (print_indexes ixs))) "[").
  replace (HasPrefix _ "[") with true.
  2:{ symmetry. apply (prefix_app "["). }
  simpl. rewrite IH, <-app_assoc; [done| |done].
  simpl in Hlen. rewrite length_append in Hlen. simpl in Hlen. lia.
Qed.

Lemma parseSegment_print name ixs :
  lacks "["%char name = true → forallb in_int64 ixs = true →
  parseSegment (name +:+ print_indexes ixs) = Ok (name, ixs).
Proof.
  intros Hn Hi. unfold parseSegment. destruct ixs as [|i ixs].
  { simpl. rewrite append_nil_r, Index_none by done. done. }
  rewrite print_indexes_cons, Index_app by done.
  rewrite string_drop_app, string_take_app, <-print_indexes_cons.
  by rewrite parse_indexes_print.
Qed.

Lemma lacks_print_indexes ixs : lacks "."%char (print_indexes ixs) = true.
Proof.
  induction ixs as [|i ixs IH]; [done|]. rewrite print_indexes_cons.
  change (true && lacks "."%char (Itoa i +:+ String "]"%char (print_indexes ixs)) = true).
  simpl. rewrite lacks_app, lacks_Itoa by done. simpl. apply IH.
Qed.

Lemma lookup_segments_print p v :
  forallb segment_ok p = true →
  lookup_segments (map print_segment p) v = Ok (path_value p v).
Proof.
  revert v. induction p as [|s p IH]; intros v Hp; [done|].
  simpl in Hp. apply andb_true_iff in Hp as [Hs Hp]. specialize (λ w, IH w Hp).
  destruct s as [|name ixs]; simpl.
  - by destruct v; simpl; rewrite ?IH.
  - simpl in Hs. rewrite !andb_true_iff, !negb_true_iff in Hs.
    destruct Hs as [[[[Hdot Hbr] Hne] Hlen] Hint].
    rewrite Hne, Hlen, parseSegment_print by done. simpl.
    destruct (if String.eqb name "" then Some v else field_step v name) as [w|]; simpl; [|done].
    by destruct (index_all w ixs); simpl.
Qed.
End Lemmas.

(** ** Properties *)

Section Properties.
Context `{U : UnicodeTables} `{J : JsonErrors}.

(** A lookup by the text of a well-formed path returns exactly what
    navigating the decoded document along the path returns: the field of an
    object, the element at each index that is in range, the length of an
    array, and not found as soon as a step does not apply; it is an error
    exactly when the document does not decode. *)
Theorem LookupJSONPath_navigates (raw : string) (p : list segment)
    (Hp : forallb segment_ok p = true) :
  LookupJSONPath raw (print_path p)
  = match Unmarshal raw with
    | Ok v => Ok (path_value p v)
    | Err msg => Err msg
    end.
Proof.
  unfold LookupJSONPath. destruct p as [|s p].
  { simpl. by destruct (Unmarshal raw). }
  set (body := Join (map print_segment (s :: p)) ".").
  assert (Hbody : print_path (s :: p) = "$." +:+ body) by done.
  rewrite Hbody. replace (HasPrefix ("$." +:+ body) "$.") with true
    by (symmetry; apply prefix_app).
  unfold TrimPrefix. replace (HasPrefix ("$." +:+ body) "$.") with true
    by (symmetry; apply prefix_app).
  change (string_drop (String.length "$.") ("$." +:+ body)) with (string_drop 0 body).
  replace (string_drop 0 body) with body by by destruct body.
  unfold body. change "." with (String "."%char ""). rewrite Split_byte_Join; [|done|].
  - change (lookup_segments (map print_segment (s :: p)))
      with (lookup_segments (map print_segment (s :: p))).
    simpl (_ || _). simpl (negb true). cbv iota. unfold result_bind.
    destruct (Unmarshal raw) as [v|]; [|done]. by rewrite lookup_segments_print.
  - rewrite Forall_map, Forall_forall. intros s' Hs'.
    rewrite forallb_forall in Hp. specialize (Hp s'). rewrite <-list_elem_of_In in Hp.
    specialize (Hp Hs'). destruct s' as [|name ixs]; [done|]. simpl in Hp |- *.
    rewrite !andb_true_iff in Hp. destruct Hp as [[[[Hdot _] _] _] _].
    by rewrite lacks_app, Hdot, lacks_print_indexes.
Qed.
End Properties.

(** ** Examples *)
Lemma LookupJSONPath_navigates_witness :
  let _ := ascii_tables in let _ := Build_JsonErrors (λ s, s) in
  LookupJSONPath "[[1],[2,3]]" (print_path [SegField "" [1; 0]%Z])
  = match Unmarshal "[[1],[2,3]]" with
    | Ok v => Ok (path_value [SegField "" [1; 0]%Z] v) | Err msg => Err msg end.
Proof. intros. apply LookupJSONPath_navigates. reflexivity. Defined.
