(* ===== verification/Guardrails.v ===== *)
(** * Run guardrails (src/apps/api/internal/guardrails/guardrails.go)

    The checks every scenario and target passes before it is stored or run:
    traffic limits, body sizes, and the network policy on every URL the run may
    reach. *)

From S2P Require Export Scenario Config.
From Stdlib Require Import Ascii.

Open Scope Z_scope.

Section Guardrails.
Context `{U : UnicodeTables}.

(** ** Host matching *)

(** The address 169.254.169.254 as [net.IP] holds it. *)
Definition metadata_ip : list N := v4_in_v6 [169; 254; 169; 254]%N.

Definition isMetadataHost (host : string) : bool :=
  let host := ToLower (TrimSpace host) in
  if String.eqb host "metadata.google.internal" then true
  else match ParseIP host with
       | Some ip => bool_decide (ip = metadata_ip)
       | None => false
       end.

Definition normalizeAllowlistEntry (entry : string) : string :=
  let entry := ToLower (TrimSpace entry) in
  if String.eqb entry "" then ""
  else
    let plain := TrimSuffix entry "/" in
    if Contains entry "://" then
      match Parse entry with
      | Ok u => if negb (String.eqb (URL_Host u) "") then ToLower (URL_Host u) else plain
      | Err _ => plain
      end
    else plain.

(** One round of the loop of [matchesAllowlist]: whether it returns true. *)
Definition entry_matches (host hostport entry : string) : bool :=
  let pattern := normalizeAllowlistEntry entry in
  if String.eqb pattern "" then false
  else if String.eqb pattern "*" then true
  else if HasPrefix pattern "*." then
    let suffix := TrimPrefix pattern "*." in
    String.eqb host suffix || HasSuffix host ("." +:+ suffix)
  else if Contains pattern ":" then String.eqb pattern hostport
  else String.eqb pattern host.

Definition matchesAllowlist (targetURL : URL) (allowlist : list string) : bool :=
  let host := ToLower (Hostname targetURL) in
  let hostport := ToLower (URL_Host targetURL) in
  existsb (entry_matches host hostport) allowlist.

Definition sameOrigin (left right : URL) : bool :=
  EqualFold (URL_Scheme left) (URL_Scheme right)
  && EqualFold (URL_Host left) (URL_Host right).

(** ** URL checks *)
Definition parseTargetURL (raw : string) : result URL :=
  if is_blank raw then Err "is required" else Parse raw.

Definition resolveURL (baseURL : URL) (rawPath : string) : result (URL * bool) :=
  let! rel := Parse rawPath in
  let absolute := IsAbs rel || negb (String.eqb (URL_Host rel) "") in
  Ok (ResolveReference baseURL rel, absolute).

Definition validateTargetURL (field : string) (targetURL : URL) (allowlist : list string)
    (allowMetadataTarget : bool) : list string :=
  problem_if (negb (String.eqb (URL_Scheme targetURL) "http")
              && negb (String.eqb (URL_Scheme targetURL) "https"))
    (field +:+ " must use http or https")
  ++ problem_if (String.eqb (URL_Host targetURL) "") (field +:+ " must include a host")
  ++ problem_if (negb (is_nil (URL_User targetURL)))
       (field +:+ " must not include credentials")
  ++ problem_if (ContainsAny (URL_Host targetURL) (bytes_of [32; 9; 13; 10]%N))
       (field +:+ " host must not contain whitespace")
  ++ problem_if (isMetadataHost (Hostname targetURL) && negb allowMetadataTarget
                 && negb (matchesAllowlist targetURL allowlist))
       (field +:+ " host " +:+ Quote (Hostname targetURL)
        +:+ " is blocked because it targets instance metadata")
  ++ problem_if ((0 <? length allowlist)%nat && negb (matchesAllowlist targetURL allowlist))
       (field +:+ " host " +:+ Quote (URL_Host targetURL) +:+ " is not in target allowlist").

Definition validatePathTarget (field : string) (baseURL : URL) (rawPath : string)
    (allowlist : list string) : list string :=
  match resolveURL baseURL rawPath with
  | Err msg => [field +:+ " " +:+ msg]
  | Ok (targetURL, absolute) =>
      validateTargetURL field targetURL allowlist false
      ++ problem_if (absolute && (length allowlist =? 0)%nat
                     && negb (sameOrigin baseURL targetURL))
           (field +:+ " absolute URL host " +:+ Quote (URL_Host targetURL)
            +:+ " does not match target.base_url host " +:+ Quote (URL_Host baseURL)
            +:+ "; configure target allowlist to permit external targets")
  end.

Definition validateRequestTargets (prefix : string) (baseURL : URL) (requests : list Request)
    (allowlist : list string) : list string :=
  concat (imap (λ i req,
    validatePathTarget (indexed prefix i ".path") baseURL (Request_Path req) allowlist)
    requests).

Definition validateInvariantTargets (baseURL : URL) (invariants : list Invariant)
    (allowlist : list string) : list string :=
  concat (imap (λ i inv,
    if negb (String.eqb (Invariant_Type inv) "http_probe") then []
    else validatePathTarget (indexed "invariants" i ".path") baseURL (Invariant_Path inv)
           allowlist)
    invariants).

(** ** Limits *)
Definition validateRequestBody (maxBytes : Z) (prefix : string) (i : nat) (req : Request)
  : list string :=
  let check (what body : string) :=
    let size := Z.of_nat (String.length body) in
    problem_if (maxBytes <? size)
      (indexed prefix i what +:+ " size " +:+ Itoa size
       +:+ " exceeds max_request_body_bytes " +:+ Itoa maxBytes) in
  check ".json" (Request_JSON req) ++ check ".body" (Request_Body req).
Definition validateRequestBodies (prefix : string) (requests : list Request) (maxBytes : Z)
  : list string :=
  if maxBytes <=? 0 then []
  else concat (imap (validateRequestBody maxBytes prefix) requests).

(** ** The two entry points.  A [ViolationError] is its list of problems. *)
Definition GuardrailProblems (sc : Scenario) (cfg : Guardrails) : list string :=
  let traffic := Scenario_Traffic sc in
  problem_if ((0 <? MaxConcurrency cfg) && (MaxConcurrency cfg <? Traffic_Concurrency traffic))
    ("traffic.concurrency " +:+ Itoa (Traffic_Concurrency traffic)
     +:+ " exceeds max_concurrency " +:+ Itoa (MaxConcurrency cfg))
  ++ problem_if ((0 <? MaxRequestRate cfg) && (MaxRequestRate cfg <? Traffic_RatePerSecond traffic))
       ("traffic.rate_per_second " +:+ Itoa (Traffic_RatePerSecond traffic)
        +:+ " exceeds max_request_rate_per_second " +:+ Itoa (MaxRequestRate cfg))
  ++ validateRequestBodies "setup" (Scenario_Setup sc) (MaxRequestBodyBytes cfg)
  ++ validateRequestBodies "requests" (Scenario_Requests sc) (MaxRequestBodyBytes cfg)
  ++ validateRequestBodies "teardown" (Scenario_Teardown sc) (MaxRequestBodyBytes cfg)
  ++ match parseTargetURL (Target_BaseURL (Scenario_Target sc)) with
     | Err msg => ["target.base_url " +:+ msg]
     | Ok baseURL =>
         validateTargetURL "target.base_url" baseURL (TargetAllowlist cfg)
           (AllowMetadataTarget cfg)
         ++ validateRequestTargets "setup" baseURL (Scenario_Setup sc) (TargetAllowlist cfg)
         ++ validateRequestTargets "requests" baseURL (Scenario_Requests sc) (TargetAllowlist cfg)
         ++ validateRequestTargets "teardown" baseURL (Scenario_Teardown sc) (TargetAllowlist cfg)
         ++ validateInvariantTargets baseURL (Scenario_Invariants sc) (TargetAllowlist cfg)
     end.

Definition ViolationError_Error (problems : list string) : string :=
  "guardrail violation: " +:+ Join problems "; ".

Definition GuardrailValidate (sc : Scenario) (cfg : Guardrails) : error :=
  let problems := GuardrailProblems sc cfg in
  if (0 <? length problems)%nat then Some (ViolationError_Error problems) else None.

Definition ValidateTargetBaseURL (raw : string) (cfg : Guardrails) : error :=
  match parseTargetURL raw with
  | Err msg => Some (ViolationError_Error ["target.base_url " +:+ msg])
  | Ok baseURL =>
      let problems := validateTargetURL "target.base_url" baseURL (TargetAllowlist cfg)
                        (AllowMetadataTarget cfg) in
      if (0 <? length problems)%nat then Some (ViolationError_Error problems) else None
  end.
End Guardrails.

(** ** Specification *)

Section Spec.
Context `{U : UnicodeTables}.

(** A URL the policy lets a run reach. *)
Record URLAllowed (allowlist : list string) (allowMetadata : bool) (u : URL) : Prop := {
  url_scheme : URL_Scheme u = "http" ∨ URL_Scheme u = "https";
  url_host : URL_Host u ≠ "";
  url_user : URL_User u = None;
  url_space : ContainsAny (URL_Host u) (bytes_of [32; 9; 13; 10]%N) = false;
  url_metadata : isMetadataHost (Hostname u) = true →
                 allowMetadata = true ∨ matchesAllowlist u allowlist = true;
  url_listed : allowlist ≠ [] → matchesAllowlist u allowlist = true;
}.

(** A request path, against the base URL it is resolved with. *)
Definition PathAllowed (allowlist : list string) (base : URL) (raw : string) : Prop :=
  ∃ rel,
    Parse raw = Ok rel
    ∧ URLAllowed allowlist false (ResolveReference base rel)
    ∧ (allowlist = [] → IsAbs rel = true ∨ URL_Host rel ≠ "" →
       sameOrigin base (ResolveReference base rel) = true).

Definition BodyAllowed (maxBytes : Z) (r : Request) : Prop :=
  0 < maxBytes →
  Z.of_nat (String.length (Request_JSON r)) ≤ maxBytes
  ∧ Z.of_nat (String.length (Request_Body r)) ≤ maxBytes.

(** All the requests of the three phases, and the probes. *)
Definition all_requests (sc : Scenario) : list Request :=
  Scenario_Setup sc ++ Scenario_Requests sc ++ Scenario_Teardown sc.
Definition probes (sc : Scenario) : list Invariant :=
  List.filter (λ i, String.eqb (Invariant_Type i) "http_probe") (Scenario_Invariants sc).
Definition scenario_paths (sc : Scenario) : list string :=
  map Request_Path (all_requests sc) ++ map Invariant_Path (probes sc).

Record GuardrailsOK (sc : Scenario) (cfg : Guardrails) : Prop := {
  guard_concurrency : 0 < MaxConcurrency cfg →
    Traffic_Concurrency (Scenario_Traffic sc) ≤ MaxConcurrency cfg;
  guard_rate : 0 < MaxRequestRate cfg →
    Traffic_RatePerSecond (Scenario_Traffic sc) ≤ MaxRequestRate cfg;
  guard_bodies : Forall (BodyAllowed (MaxRequestBodyBytes cfg)) (all_requests sc);
  guard_targets : ∃ base,
    parseTargetURL (Target_BaseURL (Scenario_Target sc)) = Ok base
    ∧ URLAllowed (TargetAllowlist cfg) (AllowMetadataTarget cfg) base
    ∧ Forall (PathAllowed (TargetAllowlist cfg) base) (scenario_paths sc);
}.
End Spec.

(** ** Lemmas *)

#[export] Hint Rewrite negb_true_iff String.eqb_eq Nat.eqb_eq : wreckr.

Lemma imap_concat_nil {A} (f : nat → A → list string) (P : A → Prop) l :
  (∀ i x, f i x = [] ↔ P x) → concat (imap f l) = [] ↔ Forall P l.
Proof. apply concat_imap_nil. Qed.

Lemma length_pos_nil {A} (l : list A) : (0 <? length l)%nat = false ↔ l = [].
Proof. by destruct l. Qed.

Section GuardrailLemmas.
Context `{U : UnicodeTables}.

Lemma validateTargetURL_nil field u al m :
  validateTargetURL field u al m = [] ↔ URLAllowed al m u.
Proof.
  unfold validateTargetURL. autorewrite with wreckr. rewrite length_pos_nil. split.
  - intros (Hs & Hh & Hu & Hw & Hm & Hl). split; try done.
    + by destruct (URL_User u).
    + intros Hmeta. destruct Hm as [[Hm|Hm]|Hm]; [congruence|by left|by right].
    + intros Hne. by destruct Hl.
  - intros [Hs Hh Hu Hw Hm Hl]. split_and!; try done.
    + by rewrite Hu.
    + destruct (isMetadataHost (Hostname u)); [|by left; left].
      destruct (Hm eq_refl); [left; by right|by right].
    + destruct al; [by left|]. right. by apply Hl.
Qed.

Lemma validatePathTarget_nil field base raw al :
  validatePathTarget field base raw al = [] ↔ PathAllowed al base raw.
Proof.
  unfold validatePathTarget, resolveURL.
  destruct (Parse raw) as [rel|msg] eqn:Ep; simpl.
  2:{ split; [done|]. intros (rel & ? & _). congruence. }
  rewrite app_nil, problem_if_nil, validateTargetURL_nil. split.
  - intros [Ha Ho]. exists rel. split_and!; [done|done|]. intros -> Habs.
    destruct Habs as [Habs|Habs]; simpl in Ho.
    + rewrite Habs in Ho. simpl in Ho. by apply negb_false_iff.
    + rewrite (proj2 (String.eqb_neq _ _) Habs), orb_true_r in Ho. simpl in Ho.
      by apply negb_false_iff.
  - intros (rel' & Hp & Ha & Ho). assert (rel' = rel) as -> by congruence. split; [done|].
    destruct al; [simpl|by rewrite andb_false_r].
    destruct (IsAbs rel || negb (String.eqb (URL_Host rel) "")) eqn:E; simpl; [|done].
    apply negb_false_iff, Ho; [done|].
    apply orb_true_iff in E as [E|E]; [by left|right].
    by apply negb_true_iff, String.eqb_neq in E.
Qed.

Lemma validateRequestTargets_nil prefix base rs al :
  validateRequestTargets prefix base rs al = []
  ↔ Forall (PathAllowed al base) (map Request_Path rs).
Proof.
  rewrite Forall_map. apply imap_concat_nil. intros. apply validatePathTarget_nil.
Qed.

Lemma validateInvariantTargets_nil base invs al :
  validateInvariantTargets base invs al = []
  ↔ Forall (PathAllowed al base)
      (map Invariant_Path
         (List.filter (λ i, String.eqb (Invariant_Type i) "http_probe") invs)).
Proof.
  unfold validateInvariantTargets.
  rewrite (imap_concat_nil _ (λ i, Invariant_Type i = "http_probe" →
                                   PathAllowed al base (Invariant_Path i))).
  - rewrite Forall_map, !Forall_forall. setoid_rewrite list_elem_of_In.
    setoid_rewrite filter_In. setoid_rewrite String.eqb_eq.
    split; intros H x; [intros [??]|intros ??]; auto.
  - intros i inv. destruct (String.eqb_spec (Invariant_Type inv) "http_probe"); simpl.
    + rewrite validatePathTarget_nil. tauto.
    + tauto.
Qed.

Lemma validateRequestBodies_nil prefix rs m :
  validateRequestBodies prefix rs m = [] ↔ Forall (BodyAllowed m) rs.
Proof.
  unfold validateRequestBodies, BodyAllowed. destruct (Z.leb_spec m 0).
  { split; [|done]. intros _. apply Forall_true. intros ? ?. lia. }
  apply imap_concat_nil. intros i r. unfold validateRequestBody. autorewrite with wreckr.
  split; [intros; split_ands; done|]. intros Hr. by destruct Hr.
Qed.

Lemma scenario_paths_Forall (P : string → Prop) sc :
  Forall P (scenario_paths sc) ↔
  Forall P (map Request_Path (Scenario_Setup sc))
  ∧ Forall P (map Request_Path (Scenario_Requests sc))
  ∧ Forall P (map Request_Path (Scenario_Teardown sc))
  ∧ Forall P (map Invariant_Path (probes sc)).
Proof. unfold scenario_paths, all_requests. rewrite !map_app, !Forall_app. tauto. Qed.

Lemma guard_limit m x : ((0 <? m) && (m <? x)) = false ↔ (0 < m → x ≤ m).
Proof. destruct (Z.ltb_spec 0 m), (Z.ltb_spec m x); simpl; split; intros; done || lia. Qed.

Lemma GuardrailProblems_nil sc cfg : GuardrailProblems sc cfg = [] ↔ GuardrailsOK sc cfg.
Proof.
  assert (Hok : GuardrailsOK sc cfg ↔
    (0 < MaxConcurrency cfg → Traffic_Concurrency (Scenario_Traffic sc) ≤ MaxConcurrency cfg)
    ∧ (0 < MaxRequestRate cfg →
       Traffic_RatePerSecond (Scenario_Traffic sc) ≤ MaxRequestRate cfg)
    ∧ Forall (BodyAllowed (MaxRequestBodyBytes cfg)) (all_requests sc)
    ∧ ∃ base, parseTargetURL (Target_BaseURL (Scenario_Target sc)) = Ok base
       ∧ URLAllowed (TargetAllowlist cfg) (AllowMetadataTarget cfg) base
       ∧ Forall (PathAllowed (TargetAllowlist cfg) base) (scenario_paths sc)).
  { split; [by intros []|]. intros (? & ? & ? & ?). by split. }
  rewrite Hok. unfold GuardrailProblems, all_requests.
  rewrite !app_nil, !problem_if_nil, !validateRequestBodies_nil, !guard_limit, !Forall_app.
  destruct (parseTargetURL _) as [base|msg].
  - rewrite !app_nil, validateTargetURL_nil, !validateRequestTargets_nil,
      validateInvariantTargets_nil.
    change (List.filter _ _) with (probes sc).
    split; [intros; split_ands; split_and!; try done|].
    + exists base. by rewrite scenario_paths_Forall.
    + intros (? & ? & ? & b & ? & ? & Hp). assert (b = base) as -> by congruence.
      rewrite scenario_paths_Forall in Hp. tauto.
  - split; [by intros (_ & _ & _ & _ & _ & ?)|]. intros (? & ? & ? & ? & ? & ?). congruence.
Qed.

Lemma GuardrailValidate_spec sc cfg :
  GuardrailValidate sc cfg = None ↔ GuardrailsOK sc cfg.
Proof.
  rewrite <-GuardrailProblems_nil. unfold GuardrailValidate.
  by destruct (GuardrailProblems sc cfg).
Qed.
End GuardrailLemmas.

(** ** Resolution keeps a relative reference on the base's host *)

Section Resolution.
Context `{U : UnicodeTables}.

Lemma with_path_host u p : URL_Host (with_path u p) = URL_Host u.
Proof. unfold with_path. by destruct (setPath p) as [[]|]. Qed.
Lemma with_path_scheme u p : URL_Scheme (with_path u p) = URL_Scheme u.
Proof. unfold with_path. by destruct (setPath p) as [[]|]. Qed.

Lemma ResolveReference_relative base rel :
  IsAbs rel = false → URL_Host rel = "" → URL_Host (ResolveReference base rel) ≠ "" →
  URL_Host (ResolveReference base rel) = URL_Host base
  ∧ URL_Scheme (ResolveReference base rel) = URL_Scheme base.
Proof.
  unfold IsAbs, ResolveReference. intros Hs Hh. rewrite Hs, Hh. simpl.
  apply negb_false_iff in Hs. rewrite Hs.
  destruct (URL_User rel); simpl; [by rewrite with_path_host|].
  destruct (negb (String.eqb (URL_Opaque rel) "")); simpl; [done|].
  destruct (String.eqb (URL_Path rel) "" && negb (String.eqb (URL_Opaque base) ""));
    simpl; [done|].
  by rewrite with_path_host, with_path_scheme.
Qed.

Lemma Hostname_host u v : URL_Host u = URL_Host v → Hostname u = Hostname v.
Proof. unfold Hostname. by intros ->. Qed.
Lemma matchesAllowlist_host u v al :
  URL_Host u = URL_Host v → matchesAllowlist u al = matchesAllowlist v al.
Proof. intros E. unfold matchesAllowlist. by rewrite (Hostname_host u v), E. Qed.

Lemma PathAllowed_origin `{!UnicodeLaws U} base raw :
  PathAllowed [] base raw →
  ∃ rel, Parse raw = Ok rel ∧ sameOrigin base (ResolveReference base rel) = true.
Proof.
  intros (rel & Hp & Ha & Ho). exists rel. split; [done|].
  destruct (IsAbs rel) eqn:Ea; [by apply Ho; [|left]|].
  destruct (decide (URL_Host rel = "")) as [Eh|Eh]; [|by apply Ho; [|right]].
  destruct (ResolveReference_relative base rel) as [E1 E2]; [done|done|apply Ha|].
  unfold sameOrigin. by rewrite E1, E2, !EqualFold_refl.
Qed.

Lemma existsb_nil_matches u : matchesAllowlist u [] = false.
Proof. done. Qed.
End Resolution.

(** ** Properties *)

Section Properties.
Context `{U : UnicodeTables}.

(** C15: the guardrails accept a scenario exactly when it satisfies the policy:
    concurrency and request rate within the configured limits (a limit of zero
    or less is off), every JSON and text body within the size limit, a base URL
    the network policy allows, and every request path of the three phases and
    every probe path resolving to a URL the policy allows, on the base URL's
    origin when it is absolute and no allowlist is configured. *)
Theorem GuardrailValidate_iff (sc : Scenario) (cfg : Guardrails) :
  GuardrailValidate sc cfg = None ↔ GuardrailsOK sc cfg.
Proof. apply GuardrailValidate_spec. Qed.


(** An entry ["*.d"] of the allowlist admits exactly the host [d] and its
    subdomains: a host that merely ends in [d] without the dot is not
    admitted. *)
Theorem wildcard_entry_exact (d host hostport : string)
    (Hentry : normalizeAllowlistEntry ("*." +:+ d) = "*." +:+ d) (Hd : d ≠ "") :
  entry_matches host hostport ("*." +:+ d) = true
  ↔ host = d ∨ ∃ sub, host = sub +:+ "." +:+ d.
Proof.
  unfold entry_matches. rewrite Hentry.
  replace (String.eqb ("*." +:+ d) "") with false by done.
  replace (String.eqb ("*." +:+ d) "*") with false by by destruct d.
  replace (HasPrefix ("*." +:+ d) "*.") with true by (symmetry; apply prefix_app).
  unfold TrimPrefix. replace (HasPrefix ("*." +:+ d) "*.") with true
    by (symmetry; apply prefix_app).
  change (string_drop (String.length "*.") ("*." +:+ d)) with (string_drop 0 d).
  replace (string_drop 0 d) with d by by destruct d.
  rewrite orb_true_iff, String.eqb_eq, HasSuffix_spec. done.
Qed.

(** The metadata switch does not reach the requests.  When the base URL is
    an instance metadata host that the allowlist does not name, a scenario with
    a relative request path is refused even with [AllowMetadataTarget] set,
    because the path check passes the switch as off. *)
Theorem metadata_switch_ineffective (sc : Scenario) (cfg : Guardrails) (base rel : URL)
    (r : Request)
    (Hbase : Parse (Target_BaseURL (Scenario_Target sc)) = Ok base)
    (Hmeta : isMetadataHost (Hostname base) = true)
    (Hlist : matchesAllowlist base (TargetAllowlist cfg) = false)
    (Hr : r ∈ Scenario_Requests sc)
    (Hrel : Parse (Request_Path r) = Ok rel)
    (Habs : IsAbs rel = false) (Hhost : URL_Host rel = "") :
  GuardrailValidate sc cfg ≠ None.
Proof.
  intros Hok. apply GuardrailValidate_spec in Hok as [_ _ _ (base' & Hb & _ & Hps)].
  unfold parseTargetURL in Hb. destruct (is_blank _); [done|].
  assert (base' = base) as -> by congruence.
  rewrite scenario_paths_Forall in Hps. destruct Hps as (_ & Hps & _).
  rewrite Forall_map, Forall_forall in Hps. destruct (Hps r Hr) as (rel' & Hp & Ha & _).
  assert (rel' = rel) as -> by congruence. destruct Ha as [_ Hh _ _ Hm _].
  destruct (ResolveReference_relative base rel) as [E _]; [done|done|done|].
  rewrite (Hostname_host _ base E), (matchesAllowlist_host _ base _ E), Hlist in Hm.
  by destruct (Hm Hmeta).
Qed.
End Properties.

(** ** Examples *)
#[local] Existing Instances ascii_tables ascii_tables_laws.

Definition open_policy : Guardrails := Build_Guardrails 0 0 0 0 [] false.


Lemma wildcard_entry_exact_witness :
  entry_matches "api.example.com" "api.example.com" "*.example.com" = true.
Proof.
  apply (wildcard_entry_exact "example.com" "api.example.com" "api.example.com").
  - vm_compute. reflexivity.
  - discriminate.
  - right. exists "api". reflexivity.
Defined.

Definition metadata_scenario : Scenario :=
  Build_Scenario 1 "m" "" (Build_Target "" "http://169.254.169.254" None)
    (Build_Traffic "load" 1 1 0 (Build_RetryPolicy 0 0)) []
    [Build_Request "latest" "GET" "/latest" None "" "" None] []
    (Build_Thresholds None None) [].
Lemma metadata_switch_ineffective_witness :
  GuardrailValidate metadata_scenario (Build_Guardrails 0 0 0 0 [] true) ≠ None.
Proof.
  eapply metadata_switch_ineffective.
  - vm_compute. reflexivity.
  - vm_compute. reflexivity.
  - vm_compute. reflexivity.
  - apply list_elem_of_here.
  - vm_compute. reflexivity.
  - vm_compute. reflexivity.
  - vm_compute. reflexivity.
Defined.

(** The host names the check knows are compared without their trailing dot: the
    fully qualified spelling of the same host passes. *)
Example metadata_trailing_dot :
  isMetadataHost "metadata.google.internal" = true
  ∧ isMetadataHost "metadata.google.internal." = false.
Proof. vm_compute. split; reflexivity. Qed.
