(* ===== verification/Report.v ===== *)
(** * Reports (src/apps/api/internal/report/report.go)

    Response records, the summary statistics, the verdict and its text form.
    Durations are [float64].  An index expression out of range panics in Go, so
    [percentile] returns [None] there; [Summarize_total] shows it never
    happens. *)

From S2P Require Export GoFormat.
From Stdlib Require Import Ascii Sorting.Sorted.

Open Scope Z_scope.

(** ** Data *)
Definition StatusPassed : string := "passed".
Definition StatusFailed : string := "failed".
Definition StatusCanceled : string := "canceled".

Record ResponseRecord := {
  Response_RequestName : string;
  Response_Iteration : Z;
  Response_Attempt : Z;
  Response_StatusCode : Z;
  Response_DurationMS : float64;
  Response_Error : string;
  Response_BodyPreview : string;
  Response_StartedAt : Time;
}.
Record LatencyStats := {
  MinMS : float64;
  AvgMS : float64;
  P50MS : float64;
  P95MS : float64;
  P99MS : float64;
  MaxMS : float64;
}.
Record Summary := {
  TotalRequests : Z;
  FailedRequests : Z;
  ErrorRate : float64;
  StatusCodes : option (gmap string Z);      (* None is the nil map *)
  Latency : LatencyStats;
}.
Record CheckResult := {
  Check_Name : string;
  Check_Passed : bool;
  Check_Message : string;
  Check_Expected : string;
  Check_Actual : string;
}.
Record Report := {
  Report_RunID : string;
  Report_Scenario : string;
  Report_ScenarioVersionID : string;
  Report_ScenarioVersionNumber : Z;
  Report_Status : string;
  Report_StartedAt : Time;
  Report_FinishedAt : Time;
  Report_DurationMS : float64;
  Report_Summary : Summary;
  Report_Thresholds : list CheckResult;
  Report_Invariants : list CheckResult;
  Report_Failures : list string;
  Report_Responses : list ResponseRecord;
}.

Definition zero_Latency : LatencyStats := Build_LatencyStats f0 f0 f0 f0 f0 f0.
Definition zero_Summary : Summary := Build_Summary 0 0 f0 None zero_Latency.
(** [report.Report{}]. *)
Definition zero_Report : Report :=
  Build_Report "" "" "" 0 "" zero_time zero_time f0 zero_Summary [] [] [] [].

(** [finishedAt.Sub(startedAt).Microseconds()] as milliseconds; [Sub] saturates. *)
Definition Sub (t u : Time) : Z := Z.max (- two63) (Z.min (two63 - 1) (t - u)).
Definition milliseconds (d : Z) : float64 :=
  fdiv (float_of_int (Z.quot d 1000)) (float_of_int 1000).

(** ** Summary *)

(** [percentile]: linear interpolation between the neighbours of position
    [p * (len - 1)]; [None] is an index out of range. *)
Definition percentile (sorted : list float64) (p : float64) : option float64 :=
  if (length sorted =? 0)%nat then Some f0
  else if (length sorted =? 1)%nat then sorted !! 0%nat
  else
    let pos := fmul p (float_of_int (Z.of_nat (length sorted - 1))) in
    let lower := int_floor pos in
    let upper := int_ceil pos in
    if (lower <? 0) || (upper <? 0) then None
    else if lower =? upper then sorted !! Z.to_nat lower
    else
      let weight := fsub pos (float_of_int lower) in
      lo ← sorted !! Z.to_nat lower;
      hi ← sorted !! Z.to_nat upper;
      Some (fadd (fmul lo (fsub (float_of_int 1) weight)) (fmul hi weight)).

Definition p50 : float64 := float_dec 50 2.
Definition p95 : float64 := float_dec 95 2.
Definition p99 : float64 := float_dec 99 2.

Definition is_failed (r : ResponseRecord) : bool := negb (String.eqb (Response_Error r) "").
Definition status_key (r : ResponseRecord) : string :=
  if 0 <? Response_StatusCode r then Itoa (Response_StatusCode r) else "error".

(** The variables of the loop of [Summarize]. *)
Record sum_state := {
  s_total : Z;
  s_failed : Z;
  s_codes : gmap string Z;
  s_durations : list float64;
  s_sum : float64;
}.
Definition sum_init : sum_state := Build_sum_state 0 0 ∅ [] f0.
Definition sum_step (s : sum_state) (r : ResponseRecord) : sum_state :=
  {| s_total := s_total s + 1;
     s_failed := if is_failed r then s_failed s + 1 else s_failed s;
     s_codes := <[status_key r := default 0 (s_codes s !! status_key r) + 1]> (s_codes s);
     s_durations := s_durations s ++ [Response_DurationMS r];
     s_sum := fadd (s_sum s) (Response_DurationMS r) |}.

Definition Summarize (records : list ResponseRecord) : option Summary :=
  if (length records =? 0)%nat then Some (Build_Summary 0 0 f0 (Some ∅) zero_Latency)
  else
    let s := fold_left sum_step records sum_init in
    let durations := Float64s (s_durations s) in
    min ← durations !! 0%nat;
    q50 ← percentile durations p50;
    q95 ← percentile durations p95;
    q99 ← percentile durations p99;
    max ← durations !! (length durations - 1)%nat;
    Some {| TotalRequests := s_total s;
            FailedRequests := s_failed s;
            ErrorRate := fdiv (float_of_int (s_failed s)) (float_of_int (s_total s));
            StatusCodes := Some (s_codes s);
            Latency := {| MinMS := min;
                          AvgMS := fdiv (s_sum s)
                                     (float_of_int (Z.of_nat (length durations)));
                          P50MS := q50; P95MS := q95; P99MS := q99;
                          MaxMS := max |} |}.

(** ** The verdict *)
Definition failure_text (c : CheckResult) : string := Check_Name c +:+ ": " +:+ Check_Message c.
Definition failed_checks (checks : list CheckResult) : list CheckResult :=
  List.filter (λ c, negb (Check_Passed c)) checks.

(** [Build]; [finishedAt] is the clock at the call. *)
Definition Build (finishedAt : Time) (runID scenarioName : string) (startedAt : Time)
    (records : list ResponseRecord) (thresholds invariants : list CheckResult)
  : option Report :=
  summary ← Summarize records;
  let failed := failed_checks (thresholds ++ invariants) in
  Some {| Report_RunID := runID;
          Report_Scenario := scenarioName;
          Report_ScenarioVersionID := "";
          Report_ScenarioVersionNumber := 0;
          Report_Status :=
            if existsb is_failed records then StatusFailed
            else if (0 <? length failed)%nat then StatusFailed else StatusPassed;
          Report_StartedAt := startedAt;
          Report_FinishedAt := finishedAt;
          Report_DurationMS := milliseconds (Sub finishedAt startedAt);
          Report_Summary := summary;
          Report_Thresholds := thresholds;
          Report_Invariants := invariants;
          Report_Failures := map failure_text failed;
          Report_Responses := records |}.

(** ** Text *)

Definition formatStatusCodes (codes : gmap string Z) : string :=
  if (size codes =? 0)%nat then "none"
  else
    let keys := sort_strings (map fst (map_to_list codes)) in
    Join (map (λ key, key +:+ "=" +:+ Itoa (default 0 (codes !! key))) keys) ", ".

Definition newline : string := bytes_of [10]%N.
Definition Text `{UnicodeTables} (r : Report) : string :=
  let s := Report_Summary r in
  ToUpper (Report_Status r) +:+ newline +:+ newline
  +:+ "Scenario: " +:+ Report_Scenario r +:+ newline
  +:+ "Run ID:   " +:+ Report_RunID r +:+ newline
  +:+ "Duration: " +:+ format_fixed 1 (Report_DurationMS r) +:+ "ms" +:+ newline +:+ newline
  +:+ "Technical summary:" +:+ newline
  +:+ "- Requests: " +:+ Itoa (TotalRequests s) +:+ newline
  +:+ "- Failed:   " +:+ Itoa (FailedRequests s) +:+ newline
  +:+ "- Errors:   " +:+ format_fixed 2 (fmul (ErrorRate s) (float_of_int 100)) +:+ "%" +:+ newline
  +:+ "- p95:      " +:+ format_fixed 1 (P95MS (Latency s)) +:+ "ms" +:+ newline
  +:+ "- Status:   " +:+ formatStatusCodes (default ∅ (StatusCodes s)) +:+ newline
  +:+ (if (0 <? length (Report_Failures r))%nat then
         newline +:+ "Failures:" +:+ newline
         +:+ Join (map (λ f, "- " +:+ f +:+ newline) (Report_Failures r)) ""
       else "").

(** ** Lemmas *)

Definition count (P : ResponseRecord → bool) (records : list ResponseRecord) : Z :=
  Z.of_nat (length (List.filter P records)).
Lemma count_app P l1 l2 : count P (l1 ++ l2) = count P l1 + count P l2.
Proof. unfold count. rewrite List.filter_app, length_app. lia. Qed.
Lemma count_single P r : count P [r] = if P r then 1 else 0.
Proof. unfold count. simpl. by destruct (P r). Qed.
Lemma count_nonneg P l : 0 ≤ count P l.
Proof. unfold count. lia. Qed.

Definition has_key (k : string) (r : ResponseRecord) : bool := bool_decide (status_key r = k).

(** What the loop of [Summarize] has computed after the records [l]. *)
Definition sum_inv (l : list ResponseRecord) (s : sum_state) : Prop :=
  s_total s = Z.of_nat (length l)
  ∧ s_failed s = count is_failed l
  ∧ (∀ k, default 0 (s_codes s !! k) = count (has_key k) l
          ∧ (s_codes s !! k ≠ Some 0))
  ∧ s_durations s = map Response_DurationMS l.

Lemma sum_step_inv l s r : sum_inv l s → sum_inv (l ++ [r]) (sum_step s r).
Proof.
  intros (Ht & Hf & Hc & Hd). unfold sum_step, sum_inv. simpl. split_and!.
  - rewrite Ht, length_app. simpl. lia.
  - rewrite count_app, count_single, Hf. case_match; lia.
  - intros k. rewrite count_app, count_single. destruct (Hc k) as [Hk Hk0].
    unfold has_key at 2.
    destruct (decide (status_key r = k)) as [<-|Hne].
    + rewrite lookup_insert_eq, bool_decide_eq_true_2 by done. simpl. rewrite Hk.
      pose proof (count_nonneg (has_key (status_key r)) l). split; [lia|].
      intros [=]. lia.
    + rewrite lookup_insert_ne, bool_decide_eq_false_2 by done. simpl. split; [lia|done].
  - by rewrite map_app, Hd.
Qed.

Lemma sum_fold_inv l : sum_inv l (fold_left sum_step l sum_init).
Proof.
  induction l as [|r l IH] using rev_ind.
  - split_and!; [done|done| |done]. intros k. simpl. by rewrite lookup_empty.
  - rewrite fold_left_app. by apply sum_step_inv.
Qed.

(** The positions [percentile] reads are in range. *)
Lemma percentile_total l m e :
  Z.of_nat (length l) ≤ 2 ^ 53 → e ≤ 0 → Zpos m < 2 ^ (- e) →
  is_Some (percentile l (S754_finite false m e)).
Proof.
  intros Hl He Hm. unfold percentile.
  case_match eqn:H0; [by eexists|]. apply Nat.eqb_neq in H0.
  case_match eqn:H1; [apply lookup_lt_is_Some; lia|]. apply Nat.eqb_neq in H1.
  set (k := Z.of_nat (length l - 1)).
  pose proof (fmul_fraction_between m e k ltac:(lia) He Hm) as Hb.
  apply float_between_floor in Hb as Hfl; [|lia].
  apply float_between_ceil in Hb as Hce; [|lia].
  rewrite (proj2 (Z.ltb_ge _ _)), (proj2 (Z.ltb_ge _ _)) by lia. cbn [orb].
  assert (∀ z, 0 ≤ z ≤ k → is_Some (l !! Z.to_nat z)) as Hin
    by (intros; apply lookup_lt_is_Some; lia).
  case_match; [by apply Hin|].
  destruct (Hin _ Hfl) as [x ->], (Hin _ Hce) as [y ->]. by eexists.
Qed.

Definition fraction (p : float64) : Prop :=
  ∃ m e, p = S754_finite false m e ∧ e ≤ 0 ∧ Zpos m < 2 ^ (- e).
Lemma fraction_percentiles : fraction p50 ∧ fraction p95 ∧ fraction p99.
Proof. split_and!; eexists _, _; split_and!; [reflexivity|done|done..]. Qed.
Lemma fraction_total l p :
  Z.of_nat (length l) ≤ 2 ^ 53 → fraction p → is_Some (percentile l p).
Proof. intros ? (m & e & -> & ? & ?). by apply percentile_total. Qed.

(** The summary of a non-empty list, in terms of the records. *)
Definition SummaryOf (records : list ResponseRecord) (s : Summary) : Prop :=
  TotalRequests s = Z.of_nat (length records)
  ∧ FailedRequests s = count is_failed records
  ∧ ErrorRate s = fdiv (float_of_int (count is_failed records))
                       (float_of_int (Z.of_nat (length records)))
  ∧ (∀ k n, StatusCodes s ≫= lookup k = Some n ↔ n = count (has_key k) records ∧ 0 < n)
  ∧ (∃ r, r ∈ records ∧ Response_DurationMS r = MinMS (Latency s))
  ∧ (∃ r, r ∈ records ∧ Response_DurationMS r = MaxMS (Latency s))
  ∧ (∀ r, r ∈ records → float_le (MinMS (Latency s)) (Response_DurationMS r)
                        ∧ float_le (Response_DurationMS r) (MaxMS (Latency s))).

Lemma Summarize_total_spec records :
  records ≠ [] → Z.of_nat (length records) ≤ 2 ^ 53 →
  ∃ s, Summarize records = Some s ∧ SummaryOf records s.
Proof.
  intros Hne Hl. unfold Summarize.
  destruct (Nat.eqb_spec (length records) 0); [by destruct records|].
  destruct (sum_fold_inv records) as (Ht & Hf & Hc & Hd).
  set (st := fold_left sum_step records sum_init) in *. clearbody st.
  set (ds := Float64s (s_durations st)).
  assert (Hlen : length ds = length records)
    by (unfold ds; rewrite Float64s_length, Hd; apply length_map).
  assert (Hmem : ∀ i x, ds !! i = Some x → ∃ r, r ∈ records ∧ Response_DurationMS r = x).
  { intros i x Hx. apply list_elem_of_lookup_2 in Hx. unfold ds in Hx.
    rewrite Float64s_perm, Hd in Hx. apply list_elem_of_fmap in Hx as (r & -> & ?). eauto. }
  assert (Hpos : ∀ r, r ∈ records → ∃ i, ds !! i = Some (Response_DurationMS r)).
  { intros r Hr. apply list_elem_of_lookup. unfold ds. rewrite Float64s_perm, Hd.
    apply list_elem_of_fmap. eauto. }
  destruct (lookup_lt_is_Some_2 ds 0) as [mn Hmn]; [lia|].
  destruct (lookup_lt_is_Some_2 ds (length ds - 1)) as [mx Hmx]; [lia|].
  destruct fraction_percentiles as (H50 & H95 & H99).
  rewrite <-Hlen in Hl.
  destruct (fraction_total ds p50 Hl H50) as [q50 E50].
  destruct (fraction_total ds p95 Hl H95) as [q95 E95].
  destruct (fraction_total ds p99 Hl H99) as [q99 E99].
  rewrite Hmn. simpl. rewrite E50. simpl. rewrite E95. simpl. rewrite E99. simpl.
  rewrite Hmx. simpl. eexists. split; [done|].
  unfold SummaryOf. simpl. split_and!; [done|done|by rewrite Ht, Hf| | | |]; eauto.
  - intros k z0. destruct (Hc k) as [Hk Hk0]. pose proof (count_nonneg (has_key k) records).
    destruct (s_codes st !! k) as [z|] eqn:E; simpl in Hk; split.
    + intros [= ->]. split; [done|]. assert (z0 ≠ 0) by congruence. lia.
    + intros [-> _]. by rewrite Hk.
    + done.
    + intros [-> ?]. lia.
  - intros r Hr. destruct (Hpos r Hr) as [i Hi].
    pose proof (Float64s_sorted (s_durations st)) as Hs. pose proof (lookup_lt_Some _ _ _ Hi).
    split; eapply sorted_lookup_le; [done| |exact Hmn|exact Hi|done| |exact Hi|exact Hmx]; lia.
Qed.

Lemma Build_total_spec now id name started records thresholds invariants :
  Z.of_nat (length records) ≤ 2 ^ 53 →
  ∃ r, Build now id name started records thresholds invariants = Some r.
Proof.
  intros Hl. unfold Build. destruct (decide (records = [])) as [->|Hne]; [by eexists|].
  destruct (Summarize_total_spec records Hne Hl) as (s & -> & _). by eexists.
Qed.

Lemma failed_checks_nil l : failed_checks l = [] ↔ ∀ c, c ∈ l → Check_Passed c = true.
Proof.
  unfold failed_checks. split.
  - intros H c Hc. destruct (Check_Passed c) eqn:E; [done|].
    apply list_elem_of_In in Hc.
    assert (In c (List.filter (λ c, negb (Check_Passed c)) l)) as Hin
      by (apply filter_In; by rewrite E).
    by rewrite H in Hin.
  - intros H. induction l as [|c l IH]; [done|]. simpl.
    rewrite (H c) by set_solver. simpl. apply IH. set_solver.
Qed.

Lemma Build_verdict_spec now id name started records thresholds invariants :
  Z.of_nat (length records) ≤ 2 ^ 53 →
  ∃ r, Build now id name started records thresholds invariants = Some r
  ∧ (Report_Status r = StatusPassed ∨ Report_Status r = StatusFailed)
  ∧ (Report_Status r = StatusPassed ↔
       (∀ rec, rec ∈ records → Response_Error rec = "")
       ∧ (∀ c, c ∈ thresholds ++ invariants → Check_Passed c = true))
  ∧ Report_Failures r = map failure_text (failed_checks thresholds)
                        ++ map failure_text (failed_checks invariants)
  ∧ Report_Responses r = records ∧ Report_Thresholds r = thresholds
  ∧ Report_Invariants r = invariants
  ∧ Report_FinishedAt r = now ∧ Report_StartedAt r = started.
Proof.
  intros Hl. destruct (Build_total_spec now id name started records thresholds invariants Hl)
    as [r Hr]. exists r. split; [done|]. unfold Build in Hr.
  destruct (Summarize records); [|done]. simpl in Hr. injection Hr as <-. simpl.
  rewrite <-map_app. unfold failed_checks at 4 5. rewrite <-List.filter_app.
  fold (failed_checks (thresholds ++ invariants)).
  rewrite <-failed_checks_nil.
  assert (existsb is_failed records = false ↔ ∀ rec, rec ∈ records → Response_Error rec = "")
    as Hrec.
  { rewrite <-not_true_iff_false, existsb_true. unfold is_failed. split.
    - intros H rec Hin. destruct (String.eqb_spec (Response_Error rec) ""); [done|].
      destruct H. exists rec. split; [done|]. by destruct (String.eqb_spec (Response_Error rec) "").
    - intros H (rec & Hin & He). by rewrite (H rec Hin) in He. }
  destruct (existsb is_failed records) eqn:E, (failed_checks _) eqn:F; simpl;
    split_and!; auto; naive_solver.
Qed.

(** ** Properties *)

(** C24: Summarize never indexes out of range (for any list below 2^53
    records), and its summary counts the records and the failed ones, gives
    for every status code exactly the number of records with it, and reports
    as minimum and maximum latency members of the sample that bound all the
    others. *)
Theorem Summarize_correct records :
  records ≠ [] → Z.of_nat (length records) ≤ 2 ^ 53 →
  ∃ s, Summarize records = Some s ∧ SummaryOf records s.
Proof. apply Summarize_total_spec. Qed.

Definition sample_record (name err : string) (status : Z) (d : Z) : ResponseRecord :=
  Build_ResponseRecord name 1 1 status (float_of_int d) err "" zero_time.
Lemma Summarize_correct_witness :
  ∃ s, Summarize [sample_record "a" "" 200 7; sample_record "b" "boom" 0 3] = Some s
       ∧ SummaryOf [sample_record "a" "" 200 7; sample_record "b" "boom" 0 3] s.
Proof. apply Summarize_correct; [discriminate|vm_compute; discriminate]. Defined.

(** The verdict of Build: the status is "passed" exactly when no record
    has an error and every threshold and invariant check passed, and "failed"
    otherwise; the failures list the failed checks in order, thresholds first;
    the records and checks are carried unchanged. *)
Theorem Build_verdict now id name started records thresholds invariants :
  Z.of_nat (length records) ≤ 2 ^ 53 →
  ∃ r, Build now id name started records thresholds invariants = Some r
  ∧ (Report_Status r = StatusPassed ∨ Report_Status r = StatusFailed)
  ∧ (Report_Status r = StatusPassed ↔
       (∀ rec, rec ∈ records → Response_Error rec = "")
       ∧ (∀ c, c ∈ thresholds ++ invariants → Check_Passed c = true))
  ∧ Report_Failures r = map failure_text (failed_checks thresholds)
                        ++ map failure_text (failed_checks invariants)
  ∧ Report_Responses r = records ∧ Report_Thresholds r = thresholds
  ∧ Report_Invariants r = invariants
  ∧ Report_FinishedAt r = now ∧ Report_StartedAt r = started.
Proof. apply Build_verdict_spec. Qed.

Lemma Build_verdict_witness :
  Z.of_nat (length [sample_record "a" "" 200 7]) ≤ 2 ^ 53
  ∧ ∃ r, Build 9 "run" "s" 4 [sample_record "a" "" 200 7]
           [Build_CheckResult "error_rate" false "too high" "" ""] [] = Some r
         ∧ Report_Status r = StatusFailed.
Proof.
  split; [vm_compute; discriminate|].
  destruct (Build_verdict 9 "run" "s" 4 [sample_record "a" "" 200 7]
              [Build_CheckResult "error_rate" false "too high" "" ""] [])
    as (r & Hr & Hs & Hp & _); [vm_compute; discriminate|].
  exists r. split; [exact Hr|]. destruct Hs as [Hs|Hs]; [|exact Hs].
  apply Hp in Hs as [_ Hc]. discriminate (Hc _ (list_elem_of_here _ _)).
Defined.
