(* ===== verification/Parallel.v ===== *)
(** * Parallel traffic (src/apps/api/internal/runner/runner.go, runParallel)

    [runParallel] is a producer, [Concurrency] worker goroutines, an unbuffered
    channel of iterations and a cancellable context.  The step relation
    interleaves them at every point where Go may: each worker's program counter
    is a constructor of [worker] that holds its loop variables.

    Shown for every interleaving: what is collected is always part of the full
    product iterations x requests x attempts, each at most as often as in it; a
    run that ends uncancelled has collected exactly the product; every run ends
    (a measure decreases with every step, and a state that is not final can
    move); after a cancellation at most one more record per worker arrives. *)

From S2P Require Export Report Scenario.

Open Scope Z_scope.

(** ** General lemmas *)

(** Replacing an element of a list, seen through sums and concatenations. *)
Lemma sum_list_with_insert {A} (f : A → nat) (l : list A) i x y :
  l !! i = Some x →
  (sum_list_with f (<[i:=y]> l) + f x = sum_list_with f l + f y)%nat.
Proof.
  revert i. induction l as [|z l IH]; intros [|i] Hl; simpl in *; simplify_eq; [lia|].
  specialize (IH i Hl). lia.
Qed.

Lemma concat_map_insert {A B} (f : A → list B) (l : list A) i x y :
  l !! i = Some x →
  concat (map f (<[i:=y]> l)) ++ f x ≡ₚ concat (map f l) ++ f y.
Proof.
  revert i. induction l as [|z l IH]; intros [|i] Hl; simpl in *; simplify_eq.
  - rewrite (Permutation_app_comm _ (f x)), <-app_assoc.
    apply Permutation_app_head, Permutation_app_comm.
  - by rewrite <-!app_assoc, IH.
Qed.

Lemma sum_list_with_le {A} (f g : A → nat) l :
  (∀ x, f x ≤ g x)%nat → (sum_list_with f l ≤ sum_list_with g l)%nat.
Proof. intros H. induction l as [|x l IH]; simpl; [done|]. specialize (H x). lia. Qed.

Lemma sum_list_with_bound {A} (f : A → nat) l :
  (∀ x, f x ≤ 1)%nat → (sum_list_with f l ≤ length l)%nat.
Proof. intros H. induction l as [|x l IH]; simpl; [done|]. specialize (H x). lia. Qed.

(** ** The program *)

(** The identity of an attempt, as its record shows it. *)
Abbreviation attempt_id := (string * Z * Z)%type (only parsing).
Definition record_id (r : ResponseRecord) : attempt_id :=
  (Response_RequestName r, Response_Iteration r, Response_Attempt r).

(** The program counter of a worker, with its loop variables: iteration,
    requests still to do (the current one apart), attempt. *)
Inductive worker :=
| WIdle                                                    (* range jobs *)
| WJob (i : Z)                                             (* first check of ctx *)
| WLoop (i : Z) (reqs : list Request) (a : Z)              (* heads of the two loops *)
| WWait (i : Z) (r : Request) (reqs : list Request) (a : Z)   (* limiter.wait *)
| WExec (i : Z) (r : Request) (reqs : list Request) (a : Z)   (* executeRequest *)
| WAdd (i : Z) (r : Request) (reqs : list Request) (a : Z) (rec : ResponseRecord)
| WSleep (i : Z) (r : Request) (reqs : list Request) (a : Z)  (* sleepContext *)
| WDone.

#[export] Instance worker_done_dec w : Decision (WDone = w).
Proof. destruct w; first [left; reflexivity|right; discriminate]. Defined.
#[export] Instance worker_done_dec' w : Decision (w = WDone).
Proof. destruct w; first [left; reflexivity|right; discriminate]. Defined.
#[export] Instance worker_idle_dec w : Decision (w = WIdle).
Proof. destruct w; first [left; reflexivity|right; discriminate]. Defined.

Record state := {
  cancelled : bool;              (* ctx.Err() != nil *)
  next : Z;                      (* the producer's iteration *)
  closed : bool;                 (* jobs is closed: the producer is in wg.Wait *)
  workers : list worker;
  items : list ResponseRecord;   (* collector *)
}.

Section Parallel.
Context (sc : Scenario) (attempts : Z) (limited : bool).

Definition init : state :=
  Build_state false 0 false (replicate (Z.to_nat (Traffic_Concurrency (Scenario_Traffic sc))) WIdle) [].

(** Whether the worker sleeps before its next attempt. *)
Definition backs_off (a : Z) : bool :=
  String.eqb (Traffic_Type (Scenario_Traffic sc)) TrafficRetryStorm
  && (0 <? RetryPolicy_BackoffMS (Traffic_Retry (Scenario_Traffic sc)))
  && negb (a =? attempts).

(** One move of a worker, given [ctx]; the last argument is what it adds to the
    collector.  A select with both cases ready takes either. *)
Inductive wstep (ctx : bool) : worker → worker → list ResponseRecord → Prop :=
| w_job_done i : ctx = true → wstep ctx (WJob i) WDone []
| w_job i : ctx = false → wstep ctx (WJob i) (WLoop i (Scenario_Requests sc) 1) []
| w_iteration_end i a : wstep ctx (WLoop i [] a) WIdle []
| w_request_end i r reqs a : attempts < a → wstep ctx (WLoop i (r :: reqs) a) (WLoop i reqs 1) []
| w_attempt_done i r reqs a :
    a ≤ attempts → ctx = true → wstep ctx (WLoop i (r :: reqs) a) WDone []
| w_attempt i r reqs a :
    a ≤ attempts → ctx = false → wstep ctx (WLoop i (r :: reqs) a) (WWait i r reqs a) []
| w_wait_done i r reqs a : ctx = true → wstep ctx (WWait i r reqs a) WDone []
| w_wait i r reqs a :
    limited = true ∨ ctx = false → wstep ctx (WWait i r reqs a) (WExec i r reqs a) []
| w_exec i r reqs a rec :
    record_id rec = (Request_Name r, i, a) → wstep ctx (WExec i r reqs a) (WAdd i r reqs a rec) []
| w_add_next i r reqs a rec :
    backs_off a = false → wstep ctx (WAdd i r reqs a rec) (WLoop i (r :: reqs) (a + 1)) [rec]
| w_add_sleep i r reqs a rec :
    backs_off a = true → wstep ctx (WAdd i r reqs a rec) (WSleep i r reqs a) [rec]
| w_sleep_done i r reqs a : ctx = true → wstep ctx (WSleep i r reqs a) WDone []
| w_sleep i r reqs a : ctx = false → wstep ctx (WSleep i r reqs a) (WLoop i (r :: reqs) (a + 1)) [].

Definition set_worker (w : nat) (x : worker) (s : state) : state :=
  Build_state (cancelled s) (next s) (closed s) (<[w:=x]> (workers s)) (items s).

Inductive step : state → state → Prop :=
| s_cancel s :
    cancelled s = false →
    step s (Build_state true (next s) (closed s) (workers s) (items s))
| s_worker s w x x' out :
    workers s !! w = Some x → wstep (cancelled s) x x' out →
    step s (Build_state (cancelled s) (next s) (closed s) (<[w:=x']> (workers s)) (items s ++ out))
| s_send s w :
    closed s = false → next s < Traffic_Iterations (Scenario_Traffic sc) →
    workers s !! w = Some WIdle →
    step s (Build_state (cancelled s) (next s + 1) false (<[w:=WJob (next s)]> (workers s)) (items s))
| s_producer_done s :
    closed s = false → next s < Traffic_Iterations (Scenario_Traffic sc) → cancelled s = true →
    step s (Build_state (cancelled s) (next s) true (workers s) (items s))
| s_close s :
    closed s = false → Traffic_Iterations (Scenario_Traffic sc) ≤ next s →
    step s (Build_state (cancelled s) (next s) true (workers s) (items s))
| s_range_end s w :
    closed s = true → workers s !! w = Some WIdle → step s (set_worker w WDone s).

(** [runParallel] returns: the producer has passed wg.Wait. *)
Definition final (s : state) : Prop := closed s = true ∧ Forall (eq WDone) (workers s).

(** ** The work to do *)
Definition attempts_of (i : Z) (r : Request) (a : Z) : list attempt_id :=
  map (λ x, (Request_Name r, i, x)) (seqZ a (attempts + 1 - a)).
Definition iteration_work (i : Z) (reqs : list Request) : list attempt_id :=
  concat (map (λ r, attempts_of i r 1) reqs).
Definition work_from (k : Z) : list attempt_id :=
  concat (map (λ i, iteration_work i (Scenario_Requests sc))
            (seqZ k (Traffic_Iterations (Scenario_Traffic sc) - k))).
(** Every attempt of every request in every iteration. *)
Definition full_work : list attempt_id := work_from 0.

Definition todo (w : worker) : list attempt_id :=
  match w with
  | WIdle | WDone => []
  | WJob i => iteration_work i (Scenario_Requests sc)
  | WLoop i [] _ => []
  | WLoop i (r :: reqs) a => attempts_of i r a ++ iteration_work i reqs
  | WWait i r reqs a | WExec i r reqs a | WAdd i r reqs a _ =>
      (Request_Name r, i, a) :: attempts_of i r (a + 1) ++ iteration_work i reqs
  | WSleep i r reqs a => attempts_of i r (a + 1) ++ iteration_work i reqs
  end.
Definition unsent (s : state) : list attempt_id := if closed s then [] else work_from (next s).
Definition pending (s : state) : list attempt_id :=
  map record_id (items s) ++ concat (map todo (workers s)) ++ unsent s.

(** A worker that holds a record shows the attempt it executed. *)
Definition holds_own (w : worker) : Prop :=
  match w with WAdd i r _ a rec => record_id rec = (Request_Name r, i, a) | _ => True end.

Lemma seqZ_head a n : a ≤ n → seqZ a (n + 1 - a) = a :: seqZ (a + 1) (n + 1 - (a + 1)).
Proof. intros H. rewrite seqZ_cons by lia. do 2 f_equal; lia. Qed.

Lemma attempts_of_head i r a :
  a ≤ attempts → attempts_of i r a = (Request_Name r, i, a) :: attempts_of i r (a + 1).
Proof. intros H. unfold attempts_of. by rewrite seqZ_head. Qed.
Lemma attempts_of_end i r a : attempts < a → attempts_of i r a = [].
Proof. intros H. unfold attempts_of. by rewrite seqZ_nil by lia. Qed.

Lemma todo_loop i reqs : todo (WLoop i reqs 1) = iteration_work i reqs.
Proof. by destruct reqs. Qed.

Lemma work_from_head k :
  k < Traffic_Iterations (Scenario_Traffic sc) →
  work_from k = iteration_work k (Scenario_Requests sc) ++ work_from (k + 1).
Proof.
  intros H. unfold work_from. rewrite seqZ_cons by lia. simpl. do 4 f_equal; lia.
Qed.
Lemma work_from_end k : Traffic_Iterations (Scenario_Traffic sc) ≤ k → work_from k = [].
Proof. intros H. unfold work_from. by rewrite seqZ_nil by lia. Qed.

(** A worker's move moves its work to the collector, or drops it when the
    context is cancelled. *)
Lemma wstep_todo ctx x x' out :
  wstep ctx x x' out → holds_own x →
  holds_own x'
  ∧ (map record_id out ++ todo x' ≡ₚ todo x
     ∨ ctx = true ∧ out = [] ∧ x' = WDone).
Proof.
  destruct 1; intros Hx; (split; [done|]); try (by right); left; cbn [map app].
  - by rewrite todo_loop.
  - done.
  - rewrite todo_loop. simpl. by rewrite attempts_of_end.
  - simpl. by rewrite (attempts_of_head i r a).
  - done.
  - done.
  - simpl in *. by rewrite Hx.
  - simpl in *. by rewrite Hx.
  - done.
Qed.

Definition full_inv (s : state) : Prop :=
  Forall holds_own (workers s)
  ∧ pending s ⊆+ full_work
  ∧ (cancelled s = false → pending s ≡ₚ full_work).

Lemma pending_worker s w x x' out :
  workers s !! w = Some x →
  pending (Build_state (cancelled s) (next s) (closed s) (<[w:=x']> (workers s)) (items s ++ out))
    ++ todo x
  ≡ₚ pending s ++ (map record_id out ++ todo x').
Proof.
  intros Hw. unfold pending, unsent. simpl. rewrite map_app.
  pose proof (concat_map_insert todo (workers s) w x x' Hw) as Hp.
  set (U := if closed s then [] else work_from (next s)). clearbody U.
  set (I := map record_id (items s)). clearbody I.
  set (O := map record_id out). clearbody O.
  set (C := concat (map todo (workers s))) in *. clearbody C.
  set (C' := concat (map todo (<[w:=x']> (workers s)))) in *. clearbody C'.
  rewrite <-!app_assoc. apply Permutation_app_head.
  rewrite (Permutation_app_comm U (todo x)), (Permutation_app_comm U (O ++ todo x')).
  rewrite !app_assoc. apply Permutation_app_tail.
  rewrite <-!app_assoc, (app_assoc C O), (Permutation_app_comm C O), <-!app_assoc.
  by apply Permutation_app_head.
Qed.

Lemma pending_send s w :
  closed s = false → next s < Traffic_Iterations (Scenario_Traffic sc) →
  workers s !! w = Some WIdle →
  pending (Build_state (cancelled s) (next s + 1) false (<[w:=WJob (next s)]> (workers s)) (items s))
  ≡ₚ pending s.
Proof.
  intros Hc Hn Hw. unfold pending, unsent. simpl. rewrite Hc, (work_from_head (next s)) by done.
  apply Permutation_app_head. rewrite app_assoc. apply Permutation_app_tail.
  pose proof (concat_map_insert todo (workers s) w WIdle (WJob (next s)) Hw) as Hp.
  cbn [todo] in Hp. by rewrite app_nil_r in Hp.
Qed.

Lemma pending_insert_nil s w x x' :
  workers s !! w = Some x → todo x = [] → todo x' = [] →
  pending (set_worker w x' s) ≡ₚ pending s.
Proof.
  intros Hw Hx Hx'. pose proof (pending_worker s w x x' [] Hw) as Hp.
  rewrite Hx, Hx' in Hp. simpl in Hp. by rewrite !app_nil_r in Hp.
Qed.

(** One step keeps the pending work, up to what a cancellation drops. *)
Lemma step_pending s s' :
  step s s' → Forall holds_own (workers s) →
  Forall holds_own (workers s')
  ∧ pending s' ⊆+ pending s
  ∧ (cancelled s' = false → cancelled s = false ∧ pending s' ≡ₚ pending s).
Proof.
  destruct 1 as [s Hc|s w x x' out Hw Hx|s w Hc Hn Hw|s Hc Hn Hx|s Hc Hn|s w Hc Hw]; intros Hown.
  - done.
  - destruct (wstep_todo _ _ _ _ Hx) as [Hx' Hor];
      [by eapply Forall_lookup_1 in Hown|].
    split; [by apply Forall_insert|].
    pose proof (pending_worker s w x x' out Hw) as Hp.
    destruct Hor as [Ht|(Hctx & -> & ->)].
    + rewrite Ht in Hp. apply Permutation_app_inv_r in Hp. split; [by rewrite Hp|done].
    + simpl in Hp. rewrite !app_nil_r in Hp. simpl. split; [|congruence].
      rewrite app_nil_r, <-Hp. by apply submseteq_inserts_r.
  - split; [by apply Forall_insert|]. rewrite pending_send by done. done.
  - split; [done|]. simpl. split; [|congruence]. unfold pending. simpl.
    rewrite app_nil_r. apply submseteq_skips_l. by apply submseteq_inserts_r.
  - split; [done|]. assert (pending (Build_state (cancelled s) (next s) true (workers s) (items s))
      = pending s) as ->; [|done].
    unfold pending, unsent. simpl. by rewrite Hc, work_from_end.
  - split; [by apply Forall_insert|]. by rewrite (pending_insert_nil s w WIdle WDone).
Qed.

Lemma reachable_inv s : rtc step init s → full_inv s.
Proof.
  intros Hr. apply rtc_ind_r with (P := full_inv) in Hr; [done| |].
  - assert (pending init = full_work) as Hp.
    { unfold pending, init, unsent. simpl.
      assert (∀ n, concat (map todo (replicate n WIdle)) = []) as -> by (by induction n). done. }
    split_and!; [by apply Forall_replicate|by rewrite Hp|by rewrite Hp].
  - clear. intros s s' _ Hs (Hown & Hsub & Hperm).
    destruct (step_pending s s' Hs Hown) as (Hown' & Hsub' & Hperm').
    split_and!; [done|by etrans|]. intros Hc. destruct (Hperm' Hc) as [Hc0 ->]. auto.
Qed.

(** ** Termination *)
Definition attempts_left (a : Z) : nat := Z.to_nat (attempts + 1 - a).
Definition requests_weight (reqs : list Request) : nat :=
  (length reqs * (6 * attempts_left 1 + 1) + 1)%nat.
Definition weight (w : worker) : nat :=
  let after reqs a := (6 * attempts_left (a + 1) + requests_weight reqs + 2)%nat in
  match w with
  | WDone => 0
  | WIdle => 1
  | WJob _ => requests_weight (Scenario_Requests sc) + 2
  | WLoop _ [] _ => 2
  | WLoop _ (_ :: reqs) a => 6 * attempts_left a + requests_weight reqs + 2
  | WSleep _ _ reqs a => after reqs a + 1
  | WAdd _ _ reqs a _ => after reqs a + 2
  | WExec _ _ reqs a => after reqs a + 3
  | WWait _ _ reqs a => after reqs a + 4
  end.
Definition measure (s : state) : nat :=
  (if cancelled s then 0 else 1) + (if closed s then 0 else 1)
  + Z.to_nat (Traffic_Iterations (Scenario_Traffic sc) - next s)
    * (requests_weight (Scenario_Requests sc) + 2)
  + sum_list_with weight (workers s).

Lemma weight_loop i reqs : (weight (WLoop i reqs 1) ≤ requests_weight reqs + 1)%nat.
Proof. destruct reqs as [|r reqs]; simpl; unfold requests_weight; simpl; lia. Qed.

Lemma attempts_left_head a : a ≤ attempts → attempts_left a = S (attempts_left (a + 1)).
Proof. unfold attempts_left. lia. Qed.

Lemma wstep_weight ctx x x' out : wstep ctx x x' out → (weight x' < weight x)%nat.
Proof.
  destruct 1; simpl; try lia.
  - pose proof (weight_loop i (Scenario_Requests sc)). simpl in *. lia.
  - pose proof (weight_loop i reqs). simpl in *. lia.
  - rewrite (attempts_left_head a) by done. lia.
Qed.

Lemma step_measure s s' : step s s' → (measure s' < measure s)%nat.
Proof.
  destruct 1 as [s Hc|s w x x' out Hw Hx|s w Hc Hn Hw|s Hc Hn Hx|s Hc Hn|s w Hc Hw];
    unfold measure; simpl; rewrite ?Hc.
  - lia.
  - pose proof (sum_list_with_insert weight (workers s) w x x' Hw).
    apply wstep_weight in Hx. lia.
  - pose proof (sum_list_with_insert weight (workers s) w WIdle (WJob (next s)) Hw) as H.
    simpl in H. replace (Z.to_nat (Traffic_Iterations (Scenario_Traffic sc) - next s))
      with (S (Z.to_nat (Traffic_Iterations (Scenario_Traffic sc) - (next s + 1)))) by lia.
    simpl. lia.
  - lia.
  - lia.
  - pose proof (sum_list_with_insert weight (workers s) w WIdle WDone Hw) as H.
    simpl in H. lia.
Qed.

(** ** Progress *)

(** A worker has stopped only because the context was cancelled or the channel
    was closed. *)
Definition stop_inv (s : state) : Prop :=
  length (workers s) = Z.to_nat (Traffic_Concurrency (Scenario_Traffic sc))
  ∧ (WDone ∈ workers s → cancelled s = true ∨ closed s = true).

Lemma list_insert_done (l : list worker) w x y :
  y ∈ <[w:=x]> l → y = x ∨ y ∈ l.
Proof.
  intros [j Hj]%list_elem_of_lookup. destruct (decide (j = w)) as [->|Hne].
  - destruct (decide (w < length l)%nat) as [Hl|Hl].
    + rewrite list_lookup_insert_eq in Hj by done. left. congruence.
    + rewrite list_insert_ge in Hj by lia. right. by apply list_elem_of_lookup_2 in Hj.
  - rewrite list_lookup_insert_ne in Hj by done. right. by apply list_elem_of_lookup_2 in Hj.
Qed.

Lemma wstep_done ctx x out : wstep ctx x WDone out → ctx = true.
Proof. by inversion 1. Qed.

Lemma reachable_stop s : rtc step init s → stop_inv s.
Proof.
  intros Hr. apply rtc_ind_r with (P := stop_inv) in Hr; [done| |].
  - split; [apply length_replicate|]. simpl. intros H%elem_of_replicate_inv. done.
  - clear. intros s s' _ Hs [Hl Hd].
    destruct Hs as [s Hc|s w x x' out Hw Hx|s w Hc Hn Hw|s Hc Hn Hx|s Hc Hn|s w Hc Hw];
      unfold stop_inv; simpl; rewrite ?length_insert; (split; [done|]); auto.
    + intros [<-|H]%list_insert_done; [left; by eapply wstep_done|auto].
    + intros [?|H]%list_insert_done; [done|rewrite Hc in Hd; auto].
Qed.

(** The record a successful or failed request yields. *)
Definition some_record (r : Request) (i a : Z) : ResponseRecord :=
  Build_ResponseRecord (Request_Name r) i a 0 f0 "" "" zero_time.

Lemma wstep_progress ctx x :
  x ≠ WDone → x ≠ WIdle → ∃ x' out, wstep ctx x x' out.
Proof.
  intros Hd Hi.
  destruct x as [|i|i [|r reqs] a|i r reqs a|i r reqs a|i r reqs a rec|i r reqs a|]; try done.
  - destruct ctx; eexists _, _; by constructor.
  - eexists _, _; constructor.
  - destruct (decide (a ≤ attempts)); [|eexists _, _; apply w_request_end; lia].
    destruct ctx; eexists _, _; [by apply w_attempt_done|by apply w_attempt].
  - destruct ctx; eexists _, _; [by apply w_wait_done|by apply w_wait; right].
  - exists (WAdd i r reqs a (some_record r i a)), []. by apply w_exec.
  - destruct (backs_off a) eqn:E; eexists _, _; [by apply w_add_sleep|by apply w_add_next].
  - destruct ctx; eexists _, _; by constructor.
Qed.

(** A state that is not final can move without the context being cancelled. *)
Lemma progress s :
  0 < Traffic_Concurrency (Scenario_Traffic sc) →
  stop_inv s → ¬ final s → ∃ s', step s s' ∧ cancelled s' = cancelled s.
Proof.
  intros Hpos [Hlen Hd] Hnf.
  destruct (decide (Forall (λ w, w = WDone ∨ w = WIdle) (workers s))) as [Hall|Hex].
  2:{ apply not_Forall_Exists, Exists_exists in Hex as (x & Hin & Hx);
        [|intros ?; apply _]. apply list_elem_of_lookup in Hin as [w Hw].
      destruct (wstep_progress (cancelled s) x) as (x' & out & Hs);
        [by intros ->; apply Hx; left|by intros ->; apply Hx; right|].
      eexists. split; [by eapply s_worker|done]. }
  destruct (closed s) eqn:Hc.
  - destruct (decide (Forall (eq WDone) (workers s))) as [Hf|Hf]; [by destruct Hnf|].
    apply not_Forall_Exists, Exists_exists in Hf as (x & Hin & Hx); [|intros ?; apply _].
    rewrite Forall_forall in Hall. destruct (Hall x Hin) as [->| ->]; [done|].
    apply list_elem_of_lookup in Hin as [w Hw]. eexists. split; [by eapply s_range_end|done].
  - destruct (decide (Traffic_Iterations (Scenario_Traffic sc) ≤ next s)) as [Hn|Hn].
    { eexists. split; [by apply s_close|done]. }
    destruct (cancelled s) eqn:Hx.
    { eexists. split; [apply s_producer_done; [done|lia|done]|by simpl]. }
    destruct (workers s) as [|w0 ws] eqn:Hw; [simpl in Hlen; lia|].
    apply Forall_cons in Hall as [[->| ->] _].
    + destruct Hd as [?|?]; [by constructor|done..].
    + eexists. split; [apply (s_send s 0); [done|lia|by rewrite Hw]|by simpl].
Qed.

(** From a reachable state a final one is reached. *)
Lemma reaches_final s :
  0 < Traffic_Concurrency (Scenario_Traffic sc) → rtc step init s →
  ∃ s', rtc step s s' ∧ final s' ∧ cancelled s' = cancelled s.
Proof.
  intros Hpos. remember (measure s) as n eqn:Hn. revert s Hn.
  induction (lt_wf n) as [n _ IH]. intros s -> Hr.
  destruct (decide (closed s = true ∧ Forall (eq WDone) (workers s))) as [Hf|Hf].
  { exists s. split; [constructor|done]. }
  destruct (progress s Hpos (reachable_stop s Hr) Hf) as (s1 & Hs & Hc).
  destruct (IH (measure s1) (step_measure _ _ Hs) s1 eq_refl) as (s' & Hr' & Hfin & Hc').
  { eapply rtc_r; eauto. }
  exists s'. split; [by eapply rtc_l|]. split; [done|congruence].
Qed.

(** ** After a cancellation *)

(** A worker past its last check of the context may still add one record. *)
Definition armed (w : worker) : nat :=
  match w with WWait _ _ _ _ | WExec _ _ _ _ | WAdd _ _ _ _ _ => 1 | _ => 0 end.
Definition potential (s : state) : nat :=
  (length (items s) + sum_list_with armed (workers s))%nat.

Lemma wstep_armed x x' out :
  wstep true x x' out → (length out + armed x' ≤ armed x)%nat.
Proof. inversion 1; simplify_eq; simpl; done || lia. Qed.

Lemma step_potential s s' :
  step s s' → cancelled s = true → cancelled s' = true ∧ (potential s' ≤ potential s)%nat.
Proof.
  intros Hs Hc0.
  destruct Hs as [s Hc|s w x x' out Hw Hx|s w Hc Hn Hw|s Hc Hn Hx|s Hc Hn|s w Hc Hw];
    unfold potential; simpl; try (split; [done|lia]); try congruence; (split; [done|]).
  - rewrite Hc0 in Hx. apply wstep_armed in Hx. rewrite length_app.
    pose proof (sum_list_with_insert armed (workers s) w x x' Hw). lia.
  - pose proof (sum_list_with_insert armed (workers s) w WIdle (WJob (next s)) Hw) as H.
    simpl in H. lia.
  - pose proof (sum_list_with_insert armed (workers s) w WIdle WDone Hw) as H.
    simpl in H. lia.
Qed.

Lemma rtc_potential s s' :
  rtc step s s' → cancelled s = true → (potential s' ≤ potential s)%nat.
Proof.
  induction 1 as [s|s s1 s' Hs _ IH]; intros Hc; [done|].
  destruct (step_potential _ _ Hs Hc) as [Hc1 Hp]. specialize (IH Hc1). lia.
Qed.

(** A run cancelled before its first request ends without a record. *)
Lemma cancelled_empty :
  0 < Traffic_Concurrency (Scenario_Traffic sc) →
  ∃ s, rtc step init s ∧ final s ∧ cancelled s = true ∧ items s = [].
Proof.
  intros Hpos. set (s0 := Build_state true 0 false (workers init) []).
  assert (rtc step init s0) as H0 by (by apply rtc_once, (s_cancel init)).
  destruct (reaches_final s0 Hpos H0) as (s & Hr & Hf & Hc). exists s.
  split; [by etrans|]. split; [done|]. split; [done|].
  apply rtc_potential in Hr; [|done]. unfold potential in Hr. simpl in Hr.
  assert (∀ n, sum_list_with armed (replicate n WIdle) = 0%nat) as Hn by (by induction n).
  rewrite Hn in Hr. destruct (items s); [done|simpl in Hr; lia].
Qed.

(** ** Properties *)

(** C4: in every interleaving, cancelled or not, what has been collected is part
    of the full product iterations x requests x attempts: no attempt is
    collected more often than it occurs there, and nothing else is. *)
Theorem runParallel_safe s :
  rtc step init s → map record_id (items s) ⊆+ full_work.
Proof.
  intros Hr. destruct (reachable_inv s Hr) as (_ & Hsub & _).
  etrans; [|exact Hsub]. unfold pending. by apply submseteq_inserts_r.
Qed.

(** C3: a run of runParallel that returns without having been cancelled has
    collected exactly one record for every attempt of every request in every
    iteration. *)
Theorem runParallel_complete s :
  rtc step init s → final s → cancelled s = false →
  map record_id (items s) ≡ₚ full_work.
Proof.
  intros Hr [Hc Hd] Hx. destruct (reachable_inv s Hr) as (_ & _ & Hp). rewrite <-(Hp Hx).
  unfold pending, unsent. rewrite Hc, app_nil_r.
  assert (concat (map todo (workers s)) = []) as ->; [|by rewrite app_nil_r].
  clear -Hd. induction (workers s) as [|x l IH]; [done|].
  apply Forall_cons in Hd as [<- Hd]. simpl. auto.
Qed.

(** C33: runParallel always returns: every step decreases a measure, so no
    interleaving goes on for ever, and from every reachable state a final one
    is reached (with at least one worker) without needing a cancellation. *)
Theorem runParallel_terminates s :
  0 < Traffic_Concurrency (Scenario_Traffic sc) → rtc step init s →
  (∀ s', step s s' → (measure s' < measure s)%nat)
  ∧ ∃ s', rtc step s s' ∧ final s' ∧ cancelled s' = cancelled s.
Proof. intros Hpos Hr. split; [intros; by apply step_measure|by apply reaches_final]. Qed.

(** C34: cancellation is prompt: once the context is cancelled, at most one more
    record per worker is collected, whatever the scheduler does. *)
Theorem runParallel_cancel_prompt s s' :
  rtc step init s → cancelled s = true → rtc step s s' →
  (length (items s') ≤ length (items s)
                       + Z.to_nat (Traffic_Concurrency (Scenario_Traffic sc)))%nat.
Proof.
  intros Hr Hc Hs. apply rtc_potential in Hs; [|done]. destruct (reachable_stop s Hr) as [Hl _].
  pose proof (sum_list_with_bound armed (workers s)) as Hb. unfold potential in Hs.
  assert (∀ x, armed x ≤ 1)%nat as Ha by (intros []; simpl; lia). specialize (Hb Ha). lia.
Qed.
End Parallel.

(** ** Examples *)
Definition parallel_scenario : Scenario :=
  Build_Scenario 1 "p" "" (Build_Target "" "http://localhost" None)
    (Build_Traffic TrafficLoad 1 1 0 (Build_RetryPolicy 0 0)) [] [sample_request] []
    (Build_Thresholds None None) [].
Definition ping_record : ResponseRecord := some_record sample_request 0 1.

(** One worker, one iteration, one request: up to the moment the record is
    collected, and from there to the end. *)
Definition collected_state : state :=
  Build_state false 1 false [WLoop 0 [sample_request] 2] [ping_record].
Definition finished_state : state := Build_state false 1 true [WDone] [ping_record].

Lemma reach_collected :
  rtc (step parallel_scenario 1 false) (init parallel_scenario) collected_state.
Proof.
  eapply rtc_l; [apply (s_send _ _ _ _ 0); reflexivity|].
  eapply rtc_l; [eapply (s_worker _ _ _ _ 0); [reflexivity|by apply w_job]|].
  eapply rtc_l; [eapply (s_worker _ _ _ _ 0); [reflexivity|by apply w_attempt]|].
  eapply rtc_l; [eapply (s_worker _ _ _ _ 0); [reflexivity|by apply w_wait; right]|].
  eapply rtc_l; [eapply (s_worker _ _ _ _ 0); [reflexivity|by apply w_exec with (rec := ping_record)]|].
  eapply rtc_l; [eapply (s_worker _ _ _ _ 0); [reflexivity|by apply w_add_next]|].
  apply rtc_refl.
Qed.
Lemma reach_finished :
  rtc (step parallel_scenario 1 false) (init parallel_scenario) finished_state.
Proof.
  etrans; [apply reach_collected|].
  eapply rtc_l; [eapply (s_worker _ _ _ _ 0); [reflexivity|by apply w_request_end]|].
  eapply rtc_l; [eapply (s_worker _ _ _ _ 0); [reflexivity|by apply w_iteration_end]|].
  eapply rtc_l; [apply s_close; [reflexivity|done]|].
  eapply rtc_l; [apply (s_range_end _ _ _ _ 0); reflexivity|].
  apply rtc_refl.
Qed.
Definition stopped_state : state :=
  Build_state true 1 false [WLoop 0 [sample_request] 2] [ping_record].
Lemma reach_stopped : rtc (step parallel_scenario 1 false) (init parallel_scenario) stopped_state.
Proof.
  etrans; [apply reach_collected|]. eapply rtc_l; [by apply s_cancel|]. apply rtc_refl.
Qed.

Lemma runParallel_safe_witness :
  map record_id (items collected_state) ⊆+ full_work parallel_scenario 1.
Proof. eapply runParallel_safe. apply reach_collected. Defined.

Lemma runParallel_complete_witness :
  map record_id (items finished_state) ≡ₚ full_work parallel_scenario 1.
Proof.
  eapply runParallel_complete; [apply reach_finished| |reflexivity].
  split; [reflexivity|by repeat constructor].
Defined.

Lemma runParallel_terminates_witness :
  ∃ s', rtc (step parallel_scenario 1 false) collected_state s' ∧ final s'
        ∧ cancelled s' = cancelled collected_state.
Proof.
  destruct (runParallel_terminates parallel_scenario 1 false collected_state) as [_ H].
  - reflexivity.
  - apply reach_collected.
  - exact H.
Defined.

Lemma runParallel_cancel_prompt_witness :
  (length (items stopped_state) ≤ length (items stopped_state) + 1)%nat.
Proof.
  apply (runParallel_cancel_prompt parallel_scenario 1 false stopped_state stopped_state);
    [apply reach_stopped|reflexivity|apply rtc_refl].
Defined.
