(* ===== verification/Race.v ===== *)
(** * Race traffic (src/apps/api/internal/runner/runner.go, runRace)

    [runRace] sends every request of every iteration from [Concurrency] racers
    at once: the racers of a round wait at a start line, and the next round
    begins when all of them have finished.  The main goroutine and the racers
    interleave in the step relation; a select with both cases ready takes
    either. *)

From S2P Require Export Parallel.

Open Scope Z_scope.

(** A racer, with the attempt number its record will carry. *)
Inductive racer :=
| RStart (a : Z)                        (* select ctx.Done() / startLine *)
| RCheck (a : Z)                        (* ctx.Err() *)
| RWait (a : Z)                         (* limiter.wait *)
| RExec (a : Z)                         (* executeRequest *)
| RAdd (a : Z) (rec : ResponseRecord)   (* collector.add *)
| RDone.

#[export] Instance racer_done_dec x : Decision (RDone = x).
Proof. destruct x; first [left; reflexivity|right; discriminate]. Defined.

(** The main goroutine. *)
Inductive race_main :=
| MIter (i : Z)                                     (* head of the outer loop *)
| MReqs (i : Z) (reqs : list Request)               (* head of the inner loop *)
| MSpawn (i : Z) (r : Request) (reqs : list Request)  (* racers spawned, line closed *)
| MWait (i : Z) (r : Request) (reqs : list Request)   (* line open, wg.Wait *)
| MReturn.

Record race_state := {
  rc_cancelled : bool;
  rc_main : race_main;
  rc_racers : list racer;
  rc_items : list ResponseRecord;
}.

Section Race.
Context (sc : Scenario) (limited : bool).

Definition concurrency : nat := Z.to_nat (Traffic_Concurrency (Scenario_Traffic sc)).
Definition iterations : Z := Traffic_Iterations (Scenario_Traffic sc).
Definition spawn : list racer := map (λ k, RStart (k + 1)) (seqZ 0 (Z.of_nat concurrency)).

Definition race_init : race_state := Build_race_state false (MIter 0) [] [].

(** One move of a racer of the round [i], [r]; [line] says the start line is
    open. *)
Inductive rstep (ctx line : bool) (i : Z) (r : Request)
  : racer → racer → list ResponseRecord → Prop :=
| r_start_done a : ctx = true → rstep ctx line i r (RStart a) RDone []
| r_start a : line = true → rstep ctx line i r (RStart a) (RCheck a) []
| r_check_done a : ctx = true → rstep ctx line i r (RCheck a) RDone []
| r_check a : ctx = false → rstep ctx line i r (RCheck a) (RWait a) []
| r_wait_done a : ctx = true → rstep ctx line i r (RWait a) RDone []
| r_wait a : limited = true ∨ ctx = false → rstep ctx line i r (RWait a) (RExec a) []
| r_exec a rec :
    record_id rec = (Request_Name r, i, a) → rstep ctx line i r (RExec a) (RAdd a rec) []
| r_add a rec : rstep ctx line i r (RAdd a rec) RDone [rec].

(** The round whose racers run, and whether its line is open. *)
Definition current_round (m : race_main) : option (Z * Request * bool) :=
  match m with
  | MSpawn i r _ => Some (i, r, false)
  | MWait i r _ => Some (i, r, true)
  | _ => None
  end.

Inductive race_step : race_state → race_state → Prop :=
| rs_cancel m rs items :
    race_step (Build_race_state false m rs items) (Build_race_state true m rs items)
| rs_iterations_end c i rs items :
    iterations ≤ i →
    race_step (Build_race_state c (MIter i) rs items) (Build_race_state c MReturn rs items)
| rs_iteration_cancelled i rs items :
    i < iterations →
    race_step (Build_race_state true (MIter i) rs items) (Build_race_state true MReturn rs items)
| rs_iteration i rs items :
    i < iterations →
    race_step (Build_race_state false (MIter i) rs items)
      (Build_race_state false (MReqs i (Scenario_Requests sc)) rs items)
| rs_requests_end c i rs items :
    race_step (Build_race_state c (MReqs i []) rs items) (Build_race_state c (MIter (i + 1)) rs items)
| rs_request_cancelled i r reqs rs items :
    race_step (Build_race_state true (MReqs i (r :: reqs)) rs items)
      (Build_race_state true MReturn rs items)
| rs_spawn i r reqs rs items :
    race_step (Build_race_state false (MReqs i (r :: reqs)) rs items)
      (Build_race_state false (MSpawn i r reqs) spawn items)
| rs_open c i r reqs rs items :
    race_step (Build_race_state c (MSpawn i r reqs) rs items)
      (Build_race_state c (MWait i r reqs) rs items)
| rs_racer c m rs items i r line w x x' out :
    current_round m = Some (i, r, line) → rs !! w = Some x → rstep c line i r x x' out →
    race_step (Build_race_state c m rs items)
      (Build_race_state c m (<[w:=x']> rs) (items ++ out))
| rs_round_end c i r reqs rs items :
    Forall (eq RDone) rs →
    race_step (Build_race_state c (MWait i r reqs) rs items)
      (Build_race_state c (MReqs i reqs) rs items).

(** ** Rounds *)
Definition round (i : Z) (r : Request) : list attempt_id :=
  map (λ k, (Request_Name r, i, k + 1)) (seqZ 0 (Z.of_nat concurrency)).
Definition rounds_from (i : Z) : list (list attempt_id) :=
  concat (map (λ i, map (round i) (Scenario_Requests sc)) (seqZ i (iterations - i))).
Definition all_rounds : list (list attempt_id) := rounds_from 0.

Definition rest_of (m : race_main) : list (list attempt_id) :=
  match m with
  | MIter i => rounds_from i
  | MReqs i reqs => map (round i) reqs ++ rounds_from (i + 1)
  | MSpawn i r reqs | MWait i r reqs => round i r :: map (round i) reqs ++ rounds_from (i + 1)
  | MReturn => []
  end.

Definition racer_todo (i : Z) (r : Request) (x : racer) : list attempt_id :=
  match x with
  | RStart a | RCheck a | RWait a | RExec a | RAdd a _ => [(Request_Name r, i, a)]
  | RDone => []
  end.
Definition racer_own (i : Z) (r : Request) (x : racer) : Prop :=
  match x with RAdd a rec => record_id rec = (Request_Name r, i, a) | _ => True end.

(** What was collected of a round: all of it, or a part when cancelled. *)
Definition collected (c : bool) (l1 l2 : list attempt_id) : Prop :=
  if c then l1 ⊆+ l2 else l1 ≡ₚ l2.

(** The rounds ran one after the other: [ls] is what the finished ones
    collected, [cur] what the current one has. *)
Record race_inv (s : race_state) : Prop := {
  inv_rounds : ∃ ls cur done rest,
    map record_id (rc_items s) = concat ls ++ cur
    ∧ all_rounds = done ++ rest
    ∧ Forall2 (collected (rc_cancelled s)) ls done
    ∧ (rc_main s ≠ MReturn ∨ rc_cancelled s = false → rest = rest_of (rc_main s))
    ∧ match current_round (rc_main s) with
      | Some (i, r, _) =>
          collected (rc_cancelled s) (cur ++ concat (map (racer_todo i r) (rc_racers s))) (round i r)
          ∧ Forall (racer_own i r) (rc_racers s)
      | None => cur = []
      end;
}.

Lemma collected_perm c l1 l1' l2 : l1 ≡ₚ l1' → collected c l1 l2 → collected c l1' l2.
Proof. intros Hp. unfold collected. destruct c; by rewrite Hp. Qed.
Lemma collected_weaken l1 l2 : collected false l1 l2 → collected true l1 l2.
Proof. unfold collected. by intros ->. Qed.

Lemma rounds_from_head i :
  i < iterations → rounds_from i = map (round i) (Scenario_Requests sc) ++ rounds_from (i + 1).
Proof. intros Hi. unfold rounds_from. rewrite seqZ_cons by lia. simpl. do 4 f_equal; lia. Qed.
Lemma rounds_from_end i : iterations ≤ i → rounds_from i = [].
Proof. intros Hi. unfold rounds_from. by rewrite seqZ_nil by lia. Qed.

Lemma spawn_todo i r :
  concat (map (racer_todo i r) spawn) = round i r ∧ Forall (racer_own i r) spawn.
Proof.
  unfold spawn, round. induction (seqZ 0 (Z.of_nat concurrency)) as [|k l [IH1 IH2]]; simpl;
    [by split|]. rewrite IH1. split; [done|by constructor].
Qed.

Lemma all_done_todo i r rs : Forall (eq RDone) rs → concat (map (racer_todo i r) rs) = [].
Proof. induction 1 as [|x l <- _ IH]; [done|]. simpl. done. Qed.

Lemma rstep_todo c line i r x x' out :
  rstep c line i r x x' out → racer_own i r x →
  racer_own i r x'
  ∧ (map record_id out ++ racer_todo i r x' = racer_todo i r x
     ∨ c = true ∧ out = [] ∧ x' = RDone).
Proof.
  destruct 1; simpl; intros Hx; (split; [done|]); try (by right); left; try done.
  by rewrite Hx.
Qed.

Lemma racer_move_inv c m rs items i r line w x x' out :
  race_inv (Build_race_state c m rs items) →
  current_round m = Some (i, r, line) → rs !! w = Some x → rstep c line i r x x' out →
  race_inv (Build_race_state c m (<[w:=x']> rs) (items ++ out)).
Proof.
  intros [(ls & cur & fin & rest & Hi & Ha & Hf & Hr & Hc)] Hm Hw Hs.
  cbn [rc_items rc_cancelled rc_main rc_racers] in *. rewrite Hm in Hc. destruct Hc as [Hc Hown].
  destruct (rstep_todo _ _ _ _ _ _ _ Hs) as [Hx' Hor]; [by eapply Forall_lookup_1 in Hown|].
  pose proof (concat_map_insert (racer_todo i r) rs w x x' Hw) as Hp.
  constructor. exists ls, (cur ++ map record_id out), fin, rest. cbn. rewrite Hm, map_app, Hi, app_assoc.
  split_and!; try done; [|by apply Forall_insert].
  set (C := concat (map (racer_todo i r) rs)) in *.
  set (C' := concat (map (racer_todo i r) (<[w:=x']> rs))) in *. clearbody C C'.
  destruct Hor as [Ho|(-> & -> & ->)].
  - eapply collected_perm; [|exact Hc]. rewrite <-Ho in Hp.
    rewrite <-app_assoc. apply Permutation_app_head.
    apply (Permutation_app_inv_r (racer_todo i r x')). rewrite <-Hp.
    by rewrite (Permutation_app_comm (map record_id out) C'), app_assoc.
  - simpl in *. rewrite !app_nil_r in *. etrans; [|exact Hc].
    apply submseteq_app; [done|]. rewrite <-Hp. by apply submseteq_inserts_r.
Qed.

Lemma race_step_inv s s' : race_step s s' → race_inv s → race_inv s'.
Proof.
  intros Hs Hinv. destruct Hs as [m rs items|c i rs items Hi|i rs items Hi|i rs items Hi|c i rs items
    |i r reqs rs items|i r reqs rs items|c i r reqs rs items
    |c m rs items i r line w x x' out Hm Hw Hx|c i r reqs rs items Hd];
    [| | | | | | | |by eapply racer_move_inv|];
    destruct Hinv as [(ls & cur & fin & rest & Hit & Ha & Hf & Hr & Hc)]; cbn in *;
    constructor; cbn.
  - exists ls, cur, fin, rest. split_and!; try done.
    + eapply Forall2_impl; [exact Hf|]. apply collected_weaken.
    + intros [Hx|Hx]; [|done]. apply Hr. by right.
    + destruct (current_round m) as [[[i r] line]|]; [|done].
      destruct Hc as [Hc Ho]. split; [by apply collected_weaken|done].
  - exists ls, cur, fin, rest. rewrite (rounds_from_end i) in Hr by done.
    split_and!; try done. intros _. apply Hr. by left.
  - exists ls, cur, fin, rest. split_and!; try done. intros [?|?]; done.
  - exists ls, cur, fin, rest. rewrite (rounds_from_head i) in Hr by done. split_and!; try done. intros _. apply Hr. by left.
  - exists ls, cur, fin, rest. split_and!; try done. intros _. apply Hr. by left.
  - exists ls, cur, fin, rest. split_and!; try done. intros [?|?]; done.
  - exists ls, cur, fin, rest. destruct (spawn_todo i r) as [-> Ho]. subst cur.
    split_and!; try done. intros _. apply Hr. by left.
  - destruct Hc as [Hc Ho]. exists ls, cur, fin, rest. split_and!; try done.
    intros _. apply Hr. by left.
  - destruct Hc as [Hc _]. rewrite (all_done_todo i r rs Hd), app_nil_r in Hc.
    assert (rest = round i r :: map (round i) reqs ++ rounds_from (i + 1)) as -> by (apply Hr; by left).
    exists (ls ++ [cur]), [], (fin ++ [round i r]), (map (round i) reqs ++ rounds_from (i + 1)).
    split_and!; try done.
    + by rewrite concat_app, Hit; simpl; rewrite !app_nil_r.
    + by rewrite <-app_assoc.
    + apply Forall2_app; [done|]. by constructor.
Qed.

Lemma race_reachable_inv s : rtc race_step race_init s → race_inv s.
Proof.
  intros Hr. apply rtc_ind_r with (P := race_inv) in Hr; [done| |].
  - constructor. by exists [], [], [], all_rounds.
  - clear. intros s s' _ Hs. by apply race_step_inv.
Qed.

(** What an uncancelled race has collected when it returns. *)
Lemma race_complete s :
  rtc race_step race_init s → rc_cancelled s = false → rc_main s = MReturn →
  map record_id (rc_items s) ≡ₚ concat all_rounds.
Proof.
  intros [(ls & cur & fin & rest & Hi & Ha & Hf & Hr & Hc)]%race_reachable_inv Hn Hm.
  rewrite Hm in *. rewrite Hr in Ha by auto. cbn in Hc, Ha. subst cur.
  rewrite Hi, Ha, !app_nil_r. rewrite Hn in Hf. clear -Hf.
  induction Hf as [|l1 l2 ls fin H _ IH]; [done|]. cbn. by rewrite H, IH.
Qed.

(** ** Termination and progress *)
Definition racer_weight (x : racer) : nat :=
  match x with RStart _ => 5 | RCheck _ => 4 | RWait _ => 3 | RExec _ => 2 | RAdd _ _ => 1 | RDone => 0 end.
Definition request_weight : nat := (5 * concurrency + 4)%nat.
Definition iteration_weight : nat := (length (Scenario_Requests sc) * request_weight + 2)%nat.
Definition main_weight (m : race_main) : nat :=
  match m with
  | MIter i => Z.to_nat (iterations - i) * iteration_weight + 1
  | MReqs i reqs =>
      Z.to_nat (iterations - (i + 1)) * iteration_weight + 2 + length reqs * request_weight
  | MSpawn i _ reqs =>
      Z.to_nat (iterations - (i + 1)) * iteration_weight + 4 + length reqs * request_weight
  | MWait i _ reqs =>
      Z.to_nat (iterations - (i + 1)) * iteration_weight + 3 + length reqs * request_weight
  | MReturn => 0
  end.
(** The racers of a finished round weigh nothing. *)
Definition race_measure (s : race_state) : nat :=
  (if rc_cancelled s then 0 else 1) + main_weight (rc_main s)
  + match current_round (rc_main s) with
    | Some _ => sum_list_with racer_weight (rc_racers s)
    | None => 0
    end.

Lemma spawn_weight : (sum_list_with racer_weight spawn = 5 * concurrency)%nat.
Proof.
  assert (∀ l, sum_list_with racer_weight (map (λ k, RStart (k + 1)) l) = 5 * length l)%nat as Hl.
  { intros l. induction l as [|k l IH]; simpl; [done|]. rewrite IH. lia. }
  unfold spawn. by rewrite Hl, length_seqZ, Nat2Z.id.
Qed.

Lemma rstep_weight c line i r x x' out :
  rstep c line i r x x' out → (racer_weight x' < racer_weight x)%nat.
Proof. destruct 1; simpl; lia. Qed.

(** [lia] up to products, which it treats as opaque natural numbers. *)
Ltac product_lia :=
  repeat match goal with
  | |- context [(?a * ?b)%nat] => let x := fresh in set (x := (a * b)%nat) in *; clearbody x
  end; lia.

Lemma race_step_measure s s' : race_step s s' → (race_measure s' < race_measure s)%nat.
Proof.
  assert (iteration_weight = length (Scenario_Requests sc) * request_weight + 2)%nat as Hiw by done.
  assert (request_weight = 5 * concurrency + 4)%nat as Hrw by done.
  destruct 1 as [m rs items|c i rs items Hi|i rs items Hi|i rs items Hi|c i rs items
    |i r reqs rs items|i r reqs rs items|c i r reqs rs items
    |c m rs items i r line w x x' out Hm Hw Hx|c i r reqs rs items Hd];
    unfold race_measure; cbn [rc_cancelled rc_main rc_racers main_weight current_round length];
    rewrite ?spawn_weight, ?Nat.mul_succ_l; try product_lia.
  - replace (Z.to_nat (iterations - i)) with (S (Z.to_nat (iterations - (i + 1)))) by lia.
    rewrite Nat.mul_succ_l. product_lia.
  - rewrite Nat.mul_0_l. product_lia.
  - rewrite Hm. apply rstep_weight in Hx.
    pose proof (sum_list_with_insert racer_weight rs w x x' Hw). lia.
Qed.

Lemma rstep_progress c i r x : x ≠ RDone → ∃ x' out, rstep c true i r x x' out.
Proof.
  intros Hx. destruct x as [a|a|a|a|a rec|]; try done.
  - eexists _, _. by apply r_start.
  - destruct c; eexists _, _; [by apply r_check_done|by apply r_check].
  - destruct c; eexists _, _; [by apply r_wait_done|by apply r_wait; right].
  - exists (RAdd a (some_record r i a)), []. by apply r_exec.
  - eexists _, _. constructor.
Qed.

Lemma race_progress s :
  rc_main s ≠ MReturn → ∃ s', race_step s s' ∧ rc_cancelled s' = rc_cancelled s.
Proof.
  destruct s as [c [i|i [|r reqs]|i r reqs|i r reqs|] rs items]; cbn; intros Hm; try done.
  - destruct (decide (iterations ≤ i)) as [Hi|Hi]; [eexists; split; [by constructor|done]|].
    destruct c; eexists; (split; [constructor; lia|done]).
  - eexists. split; [constructor|done].
  - destruct c; eexists; (split; [constructor|done]).
  - eexists. split; [constructor|done].
  - destruct (decide (Forall (eq RDone) rs)) as [Hd|Hd]; [eexists; split; [by constructor|done]|].
    apply not_Forall_Exists, Exists_exists in Hd as (x & Hin & Hx); [|intros ?; apply _].
    apply list_elem_of_lookup in Hin as [w Hw].
    destruct (rstep_progress c i r x) as (x' & out & Hs); [by intros ->|].
    eexists. split; [by eapply rs_racer|done].
Qed.

Lemma race_reaches_return s :
  ∃ s', rtc race_step s s' ∧ rc_main s' = MReturn ∧ rc_cancelled s' = rc_cancelled s.
Proof.
  remember (race_measure s) as n eqn:Hn. revert s Hn.
  induction (lt_wf n) as [n _ IH]. intros s ->.
  assert (Decision (rc_main s = MReturn)) as Hdec
    by (destruct (rc_main s); first [left; reflexivity|right; discriminate]).
  destruct Hdec as [Hm|Hm]; [by exists s|].
  destruct (race_progress s Hm) as (s1 & Hs & Hc).
  destruct (IH (race_measure s1) (race_step_measure _ _ Hs) s1 eq_refl) as (s' & Hr & Hfin & Hc').
  exists s'. split; [by eapply rtc_l|]. split; [done|congruence].
Qed.

(** ** Properties *)


(** RunRace always returns: every step decreases a measure, and from every
    state the main goroutine can be brought to its return. *)
Theorem runRace_terminates s :
  (∀ s', race_step s s' → (race_measure s' < race_measure s)%nat)
  ∧ ∃ s', rtc race_step s s' ∧ rc_main s' = MReturn ∧ rc_cancelled s' = rc_cancelled s.
Proof. split; [intros; by apply race_step_measure|apply race_reaches_return]. Qed.
End Race.

