(* ===== verification/RunEvent.v ===== *)
(** * Run events (src/apps/api/internal/runevent/event.go)

    The event record, its types and levels.  A recorder is a function that takes
    an event; the callers thread the log it extends explicitly. *)

From S2P Require Export Scenario.

Definition TypeRunQueued : string := "run_queued".
Definition TypeRunStarted : string := "run_started".
Definition TypeSetupStarted : string := "setup_started".
Definition TypeSetupCompleted : string := "setup_completed".
Definition TypeTeardownStarted : string := "teardown_started".
Definition TypeTeardownCompleted : string := "teardown_completed".
Definition TypeRequestStarted : string := "request_started".
Definition TypeRequestCompleted : string := "request_completed".
Definition TypeAssertionFailed : string := "assertion_failed".
Definition TypeInvariantFailed : string := "invariant_failed".
Definition TypeThresholdFailed : string := "threshold_failed".
Definition TypeCancelRequested : string := "cancel_requested".
Definition TypeWorkerAttemptStarted : string := "worker_attempt_started".
Definition TypeWorkerAttemptFailed : string := "worker_attempt_failed".
Definition TypeWorkerRetryScheduled : string := "worker_retry_scheduled".
Definition TypeWorkerDeadLettered : string := "worker_dead_lettered".
Definition TypeRunCompleted : string := "run_completed".
Definition TypeRunFailed : string := "run_failed".
Definition TypeRunCanceled : string := "run_canceled".

Definition LevelInfo : string := "info".
Definition LevelWarn : string := "warn".
Definition LevelError : string := "error".

Abbreviation metadata := (gmap string any) (only parsing).

Record Event := {
  Event_ID : string;
  Event_RunID : string;
  Event_Sequence : Z;
  Event_Level : string;
  Event_Type : string;
  Event_Message : string;
  Event_Metadata : option metadata;
  Event_CreatedAt : Time;
}.

(** The composite literal [runevent.Event{Level, Type, Message, Metadata}]. *)
Definition new_event (level type message : string) (md : option metadata) : Event :=
  Build_Event "" "" 0 level type message md zero_time.

(** The literal [map[string]any{...}]. *)
Definition meta (kvs : list (string * any)) : option metadata := Some (list_to_map kvs).

(** The run-life-cycle types: exactly one of the last three ends a run. *)
Definition is_terminal_type (t : string) : bool :=
  string_in t [TypeRunCompleted; TypeRunFailed; TypeRunCanceled].
Definition is_lifecycle_type (t : string) : bool :=
  string_in t [TypeRunQueued; TypeRunStarted] || is_terminal_type t.
