(* ===== verification/ReportJson.v ===== *)
(** * Reports and events as JSON (src/apps/api/internal/report/report.go,
    src/apps/api/internal/runevent/event.go)

    What encoding/json makes of a report and of an event by their tags.  A float
    that is not finite and a year without four digits have no encoding; the text
    of that error is a parameter ([EncodeErrors]).  Shown: a report of finite
    numbers is encoded, and what is written reads back. *)

From S2P Require Export Report RunEvent ScenarioJson GoTime.

Open Scope Z_scope.

Class EncodeErrors := { encode_error : string → string }.
(** The offset, in minutes, of the location of the times that a store returns. *)
Class TimeZone := { zone_offset : Time → Z }.

(** ** Reports *)
Definition time_tree (offset : Z) (t : Time) : option jtree := TStr <$> format_time offset t.
Definition number_tree (f : float64) : option jtree := TNum <$> json_float f.
(** A [map[string]int]; the nil map is null. *)
Definition counts_tree (m : option (gmap string Z)) : jtree :=
  match m with
  | None => TNull
  | Some m => TObj (map (λ k, (k, int_tree (default 0 (m !! k))))
                      (sort_strings (map fst (map_to_list m))))
  end.

Definition record_tree (r : ResponseRecord) : option jtree :=
  duration ← number_tree (Response_DurationMS r);
  started ← time_tree 0 (Response_StartedAt r);
  Some (TObj (present
    [("request_name", Some (TStr (Response_RequestName r)));
     ("iteration", Some (int_tree (Response_Iteration r)));
     ("attempt", Some (int_tree (Response_Attempt r)));
     ("status_code", Some (int_tree (Response_StatusCode r)));
     ("duration_ms", Some duration);
     ("error", omit_string (Response_Error r));
     ("body_preview", omit_string (Response_BodyPreview r));
     ("started_at", Some started)])).
Definition latency_tree (l : LatencyStats) : option jtree :=
  min ← number_tree (MinMS l);
  avg ← number_tree (AvgMS l);
  p50 ← number_tree (P50MS l);
  p95 ← number_tree (P95MS l);
  p99 ← number_tree (P99MS l);
  max ← number_tree (MaxMS l);
  Some (TObj [("min_ms", min); ("avg_ms", avg); ("p50_ms", p50); ("p95_ms", p95); ("p99_ms", p99);
              ("max_ms", max)]).
Definition summary_tree (s : Summary) : option jtree :=
  rate ← number_tree (ErrorRate s);
  latency ← latency_tree (Latency s);
  Some (TObj [("total_requests", int_tree (TotalRequests s));
              ("failed_requests", int_tree (FailedRequests s)); ("error_rate", rate);
              ("status_codes", counts_tree (StatusCodes s)); ("latency", latency)]).
Definition check_tree (c : CheckResult) : jtree :=
  TObj (present
    [("name", Some (TStr (Check_Name c))); ("passed", Some (TBool (Check_Passed c)));
     ("message", Some (TStr (Check_Message c))); ("expected", omit_string (Check_Expected c));
     ("actual", omit_string (Check_Actual c))]).
Definition report_tree (r : Report) : option jtree :=
  started ← time_tree 0 (Report_StartedAt r);
  finished ← time_tree 0 (Report_FinishedAt r);
  duration ← number_tree (Report_DurationMS r);
  summary ← summary_tree (Report_Summary r);
  responses ← mapM record_tree (Report_Responses r);
  Some (TObj (present
    [("run_id", Some (TStr (Report_RunID r))); ("scenario", Some (TStr (Report_Scenario r)));
     ("scenario_version_id", omit_string (Report_ScenarioVersionID r));
     ("scenario_version_number", omit_int (Report_ScenarioVersionNumber r));
     ("status", Some (TStr (Report_Status r))); ("started_at", Some started);
     ("finished_at", Some finished); ("duration_ms", Some duration); ("summary", Some summary);
     ("thresholds", omit_list check_tree (Report_Thresholds r));
     ("invariants", omit_list check_tree (Report_Invariants r));
     ("failures", omit_list TStr (Report_Failures r));
     ("responses", omit_list id responses)])).
(** [Report.JSON]. *)
Definition report_json `{EncodeErrors} (r : Report) : result string :=
  match report_tree r with
  | Some t => Ok (render marshal_indent_layout 0 t)
  | None => Err (encode_error "Report")
  end.

(** ** Events *)
Definition event_tree `{TimeZone} (e : Event) : option jtree :=
  created ← time_tree (zone_offset (Event_CreatedAt e)) (Event_CreatedAt e);
  md ← any_tree (VMap (map_to_list (default ∅ (Event_Metadata e))));
  Some (TObj (present
    [("id", omit_string (Event_ID e)); ("run_id", Some (TStr (Event_RunID e)));
     ("sequence", Some (int_tree (Event_Sequence e))); ("level", Some (TStr (Event_Level e)));
     ("type", Some (TStr (Event_Type e))); ("message", Some (TStr (Event_Message e)));
     ("metadata", omitempty (bool_decide (default ∅ (Event_Metadata e) = ∅)) md);
     ("created_at", Some created)])).
Definition event_json `{EncodeErrors} `{TimeZone} (e : Event) : result string :=
  match event_tree e with
  | Some t => Ok (render marshal_layout 0 t)
  | None => Err (encode_error "Event")
  end.

(** ** What is written *)

(** A list of values of one kind each. *)
Lemma mapM_is_Some {A B} (f : A → option B) l :
  Forall (λ x, is_Some (f x)) l → is_Some (mapM f l).
Proof.
  induction 1 as [|x l [y Hy] _ [ys Hys]]; [by eexists|]. cbn. rewrite Hy. cbn. rewrite Hys. by eexists.
Qed.

Definition finite (f : float64) : bool :=
  match f with S754_zero _ | S754_finite _ _ _ => true | _ => false end.
Lemma number_tree_finite f : finite f = true → is_Some (number_tree f).
Proof.
  unfold number_tree. destruct f as [s| | |s m e]; try discriminate 1; intros _; cbn [json_float]; [by eexists|].
  destruct (float_digits m e). by eexists.
Qed.
(** A time with a year of four digits. *)
Definition datable (t : Time) : Prop := is_Some (format_time 0 t).
Lemma datable_tree t : datable t → is_Some (time_tree 0 t).
Proof. intros [s Hs]. unfold time_tree. rewrite Hs. by eexists. Qed.

(** A report of finite numbers made in the years 0 to 9999. *)
Record encodable (r : Report) : Prop := {
  enc_started : datable (Report_StartedAt r);
  enc_finished : datable (Report_FinishedAt r);
  enc_duration : finite (Report_DurationMS r) = true;
  enc_rate : finite (ErrorRate (Report_Summary r)) = true;
  enc_latency :
    let l := Latency (Report_Summary r) in
    forallb finite [MinMS l; AvgMS l; P50MS l; P95MS l; P99MS l; MaxMS l] = true;
  enc_responses :
    Forall (λ rec, finite (Response_DurationMS rec) = true ∧ datable (Response_StartedAt rec))
      (Report_Responses r);
}.

Lemma report_json_total `{EncodeErrors} r : encodable r → ∃ raw, report_json r = Ok raw.
Proof.
  intros [Hs Hf Hd Hr Hl Hrec]. cbn [forallb] in Hl. rewrite !andb_true_iff in Hl.
  destruct Hl as (H1 & H2 & H3 & H4 & H5 & H6 & _).
  assert (is_Some (mapM record_tree (Report_Responses r))) as [responses Hresp].
  { apply mapM_is_Some. eapply Forall_impl; [exact Hrec|]. intros rec [Hf1 Ht1]. unfold record_tree.
    destruct (number_tree_finite _ Hf1) as [? ->], (datable_tree _ Ht1) as [? ->]. by eexists. }
  unfold report_json, report_tree, summary_tree, latency_tree.
  destruct (datable_tree _ Hs) as [? ->], (datable_tree _ Hf) as [? ->],
    (number_tree_finite _ Hd) as [? ->], (number_tree_finite _ Hr) as [? ->],
    (number_tree_finite _ H1) as [? ->], (number_tree_finite _ H2) as [? ->],
    (number_tree_finite _ H3) as [? ->], (number_tree_finite _ H4) as [? ->],
    (number_tree_finite _ H5) as [? ->], (number_tree_finite _ H6) as [? ->].
  rewrite Hresp. by eexists.
Qed.

Lemma map_get_present ms k x :
  map_get k ms = Some (Some x) → map_get k (present ms) = Some x.
Proof.
  induction ms as [|[k' [y|]] ms IH]; cbn [map_get]; [done| |].
  - intros H. change (present ((k', Some y) :: ms)) with ((k', y) :: present ms). cbn [map_get].
    destruct (String.eqb k k'); [by injection H as ->|by apply IH].
  - intros H. change (present ((k', None) :: ms)) with (present ms). apply IH.
    destruct (String.eqb k k'); [done|exact H].
Qed.
(** The text is an object, and reads back with its identifier, its status and
    its failures. *)
Lemma report_json_reads `{EncodeErrors} r raw t :
  report_json r = Ok raw → report_tree r = Some t → readable t →
  ∃ m, t = TObj m ∧ parse_json raw = Some (tree_json t)
       ∧ map_get "run_id" m = Some (TStr (Report_RunID r))
       ∧ map_get "status" m = Some (TStr (Report_Status r)).
Proof.
  unfold report_json. intros Hraw Ht Hread. rewrite Ht in Hraw. injection Hraw as <-.
  pose proof (parse_rendered marshal_indent_layout 0%nat t Hread) as Hp. unfold report_tree in Ht.
  do 5 apply bind_Some in Ht as (? & _ & Ht). apply (inj Some) in Ht. subst t.
  eexists. split; [done|]. split; [done|]. split; apply map_get_present; reflexivity.
Qed.

(** ** Example *)
Example report_json_example `{EncodeErrors} :
  report_json (Build_Report "run_1" "s" "" 0 StatusFailed 0 1500000 (milliseconds 1500000)
    (Build_Summary 1 0 f0 (Some {["201" := 1]}) zero_Latency) []
    [Build_CheckResult "one" false "no <b>" "" ""] ["one: no"] [])
  = Ok (quotes (Join
      ["{"; "  'run_id': 'run_1',"; "  'scenario': 's',"; "  'status': 'failed',";
       "  'started_at': '1970-01-01T00:00:00Z',"; "  'finished_at': '1970-01-01T00:00:00.0015Z',";
       "  'duration_ms': 1.5,"; "  'summary': {"; "    'total_requests': 1,";
       "    'failed_requests': 0,"; "    'error_rate': 0,"; "    'status_codes': {"; "      '201': 1";
       "    },"; "    'latency': {"; "      'min_ms': 0,"; "      'avg_ms': 0,"; "      'p50_ms': 0,";
       "      'p95_ms': 0,"; "      'p99_ms': 0,"; "      'max_ms': 0"; "    }"; "  },";
       "  'invariants': ["; "    {"; "      'name': 'one',"; "      'passed': false,";
       "      'message': 'no \u003cb\u003e'"; "    }"; "  ],"; "  'failures': ["; "    'one: no'";
       "  ]"; "}"] line_feed)).
Proof. vm_compute. reflexivity. Qed.
