(* ===== verification/Runner.v ===== *)
(** * The runner (src/apps/api/internal/runner/runner.go)

    Requests, checks and the phases of a run.  What happens outside the program
    is an argument: the answers of the HTTP client, the clock, and whether the
    context is cancelled at each point where the code looks ([RequestIO],
    [ControlIO], [ProbeIO]).  The traffic phase is the step relation of
    [Parallel] or [Race]; here it is the list of records it collected.  Events go
    to a list, in the order the code emits them. *)

From S2P Require Export JsonPath Guardrails RunEvent Report GoHttp.
From S2P Require Parallel.

Open Scope Z_scope.

Definition maxBodyPreviewBytes : nat := 4096.

(** ** Events *)

(** [events == nil] drops every event. *)
Definition emitEvent (runID : string) (recording : bool) (level type message : string)
    (md : list (string * any)) : list Event :=
  if recording then [Build_Event "" runID 0 level type message (meta md) zero_time] else [].

Definition hasFailedCheck (checks : list CheckResult) : bool :=
  existsb (λ c, negb (Check_Passed c)) checks.

Definition emitFailedChecks (runID : string) (recording : bool) (checks : list CheckResult)
    (type : string) : list Event :=
  concat (map (λ check,
    if Check_Passed check then []
    else emitEvent runID recording LevelError type (Check_Message check)
           [("check", VString (Check_Name check)); ("expected", VString (Check_Expected check));
            ("actual", VString (Check_Actual check))]) checks).

(** ** Building requests *)
Definition requestBody (req : Request) : option string * string :=
  if (0 <? String.length (Request_JSON req))%nat then (Some (Request_JSON req), "application/json")
  else if negb (String.eqb (Request_Body req) "") then (Some (Request_Body req), "text/plain")
  else (None, "").

Definition containsStatus (statuses : list Z) (status : Z) : bool := existsb (Z.eqb status) statuses.

(** [elapsedMS(startedAt)] when the clock shows [t]. *)
Definition elapsedMS (started t : Time) : float64 := milliseconds (Sub t started).

Record RequestIO := {
  io_started : Time;
  io_done : Time;
  io_reply : HttpRequest → HttpReply;
}.

Section Requests.
Context `{UT : UnicodeTables}.

Definition joinURL (baseURL path : string) : result string :=
  if HasPrefix path "http://" || HasPrefix path "https://" then Ok path
  else
    let! base := Parse baseURL in
    let! rel := Parse path in
    Ok (URL_String (ResolveReference base rel)).

(** The request [executeRequest] sends. *)
Definition build_request (runID : string) (sc : Scenario) (req : Request) (iteration attempt : Z)
  : result HttpRequest :=
  let! targetURL := joinURL (Target_BaseURL (Scenario_Target sc)) (Request_Path req) in
  let '(body, contentType) := requestBody req in
  let! httpReq := NewRequest (Request_Method req) targetURL body in
  let h := Header_SetAll (Target_Headers (Scenario_Target sc)) (hr_Header httpReq) in
  let h := Header_SetAll (Request_Headers req) h in
  let h := if negb (String.eqb contentType "") && String.eqb (Header_Get "Content-Type" h) ""
           then Header_Set "Content-Type" contentType h else h in
  let h := Header_Set "X-Wreckr-Run-ID" runID h in
  let h := Header_Set "X-Wreckr-Scenario" (Scenario_Name sc) h in
  let h := Header_Set "X-Wreckr-Request" (Request_Name req) h in
  let h := Header_Set "X-Wreckr-Iteration" (Itoa iteration) h in
  let h := Header_Set "X-Wreckr-Attempt" (Itoa attempt) h in
  Ok (with_headers httpReq h).

Definition expected_status (req : Request) : list Z := default [] (Request_Status req).

(** The error of a response that was read, empty when it is as expected. *)
Definition status_error (req : Request) (status : Z) : string :=
  if (0 <? length (expected_status req))%nat then
    if containsStatus (expected_status req) status then ""
    else "unexpected status " +:+ Itoa status +:+ ", expected " +:+ format_ints (expected_status req)
  else if 500 <=? status then "server error status " +:+ Itoa status else "".

Definition attempt_meta (req : Request) (iteration attempt : Z) : list (string * any) :=
  [("request", VString (Request_Name req)); ("method", VString (Request_Method req));
   ("path", VString (Request_Path req)); ("iteration", VInt iteration); ("attempt", VInt attempt)].

(** The record, and the events between "started" and "completed". *)
Definition perform_request (runID : string) (sc : Scenario) (req : Request)
    (iteration attempt : Z) (recording : bool) (io : RequestIO) : ResponseRecord * list Event :=
  let record status err preview :=
    Build_ResponseRecord (Request_Name req) iteration attempt status
      (elapsedMS (io_started io) (io_done io)) err preview (io_started io) in
  match build_request runID sc req iteration attempt with
  | Err m => (record 0 m "", [])
  | Ok httpReq =>
      match io_reply io httpReq with
      | DoError m => (record 0 m "", [])
      | Response status body read_error =>
          let '(raw, readErr) := read_limited (maxBodyPreviewBytes + 1) body read_error in
          let preview := string_take maxBodyPreviewBytes raw in
          match readErr with
          | Some m => (record status m preview, [])
          | None =>
              let err := status_error req status in
              (record status err preview,
               if (0 <? length (expected_status req))%nat && negb (String.eqb err "")
               then emitEvent runID recording LevelError TypeAssertionFailed err
                      [("request", VString (Request_Name req)); ("iteration", VInt iteration);
                       ("attempt", VInt attempt); ("expected", VInts (expected_status req));
                       ("actual", VInt status); ("status_code", VInt status)]
               else [])
          end
      end
  end.

Definition executeRequest (runID : string) (sc : Scenario) (req : Request) (iteration attempt : Z)
    (recording : bool) (io : RequestIO) : ResponseRecord * list Event :=
  let '(record, events) := perform_request runID sc req iteration attempt recording io in
  let completed := attempt_meta req iteration attempt
    ++ [("status_code", VInt (Response_StatusCode record));
        ("duration_ms", VFloat (Response_DurationMS record))]
    ++ (if String.eqb (Response_Error record) "" then []
        else [("error", VString (Response_Error record))]) in
  (record,
   emitEvent runID recording LevelInfo TypeRequestStarted "request started"
     (attempt_meta req iteration attempt)
   ++ events
   ++ emitEvent runID recording LevelInfo TypeRequestCompleted "request completed" completed).

(** ** Setup and teardown *)

(** One turn of the loop: the context and the limiter as it finds them. *)
Record ControlIO := {
  cio_cancelled : bool;     (* ctx.Err() != nil *)
  cio_admitted : bool;      (* limiter.wait(ctx) *)
  cio_request : RequestIO;
}.

Definition controlMessage (passed : bool) (record : ResponseRecord) : string :=
  if passed then "passed with status " +:+ Itoa (Response_StatusCode record)
  else if negb (String.eqb (Response_Error record) "") then Response_Error record
  else "failed with status " +:+ Itoa (Response_StatusCode record).
Definition controlActual (record : ResponseRecord) : string :=
  if negb (String.eqb (Response_Error record) "") then Response_Error record
  else Itoa (Response_StatusCode record).

Definition control_check (phase : string) (req : Request) (record : ResponseRecord) : CheckResult :=
  let passed := String.eqb (Response_Error record) "" in
  Build_CheckResult (phase +:+ ":" +:+ Request_Name req) passed (controlMessage passed record)
    "request succeeds" (controlActual record).

Fixpoint control_loop (runID : string) (sc : Scenario) (phase : string) (recording : bool)
    (requests : list Request) (io : nat → ControlIO)
  : list ResponseRecord * list CheckResult * list Event :=
  match requests with
  | [] => ([], [], [])
  | req :: rest =>
      if cio_cancelled (io 0%nat) then ([], [], [])
      else if negb (cio_admitted (io 0%nat)) then ([], [], [])
      else
        let '(record, events) :=
          executeRequest runID sc req (-1) 1 recording (cio_request (io 0%nat)) in
        let check := control_check phase req record in
        if negb (Check_Passed check) then ([record], [check], events)
        else
          let '(records, checks, more) :=
            control_loop runID sc phase recording rest (λ n, io (S n)) in
          (record :: records, check :: checks, events ++ more)
  end.

Definition runControlRequests (runID : string) (sc : Scenario) (phase : string)
    (requests : list Request) (recording : bool) (io : nat → ControlIO)
  : list ResponseRecord * list CheckResult * list Event :=
  if (length requests =? 0)%nat then ([], [], [])
  else
    let '(startType, completedType) :=
      if String.eqb phase "teardown" then (TypeTeardownStarted, TypeTeardownCompleted)
      else (TypeSetupStarted, TypeSetupCompleted) in
    let '(records, checks, events) := control_loop runID sc phase recording requests io in
    let passed := negb (hasFailedCheck checks) in
    (records, checks,
     emitEvent runID recording LevelInfo startType (phase +:+ " started")
       [("requests", VInt (Z.of_nat (length requests)))]
     ++ events
     ++ emitEvent runID recording (if passed then LevelInfo else LevelError) completedType
          (phase +:+ " completed")
          [("requests", VInt (Z.of_nat (length records))); ("passed", VBool passed)]).
End Requests.

(** ** Thresholds *)
Definition comparisonMessage (passed : bool) (actual : float64) (op : string) (expected : float64)
  : string :=
  if passed then "passed: " +:+ format_fixed 4 actual +:+ " " +:+ op +:+ " " +:+ format_fixed 4 expected
  else "failed: " +:+ format_fixed 4 actual +:+ " is not " +:+ op +:+ " " +:+ format_fixed 4 expected.

Definition error_rate_check (summary : Summary) (limit : float64) : CheckResult :=
  let passed := fleb (ErrorRate summary) limit in
  Build_CheckResult "max_error_rate" passed
    (comparisonMessage passed (ErrorRate summary) "<=" limit)
    ("<= " +:+ format_fixed 4 limit) (format_fixed 4 (ErrorRate summary)).
Definition p95_check (summary : Summary) (limit : float64) : CheckResult :=
  let p95 := P95MS (Latency summary) in
  let passed := fleb p95 limit in
  Build_CheckResult "p95_ms" passed (comparisonMessage passed p95 "<=" limit)
    ("<= " +:+ format_fixed 1 limit +:+ "ms") (format_fixed 1 p95 +:+ "ms").

Definition evaluateThresholds (sc : Scenario) (records : list ResponseRecord)
  : option (list CheckResult) :=
  summary ← Summarize records;
  Some (match Thresholds_MaxErrorRate (Scenario_Thresholds sc) with
        | Some limit => [error_rate_check summary limit]
        | None => []
        end
        ++ match Thresholds_P95MS (Scenario_Thresholds sc) with
           | Some limit => [p95_check summary limit]
           | None => []
           end).

(** ** Invariants *)
Definition countMessage (passed : bool) (actual : Z) (expected : list string) : string :=
  if passed then "passed: observed " +:+ Itoa actual
  else "failed: observed " +:+ Itoa actual +:+ ", expected " +:+ Join expected ", ".

(** A record the invariant counts. *)
Definition counts (inv : Invariant) (record : ResponseRecord) : bool :=
  (String.eqb (Invariant_Request inv) ""
   || String.eqb (Response_RequestName record) (Invariant_Request inv))
  && match Invariant_Status inv with
     | Some status => Response_StatusCode record =? status
     | None => true
     end.

Definition evaluateResponseCount (inv : Invariant) (records : list ResponseRecord) : CheckResult :=
  let count := Z.of_nat (length (List.filter (counts inv) records)) in
  let bound (o : option Z) (test : Z → bool) (text : string) : bool * list string :=
    match o with Some n => (test n, [text +:+ " " +:+ Itoa n]) | None => (true, []) end in
  let '(p1, e1) := bound (Invariant_Equals inv) (λ n, count =? n) "equals" in
  let '(p2, e2) := bound (Invariant_Min inv) (λ n, n <=? count) ">=" in
  let '(p3, e3) := bound (Invariant_Max inv) (λ n, count <=? n) "<=" in
  let passed := p1 && p2 && p3 in
  let expected := e1 ++ e2 ++ e3 in
  Build_CheckResult (Invariant_Name inv) passed (countMessage passed count expected)
    (Join expected ", ") (Itoa count).

Definition valuesEqual (actual expected : any) : bool :=
  let close a b := fltb (fabs (fsub a b)) (float_dec 1 6) in
  match actual, expected with
  | VFloat a, VFloat e => close a e
  | VFloat a, VInt e => close a (float_of_int e)
  | _, _ => String.eqb (format_v actual) (format_v expected)
  end.

Definition valueMessage (passed : bool) (actual expected : any) : string :=
  if passed then "passed: observed " +:+ format_v actual
  else "failed: observed " +:+ format_v actual +:+ ", expected " +:+ format_v expected.

Definition failedInvariant (name message : string) : CheckResult :=
  Build_CheckResult name false message "" "".

Record ProbeIO := {
  pio_admitted : bool;             (* limiter.wait(ctx) *)
  pio_ctx_error : string;          (* ctx.Err().Error() when it is not *)
  pio_reply : HttpRequest → HttpReply;
}.

Section Run.
Context `{UT : UnicodeTables} `{JE : JsonErrors}.

Definition build_probe (runID : string) (sc : Scenario) (inv : Invariant) : result HttpRequest :=
  let! targetURL := joinURL (Target_BaseURL (Scenario_Target sc)) (Invariant_Path inv) in
  let! req := NewRequest (Invariant_Method inv) targetURL None in
  let h := Header_SetAll (Target_Headers (Scenario_Target sc)) (hr_Header req) in
  let h := Header_SetAll (Invariant_Headers inv) h in
  let h := Header_Set "X-Wreckr-Run-ID" runID h in
  let h := Header_Set "X-Wreckr-Scenario" (Scenario_Name sc) h in
  let h := Header_Set "X-Wreckr-Probe" (Invariant_Name inv) h in
  Ok (with_headers req h).

Definition evaluateHTTPProbe (runID : string) (sc : Scenario) (inv : Invariant) (io : ProbeIO)
  : CheckResult :=
  let failed := failedInvariant (Invariant_Name inv) in
  match build_probe runID sc inv with
  | Err m => failed m
  | Ok req =>
      if negb (pio_admitted io) then failed (pio_ctx_error io)
      else
        match pio_reply io req with
        | DoError m => failed m
        | Response status body read_error =>
            match read_limited (maxBodyPreviewBytes + 1) body read_error with
            | (_, Some m) => failed m
            | (raw, None) =>
                if 400 <=? status then failed ("probe returned status " +:+ Itoa status)
                else
                  match LookupJSONPath raw (ProbeExpectation_JSONPath (Invariant_Expect inv)) with
                  | Err m => failed m
                  | Ok None =>
                      failed ("json path " +:+ ProbeExpectation_JSONPath (Invariant_Expect inv)
                              +:+ " was not found")
                  | Ok (Some got) =>
                      let expected := ProbeExpectation_Equals (Invariant_Expect inv) in
                      let passed := valuesEqual got expected in
                      Build_CheckResult (Invariant_Name inv) passed
                        (valueMessage passed got expected) (format_v expected) (format_v got)
                  end
            end
        end
  end.

Definition evaluateInvariants (runID : string) (sc : Scenario) (records : list ResponseRecord)
    (io : nat → ProbeIO) : list CheckResult :=
  concat (imap (λ n inv,
    if String.eqb (Invariant_Type inv) "response_count" then [evaluateResponseCount inv records]
    else if String.eqb (Invariant_Type inv) "http_probe"
         then [evaluateHTTPProbe runID sc inv (io n)]
    else []) (Scenario_Invariants sc)).

(** ** A run *)
Record RunOptions := { Options_RunID : string; Options_Events : bool }.

Record RunEnv := {
  run_env : string → string;               (* os.Getenv *)
  run_started : Time;
  run_finished : Time;                     (* the clock of report.Build *)
  run_new_id : Time;                       (* the clock of newRunID *)
  run_setup : nat → ControlIO;
  run_traffic : list ResponseRecord * list Event;   (* what the traffic phase collects *)
  run_probes : nat → ProbeIO;
  run_teardown : nat → ControlIO;
}.

Definition newRunID (now : Time) : string := "run_" +:+ Itoa now.

(** The number of attempts the traffic phase is given. *)
Definition traffic_attempts (sc : Scenario) : Z :=
  if String.eqb (Traffic_Type (Scenario_Traffic sc)) TrafficRetryStorm
  then Z.max 1 (RetryPolicy_Attempts (Traffic_Retry (Scenario_Traffic sc))) else 1.

(** [newRequestLimiter]: the interval of the ticker, when there is one. *)
Definition limiter_interval (ratePerSecond : Z) : option Z :=
  if ratePerSecond <=? 0 then None
  else let interval := Z.quot Second ratePerSecond in
       Some (if interval <=? 0 then 1 else interval).

Definition RunWithOptions (e : RunEnv) (sc : Scenario) (opts : RunOptions)
  : option (result Report * list Event) :=
  let sc := prepare (run_env e) sc in
  match Validate sc with
  | Some m => Some (Err m, [])
  | None =>
      let recording := Options_Events opts in
      let runID := if String.eqb (Options_RunID opts) "" then newRunID (run_new_id e)
                   else Options_RunID opts in
      let '(setupRecords, setupChecks, ev1) :=
        runControlRequests runID sc "setup" (Scenario_Setup sc) recording (run_setup e) in
      if hasFailedCheck setupChecks then
        rep ← Build (run_finished e) runID (Scenario_Name sc) (run_started e) setupRecords
                setupChecks [];
        Some (Ok rep, ev1)
      else
        let '(records, ev2) := run_traffic e in
        thresholds ← evaluateThresholds sc records;
        let ev3 := emitFailedChecks runID recording thresholds TypeThresholdFailed in
        let invariants := evaluateInvariants runID sc records (run_probes e) in
        let ev4 := emitFailedChecks runID recording invariants TypeInvariantFailed in
        let '(teardownRecords, teardownChecks, ev5) :=
          runControlRequests runID sc "teardown" (Scenario_Teardown sc) recording (run_teardown e) in
        let '(records, thresholds) :=
          if hasFailedCheck teardownChecks
          then (records ++ teardownRecords, thresholds ++ teardownChecks)
          else (records, thresholds) in
        rep ← Build (run_finished e) runID (Scenario_Name sc) (run_started e) records thresholds
                invariants;
        Some (Ok rep, ev1 ++ ev2 ++ ev3 ++ ev4 ++ ev5)
  end.

(** [Run]. *)
Definition Run (e : RunEnv) (sc : Scenario) : option (result Report * list Event) :=
  RunWithOptions e sc (Build_RunOptions "" false).
End Run.

(** ** Lemmas *)

Definition hasFailedCheck_false_iff (checks : list CheckResult) : Prop :=
  ∀ c, c ∈ checks → Check_Passed c = true.
Lemma hasFailedCheck_spec checks : hasFailedCheck checks = false ↔ hasFailedCheck_false_iff checks.
Proof.
  unfold hasFailedCheck, hasFailedCheck_false_iff.
  rewrite <-not_true_iff_false, existsb_true. split.
  - intros H c Hc. destruct (Check_Passed c) eqn:E; [done|]. destruct H. exists c. by rewrite E.
  - intros H (c & Hc & Hn). by rewrite (H c Hc) in Hn.
Qed.

(** The types a runner emits are never those with which the store tells the life
    of a run. *)
Definition foreign (e : Event) : Prop := is_terminal_type (Event_Type e) = false
  ∧ is_lifecycle_type (Event_Type e) = false ∧ Event_Type e ≠ TypeCancelRequested.

Lemma emitEvent_foreign runID b level type msg md :
  is_lifecycle_type type = false → type ≠ TypeCancelRequested →
  Forall foreign (emitEvent runID b level type msg md).
Proof.
  intros Hl Hc. unfold emitEvent. destruct b; [|constructor]. constructor; [|constructor].
  unfold foreign. simpl. unfold is_lifecycle_type in *. apply orb_false_iff in Hl as [H1 H2].
  by rewrite H1, H2.
Qed.

Lemma emitFailedChecks_foreign runID b checks type :
  is_lifecycle_type type = false → type ≠ TypeCancelRequested →
  Forall foreign (emitFailedChecks runID b checks type).
Proof.
  intros Hl Hc. unfold emitFailedChecks. induction checks as [|c checks IH]; simpl; [constructor|].
  apply Forall_app_2; [|done]. destruct (Check_Passed c); [constructor|]. by apply emitEvent_foreign.
Qed.

Section RequestLemmas.
Context `{UT : UnicodeTables}.

Lemma url_error_nonempty u m : url_error u m ≠ "".
Proof. done. Qed.
Lemma Parse_error_nonempty s m : Parse s = Err m → m ≠ "".
Proof.
  unfold Parse. destruct (Cut s _) as [[u frag] b]. destruct (parse_url u); [|by intros [= <-]].
  destruct (String.eqb frag ""); [done|]. destruct (unescape _ _); [done|by intros [= <-]].
Qed.
Lemma joinURL_error_nonempty base path m : joinURL base path = Err m → m ≠ "".
Proof.
  unfold joinURL. destruct (_ || _); [done|]. destruct (Parse base) eqn:E1; simpl.
  - destruct (Parse path) eqn:E2; simpl; [done|]. intros [= <-]. by eapply Parse_error_nonempty.
  - intros [= <-]. by eapply Parse_error_nonempty.
Qed.
Lemma NewRequest_error_nonempty method url body m : NewRequest method url body = Err m → m ≠ "".
Proof.
  unfold NewRequest. destruct (negb (validMethod _)); [by intros [= <-]|].
  destruct (Parse url) eqn:E; simpl; [done|]. intros [= <-]. by eapply Parse_error_nonempty.
Qed.
Lemma build_request_error_nonempty runID sc req i a m :
  build_request runID sc req i a = Err m → m ≠ "".
Proof.
  unfold build_request. destruct (joinURL _ _) eqn:E1; simpl;
    [|intros [= <-]; by eapply joinURL_error_nonempty].
  destruct (requestBody req) as [body ct]. destruct (NewRequest _ _ _) eqn:E2; simpl; [done|].
  intros [= <-]. by eapply NewRequest_error_nonempty.
Qed.

(** A status the request accepts. *)
Definition status_ok (req : Request) (status : Z) : Prop :=
  match expected_status req with [] => status < 500 | l => status ∈ l end.

Lemma containsStatus_spec l status : containsStatus l status = true ↔ status ∈ l.
Proof.
  unfold containsStatus. rewrite existsb_true. setoid_rewrite Z.eqb_eq. naive_solver.
Qed.
Lemma status_error_spec req status : status_error req status = "" ↔ status_ok req status.
Proof.
  unfold status_error, status_ok. destruct (expected_status req) as [|s l] eqn:E.
  - simpl. destruct (Z.leb_spec 500 status); split; (done || lia).
  - change (0 <? length (s :: l))%nat with true. cbv iota. rewrite <-containsStatus_spec.
    by destruct (containsStatus (s :: l) status).
Qed.

(** The client's errors have a text (as all errors of net/http have). *)
Definition replies_with_text (io : RequestIO) : Prop :=
  ∀ r, match io_reply io r with
       | DoError m => m ≠ ""
       | Response _ _ (Some m) => m ≠ ""
       | _ => True
       end.

Definition answered (runID : string) (sc : Scenario) (req : Request) (i a : Z) (io : RequestIO)
    (status : Z) : Prop :=
  ∃ hreq body rerr, build_request runID sc req i a = Ok hreq
    ∧ io_reply io hreq = Response status body rerr
    ∧ snd (read_limited (maxBodyPreviewBytes + 1) body rerr) = None.

Lemma perform_request_spec runID sc req i a b io :
  let record := fst (perform_request runID sc req i a b io) in
  Response_RequestName record = Request_Name req ∧ Response_Iteration record = i
  ∧ Response_Attempt record = a
  ∧ (String.length (Response_BodyPreview record) ≤ maxBodyPreviewBytes)%nat
  ∧ (replies_with_text io →
     Response_Error record = "" ↔
     ∃ status, answered runID sc req i a io status ∧ status_ok req status
               ∧ Response_StatusCode record = status).
Proof.
  assert (∀ s, String.length (string_take maxBodyPreviewBytes s) ≤ maxBodyPreviewBytes)%nat as Ht.
  { intros s. generalize maxBodyPreviewBytes. intros n. revert s.
    induction n as [|n IH]; intros [|c s]; simpl; [lia..|]. specialize (IH s). lia. }
  unfold perform_request, answered.
  destruct (build_request runID sc req i a) as [hreq|m] eqn:Eb.
  2:{ cbn [fst Response_RequestName Response_Iteration Response_Attempt Response_BodyPreview
           Response_Error Response_StatusCode].
      split_and!; [done..|simpl; lia|]. intros _. apply build_request_error_nonempty in Eb.
      split; [done|]. by intros (st & (h & bd & r & ? & _) & _). }
  destruct (io_reply io hreq) as [m|status body rerr] eqn:Er.
  { cbn [fst Response_RequestName Response_Iteration Response_Attempt Response_BodyPreview
         Response_Error Response_StatusCode].
    split_and!; [done..|simpl; lia|]. intros Hio. specialize (Hio hreq). rewrite Er in Hio.
    split; [done|]. intros (st & (h & bd & r & [= <-] & Hr & _) & _). congruence. }
  destruct (read_limited (maxBodyPreviewBytes + 1) body rerr) as [raw [m|]] eqn:El;
    cbn [fst Response_RequestName Response_Iteration Response_Attempt Response_BodyPreview
         Response_Error Response_StatusCode]; (split_and!; [done..|apply Ht|]); intros Hio.
  - specialize (Hio hreq). rewrite Er in Hio.
    assert (rerr = Some m) as -> by (unfold read_limited in El; destruct (_ <=? _)%nat; congruence).
    split; [done|]. intros (st & (h & bd & r & [= <-] & Hr & Hn) & _).
    rewrite Er in Hr. injection Hr as <- <- <-. by rewrite El in Hn.
  - rewrite status_error_spec. split.
    + intros Hok. exists status. split_and!; [|done|done]. exists hreq, body, rerr. by rewrite El.
    + intros (st & (h & bd & r & [= <-] & Hr & Hn) & Hok & _). congruence.
Qed.

Lemma executeRequest_record runID sc req i a b io :
  fst (executeRequest runID sc req i a b io) = fst (perform_request runID sc req i a b io).
Proof. unfold executeRequest. by destruct (perform_request _ _ _ _ _ _ _). Qed.

Lemma perform_request_foreign runID sc req i a b io :
  Forall foreign (snd (perform_request runID sc req i a b io)).
Proof.
  unfold perform_request. destruct (build_request _ _ _ _ _) as [hreq|m]; [|constructor].
  destruct (io_reply io hreq) as [m|status body rerr]; [constructor|].
  destruct (read_limited _ _ _) as [raw [m|]]; [constructor|]. cbn [snd].
  destruct (_ && _); [by apply emitEvent_foreign|constructor].
Qed.
Lemma executeRequest_foreign runID sc req i a b io :
  Forall foreign (snd (executeRequest runID sc req i a b io)).
Proof.
  unfold executeRequest. pose proof (perform_request_foreign runID sc req i a b io) as H.
  destruct (perform_request _ _ _ _ _ _ _) as [record events]. cbn [snd] in *.
  repeat apply Forall_app_2; [by apply emitEvent_foreign|done|by apply emitEvent_foreign].
Qed.

Lemma control_loop_spec runID sc phase b requests io :
  let '(records, checks, events) := control_loop runID sc phase b requests io in
  length checks = length records
  ∧ map Response_RequestName records = map Request_Name (take (length records) requests)
  ∧ map Check_Passed checks = map (λ r, String.eqb (Response_Error r) "") records
  ∧ (∀ n c, checks !! n = Some c → Check_Passed c = false → S n = length checks)
  ∧ (hasFailedCheck checks = false →
     (∀ n, cio_cancelled (io n) = false ∧ cio_admitted (io n) = true) →
     length records = length requests)
  ∧ Forall foreign events.
Proof.
  revert io. induction requests as [|req rest IH]; intros io; simpl; [by split_and!|].
  destruct (cio_cancelled (io 0%nat)) eqn:Ec.
  { split_and!; try done. intros _ H. destruct (H 0%nat). congruence. }
  destruct (cio_admitted (io 0%nat)) eqn:Ea; simpl.
  2:{ split_and!; try done. intros _ H. destruct (H 0%nat). congruence. }
  pose proof (executeRequest_foreign runID sc req (-1) 1 b (cio_request (io 0%nat))) as Hf.
  pose proof (perform_request_spec runID sc req (-1) 1 b (cio_request (io 0%nat))) as (Hn & _).
  rewrite <-executeRequest_record in Hn.
  destruct (executeRequest _ _ _ _ _ _ _) as [record events]. cbn [fst snd] in Hn, Hf.
  destruct (String.eqb (Response_Error record) "") eqn:Ee; simpl.
  2:{ rewrite Ee, Hn. split_and!; try done. intros [|n] c [= <-] _. done. }
  specialize (IH (λ n, io (S n))).
  destruct (control_loop _ _ _ _ rest _) as [[records checks] more].
  destruct IH as (H1 & H2 & H3 & H4 & H5 & H6). simpl.
  rewrite Ee, H1, Hn, H2, H3. split_and!; try done.
  - intros [|n] c Hc Hp; simpl in Hc; [injection Hc as <-; simpl in Hp; congruence|].
    rewrite <-H1. f_equal. by apply (H4 n c).
  - intros Hh Hio. f_equal. apply H5; [done|]. intros n. apply (Hio (S n)).
  - by apply Forall_app_2.
Qed.

Lemma runControlRequests_foreign runID sc phase requests b io :
  Forall foreign (snd (runControlRequests runID sc phase requests b io)).
Proof.
  unfold runControlRequests. destruct (_ =? 0)%nat; [constructor|].
  pose proof (control_loop_spec runID sc phase b requests io) as H.
  destruct (control_loop _ _ _ _ _ _) as [[records checks] events].
  destruct H as (_ & _ & _ & _ & _ & Hf).
  destruct (String.eqb phase "teardown"); cbn [snd];
    repeat apply Forall_app_2; try done; by apply emitEvent_foreign.
Qed.

Lemma runControlRequests_length runID sc phase requests b io :
  (length (fst (fst (runControlRequests runID sc phase requests b io))) ≤ length requests)%nat.
Proof.
  unfold runControlRequests. destruct (_ =? 0)%nat; [simpl; lia|].
  pose proof (control_loop_spec runID sc phase b requests io) as H.
  destruct (control_loop _ _ _ _ _ _) as [[records checks] events].
  destruct H as (_ & Hm & _). destruct (String.eqb phase "teardown"); cbn [fst];
    apply (f_equal length) in Hm; rewrite !length_map, length_take in Hm; lia.
Qed.
End RequestLemmas.

(** ** The run as a whole *)
Section RunLemmas.
Context `{UT : UnicodeTables} `{JE : JsonErrors}.

Lemma Summarize_some records : Z.of_nat (length records) ≤ 2 ^ 53 → is_Some (Summarize records).
Proof.
  intros Hl. destruct (decide (records = [])) as [->|Hne]; [by eexists|].
  destruct (Summarize_total_spec records Hne Hl) as (s & -> & _). by eexists.
Qed.

Lemma evaluateThresholds_some sc records :
  Z.of_nat (length records) ≤ 2 ^ 53 → is_Some (evaluateThresholds sc records).
Proof.
  intros Hl. unfold evaluateThresholds. destruct (Summarize_some records Hl) as [s ->]. by eexists.
Qed.

(** What the traffic and what follows decide about the report. *)
Definition run_checks (e : RunEnv) (sc : Scenario) (runID : string) (recording : bool)
    (thresholds : list CheckResult) : list CheckResult :=
  thresholds
  ++ evaluateInvariants runID sc (fst (run_traffic e)) (run_probes e)
  ++ snd (fst (runControlRequests runID sc "teardown" (Scenario_Teardown sc) recording
                 (run_teardown e))).

Definition run_id (e : RunEnv) (opts : RunOptions) : string :=
  if String.eqb (Options_RunID opts) "" then newRunID (run_new_id e) else Options_RunID opts.

(** The phases fit: the run keeps below [2^53] records. *)
Definition small_run (e : RunEnv) (sc : Scenario) : Prop :=
  Z.of_nat (length (Scenario_Setup sc)) ≤ 2 ^ 53
  ∧ Z.of_nat (length (fst (run_traffic e)) + length (Scenario_Teardown sc)) ≤ 2 ^ 53.

Definition setup_of (e : RunEnv) (sc : Scenario) (opts : RunOptions)
  : list ResponseRecord * list CheckResult * list Event :=
  runControlRequests (run_id e opts) sc "setup" (Scenario_Setup sc) (Options_Events opts)
    (run_setup e).

Lemma run_verdict_spec e sc opts :
  let sc' := prepare (run_env e) sc in
  Validate sc' = None → small_run e sc' →
  hasFailedCheck (snd (fst (setup_of e sc' opts))) = false →
  ∃ ths rep evs,
    evaluateThresholds sc' (fst (run_traffic e)) = Some ths
    ∧ RunWithOptions e sc opts = Some (Ok rep, evs)
    ∧ (Report_Status rep = StatusPassed ∨ Report_Status rep = StatusFailed)
    ∧ (Report_Status rep = StatusPassed ↔
         (∀ r, r ∈ fst (run_traffic e) → Response_Error r = "")
         ∧ (∀ c, c ∈ run_checks e sc' (run_id e opts) (Options_Events opts) ths →
              Check_Passed c = true))
    ∧ (Forall foreign (snd (run_traffic e)) → Forall foreign evs)
    ∧ Report_Invariants rep
      = evaluateInvariants (run_id e opts) sc' (fst (run_traffic e)) (run_probes e).
Proof.
  intros sc' Hv [_ Hsmall] Hsetup. unfold RunWithOptions. fold sc'. rewrite Hv.
  fold (run_id e opts). unfold setup_of in Hsetup.
  pose proof (runControlRequests_foreign (run_id e opts) sc' "setup" (Scenario_Setup sc')
                (Options_Events opts) (run_setup e)) as Hf1.
  destruct (runControlRequests _ sc' "setup" _ _ _) as [[srec schk] ev1].
  cbn [fst snd] in Hsetup, Hf1. rewrite Hsetup.
  unfold run_checks.
  pose proof (runControlRequests_foreign (run_id e opts) sc' "teardown" (Scenario_Teardown sc')
                (Options_Events opts) (run_teardown e)) as Hf5.
  pose proof (runControlRequests_length (run_id e opts) sc' "teardown" (Scenario_Teardown sc')
                (Options_Events opts) (run_teardown e)) as Hl5.
  destruct (runControlRequests _ sc' "teardown" _ _ _) as [[trec tchk] ev5].
  cbn [fst snd] in Hf5, Hl5 |- *. destruct (run_traffic e) as [records ev2]. cbn [fst snd] in *.
  destruct (evaluateThresholds_some sc' records) as [ths Hths]; [lia|]. rewrite Hths.
  cbn [mbind option_bind]. set (invs := evaluateInvariants _ sc' records _).
  set (fr := if hasFailedCheck tchk then (records ++ trec, ths ++ tchk) else (records, ths)).
  destruct (Build_verdict_spec (run_finished e) (run_id e opts) (Scenario_Name sc') (run_started e)
              fr.1 fr.2 invs) as (rep & Hrep & Hst & Hpass & _ & _ & _ & Hinv & _).
  { unfold fr. destruct (hasFailedCheck tchk); simpl; rewrite ?length_app; lia. }
  exists ths, rep. eexists. split; [done|]. rewrite (surjective_pairing fr), Hrep. cbn [mbind option_bind].
  split; [done|]. split; [done|]. split.
  - rewrite Hpass. unfold fr. destruct (hasFailedCheck tchk) eqn:Ht; cbn [fst snd].
    + assert (¬ ∀ c, c ∈ tchk → Check_Passed c = true) as Hn.
      { intros H. apply (hasFailedCheck_spec tchk) in H. congruence. }
      split; intros [_ H]; exfalso; apply Hn; intros c Hc; apply H; set_solver.
    + apply hasFailedCheck_spec in Ht. unfold hasFailedCheck_false_iff in Ht.
      assert (∀ P : CheckResult → Prop, (∀ c, c ∈ tchk → P c) →
        (∀ c, c ∈ ths ++ invs → P c) ↔ (∀ c, c ∈ ths ++ invs ++ tchk → P c)) as Heq
        by set_solver.
      by rewrite (Heq _ Ht).
  - split; [|done].
    intros Hf2. repeat apply Forall_app_2; try done; by apply emitFailedChecks_foreign.
Qed.

Lemma run_setup_failed_spec e sc opts :
  let sc' := prepare (run_env e) sc in
  Validate sc' = None → small_run e sc' →
  hasFailedCheck (snd (fst (setup_of e sc' opts))) = true →
  ∃ rep, RunWithOptions e sc opts = Some (Ok rep, snd (setup_of e sc' opts))
         ∧ Report_Status rep = StatusFailed
         ∧ Report_Responses rep = fst (fst (setup_of e sc' opts))
         ∧ Report_Thresholds rep = snd (fst (setup_of e sc' opts)) ∧ Report_Invariants rep = [].
Proof.
  intros sc' Hv [Hsmall _] Hsetup. unfold RunWithOptions. fold sc'. rewrite Hv.
  fold (run_id e opts). unfold setup_of in *.
  pose proof (runControlRequests_length (run_id e opts) sc' "setup" (Scenario_Setup sc')
                (Options_Events opts) (run_setup e)) as Hl.
  destruct (runControlRequests _ sc' "setup" _ _ _) as [[srec schk] ev1].
  cbn [fst snd] in *. rewrite Hsetup.
  destruct (Build_verdict_spec (run_finished e) (run_id e opts) (Scenario_Name sc') (run_started e)
              srec schk []) as (rep & Hrep & Hst & Hpass & _ & Hresp & Hth & Hinv & _); [lia|].
  exists rep. rewrite Hrep. cbn [mbind option_bind]. split_and!; try done.
  destruct Hst as [Hst|Hst]; [|done]. apply Hpass in Hst as [_ Hall].
  rewrite app_nil_r in Hall. apply hasFailedCheck_spec in Hall. congruence.
Qed.

(** The runner requests what the guardrails looked at. *)
Lemma joinURL_spec base_raw base path rel :
  Parse base_raw = Ok base → Parse path = Ok rel →
  let u := ResolveReference base rel in
  joinURL base_raw path = Ok (URL_String u)
  ∨ joinURL base_raw path = Ok path ∧ URL_Scheme u = URL_Scheme rel ∧ URL_Host u = URL_Host rel
    ∧ URL_User u = URL_User rel.
Proof.
  intros Hb Hr u. unfold joinURL. rewrite Hb, Hr.
  destruct (HasPrefix path "http://" || HasPrefix path "https://") eqn:Hp; [right|by left].
  split; [done|]. apply ResolveReference_absolute.
  assert (∃ p s, (p = "http" ∨ p = "https") ∧ path = p +:+ "://" +:+ s) as (p & s & Hor & ->).
  { apply orb_true_iff in Hp as [Hp|Hp]; apply prefix_spec in Hp as [s ->];
      [exists "http", s|exists "https", s]; auto. }
  rewrite (Parse_absolute p s rel Hor Hr). by destruct Hor as [->| ->].
Qed.

(** What a response-count invariant asks of the records. *)
Definition CountOK (inv : Invariant) (records : list ResponseRecord) : Prop :=
  let n := Z.of_nat (length (List.filter (counts inv) records)) in
  (∀ k, Invariant_Equals inv = Some k → n = k)
  ∧ (∀ k, Invariant_Min inv = Some k → k ≤ n)
  ∧ (∀ k, Invariant_Max inv = Some k → n ≤ k).
End RunLemmas.

(** ** Properties *)
Section Properties.
Context `{UT : UnicodeTables} `{JE : JsonErrors}.

(** C30: the record of a request: it carries the request's name, the iteration
    and the attempt; its preview is at most 4096 bytes; and (for a client whose
    errors have a text) it is free of error exactly when the request could be
    built, the client answered, the body could be read, and the status is one of
    the expected ones, or below 500 when none is given. *)
Theorem executeRequest_classifies runID sc req i a recording io :
  let record := fst (executeRequest runID sc req i a recording io) in
  record.(Response_RequestName) = Request_Name req ∧ Response_Iteration record = i
  ∧ Response_Attempt record = a
  ∧ (String.length (Response_BodyPreview record) ≤ maxBodyPreviewBytes)%nat
  ∧ (replies_with_text io →
     Response_Error record = "" ↔
     ∃ status, answered runID sc req i a io status ∧ status_ok req status
               ∧ Response_StatusCode record = status).
Proof. rewrite executeRequest_record. apply perform_request_spec. Qed.

(** Setup and teardown run in order and stop at the first failure: the
    records are those of a prefix of the requests, with one check each that
    passes exactly when its record has no error; only the last check can fail;
    and when none fails and the context stays open every request was made. *)
Theorem control_stops_at_failure runID sc phase recording requests io :
  let '(records, checks, _) := control_loop runID sc phase recording requests io in
  length checks = length records
  ∧ map Response_RequestName records = map Request_Name (take (length records) requests)
  ∧ map Check_Passed checks = map (λ r, String.eqb (Response_Error r) "") records
  ∧ (∀ n c, checks !! n = Some c → Check_Passed c = false → S n = length checks)
  ∧ (hasFailedCheck checks = false →
     (∀ n, cio_cancelled (io n) = false ∧ cio_admitted (io n) = true) →
     length records = length requests).
Proof.
  pose proof (control_loop_spec runID sc phase recording requests io) as H.
  destruct (control_loop _ _ _ _ _ _) as [[records checks] events].
  destruct H as (H1 & H2 & H3 & H4 & H5 & _). by split_and!.
Qed.

(** A response_count invariant passes exactly when the number of records
    with the request's name (any name when it gives none) and status (any when
    it gives none) satisfies each bound that it gives. *)
Theorem evaluateResponseCount_iff inv records :
  Check_Passed (evaluateResponseCount inv records) = true ↔ CountOK inv records.
Proof.
  unfold evaluateResponseCount, CountOK.
  set (n := Z.of_nat (length (List.filter (counts inv) records))). clearbody n.
  destruct (Invariant_Equals inv) as [k1|], (Invariant_Min inv) as [k2|],
    (Invariant_Max inv) as [k3|]; simpl; rewrite ?andb_true_iff, ?Z.eqb_eq, ?Z.leb_le;
    naive_solver.
Qed.

(** C17: the verdict of a run whose setup succeeded: RunWithOptions returns a
    report (no error, no panic), and its status is "passed" exactly when no
    traffic record has an error and every threshold, every invariant and every
    teardown check passed. *)
Theorem RunWithOptions_verdict e sc opts :
  let sc' := prepare (run_env e) sc in
  Validate sc' = None → small_run e sc' →
  hasFailedCheck (snd (fst (setup_of e sc' opts))) = false →
  ∃ ths rep evs,
    evaluateThresholds sc' (fst (run_traffic e)) = Some ths
    ∧ RunWithOptions e sc opts = Some (Ok rep, evs)
    ∧ (Report_Status rep = StatusPassed ∨ Report_Status rep = StatusFailed)
    ∧ (Report_Status rep = StatusPassed ↔
         (∀ r, r ∈ fst (run_traffic e) → Response_Error r = "")
         ∧ (∀ c, c ∈ run_checks e sc' (run_id e opts) (Options_Events opts) ths →
              Check_Passed c = true)).
Proof.
  intros sc' Hv Hs Hf. destruct (run_verdict_spec e sc opts Hv Hs Hf)
    as (ths & rep & evs & H1 & H2 & H3 & H4 & _ & _). exists ths, rep, evs. by split_and!.
Qed.

(** A failed setup request stops the run: the report is "failed" and holds
    the setup's records and checks only, whatever the traffic, the invariants
    and the teardown would have done (the teardown is not run either). *)
Theorem RunWithOptions_setup_failed e sc opts :
  let sc' := prepare (run_env e) sc in
  Validate sc' = None → small_run e sc' →
  hasFailedCheck (snd (fst (setup_of e sc' opts))) = true →
  ∃ rep, RunWithOptions e sc opts = Some (Ok rep, snd (setup_of e sc' opts))
         ∧ Report_Status rep = StatusFailed
         ∧ Report_Responses rep = fst (fst (setup_of e sc' opts))
         ∧ Report_Thresholds rep = snd (fst (setup_of e sc' opts)) ∧ Report_Invariants rep = [].
Proof. apply run_setup_failed_spec. Qed.

(** C18: what is requested is what was checked: in a scenario the guardrails
    accept, the runner's URL for every request and probe path is either the text
    of the very URL the guardrails allowed, or the path itself, which then is an
    absolute URL with the scheme, host and credentials of the URL they allowed. *)
Theorem joinURL_guarded sc cfg path :
  GuardrailValidate sc cfg = None → path ∈ scenario_paths sc →
  ∃ base rel target,
    Parse (Target_BaseURL (Scenario_Target sc)) = Ok base ∧ Parse path = Ok rel
    ∧ let u := ResolveReference base rel in
      URLAllowed (TargetAllowlist cfg) false u
      ∧ joinURL (Target_BaseURL (Scenario_Target sc)) path = Ok target
      ∧ (target = URL_String u
         ∨ target = path ∧ URL_Scheme u = URL_Scheme rel ∧ URL_Host u = URL_Host rel
           ∧ URL_User u = URL_User rel).
Proof.
  intros Hok Hpath. apply GuardrailValidate_spec in Hok as [_ _ _ (base & Hb & _ & Hps)].
  rewrite Forall_forall in Hps. destruct (Hps path Hpath) as (rel & Hr & Ha & _).
  unfold parseTargetURL in Hb. destruct (is_blank _); [done|]. cbv zeta.
  destruct (joinURL_spec _ base path rel Hb Hr) as [Hj|(Hj & H1 & H2 & H3)].
  - exists base, rel, (URL_String (ResolveReference base rel)). split_and!; auto.
  - exists base, rel, path. split_and!; auto.
Qed.

(** The runner never emits the events with which the store tells a run's
    life (queued, started, completed, failed, canceled) nor a cancellation
    request: the assumption the log of a run rests on. *)
Theorem runner_events_foreign e sc opts res evs :
  small_run e (prepare (run_env e) sc) → Forall foreign (snd (run_traffic e)) →
  RunWithOptions e sc opts = Some (res, evs) → Forall foreign evs.
Proof.
  intros Hs Ht Hrun. destruct (Validate (prepare (run_env e) sc)) as [m|] eqn:Hv.
  { unfold RunWithOptions in Hrun. rewrite Hv in Hrun. injection Hrun as <- <-. constructor. }
  destruct (hasFailedCheck (snd (fst (setup_of e (prepare (run_env e) sc) opts)))) eqn:Hf.
  - destruct (run_setup_failed_spec e sc opts Hv Hs Hf) as (rep & Hrep & _).
    rewrite Hrep in Hrun. injection Hrun as <- <-. apply runControlRequests_foreign.
  - destruct (run_verdict_spec e sc opts Hv Hs Hf) as (ths & rep & evs' & _ & Hrep & _ & _ & Hfe & _).
    rewrite Hrep in Hrun. injection Hrun as <- <-. auto.
Qed.

(** A run that was cut short can be reported as passed: for a valid scenario
    without setup, teardown, thresholds and invariants, the traffic phase can end
    with nothing collected (its context ended, for instance at the executor's
    timeout, before a request was sent), and then the run yields a nil error and
    a "passed" report of zero requests. *)
Theorem cut_short_run_passes e sc opts :
  let sc' := prepare (run_env e) sc in
  Validate sc' = None → Scenario_Setup sc' = [] → Scenario_Teardown sc' = [] →
  Scenario_Invariants sc' = [] → Scenario_Thresholds sc' = Build_Thresholds None None →
  fst (run_traffic e) = [] →
  (∃ s, rtc (Parallel.step sc' (traffic_attempts sc') true) (Parallel.init sc') s
        ∧ Parallel.final s ∧ Parallel.items s = [])
  ∧ ∃ rep evs, RunWithOptions e sc opts = Some (Ok rep, evs)
             ∧ Report_Status rep = StatusPassed ∧ TotalRequests (Report_Summary rep) = 0.
Proof.
  intros sc' Hv Hs Ht Hi Hth Htr. split.
  { apply Validate_spec in Hv. destruct (Parallel.cancelled_empty sc' (traffic_attempts sc') true)
      as (s & ? & ? & _ & ?); [|by exists s].
    assert (1 ≤ Traffic_Concurrency (Scenario_Traffic sc')) by apply Hv. lia. }
  unfold RunWithOptions. fold sc'. rewrite Hv, Hs, Ht.
  unfold runControlRequests. cbn [length Nat.eqb hasFailedCheck existsb].
  destruct (run_traffic e) as [records ev2]. cbn [fst] in Htr. subst records.
  unfold evaluateThresholds. rewrite Hth. cbn [Summarize length Nat.eqb mbind option_bind app
    Thresholds_MaxErrorRate Thresholds_P95MS].
  unfold evaluateInvariants. rewrite Hi. cbn [imap concat].
  eexists. eexists. by split_and!.
Qed.

(** Every request is marked with the run, the scenario, the request, the
    iteration and the attempt, whatever headers the scenario sets. *)
Theorem request_headers runID sc req i a hreq :
  build_request runID sc req i a = Ok hreq →
  Header_Get "X-Wreckr-Run-ID" (hr_Header hreq) = runID
  ∧ Header_Get "X-Wreckr-Scenario" (hr_Header hreq) = Scenario_Name sc
  ∧ Header_Get "X-Wreckr-Request" (hr_Header hreq) = Request_Name req
  ∧ Header_Get "X-Wreckr-Iteration" (hr_Header hreq) = Itoa i
  ∧ Header_Get "X-Wreckr-Attempt" (hr_Header hreq) = Itoa a.
Proof.
  unfold build_request. destruct (joinURL _ _) as [target|]; [|done]. cbn [result_bind].
  destruct (requestBody req) as [body ct]. destruct (NewRequest _ _ _) as [r|]; [|done].
  cbn [result_bind]. intros [= <-]. cbn [hr_Header with_headers].
  match goal with |- context [if ?c then Header_Set _ ct ?h0 else ?h0] =>
    generalize (if c then Header_Set "Content-Type" ct h0 else h0); intros h end.
  split_and!; by repeat (rewrite Header_Get_Set || rewrite Header_Get_Set_ne by done).
Qed.
End Properties.

(** ** Examples *)
#[local] Existing Instances ascii_tables ascii_tables_laws.
#[local] Instance sample_json_errors : JsonErrors := {| json_error s := s |}.

Definition ok_io : RequestIO := Build_RequestIO 0 5000000 (λ _, Response 200 "{}" None).
Definition failing_io : RequestIO := Build_RequestIO 0 5000000 (λ _, Response 503 "" None).
Definition open_control (io : RequestIO) : nat → ControlIO := λ _, Build_ControlIO false true io.
Definition sample_probe : nat → ProbeIO := λ _, Build_ProbeIO true "" (λ _, Response 200 "{}" None).
Definition sample_run (io : RequestIO) (records : list ResponseRecord) : RunEnv :=
  Build_RunEnv no_env 0 10 20 (open_control io) (records, []) sample_probe (open_control io).
Definition with_setup (sc : Scenario) : Scenario :=
  Build_Scenario (Scenario_Version sc) (Scenario_Name sc) (Scenario_Description sc)
    (Scenario_Target sc) (Scenario_Traffic sc) [sample_request] (Scenario_Requests sc)
    (Scenario_Teardown sc) (Scenario_Thresholds sc) (Scenario_Invariants sc).
Definition sample_options : RunOptions := Build_RunOptions "run_1" true.

Lemma RunWithOptions_verdict_witness :
  ∃ rep evs, RunWithOptions (sample_run ok_io [sample_record "ping" "" 200 5])
               (with_setup sample_scenario) sample_options = Some (Ok rep, evs)
             ∧ Report_Status rep = StatusPassed.
Proof.
  destruct (RunWithOptions_verdict (sample_run ok_io [sample_record "ping" "" 200 5])
              (with_setup sample_scenario) sample_options)
    as (ths & rep & evs & Hths & Hrun & _ & Hpass).
  - vm_compute. reflexivity.
  - split; vm_compute; discriminate.
  - vm_compute. reflexivity.
  - exists rep, evs. split; [exact Hrun|]. apply Hpass. split.
    + intros r Hr. apply list_elem_of_singleton in Hr as ->. reflexivity.
    + vm_compute in Hths. injection Hths as <-. intros c Hc. vm_compute in Hc.
      exfalso. exact (not_elem_of_nil _ Hc).
Defined.

Lemma RunWithOptions_setup_failed_witness :
  ∃ rep evs, RunWithOptions (sample_run failing_io [sample_record "ping" "" 200 5])
               (with_setup sample_scenario) sample_options = Some (Ok rep, evs)
             ∧ Report_Status rep = StatusFailed.
Proof.
  destruct (RunWithOptions_setup_failed (sample_run failing_io [sample_record "ping" "" 200 5])
              (with_setup sample_scenario) sample_options) as (rep & Hrun & Hst & _).
  - vm_compute. reflexivity.
  - split; vm_compute; discriminate.
  - vm_compute. reflexivity.
  - eexists rep, _. split; [exact Hrun|exact Hst].
Defined.

Lemma joinURL_guarded_witness :
  ∃ target, joinURL "http://localhost:8080" "/health" = Ok target.
Proof.
  destruct (joinURL_guarded sample_scenario open_policy "/health")
    as (base & rel & target & _ & _ & _ & Hj & _).
  - vm_compute. reflexivity.
  - apply list_elem_of_here.
  - exists target. exact Hj.
Defined.

Lemma runner_events_foreign_witness :
  ∃ res evs, RunWithOptions (sample_run ok_io []) sample_scenario sample_options = Some (res, evs)
             ∧ Forall foreign evs.
Proof.
  destruct (RunWithOptions (sample_run ok_io []) sample_scenario sample_options)
    as [[res evs]|] eqn:E; [|vm_compute in E; discriminate E].
  exists res, evs. split; [reflexivity|].
  eapply (runner_events_foreign (sample_run ok_io []) sample_scenario sample_options);
    [split; vm_compute; discriminate|constructor|exact E].
Defined.

Lemma cut_short_run_passes_witness :
  ∃ rep evs, RunWithOptions (sample_run ok_io []) sample_scenario sample_options = Some (Ok rep, evs)
             ∧ Report_Status rep = StatusPassed ∧ TotalRequests (Report_Summary rep) = 0.
Proof. apply cut_short_run_passes; vm_compute; reflexivity. Defined.

Lemma request_headers_witness :
  ∃ hreq, build_request "run_1" sample_scenario sample_request 0 1 = Ok hreq
          ∧ Header_Get "X-Wreckr-Run-ID" (hr_Header hreq) = "run_1".
Proof.
  destruct (build_request "run_1" sample_scenario sample_request 0 1) as [hreq|] eqn:E;
    [|vm_compute in E; discriminate E].
  exists hreq. split; [reflexivity|].
  apply (request_headers "run_1" sample_scenario sample_request 0 1 hreq E).
Defined.
