(* ===== verification/Pacing.v ===== *)
(** * The rate limiter (src/apps/api/internal/runner/runner.go, [requestLimiter])

    A limited run takes a tick from one [time.Ticker] before every request.  The
    ticker is that of package time: it fires when its time has come, or later,
    its next time is the first multiple of the interval that lies ahead, and its
    channel holds one tick, the others are dropped.  The traffic phases of
    Parallel.v and Race.v run beside it: a step that sends a request takes a
    tick. *)

From S2P Require Export Race Runner.

Open Scope Z_scope.

Record ticker := {
  tk_now : Time;
  tk_when : Time;          (* when it fires next *)
  tk_full : bool;          (* a tick waits in the channel *)
  tk_taken : Z;            (* the ticks received so far *)
}.

Section Ticker.
Variable interval : Z.

(** [time.NewTicker(interval)] at [start]. *)
Definition NewTicker (start : Time) : ticker := Build_ticker start (start + interval) false 0.

Inductive ticker_step : ticker → ticker → Prop :=
| tk_pass k t : tk_now k ≤ t → ticker_step k (Build_ticker t (tk_when k) (tk_full k) (tk_taken k))
| tk_fire k : tk_when k ≤ tk_now k →
    ticker_step k
      (Build_ticker (tk_now k)
         (tk_when k + interval * (1 + Z.quot (tk_now k - tk_when k) interval)) true (tk_taken k)).
(** [<-l.ticker.C] *)
Inductive receive : ticker → ticker → Prop :=
| tk_receive k : tk_full k = true →
    receive k (Build_ticker (tk_now k) (tk_when k) false (tk_taken k + 1)).
Definition ticker_any (k k' : ticker) : Prop := ticker_step k k' ∨ receive k k'.

(** The ticks of a ticker: [n] have fired. *)
Definition fired (start : Time) (n : Z) (k : ticker) : Prop :=
  0 ≤ n ∧ start + n * interval ≤ tk_now k ∧ start + (n + 1) * interval ≤ tk_when k
  ∧ 0 ≤ tk_taken k ∧ tk_taken k + (if tk_full k then 1 else 0) ≤ n.

Hypothesis Hpos : 0 < interval.

Lemma NewTicker_fired start : fired start 0 (NewTicker start).
Proof. unfold fired, NewTicker. cbn [tk_now tk_when tk_full tk_taken]. lia. Qed.
Lemma ticker_any_fired start n k k' :
  fired start n k → ticker_any k k' → ∃ n', fired start n' k'.
Proof.
  intros Hf [Hs|Hs]; destruct Hs as [k t Hle|k Hdue] || destruct Hs as [k Hfull];
    destruct Hf as (Hn & Hnow & Hwhen & H0 & Ht).
  - exists n. unfold fired. cbn [tk_now tk_when tk_full tk_taken]. lia.
  - exists (n + 1).
    assert (0 ≤ Z.quot (tk_now k - tk_when k) interval) by (apply Z.quot_pos; lia).
    unfold fired. cbn [tk_now tk_when tk_full tk_taken]. destruct (tk_full k); nia.
  - exists n. rewrite Hfull in Ht. unfold fired. cbn [tk_now tk_when tk_full tk_taken]. lia.
Qed.
Lemma ticker_run_fired start k k' n :
  fired start n k → rtc ticker_any k k' → ∃ n', fired start n' k'.
Proof.
  intros Hf Hr. revert n Hf. induction Hr as [k|k k1 k' Hs Hr IH]; intros n Hf; [by exists n|].
  destruct (ticker_any_fired _ _ _ _ Hf Hs) as [n1 Hf1]. by apply (IH n1).
Qed.
(** By [now], one tick for each interval that has passed has been taken, at
    most. *)
Lemma fired_taken start n k : fired start n k → tk_taken k ≤ (tk_now k - start) / interval.
Proof.
  intros (Hn & Hnow & _ & _ & Ht). apply Z.div_le_lower_bound; [done|].
  destruct (tk_full k); nia.
Qed.

(** ** A traffic phase beside the ticker *)
Section Paced.
Context {S : Type}.
Variable step : S → S → Prop.
Variable sent : S → nat.

Inductive paced : S * ticker → S * ticker → Prop :=
| p_time s k k' : ticker_step k k' → paced (s, k) (s, k')
| p_own s s' k : step s s' → sent s' = sent s → paced (s, k) (s', k)
| p_send s s' k k' : step s s' → sent s' = Datatypes.S (sent s) → receive k k' →
    paced (s, k) (s', k').

Lemma paced_taken x y : rtc paced x y →
  rtc ticker_any x.2 y.2
  ∧ Z.of_nat (sent y.1) - Z.of_nat (sent x.1) = tk_taken y.2 - tk_taken x.2.
Proof.
  intros Hr. induction Hr as [x|x x1 y Hs Hr [IH1 IH2]]; [split; [done|lia]|].
  destruct Hs as [s k k' Hk|s s' k Hs He|s s' k k' Hs He Hk]; simpl in *.
  - split; [eapply rtc_l; [by left|done]|]. destruct Hk; simpl in *; lia.
  - split; [done|]. lia.
  - split; [eapply rtc_l; [by right|done]|]. destruct Hk; simpl in *; lia.
Qed.
(** What is sent in the phase, after what the setup has sent. *)
Lemma paced_bound start k0 s0 s k :
  rtc ticker_any (NewTicker start) k0 → sent s0 = 0%nat → rtc paced (s0, k0) (s, k) →
  0 ≤ tk_taken k0 ∧ Z.of_nat (sent s) + tk_taken k0 ≤ (tk_now k - start) / interval.
Proof.
  intros Hk0 H0 Hr.
  destruct (ticker_run_fired start (NewTicker start) k0 0) as [n0 (_ & _ & _ & Hn0 & _)];
    [apply NewTicker_fired|done|]. split; [done|]. apply paced_taken in Hr as [Hrk Hs]. simpl in *. rewrite H0 in Hs.
  destruct (ticker_run_fired start (NewTicker start) k 0) as [n Hf];
    [apply NewTicker_fired|by etrans|]. apply fired_taken in Hf. lia.
Qed.
End Paced.
End Ticker.

(** [newRequestLimiter]'s interval is at least what one request more per second
    would need, for rates whose square is below the nanoseconds of a second. *)
Lemma limiter_interval_spec rate d : limiter_interval rate = Some d →
  0 < rate ∧ 0 < d ∧ (rate * (rate + 1) ≤ Second → Second ≤ d * (rate + 1)).
Proof.
  unfold limiter_interval. destruct (Z.leb_spec rate 0) as [|Hr]; [done|].
  rewrite Z.quot_div_nonneg by (unfold Second; lia).
  pose proof (Z.div_mod Second rate ltac:(lia)) as Hd.
  pose proof (Z.mod_pos_bound Second rate Hr) as Hm.
  destruct (Z.leb_spec (Second / rate) 0) as [Hq|Hq]; intros [= <-];
    (split; [done|]); (split; [lia|]); nia.
Qed.

(** ** The phases *)
(** The requests a phase has sent: those in the collector and those of the
    workers that are executing one or adding its record. *)
Definition worker_sending (w : worker) : nat :=
  match w with WExec _ _ _ _ | WAdd _ _ _ _ _ => 1 | _ => 0 end.
Definition parallel_sent (s : state) : nat :=
  length (items s) + sum_list_with worker_sending (workers s).
Definition racer_sending (x : racer) : nat :=
  match x with RExec _ | RAdd _ _ => 1 | _ => 0 end.
Definition race_sent (s : race_state) : nat :=
  length (rc_items s) + sum_list_with racer_sending (rc_racers s).

(** Only [limiter.wait] lets a request through, one at a time. *)
Lemma parallel_step_sent sc attempts limited s s' : Parallel.step sc attempts limited s s' →
  parallel_sent s' = parallel_sent s ∨ parallel_sent s' = S (parallel_sent s).
Proof.
  intros Hs. unfold parallel_sent.
  destruct Hs as [s Hc|s w x x' out Hw Hx|s w Hc Hn Hw|s Hc Hn Hd|s Hc Hn|s w Hc Hw]; simpl; auto.
  - pose proof (sum_list_with_insert worker_sending _ _ _ x' Hw) as Hsum. rewrite length_app.
    destruct Hx; simpl in *; lia.
  - pose proof (sum_list_with_insert worker_sending _ _ _ (WJob (next s)) Hw) as Hsum. simpl in Hsum. lia.
  - pose proof (sum_list_with_insert worker_sending _ _ _ WDone Hw) as Hsum. simpl in Hsum. lia.
Qed.
Lemma spawn_sending sc : sum_list_with racer_sending (spawn sc) = 0%nat.
Proof. unfold spawn. induction (seqZ 0 _) as [|a l IH]; [done|]. apply IH. Qed.
Lemma done_sending rs : Forall (eq RDone) rs → sum_list_with racer_sending rs = 0%nat.
Proof. induction 1 as [|x l <- Hl IH]; [done|]. apply IH. Qed.
(** Between two rounds every racer has returned. *)
Definition rounds_apart (s : race_state) : Prop :=
  current_round (rc_main s) = None → sum_list_with racer_sending (rc_racers s) = 0%nat.
Lemma race_step_sent sc limited s s' : race_step sc limited s s' → rounds_apart s →
  rounds_apart s' ∧ (race_sent s' = race_sent s ∨ race_sent s' = S (race_sent s)).
Proof.
  intros Hs Hi. unfold race_sent.
  destruct Hs as [m rs items|c i rs items Hle|i rs items Hlt|i rs items Hlt|c i rs items
    |i r reqs rs items|i r reqs rs items|c i r reqs rs items
    |c m rs items i r line w x x' out Hm Hw Hx|c i r reqs rs items Hdone];
    unfold rounds_apart in *; simpl in *; auto.
  - rewrite (Hi eq_refl), spawn_sending. auto.
  - split; [done|auto].
  - split; [congruence|]. pose proof (sum_list_with_insert racer_sending _ _ _ x' Hw) as Hsum.
    rewrite length_app. destruct Hx; simpl in *; lia.
  - rewrite (done_sending rs Hdone). auto.
Qed.

(** ** The rate of a run *)
Section Rate.
Variable sc : Scenario.
Variables (rate d cap : Z).
Hypothesis Hrate : limiter_interval rate = Some d.
Hypothesis Hcap : rate ≤ cap ∧ cap * (cap + 1) ≤ Second.

Lemma rate_of_time n elapsed : 0 ≤ n → n ≤ elapsed / d → Second * n ≤ (cap + 1) * elapsed.
Proof.
  intros Hn Hle. destruct (limiter_interval_spec rate d Hrate) as (Hr & Hd & Hi).
  pose proof (Z.mul_div_le elapsed d Hd) as Hm. assert (n * d ≤ elapsed) as Hnd by nia.
  specialize (Hi ltac:(nia)). transitivity (d * (rate + 1) * n); [nia|].
  transitivity ((rate + 1) * elapsed); nia.
Qed.
End Rate.


(** ** Examples: at ten requests a second, the first is sent after a tenth. *)
Definition tenth : Z := 100000000.
Definition paced_ticker : ticker := Build_ticker tenth (2 * tenth) false 1.
(** The only worker at [w]. *)
Definition at_worker (n : Z) (w : worker) : state := Build_state false n false [w] [].
Definition exec_first : worker := WExec 0 sample_request [] 1.
Lemma paced_own k n n' w w' :
  Parallel.step parallel_scenario 1 true (at_worker n w) (at_worker n' w') →
  worker_sending w = 0%nat → worker_sending w' = 0%nat →
  paced tenth (Parallel.step parallel_scenario 1 true) parallel_sent
    (at_worker n w, k) (at_worker n' w', k).
Proof. intros Hs H1 H2. apply p_own; [done|]. unfold parallel_sent. simpl. lia. Qed.
Lemma paced_reach :
  rtc (paced tenth (Parallel.step parallel_scenario 1 true) parallel_sent)
    (init parallel_scenario, NewTicker tenth 0) (at_worker 1 exec_first, paced_ticker).
Proof.
  apply (rtc_l _ _ (at_worker 1 (WJob 0), NewTicker tenth 0)).
  { apply (paced_own _ 0 1 WIdle); [|done..]. by apply (s_send _ _ _ (at_worker 0 WIdle) 0). }
  apply (rtc_l _ _ (at_worker 1 (WLoop 0 [sample_request] 1), NewTicker tenth 0)).
  { apply paced_own; [|done..].
    by apply (s_worker _ _ _ (at_worker 1 (WJob 0)) 0 (WJob 0) _ []), w_job. }
  apply (rtc_l _ _ (at_worker 1 (WWait 0 sample_request [] 1), NewTicker tenth 0)).
  { apply paced_own; [|done..].
    by apply (s_worker _ _ _ (at_worker 1 _) 0 (WLoop 0 [sample_request] 1) _ []), w_attempt. }
  apply (rtc_l _ _ (at_worker 1 (WWait 0 sample_request [] 1), Build_ticker tenth tenth false 0)).
  { apply p_time, (tk_pass tenth (NewTicker tenth 0) tenth). simpl. unfold tenth. lia. }
  apply (rtc_l _ _ (at_worker 1 (WWait 0 sample_request [] 1), Build_ticker tenth (2 * tenth) true 0)).
  { apply p_time, (tk_fire tenth (Build_ticker tenth tenth false 0)). done. }
  apply rtc_once, p_send; [|done|].
  - apply (s_worker _ _ _ (at_worker 1 _) 0 (WWait 0 sample_request [] 1) _ []); [done|].
    apply w_wait. by left.
  - by apply (tk_receive (Build_ticker tenth (2 * tenth) true 0)).
Qed.
