(* ===== verification/K6Runner.v ===== *)
(** * The k6 runner (src/apps/api/internal/runner/k6_runner.go)

    [K6Runner.RunWithOptions] compiles the scenario, runs k6 on the script and
    builds a report from the summary k6 writes.  What the operating system and
    k6 answer are fields of [K6Env]; a [range] over a map visits its entries in an
    order of its own ([MapRange]). *)

From S2P Require Export K6Script Runner.
#[local] Set Warnings "-register-all".
From Stdlib Require Import Ascii.

Open Scope Z_scope.

(** ** The summary *)
Record k6Metric := {
  k6Metric_Type : string;
  k6Metric_Values : gmap string float64;
  k6Metric_Thresholds : gmap string bool;        (* k6Threshold has the one field Ok *)
}.
Record k6Check := {
  k6Check_Name : string;
  k6Check_Path : string;
  k6Check_Passes : Z;
  k6Check_Fails : Z;
}.
Inductive k6Group :=
| Build_k6Group (name path : string) (checks : list k6Check) (groups : list k6Group).
Record k6Summary := { k6Summary_Metrics : gmap string k6Metric; k6Summary_RootGroup : k6Group }.


(** What [json.Unmarshal] makes of its text; a missing map is empty. *)
Definition k6Threshold_names : list string := ["ok"].
Definition decode_k6Threshold : Decoder bool := λ raws,
  ms ← struct_members false k6Threshold_names raws;
  decode_bool (field_texts k6Threshold_names ms "ok").
Definition k6Metric_names : list string := ["type"; "values"; "thresholds"].
Definition decode_k6Metric : Decoder k6Metric := λ raws,
  ms ← struct_members false k6Metric_names raws;
  let field := field_texts k6Metric_names ms in
  type ← decode_string (field "type");
  values ← decode_map decode_float (field "values");
  thresholds ← decode_map decode_k6Threshold (field "thresholds");
  Some (Build_k6Metric type (default ∅ values) (default ∅ thresholds)).
Definition k6Check_names : list string := ["name"; "path"; "passes"; "fails"].
Definition decode_k6Check : Decoder k6Check := λ raws,
  ms ← struct_members false k6Check_names raws;
  let field := field_texts k6Check_names ms in
  name ← decode_string (field "name");
  path ← decode_string (field "path");
  passes ← decode_int (field "passes");
  fails ← decode_int (field "fails");
  Some (Build_k6Check name path passes fails).
(** A group is nested less deep than the parser allows. *)
Definition k6Group_names : list string := ["name"; "path"; "checks"; "groups"].
Fixpoint decode_k6Group (fuel : nat) : Decoder k6Group := λ raws,
  match fuel with
  | O => None
  | S fuel =>
      ms ← struct_members false k6Group_names raws;
      let field := field_texts k6Group_names ms in
      name ← decode_string (field "name");
      path ← decode_string (field "path");
      checks ← decode_slice decode_k6Check (field "checks");
      groups ← decode_slice (decode_k6Group fuel) (field "groups");
      Some (Build_k6Group name path (default [] checks) (default [] groups))
  end.
Definition k6Summary_names : list string := ["metrics"; "root_group"].
Definition decode_k6Summary : Decoder k6Summary := λ raws,
  ms ← struct_members false k6Summary_names raws;
  let field := field_texts k6Summary_names ms in
  metrics ← decode_map decode_k6Metric (field "metrics");
  root_group ← decode_k6Group maxNestingDepth (field "root_group");
  Some (Build_k6Summary (default ∅ metrics) root_group).
Definition decode_summary `{DecodeErrors} : string → result k6Summary :=
  unmarshal_into "k6Summary" decode_k6Summary.

Class MapRange := {
  map_range : ∀ A, gmap string A → list (string * A);
  map_range_perm : ∀ A (m : gmap string A), map_range A m ≡ₚ map_to_list m;
}.
Arguments map_range {_ _}.

(** A missing key of a map of floats reads as zero. *)
Definition metric_value (m : k6Metric) (key : string) : float64 :=
  default f0 (k6Metric_Values m !! key).
(** [int(f)]: towards zero; out of range it depends on the processor, here amd64. *)
Definition float_to_int (f : float64) : Z :=
  match f with
  | S754_zero _ => 0
  | S754_finite s m e =>
      let a := if 0 <=? e then Zpos m * 2 ^ e else Zpos m / 2 ^ (- e) in
      let z := if s then - a else a in
      if in_int64 z then z else - two63
  | _ => - two63
  end.

(** ** Records *)

(** The text before the first byte [c], when there is one, and the text after. *)
Fixpoint cut_byte (c : ascii) (s : string) : option (string * string) :=
  match s with
  | "" => None
  | String d r =>
      if Ascii.eqb d c then Some ("", r)
      else match cut_byte c r with
           | Some (w, t) => Some (String d w, t)
           | None => None
           end
  end.
Definition strip_prefix (p s : string) : option string :=
  if HasPrefix s p then Some (string_drop (String.length p) s) else None.

(** The end of the expression, [,status:(\d+)\}$]. *)
Definition status_suffix (s : string) : option string :=
  r ← strip_prefix ",status:" s;
  let '(ds, t) := span is_digit r in
  if negb (String.eqb ds "") && String.eqb t "}" then Some ds else None.
(** The expression wants [http_reqs{name:], a name, [,status:], digits and a
    closing brace; the name is quoted and has no quotes in it, or else is bare
    and has no comma.  Both classes exclude the byte that follows the name, so
    each alternative matches in at most one way; the first is tried first. *)
Definition quoted_name (s : string) : option (string * string) :=
  r ← strip_prefix quote_char s;
  '(name, t) ← cut_byte (byte 34) r;
  ds ← status_suffix t;
  if String.eqb name "" then None else Some (name, ds).
Definition bare_name (s : string) : option (string * string) :=
  '(name, t) ← cut_byte ","%char s;
  ds ← status_suffix (String ","%char t);
  if String.eqb name "" then None else Some (name, ds).
Definition match_metric_key (key : string) : option (string * string) :=
  r ← strip_prefix "http_reqs{name:" key;
  match quoted_name r with
  | Some nd => Some nd
  | None => bare_name r
  end.
(** The name and the status; [Atoi] saturates. *)
Definition parse_metric_key (key : string) : option (string * Z) :=
  '(name, ds) ← match_metric_key key;
  Some (name, Z.min (default 0 (parse_uint ds)) (two63 - 1)).

Definition k6_record (startedAt : Time) (avgDuration : float64) (name : string) (status : Z)
  : ResponseRecord :=
  Build_ResponseRecord name 0 0 status avgDuration
    (if (status =? 0) || (500 <=? status) then "status code " +:+ Itoa status else "")
    "" startedAt.
Definition metric_records (startedAt : Time) (avgDuration : float64)
    (entry : string * k6Metric) : list ResponseRecord :=
  match parse_metric_key (fst entry) with
  | None => []
  | Some (name, status) =>
      replicate (Z.to_nat (float_to_int (metric_value (snd entry) "count")))
        (k6_record startedAt avgDuration name status)
  end.
Definition reconstructRecords `{MapRange} (summary : k6Summary) (startedAt : Time)
  : list ResponseRecord :=
  let avgDuration := match k6Summary_Metrics summary !! "http_req_duration" with
                     | Some m => metric_value m "avg"
                     | None => f0
                     end in
  concat (map (metric_records startedAt avgDuration) (map_range (k6Summary_Metrics summary))).

(** ** Thresholds *)
Definition statusText (passed : bool) : string := if passed then "passed" else "failed".

(** The first threshold of the metric whose text contains the given one. *)
Definition find_threshold `{MapRange} (m : k6Metric) (text : string) : option bool :=
  snd <$> List.find (λ kv, Contains (fst kv) text) (map_range (k6Metric_Thresholds m)).

Definition k6_check (name what suffix : string) (found : option (bool * option string))
    (limit : string) : CheckResult :=
  let '(passed, actual) := match found with
                           | Some (ok, shown) => (ok, default "passed" shown)
                           | None => (true, "passed")
                           end in
  Build_CheckResult name passed
    (statusText passed +:+ ": " +:+ what +:+ " " +:+ actual +:+ " (limit <= " +:+ limit
     +:+ suffix +:+ ")")
    ("<= " +:+ limit +:+ suffix) actual.

Definition error_rate_result `{MapRange} (summary : k6Summary) (limit : float64) : CheckResult :=
  k6_check "max_error_rate" "error rate" ""
    (m ← k6Summary_Metrics summary !! "checks";
     ok ← find_threshold m (checks_threshold limit);
     Some (ok, (λ rate, format_fixed 4 (fsub (float_of_int 1) rate))
                 <$> k6Metric_Values m !! "rate"))
    (format_fixed 4 limit).
Definition p95_result `{MapRange} (summary : k6Summary) (limit : float64) : CheckResult :=
  k6_check "p95_ms" "p95 latency" "ms"
    (m ← k6Summary_Metrics summary !! "http_req_duration";
     ok ← find_threshold m (p95_threshold limit);
     Some (ok, (λ p95, format_fixed 1 p95 +:+ "ms") <$> k6Metric_Values m !! "p(95)"))
    (format_fixed 1 limit).
Definition parseThresholds `{MapRange} (sc : Scenario) (summary : k6Summary) : list CheckResult :=
  match Thresholds_MaxErrorRate (Scenario_Thresholds sc) with
  | Some limit => [error_rate_result summary limit]
  | None => []
  end
  ++ match Thresholds_P95MS (Scenario_Thresholds sc) with
     | Some limit => [p95_result summary limit]
     | None => []
     end.

(** ** A run *)
Record K6Env := {
  k6_env : string → string;              (* os.Getenv *)
  k6_script_file : option string;        (* the error of CreateTemp, for the script *)
  k6_script_write : option string;       (* the error of WriteString *)
  k6_summary_file : option string;       (* the error of CreateTemp, for the summary *)
  k6_started : Time;
  k6_run : Script → string * string;     (* the error of the command (%v) and its stderr *)
  k6_summary : Script → option string;   (* what ReadFile returns *)
  k6_probes : nat → ProbeIO;
  k6_finished : Time;                    (* the clock of report.Build *)
}.

Section Run.
Context `{UT : UnicodeTables} `{JE : JsonErrors} `{DE : DecodeErrors} `{MR : MapRange}.

Definition with_latency (rep : Report) (latency : LatencyStats) : Report :=
  let s := Report_Summary rep in
  Build_Report (Report_RunID rep) (Report_Scenario rep) (Report_ScenarioVersionID rep)
    (Report_ScenarioVersionNumber rep) (Report_Status rep) (Report_StartedAt rep)
    (Report_FinishedAt rep) (Report_DurationMS rep)
    (Build_Summary (TotalRequests s) (FailedRequests s) (ErrorRate s) (StatusCodes s) latency)
    (Report_Thresholds rep) (Report_Invariants rep) (Report_Failures rep) (Report_Responses rep).
Definition k6_latency (m : k6Metric) : LatencyStats :=
  Build_LatencyStats (metric_value m "min") (metric_value m "avg") (metric_value m "med")
    (metric_value m "p(95)") (metric_value m "p(99)") (metric_value m "max").

(** The report of a summary. *)
Definition k6_report (e : K6Env) (sc : Scenario) (opts : RunOptions) (summary : k6Summary)
  : option Report :=
  let records := reconstructRecords summary (k6_started e) in
  let invariants := evaluateInvariants (Options_RunID opts) sc records (k6_probes e) in
  rep ← Build (k6_finished e) (Options_RunID opts) (Scenario_Name sc) (k6_started e) records
          (parseThresholds sc summary) invariants;
  Some (match k6Summary_Metrics summary !! "http_req_duration" with
        | Some m => with_latency rep (k6_latency m)
        | None => rep
        end).

(** [None] is a panic of [report.Build] (more than 2^53 records). *)
Definition K6RunWithOptions (e : K6Env) (sc : Scenario) (opts : RunOptions)
  : option (result Report) :=
  match Compile (k6_env e) sc with
  | Err m => Some (Err ("compile scenario: " +:+ m))
  | Ok script =>
      match k6_script_file e, k6_script_write e, k6_summary_file e with
      | Some m, _, _ => Some (Err ("create temp script: " +:+ m))
      | None, Some m, _ => Some (Err ("write temp script: " +:+ m))
      | None, None, Some m => Some (Err ("create temp summary file: " +:+ m))
      | None, None, None =>
          match k6_summary e script with
          | None => Some (Err ("k6 run failed: " +:+ fst (k6_run e script) +:+ ", stderr: "
                               +:+ snd (k6_run e script)))
          | Some data =>
              match decode_summary data with
              | Err m => Some (Err ("unmarshal k6 summary: " +:+ m))
              | Ok summary => Ok <$> k6_report e sc opts summary
              end
          end
      end
  end.
End Run.

(** ** What the keys say *)

(** A name that [%q] only puts between quotes. *)
Definition plain_byte (c : ascii) : bool :=
  in_range 32 126 c && negb (Ascii.eqb c (byte 34)) && negb (Ascii.eqb c (byte 92)).
Definition plain_name (name : string) : bool :=
  negb (String.eqb name "") && string_forall plain_byte name.

Lemma Quote_plain `{UnicodeTables} name :
  string_forall plain_byte name = true →
  Quote name = quote_char +:+ name +:+ quote_char.
Proof.
  intros Hn. unfold Quote.
  assert (is_ascii_string name = true) as ->.
  { unfold is_ascii_string. revert Hn. apply string_forall_impl. intros c.
    destruct c as [[] [] [] [] [] [] [] []]; done. }
  change (String (byte 34) "") with quote_char.
  change (String (byte 34) ?s) with (quote_char +:+ s). rewrite append_assoc. f_equal. f_equal.
  induction name as [|c name IH]; [done|].
  cbn [string_forall] in Hn. apply andb_true_iff in Hn as [Hc Hn].
  cbn [String.list_ascii_of_string map]. rewrite Join_nil_cons, (IH Hn).
  destruct c as [[] [] [] [] [] [] [] []]; try discriminate Hc; reflexivity.
Qed.

Lemma strip_prefix_app p s : strip_prefix p (p +:+ s) = Some s.
Proof. unfold strip_prefix, HasPrefix. by rewrite prefix_app, string_drop_app. Qed.
Lemma cut_byte_app c s t : lacks c s = true → cut_byte c (s +:+ String c t) = Some (s, t).
Proof.
  unfold lacks. induction s as [|d s IH]; cbn [string_forall String.append cut_byte].
  - by rewrite Ascii.eqb_refl.
  - intros [Hd Hs]%andb_true_iff. apply negb_true_iff in Hd. by rewrite Hd, IH.
Qed.
Lemma pretty_N_digits (x : N) : string_forall is_digit (pretty x) = true.
Proof.
  unfold pretty, pretty_N. case_decide; [done|]. by apply string_forall_pretty_N_go.
Qed.
Lemma span_stop p s c t :
  string_forall p s = true → p c = false → span p (s +:+ String c t) = (s, String c t).
Proof.
  intros Hs Hc. induction s as [|d s IH]; cbn [String.append span]; [by rewrite Hc|].
  cbn [string_forall] in Hs. apply andb_true_iff in Hs as [Hd Hs]. by rewrite Hd, (IH Hs).
Qed.

(** The key of a plain name reads back. *)
Lemma parse_metric_key_key `{UnicodeTables} name code :
  plain_name name = true → 0 ≤ code < two63 →
  parse_metric_key (metric_key name code) = Some (name, code).
Proof.
  unfold plain_name. intros [Hne Hn]%andb_true_iff Hcode. apply negb_true_iff in Hne.
  assert (status_suffix (",status:" +:+ Itoa code +:+ "}") = Some (Itoa code)) as Hs.
  { unfold status_suffix. rewrite strip_prefix_app. cbn [mbind option_bind].
    destruct code as [|p|p]; [done| |lia].
    change (Itoa (Zpos p)) with (pretty (Npos p)).
    rewrite span_stop by (done || apply pretty_N_digits).
    destruct (pretty_N_head (Npos p)) as (c & r & -> & _). done. }
  unfold parse_metric_key, match_metric_key, metric_key. rewrite Quote_plain by done.
  rewrite strip_prefix_app, !append_assoc. cbn [mbind option_bind].
  unfold quoted_name. rewrite strip_prefix_app. cbn [mbind option_bind].
  change (quote_char +:+ ?t) with (String (byte 34) t).
  rewrite cut_byte_app; [|revert Hn; apply string_forall_impl; intros c; unfold plain_byte;
    intros [[_ Hc]%andb_true_iff _]%andb_true_iff; exact Hc].
  cbn [mbind option_bind]. rewrite Hs, Hne. cbn [mbind option_bind].
  do 2 f_equal. destruct code as [|p|p]; [done| |lia].
  change (Itoa (Zpos p)) with (pretty (Npos p)). rewrite parse_uint_pretty.
  change (default 0 (Some (Z.of_N (Npos p)))) with (Zpos p). lia.
Qed.

(** ** Which keys the script asks for *)
Definition all_requests (sc : Scenario) : list Request :=
  Scenario_Setup sc ++ Scenario_Requests sc ++ Scenario_Teardown sc.
(** A name and a status the thresholds make k6 count. *)
Definition tracked (sc : Scenario) (name : string) (code : Z) : bool :=
  existsb (λ req, String.eqb (Request_Name req) name
                  && existsb (Z.eqb code) (tracked_codes ++ default [] (Request_Status req)))
    (all_requests sc).
(** What the script's thresholds are about. *)
Definition asked `{UnicodeTables} (sc : Scenario) (key : string) : Prop :=
  ∃ req code, req ∈ all_requests sc ∧ code ∈ tracked_codes ++ default [] (Request_Status req)
              ∧ key = metric_key (Request_Name req) code.

Lemma existsb_Zeqb c l : existsb (Z.eqb c) l = true ↔ c ∈ l.
Proof.
  rewrite existsb_exists. split.
  - intros (x & Hx & ->%Z.eqb_eq). by apply list_elem_of_In.
  - intros H. exists c. split; [by apply list_elem_of_In|apply Z.eqb_refl].
Qed.
Lemma statusCodesToTrack_elem req c :
  c ∈ statusCodesToTrack req ↔ c ∈ tracked_codes ++ default [] (Request_Status req).
Proof.
  unfold statusCodesToTrack. generalize (default [] (Request_Status req)) as l.
  generalize tracked_codes as acc. intros acc l. revert acc.
  induction l as [|x l IH]; intros acc; [by rewrite app_nil_r|].
  cbn [fold_left]. rewrite IH. destruct (existsb (Z.eqb x) acc) eqn:E.
  - apply existsb_Zeqb in E. rewrite !elem_of_app, elem_of_cons. naive_solver.
  - rewrite !elem_of_app, !elem_of_cons, elem_of_nil. naive_solver.
Qed.

Section Tracked.
Context `{UT : UnicodeTables}.

Lemma track_request_dom out req key :
  is_Some (track_request out req !! key)
  ↔ is_Some (out !! key) ∨ ∃ code, code ∈ tracked_codes ++ default [] (Request_Status req)
                                   ∧ key = metric_key (Request_Name req) code.
Proof.
  unfold track_request. setoid_rewrite <-statusCodesToTrack_elem.
  generalize (statusCodesToTrack req) as l. intros l. revert out.
  induction l as [|c l IH]; intros out; cbn [fold_left].
  - split; [by left|]. intros [H|(c & Hc & _)]; [done|by apply elem_of_nil in Hc].
  - rewrite IH. setoid_rewrite elem_of_cons. destruct (decide (key = metric_key (Request_Name req) c)) as [->|Hk].
    + rewrite lookup_insert_eq. split; [|by left]. intros _. right. exists c. by split; [left|].
    + rewrite lookup_insert_ne by done. split.
      * intros [H|(c' & Hc & ->)]; [by left|]. right. exists c'. by split; [right|].
      * intros [H|(c' & [->|Hc] & ->)]; [by left|done|]. right. by exists c'.
Qed.
Lemma track_requests_dom l out key :
  is_Some (fold_left track_request l out !! key)
  ↔ is_Some (out !! key)
    ∨ ∃ req code, req ∈ l ∧ code ∈ tracked_codes ++ default [] (Request_Status req)
                  ∧ key = metric_key (Request_Name req) code.
Proof.
  revert out. induction l as [|req l IH]; intros out; cbn [fold_left].
  - split; [by left|]. intros [H|(r & c & Hr & _)]; [done|by apply elem_of_nil in Hr].
  - rewrite IH, track_request_dom. setoid_rewrite elem_of_cons. split.
    + intros [[H|(c & Hc & ->)]|(r & c & Hr & Hc & ->)]; [by left| |]; right;
        eexists _, _; split_and!; [by left|done|done|by right|done|done].
    + intros [H|(r & c & [->|Hr] & Hc & ->)]; [by left; left| |].
      * left. right. by exists c.
      * right. by exists r, c.
Qed.

Lemma own_thresholds_keys t key :
  HasPrefix key "http_reqs{" = true → own_thresholds t !! key = None.
Proof.
  intros Hp. assert (key ≠ "checks" ∧ key ≠ "http_req_duration") as [Hc Hd]
    by (split; by intros ->).
  unfold own_thresholds, append_threshold.
  destruct (Thresholds_MaxErrorRate t), (Thresholds_P95MS t);
    rewrite ?lookup_insert_ne by done; apply lookup_empty.
Qed.

(** The submetrics of [http_reqs] in the thresholds are those asked for. *)
Lemma k6Thresholds_keys sc key :
  HasPrefix key "http_reqs{" = true → is_Some (k6Thresholds sc !! key) ↔ asked sc key.
Proof.
  intros Hp. unfold k6Thresholds. rewrite !track_requests_dom, own_thresholds_keys by done.
  unfold asked, all_requests. split.
  - intros [[[[? ?]|(r & c & Hr & H)]|(r & c & Hr & H)]|(r & c & Hr & H)];
      [done|..]; exists r, c; (split; [|exact H]); rewrite !elem_of_app; tauto.
  - intros (r & c & Hr & H). rewrite !elem_of_app in Hr.
    destruct Hr as [Hr|[Hr|Hr]]; [left; left; right|left; right|right]; by exists r, c.
Qed.
End Tracked.

(** ** Counting *)
Definition of_request (name : string) (code : Z) (r : ResponseRecord) : bool :=
  String.eqb (Response_RequestName r) name && (Response_StatusCode r =? code).
Definition count_of (name : string) (code : Z) (records : list ResponseRecord) : nat :=
  length (List.filter (of_request name code) records).
(** The number k6 reports under a key. *)
Definition reported (summary : k6Summary) (key : string) : nat :=
  match k6Summary_Metrics summary !! key with
  | Some m => Z.to_nat (float_to_int (metric_value m "count"))
  | None => 0
  end.

Lemma count_of_app name code l1 l2 :
  count_of name code (l1 ++ l2) = (count_of name code l1 + count_of name code l2)%nat.
Proof. unfold count_of. by rewrite List.filter_app, length_app. Qed.
Lemma count_of_metric name code startedAt avg key m :
  count_of name code (metric_records startedAt avg (key, m))
  = if bool_decide (parse_metric_key key = Some (name, code))
    then Z.to_nat (float_to_int (metric_value m "count")) else 0%nat.
Proof.
  unfold metric_records. cbn [fst snd].
  destruct (parse_metric_key key) as [[n c]|]; [|done].
  unfold count_of. generalize (Z.to_nat (float_to_int (metric_value m "count"))) as k. intros k.
  assert (of_request name code (k6_record startedAt avg n c)
          = bool_decide (Some (n, c) = Some (name, code))) as Ho.
  { unfold of_request. cbn [k6_record Response_RequestName Response_StatusCode].
    apply eq_true_iff_eq. rewrite andb_true_iff, String.eqb_eq, Z.eqb_eq, bool_decide_eq_true.
    naive_solver. }
  induction k as [|k IH]; [by case_bool_decide|]. cbn [replicate List.filter].
  rewrite Ho. case_bool_decide as E; [|exact IH]. cbn [length]. by rewrite IH.
Qed.

Lemma count_of_perm name code l1 l2 : l1 ≡ₚ l2 → count_of name code l1 = count_of name code l2.
Proof.
  unfold count_of. induction 1 as [|x l1 l2 _ IH|x y l|l1 l2 l3 _ IH1 _ IH2]; cbn [List.filter].
  - done.
  - destruct (of_request name code x); cbn [length]; by rewrite IH.
  - by destruct (of_request name code x), (of_request name code y).
  - by rewrite IH1.
Qed.

(** Only one key of the map may count. *)
Lemma count_of_map name code startedAt avg (m : gmap string k6Metric) key :
  (∀ k v, m !! k = Some v → parse_metric_key k = Some (name, code) → k = key) →
  count_of name code (concat (map (metric_records startedAt avg) (map_to_list m)))
  = match m !! key with
    | Some v => if bool_decide (parse_metric_key key = Some (name, code))
                then Z.to_nat (float_to_int (metric_value v "count")) else 0%nat
    | None => 0%nat
    end.
Proof.
  induction m as [|k v m Hk IH] using map_ind; intros Hone.
  { by rewrite map_to_list_empty, lookup_empty. }
  rewrite (count_of_perm _ _ _ (metric_records startedAt avg (k, v) ++
             concat (map (metric_records startedAt avg) (map_to_list m)))).
  2:{ rewrite <-!flat_map_concat_map. rewrite (Permutation_flat_map _ (map_to_list_insert m k v Hk)).
      done. }
  rewrite count_of_app, count_of_metric, IH.
  2:{ intros k' v' Hk' Hp. apply (Hone k' v'); [|done]. rewrite lookup_insert_ne; [done|].
      intros ->. congruence. }
  destruct (decide (k = key)) as [->|Hne].
  - rewrite lookup_insert_eq, Hk. lia.
  - rewrite lookup_insert_ne by done.
    destruct (decide (parse_metric_key k = Some (name, code))) as [E|E].
    + exfalso. apply Hne, (Hone k v); [apply lookup_insert_eq|done].
    + by rewrite (bool_decide_false _ E).
Qed.

(** ** The records *)
Definition reading_scenario (sc : Scenario) : Prop :=
  ∀ req, req ∈ all_requests sc →
    plain_name (Request_Name req) = true
    ∧ ∀ code, code ∈ default [] (Request_Status req) → 0 ≤ code < two63.
(** What k6 documents: a metric is broken down by tags only as far as the
    thresholds of the script ask for it. *)
Definition only_asked `{UnicodeTables} (sc : Scenario) (summary : k6Summary) : Prop :=
  ∀ key, is_Some (k6Summary_Metrics summary !! key) → is_Some (parse_metric_key key) →
         is_Some (k6Thresholds sc !! key).

Lemma parse_metric_key_prefix key nc :
  parse_metric_key key = Some nc → HasPrefix key "http_reqs{" = true.
Proof.
  unfold parse_metric_key, match_metric_key, strip_prefix.
  destruct (HasPrefix key "http_reqs{name:") eqn:E; [|done]. intros _.
  apply prefix_spec in E as [u ->]. change ("http_reqs{name:" +:+ u) with ("http_reqs{" +:+ ("name:" +:+ u)).
  apply prefix_app.
Qed.
Lemma tracked_asked `{UnicodeTables} sc name code :
  tracked sc name code = true ↔
  ∃ req, req ∈ all_requests sc ∧ Request_Name req = name
         ∧ code ∈ tracked_codes ++ default [] (Request_Status req).
Proof.
  unfold tracked. rewrite existsb_exists. setoid_rewrite andb_true_iff.
  setoid_rewrite existsb_Zeqb. setoid_rewrite String.eqb_eq.
  split; intros (req & Hr & Hc); exists req; (split; [by apply list_elem_of_In|done]).
Qed.
Lemma tracked_codes_range code : code ∈ tracked_codes → 0 ≤ code < two63.
Proof.
  intros H. unfold tracked_codes in H. rewrite !elem_of_cons, elem_of_nil in H.
  unfold two63. lia.
Qed.
Lemma asked_reads `{UnicodeTables} sc key :
  reading_scenario sc → asked sc key →
  ∃ name code, key = metric_key name code ∧ parse_metric_key key = Some (name, code)
               ∧ tracked sc name code = true.
Proof.
  intros Hsc (req & code & Hr & Hc & ->). destruct (Hsc req Hr) as [Hn Hs].
  exists (Request_Name req), code. split; [done|]. split.
  - apply parse_metric_key_key; [done|]. apply elem_of_app in Hc as [Hc|Hc]; [|by apply Hs].
    by apply tracked_codes_range.
  - apply tracked_asked. by exists req.
Qed.

Section Reads.
Context `{UT : UnicodeTables} `{MR : MapRange}.

Lemma records_counted_spec sc summary startedAt name code :
  reading_scenario sc → only_asked sc summary →
  count_of name code (reconstructRecords summary startedAt)
  = if tracked sc name code then reported summary (metric_key name code) else 0%nat.
Proof.
  intros Hsc Honly. unfold reconstructRecords.
  set (avg := match _ with Some m => metric_value m "avg" | None => f0 end). clearbody avg.
  rewrite (count_of_perm _ _ _ (concat (map (metric_records startedAt avg)
                                 (map_to_list (k6Summary_Metrics summary))))).
  2:{ rewrite <-!flat_map_concat_map. by rewrite map_range_perm. }
  assert (∀ k v, k6Summary_Metrics summary !! k = Some v →
                 parse_metric_key k = Some (name, code) →
                 k = metric_key name code ∧ tracked sc name code = true) as Hone.
  { intros k v Hk Hp.
    assert (asked sc k) as Hask.
    { apply k6Thresholds_keys; [by eapply parse_metric_key_prefix|]. apply Honly; by eexists. }
    destruct (asked_reads sc k Hsc Hask) as (n & c & -> & Hp' & Ht).
    rewrite Hp in Hp'. by injection Hp' as -> ->. }
  rewrite (count_of_map _ _ _ _ _ (metric_key name code)) by (intros k v Hk Hp; by eapply Hone).
  unfold reported. destruct (k6Summary_Metrics summary !! metric_key name code) as [v|] eqn:E;
    [|by destruct (tracked sc name code)].
  case_bool_decide as Hp.
  - by destruct (Hone _ _ E Hp) as [_ ->].
  - destruct (tracked sc name code) eqn:Ht; [|done]. destruct Hp.
    apply tracked_asked in Ht as (req & Hr & <- & Hc). destruct (Hsc req Hr) as [Hn Hs].
    apply parse_metric_key_key; [done|]. apply elem_of_app in Hc as [Hc|Hc]; [|by apply Hs].
    by apply tracked_codes_range.
Qed.
End Reads.

(** ** The verdict *)
Section Verdict.
Context `{UT : UnicodeTables} `{JE : JsonErrors} `{DE : DecodeErrors} `{MR : MapRange}.

(** An entry whose records count as failed. *)
Definition failing_entry (key : string) (m : k6Metric) : Prop :=
  ∃ name status, parse_metric_key key = Some (name, status)
                 ∧ 0 < float_to_int (metric_value m "count") ∧ (status = 0 ∨ 500 <= status).

Lemma reconstruct_ok summary startedAt :
  (∀ rec, rec ∈ reconstructRecords summary startedAt → Response_Error rec = "")
  ↔ ∀ key m, k6Summary_Metrics summary !! key = Some m → ¬ failing_entry key m.
Proof.
  unfold reconstructRecords.
  set (avg := match _ with Some m => metric_value m "avg" | None => f0 end). clearbody avg.
  assert (∀ n status, Response_Error (k6_record startedAt avg n status) = ""
                      ↔ ¬ (status = 0 ∨ 500 <= status)) as Herr.
  { intros n status. cbn [k6_record Response_Error].
    destruct ((status =? 0) || (500 <=? status)) eqn:E.
    - apply orb_true_iff in E. rewrite Z.eqb_eq, Z.leb_le in E.
      split; [intros Hd; discriminate Hd|intros Hn; contradiction].
    - apply orb_false_iff in E as [?%Z.eqb_neq ?%Z.leb_gt]. split; [lia|done]. }
  split.
  - intros H key m Hm (n & status & Hp & Hc & Hs).
    specialize (H (k6_record startedAt avg n status)). apply Herr in H; [done|].
    apply list_elem_of_In, in_concat. exists (metric_records startedAt avg (key, m)). split.
    + apply in_map, list_elem_of_In. rewrite map_range_perm. by apply elem_of_map_to_list.
    + unfold metric_records. cbn [fst snd]. rewrite Hp. apply list_elem_of_In, elem_of_replicate.
      split; [done|lia].
  - intros H rec. rewrite list_elem_of_In, in_concat. intros (l & Hl & Hr). apply in_map_iff in Hl as ([key m] & <- & Hk).
    apply list_elem_of_In in Hk. rewrite map_range_perm in Hk. apply elem_of_map_to_list in Hk.
    unfold metric_records in Hr. cbn [fst snd] in Hr.
    destruct (parse_metric_key key) as [[n status]|] eqn:Hp; [|done].
    apply list_elem_of_In, elem_of_replicate in Hr as [-> Hn]. apply Herr. intros Hs.
    apply (H key m Hk). exists n, status. split_and!; [done|lia|done].
Qed.


End Verdict.

(** ** Examples *)
#[local] Instance k6_tables : UnicodeTables := ascii_tables.
#[local] Instance k6_json : JsonErrors := {| json_error s := s |}.
#[local] Instance k6_range : MapRange :=
  {| map_range A m := map_to_list m; map_range_perm A m := Permutation_refl (map_to_list m) |}.

Definition count_metric (n : Z) : k6Metric :=
  Build_k6Metric "counter" {["count" := float_of_int n]} ∅.
(** Every response was a 404, which the scenario does not expect. *)
Definition sample_summary : k6Summary :=
  Build_k6Summary
    (<[metric_key "checkout" 404 := count_metric 6]> {[metric_key "checkout" 201 := count_metric 0]})
    (Build_k6Group "" "" [] []).
Definition count_tree (status n : Z) : string * jtree :=
  (metric_key "checkout" status,
   TObj [("type", TStr "counter"); ("values", TObj [("count", TNum (Itoa n))])]).
Definition sample_data : string :=
  render marshal_layout 0 (TObj [("metrics", TObj [count_tree 201 0; count_tree 404 6])]).
#[local] Existing Instance plain_errors.
Example sample_data_decoded : decode_summary sample_data = Ok sample_summary.
Proof. vm_compute. reflexivity. Qed.
(** What [k6 run --summary-export] is documented to write has the checks and the
    groups as objects by name: it is refused, even when there are none. *)
Example exported_groups_refused :
  map (λ text, is_ok (decode_summary (quotes text)))
    ["{'metrics': {}, 'root_group': {'name': '', 'path': '', 'groups': [], 'checks': []}}";
     "{'metrics': {}, 'root_group': {'name': '', 'path': '', 'groups': {}, 'checks': {}}}"]
  = [true; false].
Proof. vm_compute. reflexivity. Qed.
Definition sample_k6 : Scenario :=
  let sc := sample_k6_scenario "none" in
  Build_Scenario 1 "race" "" (Scenario_Target sc) (Scenario_Traffic sc) [] (Scenario_Requests sc) []
    (Build_Thresholds (Some f0) None) [].
Definition sample_k6_env : K6Env :=
  Build_K6Env sample_env None None None 0 (λ _, ("exit status 99", "")) (λ _, Some sample_data)
    (λ _, Build_ProbeIO true "" (λ _, DoError "unreachable")) 1.

