(* ===== verification/Store.v ===== *)
(** * The store's records and contract (src/apps/api/internal/store/store.go,
    memory.go)

    The records every store keeps, and the part of the [Store] interface that
    drives a run through its life: [RunStore] has the operations, [life_step]
    is the abstract specification of one operation, [RunStoreLaws] says that a
    store refines it.  The executor and the worker are verified against this
    interface. *)

From S2P Require Export RunEvent Report.

Open Scope Z_scope.

(** ** Data *)
Abbreviation RunStatus := string (only parsing).
Definition RunQueued : RunStatus := "queued".
Definition RunRunning : RunStatus := "running".
Definition RunPassed : RunStatus := "passed".
Definition RunFailed : RunStatus := "failed".
Definition RunErrored : RunStatus := "errored".
Definition RunCanceled : RunStatus := "canceled".

Definition TargetLocal : string := "local".
Definition TargetDevelopment : string := "development".
Definition TargetStaging : string := "staging".
Definition TargetProduction : string := "production".

Record TargetRecord := {
  Tgt_ID : string;
  Tgt_Name : string;
  Tgt_BaseURL : string;
  Tgt_Environment : string;
  Tgt_Description : string;
  Tgt_Headers : headers;
  Tgt_CreatedAt : Time;
  Tgt_UpdatedAt : Time;
}.
Record ScenarioRecord := {
  Scn_ID : string;
  Scn_Scenario : Scenario;
  Scn_CurrentVersionID : string;
  Scn_CurrentVersionNumber : Z;
  Scn_CreatedAt : Time;
}.
Record ScenarioVersionRecord := {
  Scv_ID : string;
  Scv_ScenarioID : string;
  Scv_VersionNumber : Z;
  Scv_Scenario : Scenario;
  Scv_CreatedAt : Time;
}.
Record RunRecord := {
  Run_ID : string;
  Run_TargetID : string;
  Run_ScenarioID : string;
  Run_ScenarioVersionID : string;
  Run_ScenarioVersionNumber : Z;
  Run_Status : RunStatus;
  Run_Scenario : Scenario;
  Run_Report : option Report;
  Run_Error : string;
  Run_CreatedAt : Time;
  Run_StartedAt : option Time;
  Run_FinishedAt : option Time;
}.

(** [isCancelableRunStatus], [isTerminalRunStatus]. *)
Definition isCancelableRunStatus (status : RunStatus) : bool :=
  String.eqb status RunQueued || String.eqb status RunRunning.
Definition isTerminalRunStatus (status : RunStatus) : bool :=
  string_in status [RunPassed; RunFailed; RunErrored; RunCanceled].

Definition is_cancel_request (e : Event) : bool :=
  String.eqb (Event_Type e) TypeCancelRequested.

(** ** The contract *)

(** The operations on an existing run.  A [clock] holds what a call reads from
    outside: the readings of [time.Now()], the operation's and that of the event
    it appends. *)
Record clock := { clk_now : Time; clk_event : Time }.

(** A call of one of the operations that change a run. *)
Inductive run_op :=
| OpStart
| OpComplete (rep : Report)
| OpCancel (rep : Report)
| OpError (msg : string)
| OpRequestCancel
| OpEvent (e : Event).

Class RunStore (St : Type) := {
  GetRun : St → string → option RunRecord;
  IsRunCancelRequested : St → string → bool;
  ListRunEvents : St → string → list Event;
  MarkRunStarted : clock → string → St → St;
  CompleteRun : clock → string → Report → St → St;
  CancelRun : clock → string → Report → St → St;
  ErrorRun : clock → string → string → St → St;
  RequestRunCancel : clock → string → St → bool * St;
  AppendRunEvent : clock → string → Event → St → Event * St;
  (* the store can represent the report, the message or the event it is given *)
  storable : run_op → bool;
  (* the two texts identify the same run *)
  same_id : string → string → bool;
}.

Definition run_op_apply `{RunStore St} (o : run_op) (c : clock) (id : string) (s : St) : St :=
  match o with
  | OpStart => MarkRunStarted c id s
  | OpComplete rep => CompleteRun c id rep s
  | OpCancel rep => CancelRun c id rep s
  | OpError msg => ErrorRun c id msg s
  | OpRequestCancel => snd (RequestRunCancel c id s)
  | OpEvent e => snd (AppendRunEvent c id e s)
  end.

(** The abstract state of a run: its status, when it exists, and whether its
    cancellation was requested. *)
Record life := { life_status : option RunStatus; life_cancel : bool }.

Definition live (l : life) : bool :=
  match life_status l with
  | Some st => negb (isTerminalRunStatus st)
  | None => false
  end.
Definition with_status (st : RunStatus) (l : life) : life :=
  if live l then Build_life (Some st) (life_cancel l) else l.

Definition verdict_status (rep : Report) : RunStatus :=
  if String.eqb (Report_Status rep) StatusFailed then RunFailed else RunPassed.

(** One operation, abstractly: a terminal run keeps its status for ever, an
    unknown run stays unknown. *)
Definition life_write (l : life) (o : run_op) : life :=
  match o with
  | OpStart => with_status RunRunning l
  | OpComplete rep => with_status (verdict_status rep) l
  | OpCancel _ => with_status RunCanceled l
  | OpError _ => with_status RunErrored l
  | OpRequestCancel =>
      if from_option isCancelableRunStatus false (life_status l)
      then Build_life (life_status l) true else l
  | OpEvent e =>
      match life_status l with
      | Some _ => Build_life (life_status l) (life_cancel l || is_cancel_request e)
      | None => l
      end
  end.
Definition life_step `{RunStore St} (l : life) (o : run_op) : life :=
  if storable o then life_write l o else l.

(** The cancellation of an unknown run is not observable. *)
Definition life_of `{RunStore St} (s : St) (id : string) : life :=
  match GetRun s id with
  | Some r => Build_life (Some (Run_Status r)) (IsRunCancelRequested s id)
  | None => Build_life None false
  end.

(** The report as [CompleteRun] and [CancelRun] store it. *)
Definition stamp_report (r : RunRecord) (status : string) (rep : Report) : Report :=
  Build_Report (Report_RunID rep) (Report_Scenario rep) (Run_ScenarioVersionID r)
    (Run_ScenarioVersionNumber r) status (Report_StartedAt rep) (Report_FinishedAt rep)
    (Report_DurationMS rep) (Report_Summary rep) (Report_Thresholds rep)
    (Report_Invariants rep) (Report_Failures rep) (Report_Responses rep).

(** The events of a log are numbered from one without gaps. *)
Definition Numbered (log : list Event) : Prop :=
  ∀ i e, log !! i = Some e → Event_Sequence e = Z.of_nat i + 1.

(** What every store promises about these operations. *)
Class RunStoreLaws (St : Type) `{RunStore St} := {
  same_id_equiv :: Equivalence (λ a b, same_id a b = true);
  same_id_reads s id id' :
    same_id id' id = true → Run_Status <$> GetRun s id' = Run_Status <$> GetRun s id
                             ∧ IsRunCancelRequested s id' = IsRunCancelRequested s id
                             ∧ ListRunEvents s id' = ListRunEvents s id;
  op_life s o c id : life_of (run_op_apply o c id s) id = life_step (life_of s id) o;
  op_frame s o c id id' :
    same_id id' id = false → GetRun (run_op_apply o c id s) id' = GetRun s id'
               ∧ IsRunCancelRequested (run_op_apply o c id s) id' = IsRunCancelRequested s id'
               ∧ ListRunEvents (run_op_apply o c id s) id' = ListRunEvents s id';
  op_terminal_at s o c id id' r :
    same_id id' id = true →
    GetRun s id' = Some r → isTerminalRunStatus (Run_Status r) = true →
    GetRun (run_op_apply o c id s) id' = Some r;
  op_scenario_at s o c id id' r :
    same_id id' id = true → GetRun s id' = Some r →
    ∃ r', GetRun (run_op_apply o c id s) id' = Some r' ∧ Run_Scenario r' = Run_Scenario r;
  op_error s c id msg r :
    GetRun s id = Some r → isTerminalRunStatus (Run_Status r) = false →
    storable (OpError msg) = true →
    Run_Error <$> GetRun (ErrorRun c id msg s) id = Some msg;
  op_request_cancel s c id :
    fst (RequestRunCancel c id s)
      = from_option isCancelableRunStatus false (life_status (life_of s id));
  op_events s o c id :
    ∃ es, ListRunEvents (run_op_apply o c id s) id = ListRunEvents s id ++ es
          ∧ (length es ≤ 1)%nat;
  op_append s c id e r :
    GetRun s id = Some r → storable (OpEvent e) = true →
    ∃ e', ListRunEvents (snd (AppendRunEvent c id e s)) id = ListRunEvents s id ++ [e']
          ∧ Event_Type e' = Event_Type e ∧ Event_Message e' = Event_Message e;
  op_numbered s o c id :
    Numbered (ListRunEvents s id) → Numbered (ListRunEvents (run_op_apply o c id s) id);
  storable_bare o :
    match o with
    | OpStart | OpRequestCancel => storable o = true
    | _ => True
    end;
}.

(** What a store keeps of the reports it is given: [kept status rep r] relates
    a report [rep], written with the status [status], to the record read back. *)
Class RunStoreKeeps (St : Type) `{RunStore St} (kept : string → Report → RunRecord → Prop) := {
  keep_complete s c id rep r r' :
    GetRun s id = Some r → isTerminalRunStatus (Run_Status r) = false →
    storable (OpComplete rep) = true →
    GetRun (CompleteRun c id rep s) id = Some r' → kept (Report_Status rep) rep r';
  keep_cancel s c id rep r r' :
    GetRun s id = Some r → isTerminalRunStatus (Run_Status r) = false →
    storable (OpCancel rep) = true →
    GetRun (CancelRun c id rep s) id = Some r' → kept StatusCanceled rep r';
}.

(** A store that promises nothing about reports. *)
Definition keeps_nothing (status : string) (rep : Report) (r : RunRecord) : Prop := True.
Lemma keeps_nothing_keeps `{RunStore St} : RunStoreKeeps St keeps_nothing.
Proof. by split. Qed.

(** Everything is kept, stamped with the scenario version the run pins. *)
Definition keeps_exactly (status : string) (rep : Report) (r : RunRecord) : Prop :=
  ∃ rec, Run_Report r = Some (stamp_report rec status rep).

(** What a store that keeps the values themselves promises on top: everything
    can be stored, and events are read back as they were written. *)
Class RunStoreExact (St : Type) `{RunStore St} := {
  exact_storable o : storable o = true;
  exact_append s c id e :
    ∃ e', ListRunEvents (snd (AppendRunEvent c id e s)) id = ListRunEvents s id ++ [e']
          ∧ Event_Type e' = Event_Type e ∧ Event_Metadata e' = Event_Metadata e;
}.

(** ** Consequences of the contract *)
Section Laws.
Context `{RunStoreLaws St}.

Lemma terminal_not_live st c :
  isTerminalRunStatus st = true → live (Build_life (Some st) c) = false.
Proof. unfold live. simpl. by intros ->. Qed.

Lemma with_status_terminal l st st' :
  life_status l = Some st → isTerminalRunStatus st = true → with_status st' l = l.
Proof. intros Hl Ht. unfold with_status, live. by rewrite Hl, Ht. Qed.

Lemma cancelable_not_terminal st :
  isCancelableRunStatus st = true → isTerminalRunStatus st = false.
Proof.
  unfold isCancelableRunStatus. rewrite orb_true_iff, !String.eqb_eq. by intros [->| ->].
Qed.

(** Any interleaving of operations on any runs. *)
Definition ops_apply (l : list (run_op * clock * string)) (s : St) : St :=
  fold_left (λ s '(o, c, id), run_op_apply o c id s) l s.

Lemma same_id_refl id : same_id id id = true.
Proof. by apply (reflexivity (R := λ a b, same_id a b = true)). Qed.
Lemma same_id_sym id id' : same_id id id' = same_id id' id.
Proof.
  apply eq_true_iff_eq.
  split; apply (symmetry (R := λ a b, same_id a b = true)).
Qed.
Lemma op_terminal s o c id r :
  GetRun s id = Some r → isTerminalRunStatus (Run_Status r) = true →
  GetRun (run_op_apply o c id s) id = Some r.
Proof. apply op_terminal_at, same_id_refl. Qed.
Lemma op_scenario s o c id r :
  GetRun s id = Some r →
  ∃ r', GetRun (run_op_apply o c id s) id = Some r' ∧ Run_Scenario r' = Run_Scenario r.
Proof. apply op_scenario_at, same_id_refl. Qed.
Lemma life_of_same s id id' : same_id id' id = true → life_of s id' = life_of s id.
Proof.
  intros Hs. unfold life_of. destruct (same_id_reads s id id' Hs) as (Hg & -> & _).
  destruct (GetRun s id'), (GetRun s id); cbn in Hg; congruence.
Qed.

Lemma run_op_life_other s o c id id' :
  same_id id' id = false → life_of (run_op_apply o c id s) id' = life_of s id'.
Proof.
  intros Hne. unfold life_of. by destruct (op_frame s o c id id' Hne) as (-> & -> & _).
Qed.

Lemma life_of_some (s : St) id r :
  GetRun s id = Some r → life_of s id = Build_life (Some (Run_Status r)) (IsRunCancelRequested s id).
Proof. unfold life_of. by intros ->. Qed.

Lemma life_of_status (s : St) id : life_status (life_of s id) = Run_Status <$> GetRun s id.
Proof. unfold life_of. by destruct (GetRun s id). Qed.

Lemma life_of_cancel (s : St) id r :
  GetRun s id = Some r → life_cancel (life_of s id) = IsRunCancelRequested s id.
Proof. unfold life_of. by intros ->. Qed.

(** The abstract life after an interleaving depends only on the operations on
    that run, in their order. *)
Lemma ops_life l s id :
  life_of (ops_apply l s) id
  = fold_left life_step
      (omap (λ '(o, _, id'), if same_id id' id then Some o else None) l) (life_of s id).
Proof.
  revert s. induction l as [|[[o c] id'] l IH]; intros s; [done|]. simpl.
  rewrite IH. destruct (same_id id' id) eqn:Hd; simpl.
  - rewrite <-!(life_of_same _ _ _ Hd). by rewrite op_life.
  - rewrite same_id_sym in Hd. by rewrite run_op_life_other by done.
Qed.

Lemma ops_terminal l s id r :
  GetRun s id = Some r → isTerminalRunStatus (Run_Status r) = true →
  GetRun (ops_apply l s) id = Some r.
Proof.
  revert s. induction l as [|[[o c] id'] l IH]; intros s Hr Ht; simpl; [done|].
  apply IH; [|done]. destruct (same_id id id') eqn:Hd.
  - by apply op_terminal_at.
  - by destruct (op_frame s o c id' id Hd) as (-> & _).
Qed.

Lemma ops_scenario l s id r :
  GetRun s id = Some r →
  ∃ r', GetRun (ops_apply l s) id = Some r' ∧ Run_Scenario r' = Run_Scenario r.
Proof.
  revert s r. induction l as [|[[o c] id'] l IH]; intros s r Hr; simpl; [by exists r|].
  destruct (same_id id id') eqn:Hd.
  - destruct (op_scenario_at s o c id' id r Hd Hr) as (r1 & Hr1 & <-). by apply IH.
  - apply IH. by destruct (op_frame s o c id' id Hd) as (-> & _).
Qed.

Lemma ops_events l s id :
  ∃ es, ListRunEvents (ops_apply l s) id = ListRunEvents s id ++ es.
Proof.
  revert s. induction l as [|[[o c] id'] l IH]; intros s; simpl.
  - exists []. by rewrite app_nil_r.
  - destruct (IH (run_op_apply o c id' s)) as [es1 ->].
    destruct (same_id id id') eqn:Hd.
    + destruct (same_id_reads (run_op_apply o c id' s) _ _ Hd) as (_ & _ & ->).
      destruct (same_id_reads s _ _ Hd) as (_ & _ & ->).
      destruct (op_events s o c id') as (es0 & -> & _). exists (es0 ++ es1). by rewrite app_assoc.
    + destruct (op_frame s o c id' id Hd) as (_ & _ & ->). by exists es1.
Qed.

Lemma ops_numbered l s id :
  Numbered (ListRunEvents s id) → Numbered (ListRunEvents (ops_apply l s) id).
Proof.
  revert s. induction l as [|[[o c] id'] l IH]; intros s Hn; simpl; [done|]. apply IH.
  destruct (same_id id id') eqn:Hd.
  - destruct (same_id_reads (run_op_apply o c id' s) _ _ Hd) as (_ & _ & ->).
    destruct (same_id_reads s _ _ Hd) as (_ & _ & Hl). apply op_numbered. by rewrite <-Hl.
  - by destruct (op_frame s o c id' id Hd) as (_ & _ & ->).
Qed.

Lemma life_step_cancel l o : life_cancel l = true → life_cancel (life_step l o) = true.
Proof.
  intros Hc. unfold life_step. destruct (storable o); [|done].
  destruct o; simpl; unfold with_status; repeat case_match; simpl; auto. by rewrite Hc.
Qed.

Lemma ops_cancel_monotone l s id r :
  GetRun s id = Some r →
  IsRunCancelRequested s id = true → IsRunCancelRequested (ops_apply l s) id = true.
Proof.
  intros Hr Hc. destruct (ops_scenario l s id r Hr) as (r' & Hr' & _).
  rewrite <-(life_of_cancel _ _ _ Hr'), ops_life.
  assert (life_cancel (life_of s id) = true) as H2 by (by rewrite (life_of_cancel _ _ _ Hr)).
  revert H2. generalize (life_of s id). clear Hr Hc Hr'. intros lf.
  match goal with |- context [fold_left life_step ?l _] => generalize l end. intros ops.
  revert lf. induction ops as [|o ops IH]; intros lf Hc; simpl; [done|].
  by apply IH, life_step_cancel.
Qed.
End Laws.

(** ** The rest of the [Store] interface

    The targets, the scenarios and the listings.  [st_CreateRun] returns the
    new record; its optional version reference is a list. *)
Class ApiStore (St : Type) `{RunStore St} := {
  st_CreateTarget : clock → TargetRecord → St → TargetRecord * St;
  st_ListTargets : St → list TargetRecord;
  st_GetTarget : St → string → option TargetRecord;
  st_UpdateTarget : clock → string → TargetRecord → St → option TargetRecord * St;
  st_DeleteTarget : string → St → bool * St;
  st_CreateScenario : clock → Scenario → St → ScenarioRecord * St;
  st_ListScenarios : St → list ScenarioRecord;
  st_GetScenario : St → string → option ScenarioRecord;
  st_UpdateScenario : clock → string → Scenario → St → option ScenarioRecord * St;
  st_ListScenarioVersions : St → string → list ScenarioVersionRecord;
  st_GetScenarioVersion : St → string → Z → option ScenarioVersionRecord;
  st_CreateRun : clock → string → string → Scenario → list ScenarioVersionRecord → St → RunRecord * St;
  st_ListRuns : St → list RunRecord;
}.
