(* ===== verification/PgTables.v ===== *)
(** * The Postgres store: tables and statements (src/apps/api/internal/store/postgres.go,
    src/deployments/postgres/migrations)

    The tables of the schema as finite maps from primary keys to rows, and the
    SQL statements of the store as functions on them.  A statement either fails
    ([None]) or returns its rows and the new state; the statements of one
    transaction compose with [let?], and fail together.

    What the server does with its types is a parameter ([PgTypes]): which texts
    it accepts as uuid and as text, and the values [gen_random_uuid()] draws.  A
    value kept in a jsonb column is of an abstract type ([PgColumns]); writing
    stands for [json.Marshal] followed by the conversion to jsonb, reading for
    [json.Unmarshal]. *)

From S2P Require Export Store.

Open Scope Z_scope.

Class PgTypes := {
  uuid_in : string → option string;     (* the canonical text of a uuid *)
  uuid_nth : N → string;                (* the values gen_random_uuid() draws, in turn *)
  text_in : string → bool;              (* valid UTF-8 without a zero byte *)
}.
Class PgColumns := {
  jsonb : Type;
  write_scenario : Scenario → option jsonb;
  read_scenario : jsonb → option Scenario;
  read_name : jsonb → option string;    (* into struct{ Name string } *)
  scenario_checksum : Scenario → string;
  write_headers : gmap string string → option jsonb;
  read_headers : jsonb → option (gmap string string);
  write_metadata : gmap string any → option jsonb;
  read_metadata : jsonb → option (gmap string any);
  write_summary : Summary → option jsonb;
  read_summary : jsonb → option Summary;
  write_checks : list CheckResult → option jsonb;
  read_checks : jsonb → option (list CheckResult);
  write_failures : list string → option jsonb;
  read_failures : jsonb → option (list string);
}.

(** Documented facts: the canonical text of a uuid is a text of it; what is
    drawn is canonical; ASCII without a zero byte is text; a struct's own
    encoding can be decoded; a map of one string can be encoded. *)
Class PgLaws `{PgTypes} `{PgColumns} := {
  uuid_in_canonical s u : uuid_in s = Some u → uuid_in u = Some u;
  uuid_nth_canonical n : uuid_in (uuid_nth n) = Some (uuid_nth n);
  text_in_ascii s : string_forall (in_range 1 127) s = true → text_in s = true;
  scenario_readable sc raw : write_scenario sc = Some raw → is_Some (read_scenario raw);
  status_writable st :
    isCancelableRunStatus st = true → is_Some (write_metadata {["status" := VString st]});
}.

(** A [timestamptz] has microseconds. *)
Definition to_micros (t : Time) : Time := t / 1000 * 1000.

Section Tables.
Context `{PT : PgTypes} `{PC : PgColumns}.

(** ** Rows *)
Record TargetRow := {
  tr_project : string;
  tr_name : string;
  tr_slug : string;
  tr_base_url : string;
  tr_environment : string;
  tr_description : string;
  tr_headers : jsonb;
  tr_created_at : Time;
  tr_updated_at : Time;
}.
Record ScenarioRow := {
  sr_project : string;
  sr_name : string;
  sr_slug : string;
  sr_description : string;
  sr_current_version : option string;
  sr_created_at : Time;
}.
Record VersionRow := {
  vr_scenario : string;
  vr_number : Z;
  vr_definition : jsonb;
  vr_checksum : string;
  vr_created_at : Time;
}.
Record RunRow := {
  rr_project : string;
  rr_target : option string;
  rr_scenario : option string;
  rr_version : option string;
  rr_status : RunStatus;
  rr_snapshot : jsonb;
  rr_error : option string;
  rr_created_at : Time;
  rr_started_at : option Time;
  rr_finished_at : option Time;
}.
Record EventRow := {
  er_id : string;
  er_sequence : Z;
  er_level : string;
  er_type : string;
  er_message : string;
  er_data : jsonb;
  er_created_at : Time;
}.
Record ReportRow := {
  pr_status : string;
  pr_summary : jsonb;
  pr_thresholds : jsonb;
  pr_invariants : jsonb;
  pr_failures : jsonb;
}.

(** The tables by primary key; the projects by their unique slug; the events by
    run, in the order of their sequence, and the reports by run ([run_id] is
    unique there).  [db_now] is the latest reading of the server's clock, which
    does not go back; [db_drawn] counts the uuids drawn. *)
Record DB := {
  db_now : Time;
  db_drawn : N;
  db_projects : gmap string string;
  db_targets : gmap string TargetRow;
  db_scenarios : gmap string ScenarioRow;
  db_versions : gmap string VersionRow;
  db_runs : gmap string RunRow;
  db_events : gmap string (list EventRow);
  db_reports : gmap string ReportRow;
}.
Definition empty_db : DB := Build_DB 0 0 ∅ ∅ ∅ ∅ ∅ ∅ ∅.

Definition set_now (t : Time) (db : DB) : DB :=
  Build_DB t (db_drawn db) (db_projects db) (db_targets db) (db_scenarios db) (db_versions db)
    (db_runs db) (db_events db) (db_reports db).
Definition set_drawn (n : N) (db : DB) : DB :=
  Build_DB (db_now db) n (db_projects db) (db_targets db) (db_scenarios db) (db_versions db)
    (db_runs db) (db_events db) (db_reports db).
Definition set_projects (m : gmap string string) (db : DB) : DB :=
  Build_DB (db_now db) (db_drawn db) m (db_targets db) (db_scenarios db) (db_versions db)
    (db_runs db) (db_events db) (db_reports db).
Definition set_targets (m : gmap string TargetRow) (db : DB) : DB :=
  Build_DB (db_now db) (db_drawn db) (db_projects db) m (db_scenarios db) (db_versions db)
    (db_runs db) (db_events db) (db_reports db).
Definition set_scenarios (m : gmap string ScenarioRow) (db : DB) : DB :=
  Build_DB (db_now db) (db_drawn db) (db_projects db) (db_targets db) m (db_versions db)
    (db_runs db) (db_events db) (db_reports db).
Definition set_versions (m : gmap string VersionRow) (db : DB) : DB :=
  Build_DB (db_now db) (db_drawn db) (db_projects db) (db_targets db) (db_scenarios db) m
    (db_runs db) (db_events db) (db_reports db).
Definition set_runs (m : gmap string RunRow) (db : DB) : DB :=
  Build_DB (db_now db) (db_drawn db) (db_projects db) (db_targets db) (db_scenarios db)
    (db_versions db) m (db_events db) (db_reports db).
Definition set_events (m : gmap string (list EventRow)) (db : DB) : DB :=
  Build_DB (db_now db) (db_drawn db) (db_projects db) (db_targets db) (db_scenarios db)
    (db_versions db) (db_runs db) m (db_reports db).
Definition set_reports (m : gmap string ReportRow) (db : DB) : DB :=
  Build_DB (db_now db) (db_drawn db) (db_projects db) (db_targets db) (db_scenarios db)
    (db_versions db) (db_runs db) (db_events db) m.

Definition events_of (db : DB) (run : string) : list EventRow := default [] (db_events db !! run).

(** ** Statements *)
Definition query (A : Type) : Type := DB → option (A * DB).
Definition q_ret {A} (a : A) : query A := λ db, Some (a, db).
Definition q_fail {A} : query A := λ _, None.
Definition q_bind {A B} (q : query A) (k : A → query B) : query B :=
  λ db, match q db with Some (a, db) => k a db | None => None end.
Definition q_get {A} (f : DB → A) : query A := λ db, Some (f db, db).
Definition q_option {A} (f : DB → option A) : query A :=
  λ db, match f db with Some a => Some (a, db) | None => None end.
Definition q_put (f : DB → DB) : query () := λ db, Some ((), f db).
Definition q_guard (b : DB → bool) : query () := λ db, if b db then Some ((), db) else None.
End Tables.

Declare Scope pg_scope.
Delimit Scope pg_scope with pg.
Notation "'let?' x := q 'in' k" := (q_bind q (λ x, k))
  (at level 10, x pattern, q at level 100, k at level 200) : pg_scope.
Notation "q1 ;? q2" := (q_bind q1 (λ _, q2)) (at level 199, right associativity) : pg_scope.
Open Scope pg_scope.

Section Statements.
Context `{PT : PgTypes} `{PC : PgColumns}.

(** *** Expressions and constraints *)

(** [now()], the start of the transaction. *)
Definition server_now (c : clock) : query Time :=
  λ db, let t := Z.max (db_now db) (to_micros (clk_now c)) in Some (t, set_now t db).
Definition gen_random_uuid : query string :=
  λ db, Some (uuid_nth (db_drawn db), set_drawn (db_drawn db + 1) db).
(** A parameter of type uuid, and of type text. *)
Definition uuid_arg (s : string) : query string := q_option (λ _, uuid_in s).
Definition text_args (l : list string) : query () := q_guard (λ _, forallb text_in l).
(** A jsonb parameter: a nil slice is NULL, which no column accepts. *)
Definition jsonb_arg (raw : option jsonb) : query jsonb := q_option (λ _, raw).
(** [PRIMARY KEY] and [REFERENCES]. *)
Definition primary_key {R} (table : DB → gmap string R) (id : string) : query () :=
  q_guard (λ db, bool_decide (table db !! id = None)).
Definition references {R} (table : DB → gmap string R) (id : string) : query () :=
  q_guard (λ db, bool_decide (is_Some (table db !! id))).
Definition project_exists (project : string) : query () :=
  q_guard (λ db, existsb (λ kv, String.eqb (snd kv) project) (map_to_list (db_projects db))).
(** A nullable reference. *)
Definition nullable_reference {R} (table : DB → gmap string R) (o : option string)
  : query (option string) :=
  match o with
  | None => q_ret None
  | Some s => let? u := uuid_arg s in references table u;? q_ret (Some u)
  end.
Definition slug_free {R} (table : DB → gmap string R) (key : R → string * string)
    (k : string * string) : query () :=
  q_guard (λ db, negb (existsb (λ kv, bool_decide (key (snd kv) = k)) (map_to_list (table db)))).
Definition version_number_max : Z := 2147483647.

(** *** Projects *)
Definition upsert_project (slug : string) : query string :=
  let? projects := q_get db_projects in
  match projects !! slug with
  | Some id => q_ret id
  | None =>
      let? id := gen_random_uuid in
      q_put (λ db, set_projects (<[slug := id]> (db_projects db)) db);?
      q_ret id
  end.

(** *** Targets *)
Definition environments : list string :=
  [TargetLocal; TargetDevelopment; TargetStaging; TargetProduction].
Definition put_target (id : string) (r : TargetRow) : query () :=
  q_put (λ db, set_targets (<[id := r]> (db_targets db)) db).

Definition insert_target (c : clock) (project slug : string) (t : TargetRecord) (raw : jsonb)
  : query (string * TargetRow) :=
  text_args [Tgt_Name t; slug; Tgt_BaseURL t; Tgt_Description t];?
  q_guard (λ _, string_in (Tgt_Environment t) environments);?
  project_exists project;?
  slug_free db_targets (λ r, (tr_project r, tr_slug r)) (project, slug);?
  let? now := server_now c in
  let? id := gen_random_uuid in
  primary_key db_targets id;?
  let r := Build_TargetRow project (Tgt_Name t) slug (Tgt_BaseURL t) (Tgt_Environment t)
             (Tgt_Description t) raw now now in
  put_target id r;?
  q_ret (id, r).
Definition update_target (c : clock) (project id : string) (t : TargetRecord) (raw : jsonb)
  : query (option (string * TargetRow)) :=
  let? u := uuid_arg id in
  text_args [Tgt_Name t; Tgt_BaseURL t; Tgt_Description t];?
  q_guard (λ _, string_in (Tgt_Environment t) environments);?
  let? now := server_now c in
  let? targets := q_get db_targets in
  match targets !! u with
  | Some r =>
      if String.eqb (tr_project r) project then
        let r := Build_TargetRow (tr_project r) (Tgt_Name t) (tr_slug r) (Tgt_BaseURL t)
                   (Tgt_Environment t) (Tgt_Description t) raw (tr_created_at r) now in
        put_target u r;?
        q_ret (Some (u, r))
      else q_ret None
  | None => q_ret None
  end.
(** The runs of a deleted target lose their reference ([ON DELETE SET NULL]). *)
Definition without_target (u : string) (r : RunRow) : RunRow :=
  Build_RunRow (rr_project r)
    (match rr_target r with
     | Some t => if String.eqb t u then None else Some t
     | None => None
     end)
    (rr_scenario r) (rr_version r) (rr_status r) (rr_snapshot r) (rr_error r) (rr_created_at r)
    (rr_started_at r) (rr_finished_at r).
Definition delete_target (project id : string) : query Z :=
  let? u := uuid_arg id in
  let? targets := q_get db_targets in
  match targets !! u with
  | Some r =>
      if String.eqb (tr_project r) project then
        q_put (λ db, set_targets (delete u (db_targets db))
                       (set_runs (without_target u <$> db_runs db) db));?
        q_ret 1
      else q_ret 0
  | None => q_ret 0
  end.
Definition select_target (project id : string) : query (option (string * TargetRow)) :=
  let? u := uuid_arg id in
  q_get (λ db, match db_targets db !! u with
               | Some r => if String.eqb (tr_project r) project then Some (u, r) else None
               | None => None
               end).

(** [ORDER BY created_at DESC]; rows of the same time come in some order. *)
Fixpoint insert_by {A} (before : A → A → bool) (x : A) (l : list A) : list A :=
  match l with
  | [] => [x]
  | y :: l' => if before x y then x :: l else y :: insert_by before x l'
  end.
Definition order_by {A} (before : A → A → bool) (l : list A) : list A :=
  foldr (insert_by before) [] l.
Definition newest_first {R} (created : R → Time) (l : list (string * R)) : list (string * R) :=
  order_by (λ x y, created (snd y) <=? created (snd x)) l.

Definition select_targets (project : string) : query (list (string * TargetRow)) :=
  q_get (λ db, newest_first tr_created_at
                 (List.filter (λ kr, String.eqb (tr_project (snd kr)) project)
                    (map_to_list (db_targets db)))).

(** *** Scenarios *)
Definition put_version (id : string) (r : VersionRow) : query () :=
  q_put (λ db, set_versions (<[id := r]> (db_versions db)) db).
Definition put_scenario (id : string) (r : ScenarioRow) : query () :=
  q_put (λ db, set_scenarios (<[id := r]> (db_scenarios db)) db).

Definition versions_of (db : DB) (u : string) : list (string * VersionRow) :=
  List.filter (λ kr, String.eqb (vr_scenario (snd kr)) u) (map_to_list (db_versions db)).

Definition insert_scenario (c : clock) (project slug : string) (sc : Scenario)
  : query (string * Time) :=
  text_args [Scenario_Name sc; slug; Scenario_Description sc];?
  project_exists project;?
  slug_free db_scenarios (λ r, (sr_project r, sr_slug r)) (project, slug);?
  let? now := server_now c in
  let? id := gen_random_uuid in
  primary_key db_scenarios id;?
  put_scenario id (Build_ScenarioRow project (Scenario_Name sc) slug (Scenario_Description sc)
                     None now);?
  q_ret (id, now).
Definition insert_version (c : clock) (scenario : string) (number : Z) (raw : jsonb)
    (checksum : string) : query string :=
  let? u := uuid_arg scenario in
  q_guard (λ _, number <=? version_number_max);?
  references db_scenarios u;?
  q_guard (λ db, negb (existsb (λ kr, vr_number (snd kr) =? number) (versions_of db u)));?
  let? now := server_now c in
  let? id := gen_random_uuid in
  primary_key db_versions id;?
  put_version id (Build_VersionRow u number raw checksum now);?
  q_ret id.
(** [UPDATE scenarios SET current_version_id = $1 WHERE id = $2]. *)
Definition set_current_version (id version : string) : query () :=
  let? u := uuid_arg id in
  let? v := uuid_arg version in
  references db_versions v;?
  q_put (λ db, set_scenarios
    (alter (λ r, Build_ScenarioRow (sr_project r) (sr_name r) (sr_slug r) (sr_description r)
                   (Some v) (sr_created_at r)) u (db_scenarios db)) db).
(** [UPDATE scenarios SET name, description, current_version_id ... RETURNING]. *)
Definition update_scenario (id : string) (sc : Scenario) (version : string)
  : query (option (string * Time)) :=
  let? u := uuid_arg id in
  let? v := uuid_arg version in
  text_args [Scenario_Name sc; Scenario_Description sc];?
  references db_versions v;?
  let? scenarios := q_get db_scenarios in
  match scenarios !! u with
  | Some r =>
      put_scenario u (Build_ScenarioRow (sr_project r) (Scenario_Name sc) (sr_slug r)
                        (Scenario_Description sc) (Some v) (sr_created_at r));?
      q_ret (Some (u, sr_created_at r))
  | None => q_ret None
  end.

(** [SELECT COALESCE(MAX(version_number), 0) + 1]. *)
Definition next_version_number (id : string) : query Z :=
  let? u := uuid_arg id in
  q_get (λ db, foldr Z.max 0 (map (λ kr, vr_number (snd kr)) (versions_of db u)) + 1).
(** A scenario joined with its current version. *)
Definition current_version (db : DB) (r : ScenarioRow) : option (string * VersionRow) :=
  v ← sr_current_version r;
  vr ← db_versions db !! v;
  Some (v, vr).
Definition select_scenario (id : string)
  : query (option (string * ScenarioRow * (string * VersionRow))) :=
  let? u := uuid_arg id in
  q_get (λ db, r ← db_scenarios db !! u;
               v ← current_version db r;
               Some (u, r, v)).
Definition select_scenarios (project : string)
  : query (list (string * ScenarioRow * (string * VersionRow))) :=
  q_get (λ db, omap (λ '(u, r), (λ v, (u, r, v)) <$> current_version db r)
                 (newest_first sr_created_at
                    (List.filter (λ kr, String.eqb (sr_project (snd kr)) project)
                       (map_to_list (db_scenarios db))))).
Definition select_versions (id : string) : query (list (string * VersionRow)) :=
  let? u := uuid_arg id in
  q_get (λ db, order_by (λ x y, vr_number (snd x) <=? vr_number (snd y)) (versions_of db u)).
Definition select_version (id : string) (number : Z) : query (option (string * VersionRow)) :=
  let? u := uuid_arg id in
  q_get (λ db, List.find (λ kr, vr_number (snd kr) =? number) (versions_of db u)).

(** *** Runs *)
Definition put_run (id : string) (r : RunRow) : query () :=
  q_put (λ db, set_runs (<[id := r]> (db_runs db)) db).

Definition insert_run (c : clock) (project : string) (target scenario version : option string)
    (raw : jsonb) : query (string * RunRow) :=
  project_exists project;?
  let? target := nullable_reference db_targets target in
  let? scenario := nullable_reference db_scenarios scenario in
  let? version := nullable_reference db_versions version in
  let? now := server_now c in
  let? id := gen_random_uuid in
  primary_key db_runs id;?
  let r := Build_RunRow project target scenario version RunQueued raw None now None None in
  put_run id r;?
  q_ret (id, r).

(** [UPDATE runs SET ... WHERE id = $1 AND status IN ('queued', 'running')], the
    number of rows; the table checks that a run does not finish before it
    starts. *)
Definition run_times_ok (r : RunRow) : bool :=
  match rr_started_at r, rr_finished_at r with
  | Some s, Some f => s <=? f
  | _, _ => true
  end.
Definition update_live_run (id : string) (f : RunRow → RunRow) : query Z :=
  let? u := uuid_arg id in
  let? runs := q_get db_runs in
  match runs !! u with
  | Some r =>
      if isCancelableRunStatus (rr_status r) then
        q_guard (λ _, run_times_ok (f r));?
        put_run u (f r);?
        q_ret 1
      else q_ret 0
  | None => q_ret 0
  end.
Definition start_run (now : Time) (r : RunRow) : RunRow :=
  Build_RunRow (rr_project r) (rr_target r) (rr_scenario r) (rr_version r) RunRunning
    (rr_snapshot r) (rr_error r) (rr_created_at r)
    (Some (default now (rr_started_at r))) (rr_finished_at r).
Definition finish_run (now : Time) (status : RunStatus) (error : option string) (r : RunRow)
  : RunRow :=
  Build_RunRow (rr_project r) (rr_target r) (rr_scenario r) (rr_version r) status
    (rr_snapshot r) error (rr_created_at r) (rr_started_at r) (Some now).
(** [NULLIF($3, '')]. *)
Definition nullif_empty (s : string) : option string :=
  if String.eqb s "" then None else Some s.

Definition upsert_report (id : string) (status : string)
    (summary thresholds invariants failures : option jsonb) : query () :=
  let? u := uuid_arg id in
  let? summary := jsonb_arg summary in
  let? thresholds := jsonb_arg thresholds in
  let? invariants := jsonb_arg invariants in
  let? failures := jsonb_arg failures in
  q_guard (λ _, isTerminalRunStatus status);?
  references db_runs u;?
  q_put (λ db, set_reports
    (<[u := Build_ReportRow status summary thresholds invariants failures]> (db_reports db)) db).

(** A run joined with the version it pins: the version's number, or zero. *)
Definition run_version_number (db : DB) (r : RunRow) : Z :=
  match rr_version r ≫= λ v, db_versions db !! v with
  | Some v => vr_number v
  | None => 0
  end.
Definition select_run (id : string) : query (option (string * RunRow * Z)) :=
  let? u := uuid_arg id in
  q_get (λ db, (λ r, (u, r, run_version_number db r)) <$> db_runs db !! u).
Definition select_report (id : string) : query (option ReportRow) :=
  let? u := uuid_arg id in
  q_get (λ db, db_reports db !! u).
(** The query asks for [runs.scenario_version_number], a column that the schema
    does not have: it always fails. *)
Definition select_run_version_column (id : string)
  : query (option (jsonb * option string * Z)) := q_fail.
Definition select_runs (project : string)
  : query (list (string * RunRow * Z * option ReportRow)) :=
  q_get (λ db, map (λ '(u, r), (u, r, run_version_number db r, db_reports db !! u))
                 (newest_first rr_created_at
                    (List.filter (λ kr, String.eqb (rr_project (snd kr)) project)
                       (map_to_list (db_runs db))))).

(** *** Events *)

(** [SELECT COALESCE(MAX(sequence), 0) + 1]. *)
Definition next_sequence (id : string) : query Z :=
  let? u := uuid_arg id in
  q_get (λ db, foldr Z.max 0 (map er_sequence (events_of db u)) + 1).
Definition insert_event (id : string) (sequence : Z) (level type message : string) (raw : jsonb)
    (created : Time) : query EventRow :=
  let? u := uuid_arg id in
  text_args [level; type; message];?
  references db_runs u;?
  let? eid := gen_random_uuid in
  let e := Build_EventRow eid sequence level type message raw (to_micros created) in
  q_put (λ db, set_events (<[u := events_of db u ++ [e]]> (db_events db)) db);?
  q_ret e.
Definition event_type_exists (id type : string) : query bool :=
  let? u := uuid_arg id in
  q_get (λ db, existsb (λ e, String.eqb (er_type e) type) (events_of db u)).
Definition select_events (id : string) : query (list (string * EventRow)) :=
  let? u := uuid_arg id in
  q_get (λ db, map (λ e, (u, e)) (events_of db u)).
(** [SELECT status::text FROM runs WHERE id = $1 FOR UPDATE]. *)
Definition select_status (id : string) : query (option RunStatus) :=
  let? u := uuid_arg id in
  q_get (λ db, rr_status <$> db_runs db !! u).
End Statements.
