(* ===== verification/Postgres.v ===== *)
(** * The Postgres store: operations (src/apps/api/internal/store/postgres.go)

    A method of the store is a program ([pg]) whose steps are the statements or
    transactions it sends to the server; after each it goes on according to what
    came back, [None] being an error.  A transaction is one step, the reads that
    take no lock excepted: its writes become visible together when it commits.

    [run] executes a program alone on a server that answers; what other
    processes do between two steps, and the failures of the connection, are in
    PgFaults.v. *)

From S2P Require Export PgTables.
From Stdlib Require Import Ascii.

Open Scope Z_scope.
Open Scope pg_scope.

Section Programs.
Context `{PT : PgTypes} `{PC : PgColumns}.

Inductive pg (A : Type) : Type :=
| Ret (a : A)
| Stmt {R : Type} (q : query R) (k : option R → pg A).
Arguments Ret {_} _.
Arguments Stmt {_ _} _ _.

Fixpoint pg_bind {A B} (p : pg A) (k : A → pg B) : pg B :=
  match p with
  | Ret a => k a
  | Stmt q k' => Stmt q (λ r, pg_bind (k' r) k)
  end.
(** Alone, with a server that answers. *)
Fixpoint run {A} (p : pg A) (db : DB) : A * DB :=
  match p with
  | Ret a => (a, db)
  | Stmt q k =>
      match q db with
      | Some (r, db) => run (k (Some r)) db
      | None => run (k None) db
      end
  end.

(** [if err != nil { return other }]. *)
Definition ask {A R} (q : query R) (other : A) (k : R → pg A) : pg A :=
  Stmt q (λ r, match r with Some r => k r | None => Ret other end).
End Programs.
Arguments Ret {_ _} _.
Arguments Stmt {_ _ _} _ _.

Section Operations.
Context `{UT : UnicodeTables} `{PT : PgTypes} `{PC : PgColumns}.
Variable project : string.

(** ** Slugs *)
Definition slug_byte (c : ascii) : bool := is_lower c || is_digit c.
(** [nonSlugChars.ReplaceAllString(base, "-")]: every run of other bytes. *)
Fixpoint replace_runs (in_run : bool) (s : string) : string :=
  match s with
  | "" => ""
  | String c r =>
      if slug_byte c then String c (replace_runs false r)
      else if in_run then replace_runs true r else "-" +:+ replace_runs true r
  end.
Fixpoint trim_left_dash (s : string) : string :=
  match s with
  | String c r => if Ascii.eqb c "-"%char then trim_left_dash r else s
  | "" => ""
  end.
Definition trim_dash (s : string) : string :=
  string_rev (trim_left_dash (string_rev (trim_left_dash s))).
Definition uniqueSlug (now : Time) (value : string) : string :=
  let base := trim_dash (replace_runs false (ToLower (TrimSpace value))) in
  (if String.eqb base "" then "scenario" else base) +:+ "-" +:+ Itoa now.

(** [marshalScenario]. *)
Definition marshalScenario (sc : Scenario) : option (jsonb * string) :=
  raw ← write_scenario sc; Some (raw, scenario_checksum sc).

(** ** Projects *)
Definition defaultProjectSlug : string := "default".
Definition ensureDefaultProject : pg (option string) :=
  Stmt (upsert_project defaultProjectSlug) (λ r, Ret r).
(** [NewPostgres]: the errors of [sql.Open] and [Ping] come first. *)
Definition NewPostgres (open_error ping_error : option string) : pg (option string) :=
  match open_error, ping_error with
  | None, None => ensureDefaultProject
  | _, _ => Ret None
  end.

(** ** Targets *)
Definition zero_TargetRecord : TargetRecord :=
  Build_TargetRecord "" "" "" "" "" None zero_time zero_time.
Definition target_record (kr : string * TargetRow) : TargetRecord :=
  let '(id, r) := kr in
  Build_TargetRecord id (tr_name r) (tr_base_url r) (tr_environment r) (tr_description r)
    (read_headers (tr_headers r)) (tr_created_at r) (tr_updated_at r).

Definition pg_CreateTarget (c : clock) (target : TargetRecord) : pg TargetRecord :=
  match write_headers (default ∅ (Tgt_Headers target)) with
  | None => Ret zero_TargetRecord
  | Some raw =>
      ask (insert_target c project (uniqueSlug (clk_now c) (Tgt_Name target)) target raw)
        zero_TargetRecord (λ kr, Ret (target_record kr))
  end.
Definition pg_UpdateTarget (c : clock) (id : string) (target : TargetRecord)
  : pg (option TargetRecord) :=
  match write_headers (default ∅ (Tgt_Headers target)) with
  | None => Ret None
  | Some raw =>
      ask (update_target c project id target raw) None (λ kr, Ret (target_record <$> kr))
  end.
Definition pg_DeleteTarget (id : string) : pg bool :=
  ask (delete_target project id) false (λ rows, Ret (0 <? rows)).
Definition pg_GetTarget (id : string) : pg (option TargetRecord) :=
  ask (select_target project id) None (λ kr, Ret (target_record <$> kr)).
Definition pg_ListTargets : pg (list TargetRecord) :=
  ask (select_targets project) [] (λ rows, Ret (map target_record rows)).

(** ** Scenarios *)
Definition zero_ScenarioRecord : ScenarioRecord :=
  Build_ScenarioRecord "" zero_Scenario "" 0 zero_time.
Definition scenario_record (row : string * ScenarioRow * (string * VersionRow))
  : option ScenarioRecord :=
  let '(id, r, (v, vr)) := row in
  sc ← read_scenario (vr_definition vr);
  Some (Build_ScenarioRecord id sc v (vr_number vr) (sr_created_at r)).
Definition version_record (row : string * VersionRow) : option ScenarioVersionRecord :=
  let '(v, vr) := row in
  sc ← read_scenario (vr_definition vr);
  Some (Build_ScenarioVersionRecord v (vr_scenario vr) (vr_number vr) sc (vr_created_at vr)).

Definition create_scenario_tx (c : clock) (sc : Scenario) (raw : jsonb) (checksum : string)
  : query (string * Time * string) :=
  let? (id, created) :=
    insert_scenario c project (uniqueSlug (clk_now c) (Scenario_Name sc)) sc in
  let? version := insert_version c id 1 raw checksum in
  set_current_version id version;?
  q_ret (id, created, version).
Definition pg_CreateScenario (c : clock) (sc : Scenario) : pg ScenarioRecord :=
  match marshalScenario sc with
  | None => Ret zero_ScenarioRecord
  | Some (raw, checksum) =>
      ask (create_scenario_tx c sc raw checksum) zero_ScenarioRecord
        (λ '(id, created, version), Ret (Build_ScenarioRecord id sc version 1 created))
  end.

Definition update_scenario_tx (c : clock) (id : string) (sc : Scenario) (number : Z)
    (raw : jsonb) (checksum : string) : query (string * string * Time) :=
  let? version := insert_version c id number raw checksum in
  let? row := update_scenario id sc version in
  match row with
  | Some (u, created) => q_ret (version, u, created)
  | None => q_fail
  end.
Definition pg_UpdateScenario (c : clock) (id : string) (sc : Scenario)
  : pg (option ScenarioRecord) :=
  match marshalScenario sc with
  | None => Ret None
  | Some (raw, checksum) =>
      ask (next_version_number id) None (λ number,
        if number =? 1 then Ret None
        else ask (update_scenario_tx c id sc number raw checksum) None
               (λ '(version, u, created),
                  Ret (Some (Build_ScenarioRecord u sc version number created))))
  end.

Definition pg_GetScenario (id : string) : pg (option ScenarioRecord) :=
  ask (select_scenario id) None (λ row, Ret (row ≫= scenario_record)).
Definition pg_ListScenarios : pg (list ScenarioRecord) :=
  ask (select_scenarios project) [] (λ rows, Ret (default [] (mapM scenario_record rows))).
Definition pg_ListScenarioVersions (id : string) : pg (list ScenarioVersionRecord) :=
  ask (select_versions id) [] (λ rows, Ret (default [] (mapM version_record rows))).
Definition pg_GetScenarioVersion (id : string) (number : Z)
  : pg (option ScenarioVersionRecord) :=
  ask (select_version id number) None (λ row, Ret (row ≫= version_record)).
Definition currentScenarioVersion (id : string) : pg (option (string * Z)) :=
  ask (select_scenario id) None
    (λ row, Ret ((λ '(_, _, (v, vr)), (v, vr_number vr)) <$> row)).

(** ** Events *)
Definition stamp_row_event (now : Time) (runID : string) (event : Event) : Event :=
  Build_Event (Event_ID event)
    (if String.eqb (Event_RunID event) "" then runID else Event_RunID event)
    (Event_Sequence event)
    (if String.eqb (Event_Level event) "" then LevelInfo else Event_Level event)
    (Event_Type event) (Event_Message event) (Event_Metadata event)
    (if Event_CreatedAt event =? zero_time then now else Event_CreatedAt event).
Definition append_event_tx (runID : string) (event : Event) (raw : jsonb) : query EventRow :=
  let? sequence := next_sequence runID in
  insert_event runID sequence (Event_Level event) (Event_Type event) (Event_Message event) raw
    (Event_CreatedAt event).
Definition pg_AppendRunEvent (c : clock) (runID : string) (event : Event) : pg Event :=
  let event := stamp_row_event (clk_event c) runID event in
  let metadata := default ∅ (Event_Metadata event) in
  match write_metadata metadata with
  | None => Ret event
  | Some raw =>
      ask (append_event_tx runID event raw) event (λ row,
        Ret (Build_Event (er_id row) (Event_RunID event) (er_sequence row) (Event_Level event)
               (Event_Type event) (Event_Message event) (Some metadata) (er_created_at row)))
  end.
(** An event whose metadata cannot be decoded is listed without. *)
Definition row_event (kr : string * EventRow) : Event :=
  let '(runID, e) := kr in
  Build_Event (er_id e) runID (er_sequence e) (er_level e) (er_type e) (er_message e)
    (read_metadata (er_data e)) (er_created_at e).
Definition pg_ListRunEvents (runID : string) : pg (list Event) :=
  ask (select_events runID) [] (λ rows, Ret (map row_event rows)).
Definition pg_IsRunCancelRequested (id : string) : pg bool :=
  ask (event_type_exists id TypeCancelRequested) false (λ b, Ret b).
Definition then_event {A} (c : clock) (id : string) (e : Event) (a : A) : pg A :=
  pg_bind (pg_AppendRunEvent c id e) (λ _, Ret a).

(** ** Runs *)
Definition zero_run : RunRecord :=
  Build_RunRecord "" "" "" "" 0 "" zero_Scenario None "" zero_time None None.
Definition run_record (row : string * RunRow * Z) : option RunRecord :=
  let '(id, r, number) := row in
  sc ← read_scenario (rr_snapshot r);
  Some (Build_RunRecord id (default "" (rr_target r)) (default "" (rr_scenario r))
          (default "" (rr_version r)) number (rr_status r) sc None (default "" (rr_error r))
          (rr_created_at r) (rr_started_at r) (rr_finished_at r)).
Definition pg_getRun (id : string) : pg (option RunRecord) :=
  ask (select_run id) None (λ row, Ret (row ≫= run_record)).

(** The report of a row: what cannot be decoded is left at its zero value. *)
Definition row_report (runID scenario version : string) (number : Z) (r : ReportRow) : Report :=
  Build_Report runID scenario version number (pr_status r) zero_time zero_time f0
    (default zero_Summary (read_summary (pr_summary r)))
    (default [] (read_checks (pr_thresholds r)))
    (default [] (read_checks (pr_invariants r)))
    (default [] (read_failures (pr_failures r))) [].
Definition pg_getReport (runID : string) : pg (option Report) :=
  ask (select_report runID) None (λ row,
    match row with
    | None => Ret None
    | Some r =>
        Stmt (select_run_version_column runID) (λ res,
          Ret (Some match res with
                    | Some (Some (snapshot, Some version, number)) =>
                        row_report runID (default "" (read_name snapshot)) version number r
                    | _ => row_report runID "" "" 0 r
                    end))
    end).
Definition with_report (rep : option Report) (r : RunRecord) : RunRecord :=
  Build_RunRecord (Run_ID r) (Run_TargetID r) (Run_ScenarioID r) (Run_ScenarioVersionID r)
    (Run_ScenarioVersionNumber r) (Run_Status r) (Run_Scenario r) rep (Run_Error r)
    (Run_CreatedAt r) (Run_StartedAt r) (Run_FinishedAt r).
Definition pg_GetRun (id : string) : pg (option RunRecord) :=
  pg_bind (pg_getRun id) (λ record,
    match record with
    | None => Ret None
    | Some record => pg_bind (pg_getReport id) (λ rep, Ret (Some (with_report rep record)))
    end).

Definition listed_run (row : string * RunRow * Z * option ReportRow) : option RunRecord :=
  let '(id, r, number, rep) := row in
  record ← run_record (id, r, number);
  Some (with_report
          ((λ p, row_report id (default "" (read_name (rr_snapshot r)))
                   (default "" (rr_version r)) number p) <$> rep) record).
Definition pg_ListRuns : pg (list RunRecord) :=
  ask (select_runs project) [] (λ rows, Ret (default [] (mapM listed_run rows))).

(** What [CreateRun] passes for the scenario and the version. *)
Definition run_references (scenarioID : string) (versionRef : list ScenarioVersionRecord)
  : pg (option string * option string * Z) :=
  match versionRef with
  | version :: _ =>
      let resolved := if String.eqb scenarioID "" then Scv_ScenarioID version else scenarioID in
      Ret (nullif_empty resolved, Some (Scv_ID version), Scv_VersionNumber version)
  | [] =>
      if String.eqb scenarioID "" then Ret (None, None, 0)
      else pg_bind (currentScenarioVersion scenarioID) (λ v,
             match v with
             | Some (versionID, number) => Ret (Some scenarioID, Some versionID, number)
             | None => Ret (None, None, 0)
             end)
  end.
Definition queued_row_event (r : RunRecord) (sc : Scenario) : Event :=
  new_event LevelInfo TypeRunQueued "run queued"
    (meta [("scenario_id", VString (Run_ScenarioID r));
           ("scenario_version_id", VString (Run_ScenarioVersionID r));
           ("scenario_version_number", VInt (Run_ScenarioVersionNumber r));
           ("scenario", VString (Scenario_Name sc));
           ("target_id", VString (Run_TargetID r))]).
Definition pg_CreateRun (c : clock) (scenarioID targetID : string) (sc : Scenario)
    (versionRef : list ScenarioVersionRecord) : pg RunRecord :=
  match marshalScenario sc with
  | None => Ret zero_run
  | Some (raw, _) =>
      pg_bind (run_references scenarioID versionRef) (λ '(scenario, version, number),
        ask (insert_run c project (nullif_empty targetID) scenario version raw) zero_run
          (λ '(id, r),
             let record :=
               Build_RunRecord id (default "" (rr_target r)) (default "" (rr_scenario r))
                 (default "" (rr_version r)) number (rr_status r) sc None ""
                 (rr_created_at r) None None in
             then_event c id (queued_row_event record sc) record))
  end.

Definition pg_MarkRunStarted (c : clock) (id : string) : pg () :=
  ask (let? now := server_now c in update_live_run id (start_run now)) () (λ rows,
    if rows =? 0 then Ret ()
    else then_event c id (new_event LevelInfo TypeRunStarted "run started" None) ()).

Definition finish_run_tx (c : clock) (id : string) (status : RunStatus) (errorMessage : string)
    (rep : Report) : query bool :=
  text_args [errorMessage];?
  let? now := server_now c in
  let? rows := update_live_run id (finish_run now status (nullif_empty errorMessage)) in
  if rows =? 0 then q_ret false
  else
    upsert_report id status (write_summary (Report_Summary rep))
      (write_checks (Report_Thresholds rep)) (write_checks (Report_Invariants rep))
      (write_failures (Report_Failures rep));?
    q_ret true.
(** The version that [getRun] finds is put into the report, but no column of the
    report keeps it. *)
Definition finishRunWithReport (c : clock) (id : string) (status : RunStatus) (rep : Report)
    (errorMessage : string) : pg bool :=
  pg_bind (pg_getRun id) (λ found,
    let rep := match found with
               | Some r => stamp_report r (Report_Status rep) rep
               | None => rep
               end in
    ask (finish_run_tx c id status errorMessage rep) false (λ b, Ret b)).

Definition completed_row_event (status : RunStatus) (rep : Report) : Event :=
  let failed := String.eqb status RunFailed in
  new_event (if failed then LevelError else LevelInfo)
    (if failed then TypeRunFailed else TypeRunCompleted)
    (if failed then "run failed" else "run completed")
    (meta [("status", VString status);
           ("total_requests", VInt (TotalRequests (Report_Summary rep)));
           ("failed_requests", VInt (FailedRequests (Report_Summary rep)));
           ("failures", VStrings (Report_Failures rep))]).
Definition pg_CompleteRun (c : clock) (id : string) (rep : Report) : pg () :=
  let status := verdict_status rep in
  pg_bind (finishRunWithReport c id status rep "") (λ b : bool,
    if b then then_event c id (completed_row_event status rep) () else Ret ()).
Definition pg_CancelRun (c : clock) (id : string) (rep : Report) : pg () :=
  pg_bind (finishRunWithReport c id RunCanceled rep "run canceled") (λ b : bool,
    if b then then_event c id
                (new_event LevelWarn TypeRunCanceled "run canceled"
                   (meta [("failures", VStrings (Report_Failures rep))])) ()
    else Ret ()).
Definition pg_ErrorRun (c : clock) (id : string) (message : string) : pg () :=
  ask (text_args [message];?
       let? now := server_now c in
       update_live_run id (finish_run now RunErrored (Some message))) () (λ rows,
    if rows =? 0 then Ret ()
    else then_event c id (new_event LevelError TypeRunFailed message None) ()).

(** The transaction holds the row of the run from its first statement on. *)
Definition request_cancel_tx (c : clock) (id : string) : query bool :=
  let? status := select_status id in
  match status with
  | None => q_fail
  | Some status =>
      if negb (isCancelableRunStatus status) then q_ret false
      else
        let? already := event_type_exists id TypeCancelRequested in
        if already : bool then q_ret true
        else
          let? sequence := next_sequence id in
          let? raw := jsonb_arg (write_metadata {["status" := VString status]}) in
          insert_event id sequence LevelWarn TypeCancelRequested "run cancellation requested" raw
            (clk_event c);?
          q_ret true
  end.
Definition pg_RequestRunCancel (c : clock) (id : string) : pg bool :=
  ask (request_cancel_tx c id) false (λ b, Ret b).
End Operations.
