(* ===== verification/PgLaws.v ===== *)
(** * The Postgres store: invariant and evolution

    [DBOk] is what the tables satisfy, [evolves] what a statement may do to
    them; [good] says that a statement, when it succeeds, keeps the one and does
    the other.  Every statement of the store is good; so is every program, alone
    or interrupted (PgFaults.v).  A run's status moves along [status_step]. *)

From S2P Require Export Postgres.

Open Scope Z_scope.
Open Scope pg_scope.

#[local] Arguments isTerminalRunStatus : simpl never.
#[local] Arguments isCancelableRunStatus : simpl never.

Section Laws.
Context `{PT : PgTypes} `{PC : PgColumns}.

(** ** The invariant *)
Definition run_statuses : list RunStatus :=
  [RunQueued; RunRunning; RunPassed; RunFailed; RunErrored; RunCanceled].
Record RunOk (now : Time) (r : RunRow) : Prop := {
  ro_status : rr_status r ∈ run_statuses;
  ro_snapshot : is_Some (read_scenario (rr_snapshot r));
  ro_started s : rr_started_at r = Some s → s ≤ now;
  ro_live : isCancelableRunStatus (rr_status r) = true → rr_finished_at r = None;
  ro_ended : isTerminalRunStatus (rr_status r) = true → is_Some (rr_finished_at r);
}.
Definition NumberedRows (rows : list EventRow) : Prop :=
  ∀ i e, rows !! i = Some e → er_sequence e = Z.of_nat i + 1.
Record DBOk (db : DB) : Prop := {
  ok_run u r : db_runs db !! u = Some r → uuid_in u = Some u ∧ RunOk (db_now db) r;
  ok_events u rows : db_events db !! u = Some rows → is_Some (db_runs db !! u) ∧ NumberedRows rows;
  ok_report u p :
    db_reports db !! u = Some p →
    ∃ r, db_runs db !! u = Some r ∧ isTerminalRunStatus (rr_status r) = true
         ∧ pr_status p = rr_status r;
  ok_version v r : db_versions db !! v = Some r → is_Some (db_scenarios db !! vr_scenario r);
  ok_version_unique v v' r r' :
    db_versions db !! v = Some r → db_versions db !! v' = Some r' →
    vr_scenario r = vr_scenario r' → vr_number r = vr_number r' → v = v';
}.

Lemma empty_ok : DBOk empty_db.
Proof. split; intros *; cbn; rewrite lookup_empty; done. Qed.

(** ** Evolution *)
Inductive status_step : relation RunStatus :=
| step_started st : isCancelableRunStatus st = true → status_step st RunRunning
| step_ended st st' :
    isCancelableRunStatus st = true → isTerminalRunStatus st' = true → status_step st st'.

(** A run keeps what it was created with; once ended it only loses the reference
    to a target that is deleted. *)
Record run_evolves (r r' : RunRow) : Prop := {
  re_project : rr_project r' = rr_project r;
  re_scenario : rr_scenario r' = rr_scenario r;
  re_version : rr_version r' = rr_version r;
  re_snapshot : rr_snapshot r' = rr_snapshot r;
  re_created : rr_created_at r' = rr_created_at r;
  re_target : rr_target r' = rr_target r ∨ rr_target r' = None;
  re_status : rtc status_step (rr_status r) (rr_status r');
  re_ended :
    isTerminalRunStatus (rr_status r) = true →
    rr_error r' = rr_error r ∧ rr_started_at r' = rr_started_at r
    ∧ rr_finished_at r' = rr_finished_at r;
}.
Record evolves (db db' : DB) : Prop := {
  ev_now : db_now db ≤ db_now db';
  ev_run u r : db_runs db !! u = Some r → ∃ r', db_runs db' !! u = Some r' ∧ run_evolves r r';
  ev_report u r :
    db_runs db !! u = Some r → isTerminalRunStatus (rr_status r) = true →
    db_reports db' !! u = db_reports db !! u;
  ev_events u : ∃ es, events_of db' u = events_of db u ++ es;
  ev_version v r : db_versions db !! v = Some r → db_versions db' !! v = Some r;
  ev_scenario s r :
    db_scenarios db !! s = Some r →
    ∃ r', db_scenarios db' !! s = Some r' ∧ sr_created_at r' = sr_created_at r;
}.

Lemma terminal_not_cancelable st :
  isTerminalRunStatus st = true → isCancelableRunStatus st = false.
Proof.
  intros Ht. destruct (isCancelableRunStatus st) eqn:Hc; [|done].
  by rewrite (cancelable_not_terminal st Hc) in Ht.
Qed.
(** A status that has ended stays. *)
Lemma status_ended st st' :
  isTerminalRunStatus st = true → rtc status_step st st' → st' = st.
Proof.
  intros Ht H. destruct H as [|st st1 st' Hs _]; [done|].
  apply terminal_not_cancelable in Ht. destruct Hs; congruence.
Qed.

#[export] Instance run_evolves_preorder : PreOrder run_evolves.
Proof.
  split.
  - intros r. split; try done. by left.
  - intros r1 r2 r3 [] []. split; try congruence.
    + destruct re_target1 as [-> | ->]; [done|by right].
    + by etrans.
    + intros Ht. destruct (re_ended0 Ht) as (E1 & E2 & E3).
      rewrite <-(status_ended _ _ Ht re_status0) in Ht.
      destruct (re_ended1 Ht) as (F1 & F2 & F3). split_and!; congruence.
Qed.
#[export] Instance evolves_preorder : PreOrder evolves.
Proof.
  split.
  - intros db. split; try done.
    + intros u r Hr. by exists r.
    + intros u. exists []. by rewrite app_nil_r.
    + intros s r Hr. by exists r.
  - intros db1 db2 db3 [] []. split.
    + lia.
    + intros u r Hr. destruct (ev_run0 u r Hr) as (r2 & Hr2 & H12).
      destruct (ev_run1 u r2 Hr2) as (r3 & Hr3 & H23). exists r3. split; [done|by etrans].
    + intros u r Hr Ht. destruct (ev_run0 u r Hr) as (r2 & Hr2 & H12).
      assert (isTerminalRunStatus (rr_status r2) = true) as Ht2
        by (by rewrite (status_ended _ _ Ht (re_status _ _ H12))).
      rewrite (ev_report1 u r2 Hr2 Ht2). by eapply ev_report0.
    + intros u. destruct (ev_events0 u) as [es1 He1], (ev_events1 u) as [es2 He2].
      exists (es1 ++ es2). by rewrite He2, He1, app_assoc.
    + eauto.
    + intros s r Hr. destruct (ev_scenario0 s r Hr) as (r2 & Hr2 & H12).
      destruct (ev_scenario1 s r2 Hr2) as (r3 & Hr3 & H23). exists r3. split; [done|congruence].
Qed.

(** ** Statements *)
Definition good {A} (q : query A) : Prop :=
  ∀ db a db', DBOk db → q db = Some (a, db') → DBOk db' ∧ evolves db db'.

Lemma q_bind_Some {A B} (q : query A) (k : A → query B) db b db' :
  q_bind q k db = Some (b, db') → ∃ a db1, q db = Some (a, db1) ∧ k a db1 = Some (b, db').
Proof. unfold q_bind. destruct (q db) as [[a db1]|]; [|done]. eauto. Qed.
Lemma good_bind {A B} (q : query A) (k : A → query B) :
  good q → (∀ a, good (k a)) → good (q_bind q k).
Proof.
  intros Hq Hk db b db' Hok (a & db1 & H1 & H2)%q_bind_Some.
  destruct (Hq _ _ _ Hok H1) as [Hok1 He1]. destruct (Hk _ _ _ _ Hok1 H2) as [Hok2 He2].
  split; [done|by etrans].
Qed.
(** Statements that only read. *)
Lemma good_same {A} (q : query A) :
  (∀ db a db', q db = Some (a, db') → db' = db) → good q.
Proof. intros H db a db' Hok ->%H. done. Qed.
Lemma good_ret {A} (a : A) : good (q_ret a).
Proof. apply good_same. by intros ? ? ? [= _ <-]. Qed.
Lemma good_fail {A} : good (q_fail (A := A)).
Proof. by intros ? ? ?. Qed.
Lemma good_get {A} (f : DB → A) : good (q_get f).
Proof. apply good_same. by intros ? ? ? [= _ <-]. Qed.
Lemma good_option {A} (f : DB → option A) : good (q_option f).
Proof. apply good_same. intros db a db'. unfold q_option. destruct (f db); by intros [= _ <-]. Qed.
Lemma good_guard b : good (q_guard b).
Proof. apply good_same. intros db a db'. unfold q_guard. destruct (b db); by intros [= _ <-]. Qed.
Lemma good_uuid_arg s : good (uuid_arg s).
Proof. apply good_option. Qed.
Lemma good_text_args l : good (text_args l).
Proof. apply good_guard. Qed.
Lemma good_jsonb_arg o : good (jsonb_arg o).
Proof. apply good_option. Qed.
Lemma good_primary_key {R} (t : DB → gmap string R) id : good (primary_key t id).
Proof. apply good_guard. Qed.
Lemma good_references {R} (t : DB → gmap string R) id : good (references t id).
Proof. apply good_guard. Qed.
Lemma good_project_exists p : good (project_exists p).
Proof. apply good_guard. Qed.
Lemma good_slug_free {R} (t : DB → gmap string R) key k : good (slug_free t key k).
Proof. apply good_guard. Qed.

Lemma RunOk_now t t' r : t ≤ t' → RunOk t r → RunOk t' r.
Proof. intros Ht []. split; try done. intros s Hs. specialize (ro_started0 s Hs). lia. Qed.

(** The tables of runs, events, reports and versions stay; no scenario goes. *)
Lemma ok_frame db db' :
  DBOk db → db_now db ≤ db_now db' → db_runs db' = db_runs db → db_events db' = db_events db →
  db_reports db' = db_reports db → db_versions db' = db_versions db →
  (∀ s r, db_scenarios db !! s = Some r →
          ∃ r', db_scenarios db' !! s = Some r' ∧ sr_created_at r' = sr_created_at r) →
  DBOk db' ∧ evolves db db'.
Proof.
  intros [H1 H2 H3 H4 H5] Hn Er Ee Ep Ev Hs. split; split; unfold events_of;
    rewrite ?Er, ?Ee, ?Ep, ?Ev; try done.
  - intros u r Hr. destruct (H1 u r Hr). split; [done|by eapply RunOk_now].
  - intros v r Hv. destruct (H4 v r Hv) as [sr Hsr]. destruct (Hs _ _ Hsr) as (r' & Hr' & _). eauto.
  - intros u r Hr. by exists r.
  - intros u. exists []. by rewrite app_nil_r.
Qed.
Lemma good_frame {A} (q : query A) :
  (∀ db a db', q db = Some (a, db') →
     db_now db ≤ db_now db' ∧ db_runs db' = db_runs db ∧ db_events db' = db_events db
     ∧ db_reports db' = db_reports db ∧ db_versions db' = db_versions db
     ∧ db_scenarios db' = db_scenarios db) → good q.
Proof.
  intros H db a db' Hok Hq. destruct (H _ _ _ Hq) as (Hn & Er & Ee & Ep & Ev & Es).
  apply ok_frame; try done. intros s r. rewrite Es. eauto.
Qed.
Lemma good_now c : good (server_now c).
Proof. apply good_frame. intros db a db' [= <- <-]. cbn. split_and!; (done || lia). Qed.
Lemma good_uuid : good gen_random_uuid.
Proof. apply good_frame. intros db a db' [= <- <-]. cbn. split_and!; (done || lia). Qed.
Lemma good_put_target id r : good (put_target id r).
Proof. apply good_frame. intros db a db' [= <- <-]. cbn. split_and!; (done || lia). Qed.
End Laws.

Create HintDb pg discriminated.
#[export] Hint Resolve good_ret good_fail good_get good_option good_guard good_uuid_arg
  good_text_args good_jsonb_arg good_primary_key good_references good_project_exists
  good_slug_free good_now good_uuid good_put_target : pg.
(** A statement made of good parts. *)
Ltac good_step :=
  lazymatch goal with
  | |- good (q_bind _ _) => apply good_bind; [|intros ?]
  | |- good (match ?x with _ => _ end) => destruct x
  | |- good (let '_ := ?x in _) => destruct x
  | |- good _ => solve [auto with pg]
  end.
Ltac good_auto := repeat good_step.

Section Statements.
Context `{PT : PgTypes} `{PC : PgColumns} {PL : PgLaws}.

Lemma good_upsert_project slug : good (upsert_project slug).
Proof.
  unfold upsert_project. good_auto. apply good_frame. intros db x db' [= <- <-]. cbn.
  split_and!; (done || lia).
Qed.
Lemma good_insert_target c project slug t raw : good (insert_target c project slug t raw).
Proof. unfold insert_target. good_auto. Qed.
Lemma good_update_target c project id t raw : good (update_target c project id t raw).
Proof. unfold update_target. good_auto. Qed.
Lemma good_select_target project id : good (select_target project id).
Proof. unfold select_target. good_auto. Qed.
Lemma good_select_targets project : good (select_targets project).
Proof. unfold select_targets. good_auto. Qed.

(** *** A target goes *)
Lemma without_target_ok now u r : RunOk now r → RunOk now (without_target u r).
Proof. by intros []. Qed.
Lemma without_target_evolves u r : run_evolves r (without_target u r).
Proof.
  split; try done. cbn. destruct (rr_target r) as [t|]; [|by left].
  destruct (String.eqb t u); [by right|by left].
Qed.
Lemma good_delete_target project id : good (delete_target project id).
Proof.
  unfold delete_target. good_auto. intros db x db' [H1 H2 H3 H4 H5] [= <- <-].
  split; split; cbn; try done.
  - intros v r. rewrite lookup_fmap. intros (r0 & Hr & ->)%fmap_Some.
    destruct (H1 v r0 Hr). split; [done|by apply without_target_ok].
  - intros v rows Hv. destruct (H2 v rows Hv) as [[r Hr] ?]. split; [|done].
    rewrite lookup_fmap, Hr. by eexists.
  - intros v p Hp. destruct (H3 v p Hp) as (r & Hr & Ht & Hs).
    exists (without_target a r). by rewrite lookup_fmap, Hr.
  - intros v r Hr. exists (without_target a r). rewrite lookup_fmap, Hr.
    split; [done|apply without_target_evolves].
  - intros v. exists []. by rewrite app_nil_r.
  - intros s r Hr. by exists r.
Qed.

(** *** Scenarios and versions *)
Lemma put_scenario_frame db id r :
  DBOk db →
  (∀ r0, db_scenarios db !! id = Some r0 → sr_created_at r = sr_created_at r0) →
  let db' := set_scenarios (<[id := r]> (db_scenarios db)) db in
  DBOk db' ∧ evolves db db'.
Proof.
  intros Hok Hr db'. apply ok_frame; try done. cbn. intros s r0 Hs.
  destruct (decide (s = id)) as [->|Hne].
  - exists r. rewrite lookup_insert_eq. eauto.
  - exists r0. by rewrite lookup_insert_ne.
Qed.
Lemma good_insert_scenario c project slug sc : good (insert_scenario c project slug sc).
Proof.
  unfold insert_scenario. do 5 (apply good_bind; [auto with pg|intros ?]).
  intros db x db' Hok Hq. apply q_bind_Some in Hq as ([] & db1 & Hg & Hq).
  unfold primary_key, q_guard in Hg. case_bool_decide as Hfree; [|done]. injection Hg as <-.
  injection Hq as <- <-. apply put_scenario_frame; [done|]. intros r0. by rewrite Hfree.
Qed.
Lemma good_set_current_version id v : good (set_current_version id v).
Proof.
  unfold set_current_version. good_auto. intros db x db' Hok [= <- <-]. apply ok_frame; try done.
  cbn. intros s r Hr. destruct (decide (s = a)) as [->|Hne].
  - rewrite lookup_alter_eq, Hr. cbn. eauto.
  - rewrite lookup_alter_ne by done. eauto.
Qed.
Lemma good_update_scenario id sc v : good (update_scenario id sc v).
Proof.
  unfold update_scenario. do 4 (apply good_bind; [auto with pg|intros ?]).
  intros db x db' Hok Hq. apply q_bind_Some in Hq as (m & db1 & Hg & Hq).
  injection Hg as <- <-. destruct (db_scenarios db !! a) as [r|] eqn:Hr; [|by injection Hq as <- <-].
  injection Hq as <- <-. apply put_scenario_frame; [done|].
  intros r0. rewrite Hr. by intros [= <-].
Qed.

Lemma in_versions_of db v r : db_versions db !! v = Some r ↔ (v, r) ∈ versions_of db (vr_scenario r).
Proof.
  unfold versions_of. rewrite list_elem_of_In, filter_In, <-list_elem_of_In. cbn.
  rewrite elem_of_map_to_list, String.eqb_refl. tauto.
Qed.
Lemma good_insert_version c scenario number raw checksum :
  good (insert_version c scenario number raw checksum).
Proof.
  unfold insert_version. do 2 (apply good_bind; [auto with pg|intros ?]).
  intros db x db' Hok Hq. apply q_bind_Some in Hq as ([] & db1 & Hg & Hq).
  unfold references, q_guard in Hg. case_bool_decide as Href; [|done]. injection Hg as <-.
  apply q_bind_Some in Hq as ([] & db1 & Hg & Hq). unfold q_guard in Hg.
  destruct (negb _) eqn:Hnew; [|done]. injection Hg as <-.
  apply q_bind_Some in Hq as (now & db1 & [= <- <-] & Hq).
  apply q_bind_Some in Hq as (id & db1 & [= <- <-] & Hq).
  apply q_bind_Some in Hq as ([] & db1 & Hg & Hq). unfold primary_key, q_guard in Hg.
  case_bool_decide as Hfree; [|done]. injection Hg as <-. injection Hq as <- <-. cbn in *.
  set (id := uuid_nth (db_drawn db)) in *. destruct Hok as [H1 H2 H3 H4 H5].
  assert (∀ v r, db_versions db !! v = Some r → vr_scenario r = a → vr_number r ≠ number) as Hfresh.
  { intros v r Hv Hs Hnum. apply negb_true_iff in Hnew.
    assert (existsb (λ kr, vr_number kr.2 =? number) (versions_of db a) = true); [|congruence].
    apply existsb_exists. exists (v, r). cbn. rewrite Hnum, Z.eqb_refl. split; [|done].
    rewrite <-Hs. by apply list_elem_of_In, in_versions_of. }
  split; split; cbn; try done.
  - intros u r Hr. destruct (H1 u r Hr). split; [done|]. eapply RunOk_now; [|done]. lia.
  - intros v r. rewrite lookup_insert_Some. intros [[<- <-]|[_ Hv]]; [done|by eapply H4].
  - intros v v' r r'. rewrite !lookup_insert_Some.
    intros [[<- <-]|[Hv0 Hv]] [[<- <-]|[Hv0' Hv']]; cbn; try done.
    + intros Hs Hn. by destruct (Hfresh _ _ Hv' (eq_sym Hs)).
    + intros Hs Hn. by destruct (Hfresh _ _ Hv Hs).
    + by apply H5.
  - lia.
  - intros u r Hr. by exists r.
  - intros u. exists []. by rewrite app_nil_r.
  - intros v r Hv. rewrite lookup_insert_ne; [done|]. intros <-. congruence.
  - intros s r Hr. by exists r.
Qed.

(** *** Runs *)
Lemma good_nullable_reference {R} (t : DB → gmap string R) o : good (nullable_reference t o).
Proof. unfold nullable_reference. good_auto. Qed.
Lemma good_insert_run c project target scenario version raw :
  is_Some (read_scenario raw) → good (insert_run c project target scenario version raw).
Proof.
  intros Hraw. unfold insert_run. apply good_bind; [auto with pg|intros _].
  do 3 (apply good_bind; [apply good_nullable_reference|intros ?]).
  intros db x db' Hok Hq. apply q_bind_Some in Hq as (now & db1 & [= <- <-] & Hq).
  apply q_bind_Some in Hq as (id & db1 & [= <- <-] & Hq).
  apply q_bind_Some in Hq as ([] & db1 & Hg & Hq). unfold primary_key, q_guard in Hg.
  case_bool_decide as Hfree; [|done]. injection Hg as <-. injection Hq as <- <-. cbn in *.
  destruct Hok as [H1 H2 H3 H4 H5]. split; split; cbn; try done.
  - intros u r. rewrite lookup_insert_Some. intros [[<- <-]|[_ Hr]].
    + split; [apply uuid_nth_canonical|]. split; cbn; try done. by repeat constructor.
    + destruct (H1 u r Hr). split; [done|]. eapply RunOk_now; [|done]. lia.
  - intros u rows Hu. destruct (H2 u rows Hu) as [[r Hr] Hn]. split; [|done].
    rewrite lookup_insert_ne; [by eexists|]. intros <-. congruence.
  - intros u p Hp. destruct (H3 u p Hp) as (r & Hr & Ht). exists r. split; [|done].
    rewrite lookup_insert_ne; [done|]. intros <-. congruence.
  - lia.
  - intros u r Hr. exists r. split; [|done]. rewrite lookup_insert_ne; [done|]. intros <-. congruence.
  - intros u. exists []. by rewrite app_nil_r.
  - intros s r Hr. by exists r.
Qed.

(** A live run is rewritten. *)
Lemma put_run_ok db u r r' :
  DBOk db → db_runs db !! u = Some r → isCancelableRunStatus (rr_status r) = true →
  RunOk (db_now db) r' → run_evolves r r' →
  let db' := set_runs (<[u := r']> (db_runs db)) db in
  DBOk db' ∧ evolves db db'.
Proof.
  intros [H1 H2 H3 H4 H5] Hr Hc Hr' He db'.
  assert (db_reports db !! u = None) as Hnone.
  { destruct (db_reports db !! u) as [p|] eqn:Hp; [|done]. destruct (H3 u p Hp) as (r0 & Hr0 & Ht & _).
    rewrite Hr in Hr0. injection Hr0 as <-. by rewrite (cancelable_not_terminal _ Hc) in Ht. }
  split; split; cbn; try done.
  - intros v rv. rewrite lookup_insert_Some. intros [[<- <-]|[_ Hv]]; [|by apply H1].
    split; [|done]. by eapply H1.
  - intros v rows Hv. destruct (H2 v rows Hv) as [Hk Hn]. split; [|done].
    destruct (decide (v = u)) as [->|Hne]; [rewrite lookup_insert_eq|rewrite lookup_insert_ne]; done.
  - intros v p Hp. destruct (H3 v p Hp) as (rv & Hv & Ht). exists rv. split; [|done].
    rewrite lookup_insert_ne; [done|]. intros <-. congruence.
  - intros v rv Hv. destruct (decide (v = u)) as [->|Hne].
    + rewrite Hr in Hv. injection Hv as <-. exists r'. by rewrite lookup_insert_eq.
    + exists rv. by rewrite lookup_insert_ne.
  - intros v. exists []. by rewrite app_nil_r.
  - intros s sr Hs. by exists sr.
Qed.

Lemma cancelable_status st : isCancelableRunStatus st = true → st ∈ run_statuses.
Proof.
  unfold isCancelableRunStatus. rewrite orb_true_iff, !String.eqb_eq.
  intros [->| ->]; unfold run_statuses; rewrite !elem_of_cons; auto.
Qed.
Lemma terminal_status st : isTerminalRunStatus st = true → st ∈ run_statuses.
Proof.
  unfold isTerminalRunStatus, string_in. rewrite existsb_exists.
  intros (x & Hx & ->%String.eqb_eq). apply list_elem_of_In in Hx.
  unfold run_statuses. rewrite !elem_of_cons in *. tauto.
Qed.

Lemma start_run_ok now r :
  RunOk now r → isCancelableRunStatus (rr_status r) = true →
  RunOk now (start_run now r) ∧ run_evolves r (start_run now r).
Proof.
  intros [] Hc. split; split; cbn; try done.
  - unfold run_statuses. rewrite !elem_of_cons. auto.
  - intros s [= <-]. destruct (rr_started_at r) as [s|]; [by apply ro_started0|done].
  - intros _. by apply ro_live0.
  - by left.
  - apply rtc_once. by constructor.
  - intros Ht. by rewrite (cancelable_not_terminal _ Hc) in Ht.
Qed.
Lemma finish_run_ok now status err r :
  RunOk now r → isCancelableRunStatus (rr_status r) = true → isTerminalRunStatus status = true →
  RunOk now (finish_run now status err r) ∧ run_evolves r (finish_run now status err r).
Proof.
  intros [] Hc Ht. split; split; cbn; try done.
  - by apply terminal_status.
  - intros Hc'. by rewrite (cancelable_not_terminal _ Hc') in Ht.
  - by left.
  - apply rtc_once. by constructor.
  - intros Ht'. by rewrite (cancelable_not_terminal _ Hc) in Ht'.
Qed.

(** What the guarded update does. *)
Lemma update_live_run_eval id f db :
  update_live_run id f db
  = match uuid_in id with
    | None => None
    | Some u =>
        match db_runs db !! u with
        | Some r =>
            if isCancelableRunStatus (rr_status r) then
              if run_times_ok (f r) then Some (1, set_runs (<[u := f r]> (db_runs db)) db) else None
            else Some (0, db)
        | None => Some (0, db)
        end
    end.
Proof.
  unfold update_live_run, q_bind, uuid_arg, q_option, q_get.
  destruct (uuid_in id) as [u|]; [|done]. destruct (db_runs db !! u) as [r|]; [|done].
  destruct (isCancelableRunStatus (rr_status r)); [|done]. unfold q_guard.
  by destruct (run_times_ok (f r)).
Qed.
Lemma good_update_now c id (f : Time → RunRow → RunRow) :
  (∀ now r, RunOk now r → isCancelableRunStatus (rr_status r) = true →
            RunOk now (f now r) ∧ run_evolves r (f now r)) →
  good (let? now := server_now c in update_live_run id (f now)).
Proof.
  intros Hf db x db' Hok Hq. apply q_bind_Some in Hq as (now & db1 & Hn & Hq).
  destruct (good_now c _ _ _ Hok Hn) as [Hok1 He1]. injection Hn as Hnow Hdb1.
  rewrite update_live_run_eval in Hq. destruct (uuid_in id) as [u|]; [|done].
  destruct (db_runs db1 !! u) as [r|] eqn:Hr; [|by injection Hq as <- <-].
  destruct (isCancelableRunStatus (rr_status r)) eqn:Hc; [|by injection Hq as <- <-].
  destruct (run_times_ok _); [|done]. injection Hq as <- <-.
  destruct (Hf (db_now db1) r) as [Hro Hre]; [by eapply ok_run|done|].
  assert (db_now db1 = now) as Heq by (by rewrite <-Hdb1, <-Hnow). rewrite Heq in *.
  destruct (put_run_ok db1 u r (f now r)) as [Hok2 He2]; try done; [by rewrite Heq|].
  split; [done|by etrans].
Qed.

(** *** Events *)
Lemma foldr_max_numbered rows :
  NumberedRows rows → foldr Z.max 0 (map er_sequence rows) = Z.of_nat (length rows).
Proof.
  induction rows as [|e rows IH] using rev_ind; intros Hn; [done|].
  assert (NumberedRows rows) as Hn'
    by (intros i x Hx; apply Hn; by rewrite lookup_app_l by (by eapply lookup_lt_Some)).
  specialize (IH Hn').
  assert (er_sequence e = Z.of_nat (length rows) + 1) as He
    by (apply Hn; by rewrite lookup_app_r, Nat.sub_diag by lia).
  rewrite map_app, foldr_app, length_app. cbn.
  assert (∀ l m, 0 ≤ m → foldr Z.max m l = Z.max m (foldr Z.max 0 l)) as Hmax
    by (intros l; induction l as [|x l IHl]; intros m Hm; cbn; [lia|rewrite IHl; lia]).
  rewrite Hmax by lia. rewrite IH. lia.
Qed.
Lemma events_numbered db u : DBOk db → NumberedRows (events_of db u).
Proof.
  intros Hok. unfold events_of. destruct (db_events db !! u) as [rows|] eqn:E; [|by intros ? ?].
  by eapply ok_events.
Qed.
(** The next sequence of a run. *)
Definition sequence_after (db : DB) (u : string) : Z := Z.of_nat (length (events_of db u)) + 1.
Lemma next_sequence_eval id db :
  DBOk db → next_sequence id db = match uuid_in id with
                                  | Some u => Some (sequence_after db u, db)
                                  | None => None
                                  end.
Proof.
  intros Hok. unfold next_sequence, q_bind, uuid_arg, q_option, q_get.
  destruct (uuid_in id) as [u|]; [|done].
  by rewrite foldr_max_numbered by (by apply events_numbered).
Qed.

Definition push_event (u : string) (e : EventRow) (db : DB) : DB :=
  set_events (<[u := events_of db u ++ [e]]> (db_events db)) db.
Lemma push_event_of u e db : events_of (push_event u e db) u = events_of db u ++ [e].
Proof. unfold events_of, push_event. cbn. by rewrite lookup_insert_eq. Qed.
Lemma push_event_other u u' e db : u' ≠ u → events_of (push_event u e db) u' = events_of db u'.
Proof. intros Hne. unfold events_of, push_event. cbn. by rewrite lookup_insert_ne. Qed.

Lemma push_event_ok db u e :
  DBOk db → is_Some (db_runs db !! u) → er_sequence e = sequence_after db u →
  DBOk (push_event u e db) ∧ evolves db (push_event u e db).
Proof.
  intros Hok Hu He. pose proof (events_numbered db u Hok) as Hn. destruct Hok as [H1 H2 H3 H4 H5].
  split; split; try done.
  - intros v rows. unfold push_event. cbn. rewrite lookup_insert_Some.
    intros [[<- <-]|[_ Hv]]; [|by apply H2]. split; [done|].
    intros i x Hx. apply lookup_app_Some in Hx as [Hx|[Hi Hx]]; [by apply Hn|].
    apply list_lookup_singleton_Some in Hx as [Hx <-]. rewrite He. unfold sequence_after. lia.
  - intros v r Hr. by exists r.
  - intros v. destruct (decide (v = u)) as [->|Hne].
    + exists [e]. apply push_event_of.
    + exists []. by rewrite push_event_other, app_nil_r.
  - intros s r Hr. by exists r.
Qed.

Definition new_row (db : DB) (sequence : Z) (level type message : string) (raw : jsonb)
    (created : Time) : EventRow :=
  Build_EventRow (uuid_nth (db_drawn db)) sequence level type message raw (to_micros created).
Lemma insert_event_eval id sequence level type message raw created db :
  insert_event id sequence level type message raw created db
  = match uuid_in id with
    | None => None
    | Some u =>
        if forallb text_in [level; type; message] && bool_decide (is_Some (db_runs db !! u)) then
          let e := new_row db sequence level type message raw created in
          Some (e, push_event u e (set_drawn (db_drawn db + 1) db))
        else None
    end.
Proof.
  unfold insert_event, q_bind, uuid_arg, q_option, text_args, references, q_guard.
  destruct (uuid_in id) as [u|]; [|done].
  destruct (forallb text_in [level; type; message]); [|done]. cbn [andb].
  by case_bool_decide.
Qed.
Lemma good_append_event id event raw : good (append_event_tx id event raw).
Proof.
  intros db x db' Hok Hq. unfold append_event_tx in Hq.
  apply q_bind_Some in Hq as (n & db1 & Hn & Hq). rewrite next_sequence_eval in Hn by done.
  destruct (uuid_in id) as [u|] eqn:Hu; [|done]. injection Hn as <- <-.
  rewrite insert_event_eval, Hu in Hq. destruct (_ && _) eqn:Hc; [|done].
  apply andb_true_iff in Hc as [_ Hk%bool_decide_eq_true_1]. injection Hq as <- <-.
  destruct (good_uuid db _ _ Hok eq_refl) as [Hok1 He1].
  destruct (push_event_ok (set_drawn (db_drawn db + 1) db) u
              (new_row db (sequence_after db u) (Event_Level event) (Event_Type event)
                 (Event_Message event) raw (Event_CreatedAt event))) as [Hok2 He2]; try done.
  split; [done|by etrans].
Qed.

Lemma request_cancel_eval c id db :
  DBOk db →
  request_cancel_tx c id db
  = match uuid_in id with
    | None => None
    | Some u =>
        match db_runs db !! u with
        | None => None
        | Some r =>
            if isCancelableRunStatus (rr_status r) then
              if existsb (λ e, String.eqb (er_type e) TypeCancelRequested) (events_of db u)
              then Some (true, db)
              else
                match write_metadata {["status" := VString (rr_status r)]} with
                | None => None
                | Some raw =>
                    Some (true, push_event u
                            (new_row db (sequence_after db u) LevelWarn TypeCancelRequested
                               "run cancellation requested" raw (clk_event c))
                            (set_drawn (db_drawn db + 1) db))
                end
            else Some (false, db)
        end
    end.
Proof.
  intros Hok. unfold request_cancel_tx, select_status, event_type_exists.
  unfold q_bind at 1 2, uuid_arg at 1, q_option at 1, q_get at 1.
  destruct (uuid_in id) as [u|] eqn:Hu; [|done].
  destruct (db_runs db !! u) as [r|] eqn:Hr; [|done]. cbn [fmap option_fmap option_map].
  destruct (isCancelableRunStatus (rr_status r)); [|done]. cbn [negb].
  unfold q_bind at 1 2, uuid_arg at 1, q_option at 1, q_get at 1. rewrite Hu.
  destruct (existsb _ (events_of db u)); [done|].
  unfold q_bind at 1. rewrite next_sequence_eval, Hu by done.
  unfold q_bind at 1, jsonb_arg, q_option. destruct (write_metadata _) as [raw|]; [|done].
  unfold q_bind. rewrite insert_event_eval, Hu, Hr.
  assert (forallb text_in [LevelWarn; TypeCancelRequested; "run cancellation requested"] = true)
    as -> by (cbn [forallb]; by rewrite !text_in_ascii).
  by rewrite bool_decide_true by (by eexists).
Qed.
Lemma good_request_cancel c id : good (request_cancel_tx c id).
Proof.
  intros db x db' Hok Hq. rewrite request_cancel_eval in Hq by done.
  destruct (uuid_in id) as [u|]; [|done]. destruct (db_runs db !! u) as [r|] eqn:Hr; [|done].
  destruct (isCancelableRunStatus _); [|by injection Hq as <- <-].
  destruct (existsb _ _); [by injection Hq as <- <-|].
  destruct (write_metadata _) as [raw|]; [|done]. injection Hq as <- <-.
  destruct (good_uuid db _ _ Hok eq_refl) as [Hok1 He1].
  destruct (push_event_ok (set_drawn (db_drawn db + 1) db) u
              (new_row db (sequence_after db u) LevelWarn TypeCancelRequested
                 "run cancellation requested" raw (clk_event c))) as [Hok2 He2];
    [done|by eexists|done|]. split; [done|by etrans].
Qed.

(** *** Ending a run with its report *)
Definition report_row (status : string) (rep : Report) : option ReportRow :=
  s ← write_summary (Report_Summary rep);
  t ← write_checks (Report_Thresholds rep);
  i ← write_checks (Report_Invariants rep);
  f ← write_failures (Report_Failures rep);
  Some (Build_ReportRow status s t i f).
Lemma finish_run_eval c id status msg rep db :
  isTerminalRunStatus status = true → DBOk db →
  finish_run_tx c id status msg rep db
  = if text_in msg then
      match uuid_in id with
      | None => None
      | Some u =>
          let now := Z.max (db_now db) (to_micros (clk_now c)) in
          match db_runs db !! u with
          | Some r =>
              if isCancelableRunStatus (rr_status r) then
                match report_row status rep with
                | Some p =>
                    Some (true,
                      set_reports (<[u := p]> (db_reports db))
                        (set_runs (<[u := finish_run now status (nullif_empty msg) r]> (db_runs db))
                           (set_now now db)))
                | None => None
                end
              else Some (false, set_now now db)
          | None => Some (false, set_now now db)
          end
      end
    else None.
Proof.
  intros Ht Hok. unfold finish_run_tx, text_args, q_guard. unfold q_bind at 1. cbn [forallb].
  rewrite andb_true_r. destruct (text_in msg); [|done].
  unfold q_bind at 1, server_now. unfold q_bind at 1. rewrite update_live_run_eval.
  destruct (uuid_in id) as [u|] eqn:Hu; [|done]. cbn [set_now db_runs].
  destruct (db_runs db !! u) as [r|] eqn:Hr; [|done].
  destruct (isCancelableRunStatus (rr_status r)) eqn:Hc; [|done].
  assert (run_times_ok (finish_run (Z.max (db_now db) (to_micros (clk_now c))) status
            (nullif_empty msg) r) = true) as ->.
  { unfold run_times_ok. cbn. destruct (rr_started_at r) as [s|] eqn:Hs; [|done].
    destruct (ok_run db Hok u r Hr) as [_ Hro]. pose proof (ro_started _ _ Hro s Hs). lia. }
  cbn [Z.eqb]. unfold upsert_report, report_row, jsonb_arg, references, uuid_arg, q_bind, q_option,
    q_guard, q_put. rewrite Hu.
  destruct (write_summary _); [|done]. cbn [mbind option_bind].
  destruct (write_checks (Report_Thresholds rep)); [|done]. cbn [mbind option_bind].
  destruct (write_checks (Report_Invariants rep)); [|done]. cbn [mbind option_bind].
  destruct (write_failures _); [|done]. cbn [mbind option_bind].
  rewrite Ht. cbn. rewrite lookup_insert_eq. by rewrite bool_decide_true by (by eexists).
Qed.
Lemma report_row_status status rep p : report_row status rep = Some p → pr_status p = status.
Proof.
  unfold report_row. intros (s & _ & (t & _ & (i & _ & (f & _ & [= <-])%bind_Some)%bind_Some)%bind_Some)%bind_Some.
  done.
Qed.
Lemma good_finish_run c id status msg rep :
  isTerminalRunStatus status = true → good (finish_run_tx c id status msg rep).
Proof.
  intros Ht db x db' Hok Hq. rewrite finish_run_eval in Hq by done.
  destruct (text_in msg); [|done]. destruct (uuid_in id) as [u|]; [|done]. cbv zeta in Hq.
  set (now := Z.max (db_now db) (to_micros (clk_now c))) in *.
  destruct (good_now c db now (set_now now db) Hok eq_refl) as [Hok1 He1].
  destruct (db_runs db !! u) as [r|] eqn:Hr; [|by injection Hq as <- <-].
  destruct (isCancelableRunStatus (rr_status r)) eqn:Hc; [|by injection Hq as <- <-].
  destruct (report_row status rep) as [p|] eqn:Hp; [|done]. injection Hq as <- <-.
  set (r' := finish_run now status (nullif_empty msg) r).
  destruct (ok_run _ Hok1 u r Hr) as [Hu Hro].
  destruct (finish_run_ok now status (nullif_empty msg) r Hro Hc Ht) as [Hro' Hre].
  destruct (put_run_ok (set_now now db) u r r' Hok1 Hr Hc Hro' Hre) as [Hok2 He2].
  set (db2 := set_runs (<[u := r']> (db_runs db)) (set_now now db)) in *.
  change (db_reports db) with (db_reports db2).
  assert (DBOk (set_reports (<[u := p]> (db_reports db2)) db2)
          ∧ evolves db (set_reports (<[u := p]> (db_reports db2)) db2)); [|done].
  assert (evolves db db2) as He by (by etrans). destruct Hok2 as [H1 H2 H3 H4 H5].
  destruct He as [G1 G2 G3 G4 G5 G6]. split; split; try done.
  - intros v pv. cbn. rewrite lookup_insert_Some. intros [[<- <-]|[_ Hv]]; [|by apply H3].
    exists r'. rewrite lookup_insert_eq. split; [done|]. split; [exact Ht|].
    by apply report_row_status in Hp.
  - intros v rv Hv Htv. cbn. rewrite lookup_insert_ne; [done|]. intros <-.
    rewrite Hr in Hv. injection Hv as <-. by rewrite (cancelable_not_terminal _ Hc) in Htv.
Qed.
End Statements.
