(* ===== verification/PgFaults.v ===== *)
(** * The Postgres store: concurrency and failures

    Any number of calls of the store run at once, in any number of processes:
    a [world] is the tables and the programs that are under way.  A step lets
    one of them send its next statement, which may be executed, refused by the
    server, lost on the way there, or executed although its reply is lost; or a
    new call begins.  Whatever happens, the tables stay well formed and evolve
    as [evolves] says. *)

From S2P Require Export PgLaws.

Open Scope Z_scope.
Open Scope pg_scope.

Section Faults.
Context `{UT : UnicodeTables} `{PT : PgTypes} `{PC : PgColumns}.

(** One statement of a program, with the failures of the connection. *)
Inductive pstep {A} : pg A → DB → pg A → DB → Prop :=
| ps_executed R (q : query R) k db r db' :
    q db = Some (r, db') → pstep (Stmt q k) db (k (Some r)) db'
| ps_refused R (q : query R) k db :
    q db = None → pstep (Stmt q k) db (k None) db
| ps_lost R (q : query R) k db : pstep (Stmt q k) db (k None) db
| ps_reply_lost R (q : query R) k db r db' :
    q db = Some (r, db') → pstep (Stmt q k) db (k None) db'.

(** The calls of the store. *)
Inductive pg_call (project : string) : ∀ A, pg A → Prop :=
| call_project : pg_call project _ ensureDefaultProject
| call_create_target c t : pg_call project _ (pg_CreateTarget project c t)
| call_update_target c id t : pg_call project _ (pg_UpdateTarget project c id t)
| call_delete_target id : pg_call project _ (pg_DeleteTarget project id)
| call_get_target id : pg_call project _ (pg_GetTarget project id)
| call_list_targets : pg_call project _ (pg_ListTargets project)
| call_create_scenario c sc : pg_call project _ (pg_CreateScenario project c sc)
| call_update_scenario c id sc : pg_call project _ (pg_UpdateScenario c id sc)
| call_get_scenario id : pg_call project _ (pg_GetScenario id)
| call_list_scenarios : pg_call project _ (pg_ListScenarios project)
| call_list_versions id : pg_call project _ (pg_ListScenarioVersions id)
| call_get_version id n : pg_call project _ (pg_GetScenarioVersion id n)
| call_create_run c s t sc refs : pg_call project _ (pg_CreateRun project c s t sc refs)
| call_start c id : pg_call project _ (pg_MarkRunStarted c id)
| call_complete c id rep : pg_call project _ (pg_CompleteRun c id rep)
| call_cancel c id rep : pg_call project _ (pg_CancelRun c id rep)
| call_error c id m : pg_call project _ (pg_ErrorRun c id m)
| call_get_run id : pg_call project _ (pg_GetRun id)
| call_list_runs : pg_call project _ (pg_ListRuns project)
| call_request_cancel c id : pg_call project _ (pg_RequestRunCancel c id)
| call_cancel_requested id : pg_call project _ (pg_IsRunCancelRequested id)
| call_append c id e : pg_call project _ (pg_AppendRunEvent c id e)
| call_events id : pg_call project _ (pg_ListRunEvents id).

Inductive proc :=
| Proc {A} (p : pg A).
Record world := { w_db : DB; w_procs : list proc }.
Inductive world_step (w : world) : world → Prop :=
| ws_begin project A (p : pg A) :
    pg_call project A p → world_step w (Build_world (w_db w) (w_procs w ++ [Proc p]))
| ws_step i A (p p' : pg A) db :
    w_procs w !! i = Some (Proc p) → pstep p (w_db w) p' db →
    world_step w (Build_world db (<[i := Proc p']> (w_procs w))).
Definition empty_world : world := Build_world empty_db [].

(** A program of good statements, whatever comes back. *)
Fixpoint safe {A} (p : pg A) : Prop :=
  match p with
  | Ret _ => True
  | Stmt q k => good q ∧ ∀ r, safe (k r)
  end.
Definition safe_proc (x : proc) : Prop := let 'Proc p := x in safe p.

Lemma safe_bind {A B} (p : pg A) (k : A → pg B) :
  safe p → (∀ a, safe (k a)) → safe (pg_bind p k).
Proof.
  intros Hp Hk. induction p as [a|R q k' IH]; [apply Hk|]. destruct Hp as [Hq Hk'].
  split; [done|]. intros r. by apply IH.
Qed.
Lemma safe_ask {A R} (q : query R) (other : A) (k : R → pg A) :
  good q → (∀ r, safe (k r)) → safe (ask q other k).
Proof. intros Hq Hk. split; [done|]. intros [r|]; [apply Hk|done]. Qed.

Lemma pstep_safe {A} (p : pg A) db p' db' :
  safe p → DBOk db → pstep p db p' db' → safe p' ∧ DBOk db' ∧ evolves db db'.
Proof.
  intros Hs Hok Hp. revert Hs Hok. destruct Hp as [R q k db r db' Hq|R q k db Hq|R q k db|R q k db r db' Hq];
    intros [Hg Hk] Hok; (split; [apply Hk|]); try done; by eapply Hg.
Qed.

(** ** Every call is safe *)
Context {PL : PgLaws}.

Lemma safe_append c id e : safe (pg_AppendRunEvent c id e).
Proof.
  unfold pg_AppendRunEvent. destruct (write_metadata _) as [raw|]; [|done].
  apply safe_ask; [apply good_append_event|done].
Qed.
Lemma safe_then_event {A} c id e (a : A) : safe (then_event c id e a).
Proof. apply safe_bind; [apply safe_append|done]. Qed.
Lemma safe_getRun id : safe (pg_getRun id).
Proof. apply safe_ask; [unfold select_run; good_auto|done]. Qed.
Lemma safe_finish c id status rep m :
  isTerminalRunStatus status = true → safe (finishRunWithReport c id status rep m).
Proof.
  intros Ht. apply safe_bind; [apply safe_getRun|]. intros found.
  apply safe_ask; [by apply good_finish_run|done].
Qed.
Lemma verdict_terminal rep : isTerminalRunStatus (verdict_status rep) = true.
Proof. unfold verdict_status. by case_match. Qed.
Lemma good_create_scenario project c sc raw sum : good (create_scenario_tx project c sc raw sum).
Proof.
  unfold create_scenario_tx. apply good_bind; [apply good_insert_scenario|intros [id created]].
  apply good_bind; [apply good_insert_version|intros v].
  apply good_bind; [apply good_set_current_version|intros _]. auto with pg.
Qed.
Lemma good_update_scenario_tx c id sc n raw sum : good (update_scenario_tx c id sc n raw sum).
Proof.
  unfold update_scenario_tx. apply good_bind; [apply good_insert_version|intros v].
  apply good_bind; [apply good_update_scenario|intros [[u created]|]]; auto with pg.
Qed.
Lemma safe_run_references s refs : safe (run_references s refs).
Proof.
  unfold run_references. destruct refs; [|done]. destruct (String.eqb s ""); [done|].
  apply safe_bind; [apply safe_ask; [unfold select_scenario; good_auto|done]|].
  by intros [[? ?]|].
Qed.

Lemma pg_call_safe project A (p : pg A) : pg_call project A p → safe p.
Proof.
  destruct 1.
  - split; [apply good_upsert_project|done].
  - unfold pg_CreateTarget. destruct (write_headers _); [|done].
    apply safe_ask; [apply good_insert_target|done].
  - unfold pg_UpdateTarget. destruct (write_headers _); [|done].
    apply safe_ask; [apply good_update_target|done].
  - apply safe_ask; [apply good_delete_target|done].
  - apply safe_ask; [apply good_select_target|done].
  - apply safe_ask; [apply good_select_targets|done].
  - unfold pg_CreateScenario, marshalScenario. destruct (write_scenario sc); [|done].
    apply safe_ask; [apply good_create_scenario|by intros [[? ?] ?]].
  - unfold pg_UpdateScenario, marshalScenario. destruct (write_scenario sc); [|done].
    apply safe_ask; [unfold next_version_number; good_auto|]. intros n.
    destruct (n =? 1); [done|]. apply safe_ask; [apply good_update_scenario_tx|by intros [[? ?] ?]].
  - apply safe_ask; [unfold select_scenario; good_auto|done].
  - apply safe_ask; [unfold select_scenarios; good_auto|done].
  - apply safe_ask; [unfold select_versions; good_auto|done].
  - apply safe_ask; [unfold select_version; good_auto|done].
  - unfold pg_CreateRun, marshalScenario. destruct (write_scenario sc) as [raw|] eqn:Hw; [|done].
    apply safe_bind; [apply safe_run_references|]. intros [[scn ver] num].
    apply safe_ask; [|intros [? ?]; apply safe_then_event].
    apply good_insert_run. by eapply scenario_readable.
  - apply safe_ask; [apply good_update_now, start_run_ok|]. intros n.
    destruct (n =? 0); [done|apply safe_then_event].
  - apply safe_bind; [apply safe_finish, verdict_terminal|]. intros []; [apply safe_then_event|done].
  - apply safe_bind; [by apply safe_finish|]. intros []; [apply safe_then_event|done].
  - apply safe_ask.
    + apply good_bind; [auto with pg|intros _]. apply good_update_now. intros now r Hr Hc.
      by apply finish_run_ok.
    + intros n. destruct (n =? 0); [done|apply safe_then_event].
  - apply safe_bind; [apply safe_getRun|]. intros [r|]; [|done].
    apply safe_bind; [|done]. apply safe_ask; [unfold select_report; good_auto|].
    intros [p|]; [|done]. split; [unfold select_run_version_column; auto with pg|done].
  - apply safe_ask; [unfold select_runs; good_auto|done].
  - apply safe_ask; [apply good_request_cancel|done].
  - apply safe_ask; [unfold event_type_exists; good_auto|done].
  - apply safe_append.
  - apply safe_ask; [unfold select_events; good_auto|done].
Qed.

Lemma world_step_ok w w' :
  DBOk (w_db w) → Forall safe_proc (w_procs w) → world_step w w' →
  DBOk (w_db w') ∧ Forall safe_proc (w_procs w') ∧ evolves (w_db w) (w_db w').
Proof.
  intros Hok Hs Hw. destruct Hw as [project A p Hp|i A p p' db Hi Hp]; cbn.
  - split_and!; [done| |done]. apply Forall_app; split; [done|].
    constructor; [by eapply pg_call_safe|done].
  - assert (safe p) as Hsp by (eapply (Forall_lookup_1 _ _ _ _ Hs) in Hi; exact Hi).
    destruct (pstep_safe p (w_db w) p' db Hsp Hok Hp) as (Hsp' & Hok' & He).
    split_and!; [done| |done]. by apply Forall_insert.
Qed.
Lemma world_steps_ok w w' :
  rtc world_step w w' → DBOk (w_db w) → Forall safe_proc (w_procs w) →
  DBOk (w_db w') ∧ Forall safe_proc (w_procs w') ∧ evolves (w_db w) (w_db w').
Proof.
  induction 1 as [w|w w1 w2 Hw _ IH]; intros Hok Hs; [done|].
  destruct (world_step_ok w w1 Hok Hs Hw) as (Hok1 & Hs1 & He1).
  destruct (IH Hok1 Hs1) as (Hok2 & Hs2 & He2). split_and!; [done|done|by etrans].
Qed.
End Faults.
