(* ===== verification/PgEffect.v ===== *)
(** * The Postgres store: what an operation does to the tables

    [op_effect] is what each of the operations on a run does, executed alone on
    tables that satisfy [DBOk]: how it rewrites the row and the report of a live
    run, which events it logs, and that the other runs stay.  A report, an error
    text or an event that the columns cannot hold is not [pg_storable]: the
    write is then refused as a whole.  [op_nothing] is the case of a text that
    identifies no run, and the evaluation lemmas say what is read back. *)

From S2P Require Export PgFaults.

Open Scope Z_scope.
Open Scope pg_scope.

#[local] Arguments isTerminalRunStatus : simpl never.
#[local] Arguments isCancelableRunStatus : simpl never.

Section Effects.
Context `{UT : UnicodeTables} `{PT : PgTypes} `{PC : PgColumns} {PL : PgLaws}.

Lemma run_bind {A B} (p : pg A) (k : A → pg B) db :
  run (pg_bind p k) db = run (k (fst (run p db))) (snd (run p db)).
Proof.
  revert db. induction p as [a|R q k' IH]; intros db; [done|]. cbn [pg_bind run].
  destruct (q db) as [[r db']|]; apply IH.
Qed.
Lemma run_ask {A R} (q : query R) (other : A) (k : R → pg A) db :
  run (ask q other k) db = match q db with
                           | Some (r, db') => run (k r) db'
                           | None => (other, db)
                           end.
Proof. unfold ask. cbn [run]. by destruct (q db) as [[r db']|]. Qed.
Lemma run_safe {A} (p : pg A) db :
  safe p → DBOk db → DBOk (snd (run p db)) ∧ evolves db (snd (run p db)).
Proof.
  revert db. induction p as [a|R q k IH]; intros db Hs Hok; [done|]. destruct Hs as [Hq Hk].
  cbn [run]. destruct (q db) as [[r db']|] eqn:E; [|by apply IH].
  destruct (Hq _ _ _ Hok E) as [Hok' He]. destruct (IH (Some r) db' (Hk _) Hok') as [Hok2 He2].
  split; [done|by etrans].
Qed.

(** ** What a statement leaves alone *)
Record touches (ou : option string) (db db' : DB) : Prop := {
  to_versions : db_versions db' = db_versions db;
  to_runs u : Some u ≠ ou → db_runs db' !! u = db_runs db !! u;
  to_reports u : Some u ≠ ou → db_reports db' !! u = db_reports db !! u;
  to_events u : Some u ≠ ou → events_of db' u = events_of db u;
}.
#[export] Instance touches_preorder ou : PreOrder (touches ou).
Proof.
  split; [by split|]. intros db1 db2 db3 [] []. split; [congruence|..]; intros u Hu;
    rewrite ?to_runs1, ?to_reports1, ?to_events1 by done; auto.
Qed.

(** ** Logging *)
Definition is_cancel_row (e : EventRow) : bool := String.eqb (er_type e) TypeCancelRequested.
(** The rows of the run stay and one event is appended when [written]. *)
Record logs (u type message : string) (written : bool) (db db' : DB) : Prop := {
  lg_touches : touches (Some u) db db';
  lg_run : db_runs db' !! u = db_runs db !! u;
  lg_report : db_reports db' !! u = db_reports db !! u;
  lg_events :
    if written then
      ∃ e, events_of db' u = events_of db u ++ [e] ∧ er_type e = type ∧ er_message e = message
           ∧ er_sequence e = sequence_after db u
    else events_of db' u = events_of db u;
}.
Definition event_storable (e : Event) : bool :=
  forallb text_in [if String.eqb (Event_Level e) "" then LevelInfo else Event_Level e;
                   Event_Type e; Event_Message e]
  && match write_metadata (default ∅ (Event_Metadata e)) with Some _ => true | None => false end.

Lemma logs_none u type message db : logs u type message false db db.
Proof. by split. Qed.
Lemma logs_push u n row type message db :
  er_sequence row = sequence_after db u → er_type row = type → er_message row = message →
  logs u type message true db (push_event u row (set_drawn n db)).
Proof.
  intros Hs <- <-. split; try done.
  - split; try done. intros u' Hu'. rewrite push_event_other by congruence. done.
  - exists row. rewrite push_event_of. by split_and!.
Qed.

Lemma append_none c id e db : uuid_in id = None → snd (run (pg_AppendRunEvent c id e) db) = db.
Proof.
  intros Hu. unfold pg_AppendRunEvent. destruct (write_metadata _) as [raw|]; [|done].
  rewrite run_ask. unfold append_event_tx, next_sequence, q_bind, uuid_arg, q_option.
  by rewrite Hu.
Qed.
Lemma append_unknown c id e db u :
  uuid_in id = Some u → DBOk db → db_runs db !! u = None →
  snd (run (pg_AppendRunEvent c id e) db) = db.
Proof.
  intros Hu Hok Hr. unfold pg_AppendRunEvent. destruct (write_metadata _) as [raw|]; [|done].
  rewrite run_ask. unfold append_event_tx, q_bind. rewrite next_sequence_eval, Hu by done.
  rewrite insert_event_eval, Hu, Hr. rewrite bool_decide_false by (by intros [? ?]).
  by rewrite andb_false_r.
Qed.
Lemma append_logs c id e db u :
  uuid_in id = Some u → DBOk db → is_Some (db_runs db !! u) →
  logs u (Event_Type e) (Event_Message e) (event_storable e) db
    (snd (run (pg_AppendRunEvent c id e) db)).
Proof.
  intros Hu Hok Hr. unfold pg_AppendRunEvent, event_storable. cbv zeta.
  change (Event_Metadata (stamp_row_event (clk_event c) id e)) with (Event_Metadata e).
  pose proof (logs_none u (Event_Type e) (Event_Message e) db) as Hsame.
  destruct (write_metadata _) as [raw|] eqn:Ew; [|by rewrite andb_false_r].
  rewrite run_ask, andb_true_r. unfold append_event_tx, q_bind. rewrite next_sequence_eval, Hu by done.
  rewrite insert_event_eval, Hu. unfold stamp_row_event.
  cbn [Event_Level Event_Type Event_Message Event_CreatedAt].
  rewrite (bool_decide_true _ Hr), andb_true_r.
  destruct (forallb text_in _); [|done]. cbn [run snd].
  by apply logs_push.
Qed.

(** ** The operations on a run *)
Definition pg_op (o : run_op) (c : clock) (id : string) : pg () :=
  match o with
  | OpStart => pg_MarkRunStarted c id
  | OpComplete rep => pg_CompleteRun c id rep
  | OpCancel rep => pg_CancelRun c id rep
  | OpError msg => pg_ErrorRun c id msg
  | OpRequestCancel => pg_bind (pg_RequestRunCancel c id) (λ _, Ret ())
  | OpEvent e => pg_bind (pg_AppendRunEvent c id e) (λ _, Ret ())
  end.
(** The columns can hold what is written. *)
Definition pg_storable (o : run_op) : bool :=
  match o with
  | OpStart | OpRequestCancel => true
  | OpComplete rep | OpCancel rep => bool_decide (is_Some (report_row "" rep))
  | OpError msg => text_in msg
  | OpEvent e => event_storable e
  end.
(** The row of a live run afterwards, and its report. *)
Definition op_row (o : run_op) (now : Time) (r : RunRow) : RunRow :=
  match o with
  | OpStart => start_run now r
  | OpComplete rep => finish_run now (verdict_status rep) None r
  | OpCancel rep => finish_run now RunCanceled (Some "run canceled") r
  | OpError msg => finish_run now RunErrored (Some msg) r
  | OpRequestCancel | OpEvent _ => r
  end.
Definition op_report (o : run_op) (old : option ReportRow) : option ReportRow :=
  match o with
  | OpComplete rep => report_row (verdict_status rep) rep
  | OpCancel rep => report_row RunCanceled rep
  | _ => old
  end.
Definition op_requests (o : run_op) (r : RunRow) : bool :=
  match o with
  | OpRequestCancel => isCancelableRunStatus (rr_status r)
  | OpEvent e => event_storable e && is_cancel_request e
  | _ => false
  end.
Definition writes (o : run_op) (r : RunRow) : bool :=
  isCancelableRunStatus (rr_status r) && pg_storable o.

Record effect (o : run_op) (u : string) (r : RunRow) (db db' : DB) : Prop := {
  ef_touches : touches (Some u) db db';
  ef_row : ∃ now, db_runs db' !! u = Some (if writes o r then op_row o now r else r);
  ef_report :
    db_reports db' !! u
    = if writes o r then op_report o (db_reports db !! u) else db_reports db !! u;
  ef_events : ∃ es, events_of db' u = events_of db u ++ es ∧ (length es ≤ 1)%nat;
  ef_cancel :
    existsb is_cancel_row (events_of db' u)
    = existsb is_cancel_row (events_of db u) || op_requests o r;
}.

Lemma run_then_event {A} c id e (a : A) db :
  run (then_event c id e a) db = (a, snd (run (pg_AppendRunEvent c id e) db)).
Proof. unfold then_event. by rewrite run_bind. Qed.
Lemma run_getRun_db id db : snd (run (pg_getRun id) db) = db.
Proof.
  unfold pg_getRun. rewrite run_ask. unfold select_run, q_bind, uuid_arg, q_option, q_get.
  by destruct (uuid_in id).
Qed.

(** A row is rewritten, then an event is logged. *)
Definition rewritten (u : string) (now : Time) (r : RunRow) (p : option ReportRow) (db : DB) : DB :=
  let db1 := set_runs (<[u := r]> (db_runs db)) (set_now now db) in
  match p with
  | Some p => set_reports (<[u := p]> (db_reports db1)) db1
  | None => db1
  end.
Lemma effect_same o u r db db' :
  db_runs db !! u = Some r → writes o r = false → op_requests o r = false →
  (db' = db ∨ ∃ now, db' = set_now now db) → effect o u r db db'.
Proof.
  intros Hr Hw Hq Hdb.
  assert (db_versions db' = db_versions db ∧ db_runs db' = db_runs db
          ∧ db_reports db' = db_reports db ∧ db_events db' = db_events db) as (Ev & Eru & Ere & Ee)
    by (destruct Hdb as [->|[now ->]]; done).
  assert (∀ v, events_of db' v = events_of db v) as Eev by (intros v; unfold events_of; by rewrite Ee).
  split; rewrite ?Hw, ?Ere, ?Eev; try done.
  - split; intros; rewrite ?Eru, ?Ere; done.
  - exists 0. by rewrite Eru.
  - exists []. rewrite app_nil_r. split; [done|cbn; lia].
  - by rewrite Hq, orb_false_r.
Qed.
Lemma effect_logged o u r now p must type msg db db' :
  writes o r = true → String.eqb type TypeCancelRequested = false → op_requests o r = false →
  op_report o (db_reports db !! u) = (if p is Some _ then p else db_reports db !! u) →
  logs u type msg must (rewritten u now (op_row o now r) p db) db' →
  effect o u r db db'.
Proof.
  intros Hw Hty Hreq Hp [[Hv Hru Hre Hev] Hrow Hrep Hlog].
  assert (∀ v, events_of (rewritten u now (op_row o now r) p db) v = events_of db v) as Hev0
    by (by destruct p).
  split; rewrite ?Hw.
  - split; [by rewrite Hv; destruct p|..]; intros v Hne.
    + rewrite Hru by done. destruct p; cbn; rewrite lookup_insert_ne by congruence; done.
    + rewrite Hre by done. destruct p; cbn; rewrite ?lookup_insert_ne by congruence; done.
    + by rewrite Hev, Hev0 by done.
  - exists now. rewrite Hrow. destruct p; cbn; by rewrite lookup_insert_eq.
  - rewrite Hrep, Hp. destruct p; cbn; [by rewrite lookup_insert_eq|done].
  - destruct must; [destruct Hlog as (e & He & _)|rename Hlog into He]; rewrite He, Hev0.
    + by exists [e].
    + exists []. rewrite app_nil_r. split; [done|cbn; lia].
  - rewrite Hreq, orb_false_r.
    destruct must; [destruct Hlog as (e & He & Het & _)|rename Hlog into He]; rewrite He, Hev0; [|done].
    rewrite existsb_app. cbn. unfold is_cancel_row at 2. by rewrite Het, Hty, !orb_false_r.
Qed.

(** *** Each operation *)
Lemma report_row_any status status' rep :
  is_Some (report_row status rep) ↔ is_Some (report_row status' rep).
Proof.
  unfold report_row. destruct (write_summary _); cbn; [|done].
  destruct (write_checks (Report_Thresholds rep)); cbn; [|done].
  destruct (write_checks (Report_Invariants rep)); cbn; [|done].
  by destruct (write_failures _); cbn.
Qed.
Lemma report_row_stamp r st status rep :
  report_row status (stamp_report r st rep) = report_row status rep.
Proof. done. Qed.

Section Operation.
Variables (c : clock) (id u : string) (r : RunRow) (db : DB).
Hypothesis Hu : uuid_in id = Some u.
Hypothesis Hok : DBOk db.
Hypothesis Hr : db_runs db !! u = Some r.

Lemma logged_effect {A} o now p e (a : A) db' :
  db' = snd (run (then_event c id e a) (rewritten u now (op_row o now r) p db)) →
  writes o r = true → String.eqb (Event_Type e) TypeCancelRequested = false →
  op_requests o r = false →
  op_report o (db_reports db !! u) = (if p is Some _ then p else db_reports db !! u) →
  DBOk (rewritten u now (op_row o now r) p db) →
  effect o u r db db'.
Proof.
  intros -> Hw Hty Hreq Hp Hok'. rewrite run_then_event. cbn [snd].
  eapply effect_logged; try done. apply append_logs; [done|done|].
  destruct p; cbn; rewrite lookup_insert_eq; by eexists.
Qed.

Lemma finished_effect o status msg rep (k : bool → pg ()) e :
  isTerminalRunStatus status = true → text_in msg = true →
  pg_storable o = bool_decide (is_Some (report_row status rep)) →
  (∀ now, op_row o now r = finish_run now status (nullif_empty msg) r) →
  (∀ p, op_report o p = report_row status rep) →
  k false = Ret () → k true = then_event c id e () →
  String.eqb (Event_Type e) TypeCancelRequested = false → op_requests o r = false →
  effect o u r db (snd (run (pg_bind (finishRunWithReport c id status rep msg) k) db)).
Proof.
  intros Ht Hmsg Hs Hrow Hrep Hkf Hkt Hty Hreq. unfold finishRunWithReport.
  rewrite !run_bind, run_getRun_db, run_ask. cbv zeta.
  set (rep' := match fst _ with Some _ => _ | None => _ end).
  assert (report_row status rep' = report_row status rep) as Erep by (unfold rep'; by case_match).
  pose proof (good_finish_run c id status msg rep' Ht db) as Hgood.
  rewrite finish_run_eval, Hmsg, Hu, Hr, Erep in * by done. cbv zeta in *.
  set (now := Z.max (db_now db) (to_micros (clk_now c))) in *.
  destruct (isCancelableRunStatus (rr_status r)) eqn:Hc.
  2: { cbn [fst snd run]. rewrite Hkf. apply effect_same; eauto. unfold writes. by rewrite Hc. }
  destruct (report_row status rep) as [p|] eqn:Hp.
  2: { cbn [fst snd run]. rewrite Hkf. apply effect_same; auto. unfold writes. by rewrite Hs, andb_false_r. }
  cbn [fst snd run]. rewrite Hkt. rewrite <-Hrow in *.
  eapply (logged_effect o now (Some p) e ()); try done.
  - unfold writes. by rewrite Hc, Hs.
  - apply (proj1 (Hgood true _ Hok eq_refl)).
Qed.

Lemma updated_effect o (k : Z → pg ()) e (guard : bool) :
  pg_storable o = guard →
  (∀ now, RunOk now r → isCancelableRunStatus (rr_status r) = true →
          RunOk now (op_row o now r) ∧ run_evolves r (op_row o now r)) →
  (∀ now, RunOk now r → isCancelableRunStatus (rr_status r) = true →
          run_times_ok (op_row o now r) = true) →
  (∀ p, op_report o p = p) → op_requests o r = false →
  String.eqb (Event_Type e) TypeCancelRequested = false →
  k 0 = Ret () → k 1 = then_event c id e () →
  effect o u r db
    (snd (run (ask (q_guard (λ _, guard);? let? now := server_now c in update_live_run id (op_row o now))
                 () k) db)).
Proof.
  intros Hs Hrow Htimes Hrep Hreq Hty Hk0 Hk1. rewrite run_ask.
  unfold q_bind at 1, q_guard. destruct guard.
  2: { apply effect_same; auto. unfold writes. by rewrite Hs, andb_false_r. }
  unfold q_bind, server_now. rewrite update_live_run_eval, Hu.
  set (now := Z.max (db_now db) (to_micros (clk_now c))). cbn [set_now db_runs]. rewrite Hr.
  assert (RunOk now r) as Hro by (eapply RunOk_now, ok_run; [|done..]; lia).
  destruct (isCancelableRunStatus (rr_status r)) eqn:Hc.
  2: { rewrite Hk0. apply effect_same; eauto. unfold writes. by rewrite Hc. }
  rewrite Htimes by done. rewrite Hk1.
  eapply (logged_effect o now None e ()); try done.
  - unfold writes. by rewrite Hc, Hs.
  - destruct (good_now c db now (set_now now db) Hok eq_refl) as [Hok1 _].
    destruct (Hrow now Hro eq_refl). by apply (put_run_ok (set_now now db) u r).
Qed.

(** Only an event is logged. *)
Lemma event_effect o type msg must db' :
  logs u type msg must db db' → (∀ now, op_row o now r = r) → (∀ p, op_report o p = p) →
  op_requests o r = (must && String.eqb type TypeCancelRequested)
    ∨ existsb is_cancel_row (events_of db u) = true ∧ must = false →
  effect o u r db db'.
Proof.
  intros [Ht Hrow Hrep Hlog] Horow Horep Hreq. split; [done| | | |].
  - exists 0. rewrite Hrow, Hr, Horow. by destruct (writes o r).
  - rewrite Hrep, Horep. by destruct (writes o r).
  - destruct must; [destruct Hlog as (e & He & _)|rename Hlog into He]; rewrite He; [by exists [e]|].
    exists []. rewrite app_nil_r. split; [done|cbn; lia].
  - destruct must.
    + destruct Hlog as (e & He & Het & _). rewrite He, existsb_app. cbn. rewrite orb_false_r.
      f_equal. unfold is_cancel_row. rewrite Het. by destruct Hreq as [->|[_ ?]].
    + rewrite Hlog. destruct Hreq as [->|[-> _]]; [by rewrite orb_false_r|done].
Qed.

Lemma live_times now o :
  RunOk now r → isCancelableRunStatus (rr_status r) = true →
  (∃ st err, op_row o now r = finish_run now st err r) ∨ op_row o now r = start_run now r →
  run_times_ok (op_row o now r) = true.
Proof.
  intros [_ _ Hst Hlive _] Hc [(st & err & ->)| ->]; unfold run_times_ok; cbn.
  - destruct (rr_started_at r) as [s|]; [|done]. specialize (Hst s eq_refl). lia.
  - by rewrite Hlive.
Qed.

Lemma op_effect o : effect o u r db (snd (run (pg_op o c id) db)).
Proof.
  destruct o as [|rep|rep|msg| |e]; unfold pg_op.
  - unfold pg_MarkRunStarted.
    pose proof (updated_effect OpStart (λ rows, if rows =? 0 then Ret () else
      then_event c id (new_event LevelInfo TypeRunStarted "run started" None) ())
      (new_event LevelInfo TypeRunStarted "run started" None) true) as H.
    rewrite run_ask in *. unfold q_bind at 1, q_guard in H. apply H; try done.
    + intros. by apply start_run_ok.
    + intros. apply live_times; [done|done|by right].
  - unfold pg_CompleteRun. cbv zeta.
    eapply (finished_effect (OpComplete rep)); try done.
    + apply verdict_terminal.
    + by apply text_in_ascii.
    + cbn. apply bool_decide_ext, report_row_any.
    + by destruct (String.eqb (verdict_status rep) RunFailed) eqn:Hv; cbn; rewrite Hv.
  - unfold pg_CancelRun. eapply (finished_effect (OpCancel rep)); try done.
    + by apply text_in_ascii.
    + cbn. apply bool_decide_ext, report_row_any.
  - unfold pg_ErrorRun.
    pose proof (updated_effect (OpError msg) (λ rows, if rows =? 0 then Ret () else
      then_event c id (new_event LevelError TypeRunFailed msg None) ())
      (new_event LevelError TypeRunFailed msg None) (forallb text_in [msg])) as H.
    apply H; try done.
    + cbn. by rewrite andb_true_r.
    + intros. by apply finish_run_ok.
    + intros. apply live_times; [done|done|left; by do 2 eexists].
  - unfold pg_RequestRunCancel. rewrite run_bind, run_ask, request_cancel_eval, Hu, Hr by done.
    destruct (isCancelableRunStatus (rr_status r)) eqn:Hc.
    2: { cbn [fst snd run]. eapply (event_effect OpRequestCancel "" ""); [apply logs_none|done..|].
         left. cbn. by rewrite Hc. }
    destruct (existsb _ (events_of db u)) eqn:Hex.
    { cbn [fst snd run]. eapply (event_effect OpRequestCancel "" ""); [apply logs_none|done..|].
      by right. }
    destruct (status_writable _ Hc) as [raw ->]. cbn [fst snd run].
    eapply event_effect; [by apply logs_push|done..|].
    left. cbn. by rewrite Hc.
  - rewrite run_bind. cbn [run snd].
    eapply event_effect; [apply append_logs; [done|done|by eexists]|done..|by left].
Qed.
End Operation.

(** *** No such run *)
Section NoRun.
Variables (c : clock) (id : string) (db : DB).
Hypothesis Hok : DBOk db.
Hypothesis Hnone : uuid_in id ≫= (λ u, db_runs db !! u) = None.

Lemma now_nothing t : touches None db (set_now t db).
Proof. done. Qed.
Lemma updated_nothing (q : query ()) f (k : Z → pg ()) :
  (q db = None ∨ q db = Some ((), db)) → k 0 = Ret () →
  touches None db (snd (run (ask (q;? let? now := server_now c in update_live_run id (f now)) () k) db)).
Proof.
  intros Hq Hk. rewrite run_ask. unfold q_bind at 1. destruct Hq as [->| ->]; [done|].
  unfold q_bind, server_now. rewrite update_live_run_eval. destruct (uuid_in id) as [u|]; [|done].
  cbn in Hnone. cbn [set_now db_runs]. rewrite Hnone. by rewrite Hk.
Qed.
Lemma finished_nothing status msg rep (k : bool → pg ()) :
  isTerminalRunStatus status = true → k false = Ret () →
  touches None db (snd (run (pg_bind (finishRunWithReport c id status rep msg) k) db)).
Proof.
  intros Ht Hk. unfold finishRunWithReport. rewrite !run_bind, run_getRun_db, run_ask. cbv zeta.
  rewrite finish_run_eval by done. destruct (text_in msg); [|by cbn; rewrite Hk].
  destruct (uuid_in id) as [u|]; [|by cbn; rewrite Hk]. cbn in Hnone. rewrite Hnone. cbn. by rewrite Hk.
Qed.

Lemma op_nothing o : touches None db (snd (run (pg_op o c id) db)).
Proof.
  destruct o as [|rep|rep|msg| |e]; unfold pg_op.
  - apply (updated_nothing (q_ret ())); [by right|done].
  - by apply finished_nothing; [apply verdict_terminal|].
  - by apply finished_nothing.
  - apply (updated_nothing (text_args [msg])); [|done].
    unfold text_args, q_guard. destruct (forallb _ _); auto.
  - unfold pg_RequestRunCancel. rewrite run_bind, run_ask, request_cancel_eval by done.
    destruct (uuid_in id) as [u|]; [|done]. cbn in Hnone. by rewrite Hnone.
  - rewrite run_bind. cbn [run snd]. destruct (uuid_in id) as [u|] eqn:Hu.
    + by rewrite (append_unknown _ _ _ _ u).
    + by rewrite append_none.
Qed.
End NoRun.

(** ** Reading *)
Definition stored_run (db : DB) (u id : string) (r : RunRow) : option RunRecord :=
  with_report (row_report id "" "" 0 <$> db_reports db !! u)
    <$> run_record (u, r, run_version_number db r).
Lemma GetRun_eval id db :
  run (pg_GetRun id) db
  = (u ← uuid_in id; r ← db_runs db !! u; stored_run db u id r, db).
Proof.
  unfold pg_GetRun. rewrite run_bind, run_getRun_db. unfold pg_getRun. rewrite run_ask.
  unfold select_run, q_bind, uuid_arg, q_option, q_get.
  destruct (uuid_in id) as [u|] eqn:Hu; [|done]. cbn [mbind option_bind fst snd run].
  destruct (db_runs db !! u) as [r|] eqn:Hr; [|done]. cbn [fmap option_fmap option_map mbind option_bind].
  unfold stored_run. destruct (run_record _) as [record|]; [|done].
  rewrite run_bind. unfold pg_getReport. rewrite run_ask.
  unfold select_report, q_bind, uuid_arg, q_option, q_get. rewrite Hu.
  by destruct (db_reports db !! u) as [p|].
Qed.
Lemma ListRunEvents_eval id db :
  run (pg_ListRunEvents id) db
  = (default [] ((λ u, (λ e, row_event (u, e)) <$> events_of db u) <$> uuid_in id), db).
Proof.
  unfold pg_ListRunEvents. rewrite run_ask. unfold select_events, q_bind, uuid_arg, q_option, q_get.
  destruct (uuid_in id) as [u|]; [|done]. cbn. by rewrite map_map.
Qed.
Lemma IsRunCancelRequested_eval id db :
  run (pg_IsRunCancelRequested id) db
  = (from_option (λ u, existsb is_cancel_row (events_of db u)) false (uuid_in id), db).
Proof.
  unfold pg_IsRunCancelRequested. rewrite run_ask.
  unfold event_type_exists, q_bind, uuid_arg, q_option, q_get. by destruct (uuid_in id).
Qed.
Lemma run_record_some u r n :
  is_Some (read_scenario (rr_snapshot r)) →
  ∃ rec, run_record (u, r, n) = Some rec ∧ Run_Status rec = rr_status r
         ∧ read_scenario (rr_snapshot r) = Some (Run_Scenario rec)
         ∧ Run_Error rec = default "" (rr_error r).
Proof. intros [sc Hsc]. unfold run_record. rewrite Hsc. cbn. by eexists. Qed.
Lemma stored_run_some db u id r :
  DBOk db → db_runs db !! u = Some r →
  ∃ rec, stored_run db u id r = Some rec ∧ Run_Status rec = rr_status r
         ∧ read_scenario (rr_snapshot r) = Some (Run_Scenario rec)
         ∧ Run_Error rec = default "" (rr_error r)
         ∧ Run_Report rec = row_report id "" "" 0 <$> db_reports db !! u.
Proof.
  intros Hok Hr. destruct (ok_run db Hok u r Hr) as [_ Hro].
  destruct (run_record_some u r (run_version_number db r) (ro_snapshot _ _ Hro)) as (rec & E & ?).
  unfold stored_run. rewrite E. eexists. split; [done|]. tauto.
Qed.
End Effects.
