(* ===== verification/PgStore.v ===== *)
(** * The Postgres store as an implementation of the contract

    The state is a set of tables that satisfies [DBOk]; an operation runs its
    program alone.  From the effect of the operations (PgEffect.v) follow the
    laws of [RunStore], so that what is proved of the executor, the worker and
    the API over that interface holds over Postgres. *)

From S2P Require Export PgEffect.

Open Scope Z_scope.
Open Scope pg_scope.

#[local] Arguments isTerminalRunStatus : simpl never.
#[local] Arguments isCancelableRunStatus : simpl never.

(** The id of the default project, which [NewPostgres] found. *)
Class PgProject := { projectID : string }.

Section Instances.
Context `{UT : UnicodeTables} `{PT : PgTypes} `{PC : PgColumns} {PL : PgLaws} {PP : PgProject}.

Record Pg := { pg_db : DB; pg_ok : DBOk pg_db }.
(** A call that runs alone. *)
Definition call {A} (p : pg A) (Hp : safe p) (s : Pg) : A * Pg :=
  (fst (run p (pg_db s)),
   Build_Pg (snd (run p (pg_db s))) (proj1 (run_safe p (pg_db s) Hp (pg_ok s)))).

Lemma safe_op o c id : safe (pg_op o c id).
Proof.
  destruct o; unfold pg_op; try (apply safe_bind; [|done]).
  - eapply (pg_call_safe ""), call_start.
  - eapply (pg_call_safe ""), call_complete.
  - eapply (pg_call_safe ""), call_cancel.
  - eapply (pg_call_safe ""), call_error.
  - eapply (pg_call_safe ""), call_request_cancel.
  - eapply (pg_call_safe ""), call_append.
Qed.
Definition same_uuid (a b : string) : bool :=
  match uuid_in a, uuid_in b with
  | Some u, Some v => String.eqb u v
  | None, None => String.eqb a b
  | _, _ => false
  end.

#[export] Instance Pg_RunStore : RunStore Pg := {
  GetRun s id := fst (run (pg_GetRun id) (pg_db s));
  IsRunCancelRequested s id := fst (run (pg_IsRunCancelRequested id) (pg_db s));
  ListRunEvents s id := fst (run (pg_ListRunEvents id) (pg_db s));
  MarkRunStarted c id s := snd (call (pg_MarkRunStarted c id) (safe_op OpStart c id) s);
  CompleteRun c id rep s := snd (call (pg_CompleteRun c id rep) (safe_op (OpComplete rep) c id) s);
  CancelRun c id rep s := snd (call (pg_CancelRun c id rep) (safe_op (OpCancel rep) c id) s);
  ErrorRun c id msg s := snd (call (pg_ErrorRun c id msg) (safe_op (OpError msg) c id) s);
  RequestRunCancel c id s :=
    call (pg_RequestRunCancel c id) (pg_call_safe "" _ _ (call_request_cancel "" c id)) s;
  AppendRunEvent c id e s :=
    call (pg_AppendRunEvent c id e) (pg_call_safe "" _ _ (call_append "" c id e)) s;
  storable := pg_storable;
  same_id := same_uuid;
}.

Lemma op_db o c id s : pg_db (run_op_apply o c id s) = snd (run (pg_op o c id) (pg_db s)).
Proof. destruct o; unfold pg_op; rewrite ?run_bind; reflexivity. Qed.
Lemma GetRun_row s id :
  GetRun s id = (u ← uuid_in id; r ← db_runs (pg_db s) !! u; stored_run (pg_db s) u id r).
Proof. change (GetRun s id) with (fst (run (pg_GetRun id) (pg_db s))). by rewrite GetRun_eval. Qed.
Lemma cancel_row s id :
  IsRunCancelRequested s id
  = from_option (λ u, existsb is_cancel_row (events_of (pg_db s) u)) false (uuid_in id).
Proof.
  change (IsRunCancelRequested s id) with (fst (run (pg_IsRunCancelRequested id) (pg_db s))).
  by rewrite IsRunCancelRequested_eval.
Qed.
Lemma events_row s id :
  ListRunEvents s id
  = default [] ((λ u, (λ e, row_event (u, e)) <$> events_of (pg_db s) u) <$> uuid_in id).
Proof.
  change (ListRunEvents s id) with (fst (run (pg_ListRunEvents id) (pg_db s))).
  by rewrite ListRunEvents_eval.
Qed.

(** The run that a text identifies. *)
Lemma GetRun_inv s id rec :
  GetRun s id = Some rec →
  ∃ u r, uuid_in id = Some u ∧ db_runs (pg_db s) !! u = Some r ∧ stored_run (pg_db s) u id r = Some rec.
Proof.
  rewrite GetRun_row. intros (u & Hu & (r & Hr & Hs)%bind_Some)%bind_Some. eauto.
Qed.
Lemma GetRun_of s id u r :
  uuid_in id = Some u → db_runs (pg_db s) !! u = Some r →
  ∃ rec, GetRun s id = Some rec ∧ Run_Status rec = rr_status r
         ∧ read_scenario (rr_snapshot r) = Some (Run_Scenario rec)
         ∧ Run_Error rec = default "" (rr_error r)
         ∧ Run_Report rec = row_report id "" "" 0 <$> db_reports (pg_db s) !! u.
Proof.
  intros Hu Hr. rewrite GetRun_row, Hu. cbn. rewrite Hr. apply stored_run_some; [apply pg_ok|done].
Qed.
Lemma GetRun_none s id :
  uuid_in id ≫= (λ u, db_runs (pg_db s) !! u) = None → GetRun s id = None.
Proof.
  rewrite GetRun_row. destruct (uuid_in id) as [u|]; [|done]. cbn. by intros ->.
Qed.
Lemma row_cases s id :
  (∃ u r, uuid_in id = Some u ∧ db_runs (pg_db s) !! u = Some r)
  ∨ uuid_in id ≫= (λ u, db_runs (pg_db s) !! u) = None.
Proof.
  destruct (uuid_in id) as [u|] eqn:Hu; [|by right]. cbn.
  destruct (db_runs (pg_db s) !! u) as [r|] eqn:Hr; [left|by right]. eauto.
Qed.
Lemma effect_at s o c id u r :
  uuid_in id = Some u → db_runs (pg_db s) !! u = Some r →
  effect o u r (pg_db s) (pg_db (run_op_apply o c id s)).
Proof. intros Hu Hr. rewrite op_db. apply op_effect; [done|apply pg_ok|done]. Qed.
Lemma nothing_at s o c id :
  uuid_in id ≫= (λ u, db_runs (pg_db s) !! u) = None →
  touches None (pg_db s) (pg_db (run_op_apply o c id s)).
Proof. intros Hn. rewrite op_db. apply op_nothing; [apply pg_ok|done]. Qed.

(** What is read of a run that is not touched. *)
Lemma touches_stored ou db db' u id r :
  touches ou db db' → Some u ≠ ou → stored_run db' u id r = stored_run db u id r.
Proof.
  intros [Hv _ Hre _] Hne. unfold stored_run, run_version_number. by rewrite Hre, Hv by done.
Qed.
Lemma touches_reads ou s s' id :
  touches ou (pg_db s) (pg_db s') → (∀ u, uuid_in id = Some u → Some u ≠ ou) →
  GetRun s' id = GetRun s id ∧ IsRunCancelRequested s' id = IsRunCancelRequested s id
  ∧ ListRunEvents s' id = ListRunEvents s id.
Proof.
  intros Ht Hne. rewrite !GetRun_row, !cancel_row, !events_row.
  destruct (uuid_in id) as [u|]; [|done]. specialize (Hne u eq_refl). cbn.
  rewrite (to_runs _ _ _ Ht u Hne), (to_events _ _ _ Ht u Hne). split_and!; [|done|done].
  destruct (db_runs (pg_db s) !! u) as [r|]; [|done]. cbn. by eapply touches_stored.
Qed.

(** ** The laws *)
Lemma life_of_row s id u r :
  uuid_in id = Some u → db_runs (pg_db s) !! u = Some r →
  life_of s id = Build_life (Some (rr_status r)) (existsb is_cancel_row (events_of (pg_db s) u)).
Proof.
  intros Hu Hr. destruct (GetRun_of s id u r Hu Hr) as (rec & Hg & Hst & _).
  rewrite (life_of_some _ _ _ Hg), Hst, cancel_row, Hu. done.
Qed.
Lemma live_cancelable st :
  st ∈ run_statuses → negb (isTerminalRunStatus st) = isCancelableRunStatus st.
Proof.
  unfold run_statuses. rewrite !elem_of_cons, elem_of_nil.
  by intros [->|[->|[->|[->|[->|[->|[]]]]]]].
Qed.
Lemma row_live s u r :
  db_runs (pg_db s) !! u = Some r →
  negb (isTerminalRunStatus (rr_status r)) = isCancelableRunStatus (rr_status r).
Proof. intros Hr. apply live_cancelable. by eapply ro_status, ok_run, Hr; apply pg_ok. Qed.

Lemma pg_op_life s o c id : life_of (run_op_apply o c id s) id = life_step (life_of s id) o.
Proof.
  destruct (row_cases s id) as [(u & r & Hu & Hr)|Hn].
  - destruct (effect_at s o c id u r Hu Hr) as [_ [now Hrow] _ _ Hc].
    rewrite (life_of_row _ _ _ _ Hu Hrow), (life_of_row _ _ _ _ Hu Hr), Hc.
    pose proof (row_live s u r Hr) as Hlive. unfold writes, life_step.
    change (storable o) with (pg_storable o).
    destruct (pg_storable o) eqn:Hs; rewrite ?andb_true_r, ?andb_false_r.
    2: { f_equal. destruct o; cbn in Hs |- *; rewrite ?Hs, ?orb_false_r; done. }
    destruct o; cbn in Hs |- *; unfold with_status, live; cbn; rewrite ?Hlive, ?Hs, ?orb_false_r;
      by destruct (isCancelableRunStatus (rr_status r)); cbn; rewrite ?orb_true_r, ?orb_false_r.
  - destruct (touches_reads None s (run_op_apply o c id s) id) as (Hg & _);
      [by apply nothing_at|by intros|].
    unfold life_of. rewrite Hg, (GetRun_none s id Hn). unfold life_step.
    destruct (storable o); [|done]. by destruct o.
Qed.

Lemma same_uuid_some id id' u :
  uuid_in id = Some u → same_uuid id' id = true → uuid_in id' = Some u.
Proof.
  unfold same_uuid. intros ->. destruct (uuid_in id'); [|done]. by intros ->%String.eqb_eq.
Qed.
Lemma same_uuid_in id id' : same_uuid id' id = true → uuid_in id' = uuid_in id.
Proof.
  unfold same_uuid. destruct (uuid_in id'), (uuid_in id); [|done..]. by intros ->%String.eqb_eq.
Qed.
Lemma pg_op_frame s o c id id' :
  same_uuid id' id = false →
  GetRun (run_op_apply o c id s) id' = GetRun s id'
  ∧ IsRunCancelRequested (run_op_apply o c id s) id' = IsRunCancelRequested s id'
  ∧ ListRunEvents (run_op_apply o c id s) id' = ListRunEvents s id'.
Proof.
  intros Hne. destruct (row_cases s id) as [(u & r & Hu & Hr)|Hn].
  - destruct (effect_at s o c id u r Hu Hr) as [Ht _ _ _ _]. eapply touches_reads; [exact Ht|].
    intros v Hv [= ->]. unfold same_uuid in Hne. by rewrite Hu, Hv, String.eqb_refl in Hne.
  - eapply touches_reads; [by apply nothing_at|by intros].
Qed.

(** The row of the run after an operation. *)
Lemma GetRun_after s o c id id' rec :
  same_uuid id' id = true → GetRun s id' = Some rec →
  ∃ u r now, uuid_in id = Some u ∧ uuid_in id' = Some u ∧ db_runs (pg_db s) !! u = Some r
    ∧ stored_run (pg_db s) u id' r = Some rec
    ∧ effect o u r (pg_db s) (pg_db (run_op_apply o c id s))
    ∧ db_runs (pg_db (run_op_apply o c id s)) !! u = Some (if writes o r then op_row o now r else r).
Proof.
  intros Hs Hg. destruct (GetRun_inv s id' rec Hg) as (u & r & Hu' & Hr & Hrec).
  assert (uuid_in id = Some u) as Hu by (rewrite <-Hu'; symmetry; by apply same_uuid_in).
  pose proof (effect_at s o c id u r Hu Hr) as He. destruct (ef_row _ _ _ _ _ He) as [now Hrow].
  exists u, r, now. by split_and!.
Qed.
Lemma stored_run_status db u id r rec :
  DBOk db → db_runs db !! u = Some r → stored_run db u id r = Some rec →
  Run_Status rec = rr_status r ∧ read_scenario (rr_snapshot r) = Some (Run_Scenario rec).
Proof.
  intros Hok Hr Hs. destruct (stored_run_some db u id r Hok Hr) as (rec' & Hs' & ? & ? & _).
  rewrite Hs in Hs'. by injection Hs' as ->.
Qed.
Lemma pg_op_terminal s o c id id' rec :
  same_uuid id' id = true → GetRun s id' = Some rec →
  isTerminalRunStatus (Run_Status rec) = true →
  GetRun (run_op_apply o c id s) id' = Some rec.
Proof.
  intros Hs Hg Ht. destruct (GetRun_after s o c id id' rec Hs Hg)
    as (u & r & now & Hu & Hu' & Hr & Hrec & He & Hrow).
  destruct (stored_run_status _ _ _ _ _ (pg_ok s) Hr Hrec) as [Hst _]. rewrite Hst in Ht.
  assert (writes o r = false) as Hw
    by (unfold writes; by rewrite (terminal_not_cancelable _ Ht)).
  rewrite Hw in Hrow. rewrite GetRun_row, Hu'. cbn. rewrite Hrow. cbn. rewrite <-Hrec.
  unfold stored_run, run_version_number. rewrite (ef_report _ _ _ _ _ He), Hw.
  by rewrite (to_versions _ _ _ (ef_touches _ _ _ _ _ He)).
Qed.
Lemma op_row_snapshot o now r : rr_snapshot (op_row o now r) = rr_snapshot r.
Proof. by destruct o. Qed.
Lemma pg_op_scenario s o c id id' rec :
  same_uuid id' id = true → GetRun s id' = Some rec →
  ∃ rec', GetRun (run_op_apply o c id s) id' = Some rec' ∧ Run_Scenario rec' = Run_Scenario rec.
Proof.
  intros Hs Hg. destruct (GetRun_after s o c id id' rec Hs Hg)
    as (u & r & now & Hu & Hu' & Hr & Hrec & He & Hrow).
  destruct (stored_run_status _ _ _ _ _ (pg_ok s) Hr Hrec) as [_ Hsc].
  destruct (GetRun_of _ id' u _ Hu' Hrow) as (rec' & Hg' & _ & Hsc' & _). exists rec'. split; [done|].
  assert (Some (Run_Scenario rec') = Some (Run_Scenario rec)) as [=] by
    (rewrite <-Hsc, <-Hsc'; destruct (writes o r); by rewrite ?op_row_snapshot). done.
Qed.

(** A live run takes what the columns can hold. *)
Lemma written_row s o c id rec :
  GetRun s id = Some rec → isTerminalRunStatus (Run_Status rec) = false → pg_storable o = true →
  ∃ u r now, uuid_in id = Some u ∧ db_runs (pg_db s) !! u = Some r
    ∧ db_runs (pg_db (run_op_apply o c id s)) !! u = Some (op_row o now r)
    ∧ db_reports (pg_db (run_op_apply o c id s)) !! u = op_report o (db_reports (pg_db s) !! u).
Proof.
  intros Hg Ht Hsto. assert (same_uuid id id = true) as Hs
    by (unfold same_uuid; destruct (uuid_in id); apply String.eqb_refl).
  destruct (GetRun_after s o c id id rec Hs Hg) as (u & r & now & Hu & _ & Hr & Hrec & He & Hrow).
  destruct (stored_run_status _ _ _ _ _ (pg_ok s) Hr Hrec) as [Hst _]. rewrite Hst in Ht.
  assert (writes o r = true) as Hw.
  { unfold writes. by rewrite <-(row_live s u r Hr), Ht, Hsto. }
  exists u, r, now. rewrite (ef_report _ _ _ _ _ He), Hw in *. done.
Qed.
Lemma pg_op_error s c id msg rec :
  GetRun s id = Some rec → isTerminalRunStatus (Run_Status rec) = false → text_in msg = true →
  Run_Error <$> GetRun (ErrorRun c id msg s) id = Some msg.
Proof.
  intros Hg Ht Hm. destruct (written_row s (OpError msg) c id rec Hg Ht Hm)
    as (u & r & now & Hu & _ & Hrow & _).
  destruct (GetRun_of _ id u _ Hu Hrow) as (rec' & Hg' & _ & _ & Herr & _).
  change (ErrorRun c id msg s) with (run_op_apply (OpError msg) c id s). rewrite Hg'. cbn.
  by rewrite Herr.
Qed.
Lemma pg_op_request_cancel s c id :
  fst (RequestRunCancel c id s)
  = from_option isCancelableRunStatus false (life_status (life_of s id)).
Proof.
  rewrite life_of_status, GetRun_row.
  change (fst (RequestRunCancel c id s)) with (fst (run (pg_RequestRunCancel c id) (pg_db s))).
  unfold pg_RequestRunCancel. rewrite run_ask, request_cancel_eval by apply pg_ok.
  destruct (uuid_in id) as [u|]; [|done]. cbn [mbind option_bind].
  destruct (db_runs (pg_db s) !! u) as [r|] eqn:Hr; [|done]. cbn [mbind option_bind].
  destruct (stored_run_some _ u id r (pg_ok s) Hr) as (rec & -> & Hst & _). cbn. rewrite Hst.
  destruct (isCancelableRunStatus (rr_status r)) eqn:Hc; [|done].
  destruct (existsb _ _); [done|]. by destruct (status_writable _ Hc) as [raw ->].
Qed.
Lemma pg_op_events s o c id :
  ∃ es, ListRunEvents (run_op_apply o c id s) id = ListRunEvents s id ++ es
        ∧ (length es ≤ 1)%nat.
Proof.
  destruct (row_cases s id) as [(u & r & Hu & Hr)|Hn].
  - destruct (ef_events _ _ _ _ _ (effect_at s o c id u r Hu Hr)) as (es & He & Hl).
    exists ((λ e, row_event (u, e)) <$> es). rewrite !events_row, Hu. cbn [fmap option_fmap option_map default].
    rewrite He, fmap_app. split; [done|]. by rewrite length_fmap.
  - exists []. rewrite app_nil_r. split; [|cbn; lia].
    destruct (touches_reads None s (run_op_apply o c id s) id) as (_ & _ & ->);
      [by apply nothing_at|by intros|done].
Qed.
Lemma pg_op_append s c id e rec :
  GetRun s id = Some rec → event_storable e = true →
  ∃ e', ListRunEvents (snd (AppendRunEvent c id e s)) id = ListRunEvents s id ++ [e']
        ∧ Event_Type e' = Event_Type e ∧ Event_Message e' = Event_Message e.
Proof.
  intros Hg Hst. destruct (GetRun_inv s id rec Hg) as (u & r & Hu & Hr & _).
  destruct (append_logs c id e (pg_db s) u Hu (pg_ok s)) as [_ _ _ Hlog]; [by eexists|].
  rewrite Hst in Hlog. destruct Hlog as (row & He & Hty & Hm & _).
  exists (row_event (u, row)). rewrite !events_row, Hu. cbn [fmap option_fmap option_map default].
  change (pg_db (snd (AppendRunEvent c id e s))) with (snd (run (pg_AppendRunEvent c id e) (pg_db s))).
  rewrite He, fmap_app. done.
Qed.
(** The invariant of the tables numbers the events. *)
Lemma rows_numbered s id : Numbered (ListRunEvents s id).
Proof.
  rewrite events_row. destruct (uuid_in id) as [u|]; [|by intros ? ?].
  cbn [fmap option_fmap option_map default]. intros i e He.
  unfold Datatypes.id in He. apply list_lookup_fmap_Some in He as (row & -> & Hrow).
  exact (events_numbered (pg_db s) u (pg_ok s) i row Hrow).
Qed.

#[export] Instance same_uuid_equiv : Equivalence (λ a b, same_uuid a b = true).
Proof.
  unfold same_uuid. split.
  - intros a. destruct (uuid_in a); apply String.eqb_refl.
  - intros a b. destruct (uuid_in a), (uuid_in b); try done; by rewrite String.eqb_sym.
  - intros a b c. destruct (uuid_in a), (uuid_in b), (uuid_in c); try done;
      by intros ->%String.eqb_eq.
Qed.
Lemma same_uuid_reads s id id' :
  same_uuid id' id = true →
  Run_Status <$> GetRun s id' = Run_Status <$> GetRun s id
  ∧ IsRunCancelRequested s id' = IsRunCancelRequested s id
  ∧ ListRunEvents s id' = ListRunEvents s id.
Proof.
  intros Hs%same_uuid_in. rewrite !cancel_row, !events_row, !GetRun_row, Hs.
  split_and!; [|done|done]. destruct (uuid_in id) as [u|]; [|done].
  cbn [mbind option_bind]. destruct (db_runs (pg_db s) !! u) as [r|] eqn:Hr; [|done]. cbn [mbind option_bind].
  destruct (stored_run_some _ u id r (pg_ok s) Hr) as (rec & -> & Hst & _).
  destruct (stored_run_some _ u id' r (pg_ok s) Hr) as (rec' & -> & Hst' & _). cbn.
  by rewrite Hst, Hst'.
Qed.

#[export] Instance Pg_RunStoreLaws : RunStoreLaws Pg.
Proof.
  refine (Build_RunStoreLaws Pg _ same_uuid_equiv same_uuid_reads pg_op_life pg_op_frame
            pg_op_terminal pg_op_scenario _ pg_op_request_cancel pg_op_events _ _ _).
  - intros s c id msg r Hg Ht Hm. by eapply pg_op_error.
  - intros s c id e r. apply pg_op_append.
  - intros s o c id _. apply rows_numbered.
  - by intros [].
Qed.

(** What is kept of a report: what its columns give back, under the status of
    the run instead of its own. *)
Definition keeps_columns (status : string) (rep : Report) (r : RunRecord) : Prop :=
  ∃ id p, report_row (Run_Status r) rep = Some p
          ∧ Run_Report r = Some (row_report id "" "" 0 p).
Lemma pg_keeps s o c id status any rep rec rec' :
  GetRun s id = Some rec → isTerminalRunStatus (Run_Status rec) = false → pg_storable o = true →
  is_Some (report_row "" rep) → (∀ old, op_report o old = report_row status rep) →
  (∀ now r, rr_status (op_row o now r) = status) →
  GetRun (run_op_apply o c id s) id = Some rec' → keeps_columns any rep rec'.
Proof.
  intros Hg Ht Hsto Hsome Hrep Hst Hg'.
  destruct (written_row s o c id rec Hg Ht Hsto) as (u & r & now & Hu & Hr & Hrow & Hp).
  destruct (GetRun_of _ id u _ Hu Hrow) as (rec2 & Hg2 & Hst2 & _ & _ & Hrep2).
  rewrite Hg' in Hg2. injection Hg2 as <-. rewrite Hp, Hrep in Hrep2. rewrite Hst in Hst2.
  apply (report_row_any "" status) in Hsome as [p Hrr]. rewrite Hrr in Hrep2.
  exists id, p. by rewrite Hst2.
Qed.
#[export] Instance Pg_RunStoreKeeps : RunStoreKeeps Pg keeps_columns.
Proof.
  split.
  - intros s c id rep r r' Hg Ht Hs. pose proof Hs as Hs'%bool_decide_eq_true_1.
    by eapply (pg_keeps s (OpComplete rep)).
  - intros s c id rep r r' Hg Ht Hs. pose proof Hs as Hs'%bool_decide_eq_true_1.
    by eapply (pg_keeps s (OpCancel rep)).
Qed.

(** ** The rest of the interface *)
#[export] Instance Pg_ApiStore : ApiStore Pg := {
  st_CreateTarget c t := call _ (pg_call_safe _ _ _ (call_create_target projectID c t));
  st_ListTargets s := fst (run (pg_ListTargets projectID) (pg_db s));
  st_GetTarget s id := fst (run (pg_GetTarget projectID id) (pg_db s));
  st_UpdateTarget c id t := call _ (pg_call_safe _ _ _ (call_update_target projectID c id t));
  st_DeleteTarget id := call _ (pg_call_safe _ _ _ (call_delete_target projectID id));
  st_CreateScenario c sc := call _ (pg_call_safe _ _ _ (call_create_scenario projectID c sc));
  st_ListScenarios s := fst (run (pg_ListScenarios projectID) (pg_db s));
  st_GetScenario s id := fst (run (pg_GetScenario id) (pg_db s));
  st_UpdateScenario c id sc := call _ (pg_call_safe _ _ _ (call_update_scenario projectID c id sc));
  st_ListScenarioVersions s id := fst (run (pg_ListScenarioVersions id) (pg_db s));
  st_GetScenarioVersion s id n := fst (run (pg_GetScenarioVersion id n) (pg_db s));
  st_CreateRun c sid tid sc refs :=
    call _ (pg_call_safe _ _ _ (call_create_run projectID c sid tid sc refs));
  st_ListRuns s := fst (run (pg_ListRuns projectID) (pg_db s));
}.
End Instances.
