(* ===== verification/PgLocks.v ===== *)
(** * The Postgres store: locks (src/apps/api/internal/store/postgres.go)

    A transaction that writes to the log of a run holds locks until it ends: the
    row of the run, in the mode of each statement, and the advisory lock of the
    text it was given as the run's id.  A transaction is the list of locks that
    its statements ask for, in the order of the code; a foreign key check asks
    for the row that is referred to.  Which modes conflict is the server's
    ([RowModes]). *)

From S2P Require Export PgTables.

Open Scope Z_scope.

(** The modes of a row lock: [SELECT FOR UPDATE], an [UPDATE] that leaves the
    keys alone, and the check of a foreign key. *)
Inductive row_mode := ForUpdate | ForNoKeyUpdate | ForKeyShare.
Inductive lock :=
| RowLock (u : string) (m : row_mode)
| AdvisoryLock (key : string).

#[export] Instance row_mode_dec : EqDecision row_mode.
Proof. solve_decision. Defined.
#[export] Instance lock_dec : EqDecision lock.
Proof. solve_decision. Defined.

Class RowModes := { row_conflict : row_mode → row_mode → bool }.
(** From the server's table of row-level locks. *)
Class RowModeLaws `{RowModes} := {
  key_share_update : row_conflict ForKeyShare ForUpdate = true;
  key_share_no_key_update : row_conflict ForKeyShare ForNoKeyUpdate = false;
  key_share_shared : row_conflict ForKeyShare ForKeyShare = false;
}.

Section Locks.
Context `{RM : RowModes}.

Definition conflict (l l' : lock) : bool :=
  match l, l' with
  | RowLock u m, RowLock u' m' => String.eqb u u' && row_conflict m m'
  | AdvisoryLock k, AdvisoryLock k' => String.eqb k k'
  | _, _ => false
  end.

(** ** The transactions, by what they lock *)

(** [SELECT ... FOR UPDATE], [pg_advisory_xact_lock], and the insert, whose
    foreign key is the row already locked. *)
Definition RequestRunCancel_locks (id u : string) : list lock :=
  [RowLock u ForUpdate; AdvisoryLock id; RowLock u ForKeyShare].
(** [pg_advisory_xact_lock], and the insert. *)
Definition appendRunEvent_locks (id u : string) : list lock :=
  [AdvisoryLock id; RowLock u ForKeyShare].
(** The update of the run, and the report that refers to it. *)
Definition finishRunWithReport_locks (u : string) : list lock :=
  [RowLock u ForNoKeyUpdate; RowLock u ForKeyShare].
(** The update of [MarkRunStarted] and [ErrorRun]. *)
Definition update_run_locks (u : string) : list lock := [RowLock u ForNoKeyUpdate].

Inductive logging : list lock → Prop :=
| locks_append id u : logging (appendRunEvent_locks id u)
| locks_finish u : logging (finishRunWithReport_locks u)
| locks_update u : logging (update_run_locks u).

(** ** Steps *)
Record tx := { tx_held : list lock; tx_todo : list lock }.
Definition begin_tx (locks : list lock) : tx := Build_tx [] locks.

(** No other transaction holds a lock that conflicts. *)
Definition grantable (ts : list tx) (i : nat) (l : lock) : bool :=
  forallb (λ '(j, t), Nat.eqb i j || forallb (λ h, negb (conflict l h)) (tx_held t))
    (imap (λ j t, (j, t)) ts).
Definition can_go (ts : list tx) (i : nat) : bool :=
  match ts !! i with
  | Some t => match tx_todo t with [] => true | l :: _ => grantable ts i l end
  | None => false
  end.
(** A transaction that [begins] admits begins, takes its next lock, or commits
    and releases what it holds. *)
Inductive lock_step (begins : list lock → Prop) : list tx → list tx → Prop :=
| lk_begin ts locks : begins locks → lock_step begins ts (ts ++ [begin_tx locks])
| lk_acquire ts i t l todo :
    ts !! i = Some t → tx_todo t = l :: todo → grantable ts i l = true →
    lock_step begins ts (<[i := Build_tx (tx_held t ++ [l]) todo]> ts)
| lk_commit ts i t :
    ts !! i = Some t → tx_todo t = [] → lock_step begins ts (delete i ts).

Lemma grantable_spec ts i l :
  grantable ts i l = true ↔
  ∀ j t h, ts !! j = Some t → i ≠ j → h ∈ tx_held t → conflict l h = false.
Proof.
  unfold grantable. rewrite forallb_forall. split.
  - intros H j t h Hj Hne Hh. specialize (H (j, t)). rewrite <-list_elem_of_In in H.
    ospecialize (H _); [apply elem_of_lookup_imap; eauto|].
    apply orb_true_iff in H as [->%Nat.eqb_eq|H]; [done|].
    rewrite forallb_forall in H. apply negb_true_iff, H. by apply list_elem_of_In.
  - intros H [j t] Hin. apply list_elem_of_In, elem_of_lookup_imap in Hin as (k & t' & [= -> ->] & Hk).
    destruct (Nat.eqb_spec i k) as [|Hne]; [done|]. cbn. apply forallb_forall.
    intros h Hh%list_elem_of_In. apply negb_true_iff. by eapply H.
Qed.

(** ** Transactions that cannot wait for each other *)
Section NoCancel.
Context {RL : RowModeLaws}.

Definition logging_tx (t : tx) : Prop := logging (tx_held t ++ tx_todo t).

Lemma logging_step ts ts' : Forall logging_tx ts → lock_step logging ts ts' → Forall logging_tx ts'.
Proof.
  intros Hts. destruct 1 as [ts locks Hl|ts i t l todo Hi Ht Hg|ts i t Hi Ht].
  - apply Forall_app; split; [done|]. by constructor.
  - apply Forall_insert; [done|]. unfold logging_tx. cbn. rewrite <-app_assoc. cbn. rewrite <-Ht.
    by eapply (Forall_lookup_1 _ _ _ _ Hts).
  - by apply Forall_delete.
Qed.
Lemma logging_steps ts : rtc (lock_step logging) [] ts → Forall logging_tx ts.
Proof.
  assert (∀ ts ts', rtc (lock_step logging) ts ts' → Forall logging_tx ts → Forall logging_tx ts') as H.
  { induction 1; [done|]. eauto using logging_step. }
  intros Hr. by eapply H.
Qed.
Lemma logging_held t h u m :
  logging_tx t → h ∈ tx_held t → h = RowLock u m → m = ForNoKeyUpdate ∨ m = ForKeyShare.
Proof.
  unfold logging_tx. intros Hl Hh ->.
  assert (RowLock u m ∈ tx_held t ++ tx_todo t) as Hin by (apply elem_of_app; by left).
  destruct Hl; unfold appendRunEvent_locks, finishRunWithReport_locks, update_run_locks in Hin;
    rewrite !elem_of_cons, elem_of_nil in Hin; naive_solver.
Qed.
Lemma key_share_granted ts i u :
  Forall logging_tx ts → grantable ts i (RowLock u ForKeyShare) = true.
Proof.
  intros Hts. apply grantable_spec. intros j t h Hj _ Hh. destruct h as [v m|]; [|done]. cbn.
  eapply (Forall_lookup_1 _ _ _ _ Hts) in Hj.
  destruct (logging_held t _ v m Hj Hh eq_refl) as [->| ->];
    rewrite ?key_share_no_key_update, ?key_share_shared; by rewrite andb_false_r.
Qed.
(** A transaction that holds something waits at most for a shared lock. *)
Lemma logging_next t l todo :
  logging_tx t → tx_todo t = l :: todo → tx_held t = [] ∨ ∃ u, l = RowLock u ForKeyShare.
Proof.
  unfold logging_tx. intros Hl Ht. rewrite Ht in Hl.
  destruct (tx_held t) as [|h1 [|h2 hs]]; [by left|right|right]; cbn in Hl;
    inversion Hl; simplify_eq; eauto;
    match goal with H : _ = _ ++ _ |- _ => by destruct hs end.
Qed.
Lemma logging_progress ts :
  Forall logging_tx ts → ts ≠ [] → ∃ i, can_go ts i = true.
Proof.
  intros Hts Hne.
  destruct (decide (Forall (λ t, tx_held t = []) ts)) as [Hempty|Hsome].
  - destruct ts as [|t ts]; [done|]. exists 0%nat. unfold can_go.
    change ((t :: ts) !! 0%nat) with (Some t). cbv iota.
    destruct (tx_todo t) as [|l todo]; [done|]. apply grantable_spec. intros j t' h Hj _ Hh.
    eapply (Forall_lookup_1 _ _ _ _ Hempty) in Hj. rewrite Hj in Hh. by apply elem_of_nil in Hh.
  - apply not_Forall_Exists in Hsome; [|intros t; apply _].
    apply Exists_exists in Hsome as (t & [i Hi]%list_elem_of_lookup & Hh). exists i.
    pose proof (Forall_lookup_1 _ _ _ _ Hts Hi) as Hl. unfold can_go. rewrite Hi.
    destruct (tx_todo t) as [|l todo] eqn:Ht; [done|].
    destruct (logging_next t l todo Hl Ht) as [|[u ->]]; [done|]. by apply key_share_granted.
Qed.

(** ** A cancellation and an event *)
Definition blocked_pair (id u : string) : list tx :=
  [Build_tx [RowLock u ForUpdate] [AdvisoryLock id; RowLock u ForKeyShare];
   Build_tx [AdvisoryLock id] [RowLock u ForKeyShare]].
Lemma blocked_pair_reached begins id u :
  begins (RequestRunCancel_locks id u) → begins (appendRunEvent_locks id u) →
  rtc (lock_step begins) [] (blocked_pair id u).
Proof.
  intros H1 H2. eapply rtc_l; [exact (lk_begin _ [] _ H1)|].
  eapply rtc_l; [exact (lk_begin _ _ _ H2)|].
  eapply rtc_l; [eapply (lk_acquire _ _ 0); reflexivity|].
  eapply rtc_l; [eapply (lk_acquire _ _ 1); reflexivity|]. reflexivity.
Qed.
Lemma blocked_pair_grant id u ts i t l todo :
  (blocked_pair id u ++ ts) !! i = Some t → tx_todo t = l :: todo →
  grantable (blocked_pair id u ++ ts) i l = true → (2 ≤ i)%nat.
Proof.
  rewrite grantable_spec. intros Hi Ht Hg.
  destruct i as [|[|i]]; [| |lia]; cbn in Hi; injection Hi as <-; cbn in Ht; injection Ht as <- <-.
  - ospecialize (Hg 1%nat _ (AdvisoryLock id) eq_refl _ _); [done|cbn; set_solver|].
    cbn in Hg. by rewrite String.eqb_refl in Hg.
  - ospecialize (Hg 0%nat _ (RowLock u ForUpdate) eq_refl _ _); [done|cbn; set_solver|].
    cbn in Hg. by rewrite String.eqb_refl, key_share_update in Hg.
Qed.
Lemma blocked_pair_stays begins id u ts ts' :
  rtc (lock_step begins) ts ts' → (∃ rest, ts = blocked_pair id u ++ rest) →
  ∃ rest, ts' = blocked_pair id u ++ rest.
Proof.
  induction 1 as [|ts ts1 ts' Hs _ IH]; intros [rest ->]; [eauto|]. apply IH.
  inversion Hs as [ts0 locks Hb E|ts0 i t l todo Hi Ht Hg E|ts0 i t Hi Ht E]; subst; clear Hs.
  - exists (rest ++ [begin_tx locks]). by rewrite app_assoc.
  - pose proof (blocked_pair_grant _ _ _ _ _ _ _ Hi Ht Hg) as H2.
    rewrite insert_app_r_alt by done. eauto.
  - destruct i as [|[|i]]; cbn in Hi; [injection Hi as <-; done..|]. cbn. by exists (delete i rest).
Qed.
End NoCancel.

(** C28: the lock order, both ways.  Transactions that only log, start or end
    runs never wait for each other in a circle: whatever began and however they
    interleave, one of them can go on.  A request to cancel a run locks its row
    first and the advisory lock second, while appending an event asks for them
    in the opposite order: the two can each hold what the other waits for, and
    then neither goes on, whatever the other transactions do. *)
Theorem lock_order `{!RowModeLaws} id u :
  (∀ ts, rtc (lock_step logging) [] ts → ts ≠ [] → ∃ i, can_go ts i = true)
  ∧ ∃ ts cancel append,
      rtc (lock_step (λ locks, logging locks ∨ locks = RequestRunCancel_locks id u)) [] ts
      ∧ ts = [cancel; append]
      ∧ tx_held cancel ++ tx_todo cancel = RequestRunCancel_locks id u
      ∧ tx_held append ++ tx_todo append = appendRunEvent_locks id u
      ∧ tx_todo cancel ≠ [] ∧ tx_todo append ≠ []
      ∧ ∀ begins ts', rtc (lock_step begins) ts ts' → ∃ rest, ts' = ts ++ rest.
Proof.
  split.
  - intros ts Hr. apply logging_progress. by apply logging_steps.
  - exists (blocked_pair id u). do 2 eexists. split_and!; [|done..|].
    + apply blocked_pair_reached; [by right|left; constructor].
    + intros begins ts' Hr. eapply blocked_pair_stays; [exact Hr|]. exists []. by rewrite app_nil_r.
Qed.
End Locks.

(** ** An example *)
Definition sample_conflict (m m' : row_mode) : bool :=
  match m, m' with
  | ForKeyShare, ForUpdate | ForUpdate, _ | ForNoKeyUpdate, (ForUpdate | ForNoKeyUpdate) => true
  | _, _ => false
  end.
#[local] Instance sample_modes : RowModes := {| row_conflict := sample_conflict |}.
#[local] Instance sample_mode_laws : RowModeLaws.
Proof. by split. Defined.
Lemma lock_order_witness :
  (∀ ts, rtc (lock_step logging) [] ts → ts ≠ [] → ∃ i, can_go ts i = true)
  ∧ ∃ ts : list tx, length ts = 2%nat
      ∧ ∀ begins ts', rtc (lock_step begins) ts ts' → (2 ≤ length ts')%nat.
Proof.
  destruct (lock_order "7f" "7f") as (H1 & ts & cancel & append & _ & -> & _ & _ & _ & _ & H2).
  split; [exact H1|]. exists [cancel; append]. split; [done|]. intros begins ts' Hr.
  destruct (H2 begins ts' Hr) as [rest ->]. cbn. lia.
Defined.
