(* ===== verification/Memory.v ===== *)
(** * The in-memory store (src/apps/api/internal/store/memory.go)

    [Memory] is the struct's maps; the mutex makes every method atomic, so each
    method is one function on the state.  A method that reads the clock takes
    the reading as an argument ([clk_now] for the method, [clk_event] for
    [appendRunEventLocked]).  The lists returned by the listing methods follow
    Go's map iteration order, which is unspecified: they are lists of the map's
    values in some order. *)

From S2P Require Export Store.

Open Scope Z_scope.

Record Memory := {
  mem_targets : gmap string TargetRecord;
  mem_scenarios : gmap string ScenarioRecord;
  mem_scenarioVersions : gmap string (list ScenarioVersionRecord);
  mem_runs : gmap string RunRecord;
  mem_runEvents : gmap string (list Event);
}.

Definition NewMemory : Memory := Build_Memory ∅ ∅ ∅ ∅ ∅.

(** [m.runEvents[id]] and [m.scenarioVersions[id]]: nil for a missing key. *)
Definition events_of (m : Memory) (id : string) : list Event :=
  default [] (mem_runEvents m !! id).
Definition versions_of (m : Memory) (id : string) : list ScenarioVersionRecord :=
  default [] (mem_scenarioVersions m !! id).

Definition set_targets (f : gmap string TargetRecord → gmap string TargetRecord) (m : Memory) :=
  Build_Memory (f (mem_targets m)) (mem_scenarios m) (mem_scenarioVersions m) (mem_runs m)
    (mem_runEvents m).
Definition set_run (id : string) (r : RunRecord) (m : Memory) : Memory :=
  Build_Memory (mem_targets m) (mem_scenarios m) (mem_scenarioVersions m)
    (<[id := r]> (mem_runs m)) (mem_runEvents m).
Definition set_scenario (id : string) (r : ScenarioRecord) (vs : list ScenarioVersionRecord)
    (m : Memory) : Memory :=
  Build_Memory (mem_targets m) (<[id := r]> (mem_scenarios m))
    (<[id := vs]> (mem_scenarioVersions m)) (mem_runs m) (mem_runEvents m).

(** [fmt.Sprintf("tgt_%d", now.UnixNano())] and the like. *)
Definition new_id (prefix : string) (now : Time) : string := prefix +:+ Itoa now.

(** ** Targets *)
Definition nonnil_headers (h : headers) : headers := Some (default ∅ h).

Definition CreateTarget (now : Time) (target : TargetRecord) (m : Memory)
  : TargetRecord * Memory :=
  let id := new_id "tgt_" now in
  let target := Build_TargetRecord id (Tgt_Name target) (Tgt_BaseURL target)
    (Tgt_Environment target) (Tgt_Description target) (nonnil_headers (Tgt_Headers target))
    now now in
  (target, set_targets <[id := target]> m).

Definition UpdateTarget (now : Time) (id : string) (target : TargetRecord) (m : Memory)
  : option TargetRecord * Memory :=
  match mem_targets m !! id with
  | None => (None, m)
  | Some current =>
      let target := Build_TargetRecord id (Tgt_Name target) (Tgt_BaseURL target)
        (Tgt_Environment target) (Tgt_Description target) (nonnil_headers (Tgt_Headers target))
        (Tgt_CreatedAt current) now in
      (Some target, set_targets <[id := target]> m)
  end.

Definition DeleteTarget (id : string) (m : Memory) : bool * Memory :=
  match mem_targets m !! id with
  | None => (false, m)
  | Some _ => (true, set_targets (delete id) m)
  end.

Definition GetTarget (m : Memory) (id : string) : option TargetRecord := mem_targets m !! id.
Definition ListTargets (m : Memory) : list TargetRecord := map snd (map_to_list (mem_targets m)).

(** ** Scenarios and their versions *)
Definition CreateScenario (now : Time) (sc : Scenario) (m : Memory) : ScenarioRecord * Memory :=
  let id := new_id "scn_" now in
  let versionID := new_id "scv_" now in
  let version := Build_ScenarioVersionRecord versionID id 1 sc now in
  let record := Build_ScenarioRecord id sc versionID 1 now in
  (record, set_scenario id record [version] m).

Definition UpdateScenario (now : Time) (id : string) (sc : Scenario) (m : Memory)
  : option ScenarioRecord * Memory :=
  match mem_scenarios m !! id with
  | None => (None, m)
  | Some record =>
      let versionNumber := Z.of_nat (length (versions_of m id)) + 1 in
      let versionID := new_id "scv_" now in
      let version := Build_ScenarioVersionRecord versionID id versionNumber sc now in
      let record := Build_ScenarioRecord (Scn_ID record) sc versionID versionNumber
                      (Scn_CreatedAt record) in
      (Some record, set_scenario id record (versions_of m id ++ [version]) m)
  end.

Definition GetScenario (m : Memory) (id : string) : option ScenarioRecord :=
  mem_scenarios m !! id.
Definition ListScenarios (m : Memory) : list ScenarioRecord :=
  map snd (map_to_list (mem_scenarios m)).
Definition ListScenarioVersions (m : Memory) (id : string) : list ScenarioVersionRecord :=
  versions_of m id.
Definition GetScenarioVersion (m : Memory) (id : string) (versionNumber : Z)
  : option ScenarioVersionRecord :=
  List.find (λ v, Scv_VersionNumber v =? versionNumber) (versions_of m id).

(** ** Events *)
Definition stamp_event (now : Time) (runID : string) (log : list Event) (event : Event) : Event :=
  {| Event_ID := if String.eqb (Event_ID event) "" then new_id "evt_" now else Event_ID event;
     Event_RunID := if String.eqb (Event_RunID event) "" then runID else Event_RunID event;
     Event_Sequence := Z.of_nat (length log) + 1;
     Event_Level := if String.eqb (Event_Level event) "" then LevelInfo else Event_Level event;
     Event_Type := Event_Type event;
     Event_Message := Event_Message event;
     Event_Metadata := Event_Metadata event;
     Event_CreatedAt := if Event_CreatedAt event =? zero_time then now else Event_CreatedAt event |}.

Definition appendRunEventLocked (now : Time) (runID : string) (event : Event) (m : Memory)
  : Event * Memory :=
  let event := stamp_event now runID (events_of m runID) event in
  (event, Build_Memory (mem_targets m) (mem_scenarios m) (mem_scenarioVersions m) (mem_runs m)
            (<[runID := events_of m runID ++ [event]]> (mem_runEvents m))).

Definition isRunCancelRequestedLocked (m : Memory) (runID : string) : bool :=
  existsb is_cancel_request (events_of m runID).

(** ** Runs *)
Definition queued_event (scenarioID versionID : string) (versionNumber : Z) (sc : Scenario)
    (targetID : string) : Event :=
  new_event LevelInfo TypeRunQueued "run queued"
    (meta [("scenario_id", VString scenarioID);
           ("scenario_version_id", VString versionID);
           ("scenario_version_number", VInt versionNumber);
           ("scenario", VString (Scenario_Name sc));
           ("target_id", VString targetID)]).

Definition CreateRun (c : clock) (scenarioID targetID : string) (sc : Scenario)
    (versionRef : list ScenarioVersionRecord) (m : Memory) : RunRecord * Memory :=
  let now := clk_now c in
  let id := new_id "run_" now in
  let '(versionID, versionNumber) :=
    match versionRef with
    | v :: _ => (Scv_ID v, Scv_VersionNumber v)
    | [] =>
        if negb (String.eqb scenarioID "") then
          match mem_scenarios m !! scenarioID with
          | Some record => (Scn_CurrentVersionID record, Scn_CurrentVersionNumber record)
          | None => ("", 0)
          end
        else ("", 0)
    end in
  let record := Build_RunRecord id targetID scenarioID versionID versionNumber RunQueued sc None
                  "" now None None in
  let m := set_run id record m in
  let '(_, m) := appendRunEventLocked (clk_event c) id
                   (queued_event scenarioID versionID versionNumber sc targetID) m in
  (record, m).

Definition mem_MarkRunStarted (c : clock) (id : string) (m : Memory) : Memory :=
  match mem_runs m !! id with
  | None => m
  | Some r =>
      if isTerminalRunStatus (Run_Status r) then m
      else
        let record := Build_RunRecord (Run_ID r) (Run_TargetID r) (Run_ScenarioID r)
          (Run_ScenarioVersionID r) (Run_ScenarioVersionNumber r) RunRunning (Run_Scenario r)
          (Run_Report r) (Run_Error r) (Run_CreatedAt r) (Some (clk_now c)) (Run_FinishedAt r) in
        snd (appendRunEventLocked (clk_event c) id
               (new_event LevelInfo TypeRunStarted "run started" None) (set_run id record m))
  end.

(** The record with the fields that end a run. *)
Definition finish_record (r : RunRecord) (status : RunStatus) (rep : option Report)
    (err : string) (now : Time) : RunRecord :=
  Build_RunRecord (Run_ID r) (Run_TargetID r) (Run_ScenarioID r) (Run_ScenarioVersionID r)
    (Run_ScenarioVersionNumber r) status (Run_Scenario r) rep err (Run_CreatedAt r)
    (Run_StartedAt r) (Some now).

Definition completed_event (status : RunStatus) (rep : Report) : Event :=
  let failed := String.eqb status RunFailed in
  new_event (if failed then LevelError else LevelInfo)
    (if failed then TypeRunFailed else TypeRunCompleted)
    (if failed then "run failed" else "run completed")
    (meta [("status", VString status);
           ("total_requests", VInt (TotalRequests (Report_Summary rep)));
           ("failed_requests", VInt (FailedRequests (Report_Summary rep)));
           ("failures", VStrings (Report_Failures rep))]).

Definition mem_CompleteRun (c : clock) (id : string) (rep : Report) (m : Memory) : Memory :=
  match mem_runs m !! id with
  | None => m
  | Some r =>
      if isTerminalRunStatus (Run_Status r) then m
      else
        let status := verdict_status rep in
        let rep := stamp_report r (Report_Status rep) rep in
        let record := finish_record r status (Some rep) (Run_Error r) (clk_now c) in
        snd (appendRunEventLocked (clk_event c) id (completed_event status rep)
               (set_run id record m))
  end.

Definition mem_CancelRun (c : clock) (id : string) (rep : Report) (m : Memory) : Memory :=
  match mem_runs m !! id with
  | None => m
  | Some r =>
      if isTerminalRunStatus (Run_Status r) then m
      else
        let rep := stamp_report r StatusCanceled rep in
        let record := finish_record r RunCanceled (Some rep) "run canceled" (clk_now c) in
        snd (appendRunEventLocked (clk_event c) id
               (new_event LevelWarn TypeRunCanceled "run canceled"
                  (meta [("failures", VStrings (Report_Failures rep))]))
               (set_run id record m))
  end.

Definition mem_ErrorRun (c : clock) (id : string) (err : string) (m : Memory) : Memory :=
  match mem_runs m !! id with
  | None => m
  | Some r =>
      if isTerminalRunStatus (Run_Status r) then m
      else
        let record := finish_record r RunErrored (Run_Report r) err (clk_now c) in
        snd (appendRunEventLocked (clk_event c) id
               (new_event LevelError TypeRunFailed err None) (set_run id record m))
  end.

Definition ListRuns (m : Memory) : list RunRecord := map snd (map_to_list (mem_runs m)).

Definition mem_RequestRunCancel (c : clock) (id : string) (m : Memory) : bool * Memory :=
  match mem_runs m !! id with
  | None => (false, m)
  | Some r =>
      if negb (isCancelableRunStatus (Run_Status r)) then (false, m)
      else if isRunCancelRequestedLocked m id then (true, m)
      else (true, snd (appendRunEventLocked (clk_event c) id
                    (new_event LevelWarn TypeCancelRequested "run cancellation requested"
                       (meta [("status", VString (Run_Status r))])) m))
  end.

#[export] Instance Memory_store : RunStore Memory := {
  GetRun m id := mem_runs m !! id;
  IsRunCancelRequested := isRunCancelRequestedLocked;
  ListRunEvents := events_of;
  MarkRunStarted := mem_MarkRunStarted;
  CompleteRun := mem_CompleteRun;
  CancelRun := mem_CancelRun;
  ErrorRun := mem_ErrorRun;
  RequestRunCancel := mem_RequestRunCancel;
  AppendRunEvent c := appendRunEventLocked (clk_event c);
  storable _ := true;
  same_id := String.eqb;
}.

#[export] Instance Memory_api : ApiStore Memory := {
  st_CreateTarget c := CreateTarget (clk_now c);
  st_ListTargets := ListTargets;
  st_GetTarget := GetTarget;
  st_UpdateTarget c := UpdateTarget (clk_now c);
  st_DeleteTarget := DeleteTarget;
  st_CreateScenario c := CreateScenario (clk_now c);
  st_ListScenarios := ListScenarios;
  st_GetScenario := GetScenario;
  st_UpdateScenario c := UpdateScenario (clk_now c);
  st_ListScenarioVersions := ListScenarioVersions;
  st_GetScenarioVersion := GetScenarioVersion;
  st_CreateRun := CreateRun;
  st_ListRuns := ListRuns;
}.

(** ** The shape of an operation on a run

    Every operation of [RunStore] leaves the store alone, appends one event, or
    replaces a live run's record and appends one event. *)

Definition log_event (now : Time) (id : string) (e : Event) (m : Memory) : Memory :=
  snd (appendRunEventLocked now id e m).

Lemma events_of_log now id e m :
  events_of (log_event now id e m) id = events_of m id ++ [stamp_event now id (events_of m id) e].
Proof. unfold log_event, events_of at 1. simpl. by rewrite lookup_insert_eq. Qed.
Lemma events_of_log_ne now id id' e m :
  id' ≠ id → events_of (log_event now id e m) id' = events_of m id'.
Proof. intros Hne. unfold log_event, events_of at 1. simpl. by rewrite lookup_insert_ne. Qed.
Lemma events_of_set_run id id' r m : events_of (set_run id r m) id' = events_of m id'.
Proof. done. Qed.
#[export] Hint Rewrite events_of_log events_of_set_run : wreckr.

Definition live_run (m : Memory) (id : string) (r : RunRecord) : Prop :=
  mem_runs m !! id = Some r ∧ isTerminalRunStatus (Run_Status r) = false.

(** The fields that never change, and the life cycle of the others. *)
Definition same_run (r r' : RunRecord) : Prop :=
  Run_ID r' = Run_ID r ∧ Run_TargetID r' = Run_TargetID r
  ∧ Run_ScenarioID r' = Run_ScenarioID r ∧ Run_ScenarioVersionID r' = Run_ScenarioVersionID r
  ∧ Run_ScenarioVersionNumber r' = Run_ScenarioVersionNumber r
  ∧ Run_Scenario r' = Run_Scenario r ∧ Run_CreatedAt r' = Run_CreatedAt r.

(** [run_next r r' t]: a live record [r] becomes [r'], logged with type [t]. *)
Inductive run_next (r : RunRecord) : RunRecord → string → Prop :=
| next_started r' now :
    same_run r r' → Run_Status r' = RunRunning → Run_Report r' = Run_Report r →
    Run_Error r' = Run_Error r → Run_StartedAt r' = Some now →
    Run_FinishedAt r' = Run_FinishedAt r →
    run_next r r' TypeRunStarted
| next_completed rep now :
    run_next r (finish_record r (verdict_status rep)
                  (Some (stamp_report r (Report_Status rep) rep)) (Run_Error r) now)
      (if String.eqb (verdict_status rep) RunFailed then TypeRunFailed else TypeRunCompleted)
| next_canceled rep now :
    run_next r (finish_record r RunCanceled (Some (stamp_report r StatusCanceled rep))
                  "run canceled" now) TypeRunCanceled
| next_errored msg now :
    run_next r (finish_record r RunErrored (Run_Report r) msg now) TypeRunFailed.

Inductive op_effect (m : Memory) (id : string) : run_op → Memory → Prop :=
| eff_none o : op_effect m id o m
| eff_log now e r :
    live_run m id r → isRunCancelRequestedLocked m id = false →
    Event_Type e = TypeCancelRequested →
    op_effect m id OpRequestCancel (log_event now id e m)
| eff_append now e : op_effect m id (OpEvent e) (log_event now id e m)
| eff_run o now e r r' :
    live_run m id r → run_next r r' (Event_Type e) →
    op_effect m id o (log_event now id e (set_run id r' m)).

Lemma verdict_event_type rep r :
  Event_Type (completed_event (verdict_status rep) (stamp_report r (Report_Status rep) rep))
  = (if String.eqb (verdict_status rep) RunFailed then TypeRunFailed else TypeRunCompleted).
Proof. done. Qed.

Lemma run_op_effect o c id m : op_effect m id o (run_op_apply o c id m).
Proof.
  destruct o; simpl;
    unfold mem_MarkRunStarted, mem_CompleteRun, mem_CancelRun, mem_ErrorRun,
      mem_RequestRunCancel; try (by constructor 3);
    destruct (mem_runs m !! id) as [r|] eqn:Hr; try constructor.
  all: try (destruct (isTerminalRunStatus _) eqn:Ht; [constructor|]).
  all: try (eapply eff_run; [split; [exact Hr|exact Ht]|]).
  - eapply next_started; by repeat split.
  - rewrite verdict_event_type. constructor.
  - constructor.
  - constructor.
  - destruct (isCancelableRunStatus _) eqn:Hc; simpl; [|constructor].
    destruct (isRunCancelRequestedLocked m id) eqn:Hq; simpl; [constructor|].
    eapply eff_log; [split; [exact Hr|by apply cancelable_not_terminal]|done|done].
Qed.

Lemma run_next_scenario r r' t : run_next r r' t → same_run r r'.
Proof. by destruct 1. Qed.

Lemma log_event_runs now id e m : mem_runs (log_event now id e m) = mem_runs m.
Proof. done. Qed.

Lemma isRunCancelRequested_log now id e m :
  isRunCancelRequestedLocked (log_event now id e m) id
  = isRunCancelRequestedLocked m id || is_cancel_request e.
Proof.
  unfold isRunCancelRequestedLocked. rewrite events_of_log, existsb_app. simpl.
  by rewrite orb_false_r.
Qed.

(** ** The memory store keeps the contract *)

Lemma Memory_op_frame m o c id id' :
  id' ≠ id →
  mem_runs (run_op_apply o c id m) !! id' = mem_runs m !! id'
  ∧ isRunCancelRequestedLocked (run_op_apply o c id m) id' = isRunCancelRequestedLocked m id'
  ∧ events_of (run_op_apply o c id m) id' = events_of m id'.
Proof.
  intros Hne. unfold isRunCancelRequestedLocked.
  destruct (run_op_effect o c id m); rewrite ?log_event_runs, ?events_of_log_ne by done;
    rewrite ?events_of_set_run; [done..|]. simpl. by rewrite lookup_insert_ne.
Qed.

Lemma Memory_op_terminal m o c id r :
  mem_runs m !! id = Some r → isTerminalRunStatus (Run_Status r) = true →
  mem_runs (run_op_apply o c id m) !! id = Some r.
Proof.
  intros Hr Ht. destruct (run_op_effect o c id m) as [| | |o now e r0 r' [Hl Hn]]; try done.
  congruence.
Qed.

Lemma Memory_op_scenario m o c id r :
  mem_runs m !! id = Some r →
  ∃ r', mem_runs (run_op_apply o c id m) !! id = Some r' ∧ Run_Scenario r' = Run_Scenario r.
Proof.
  intros Hr. destruct (run_op_effect o c id m) as [| | |o now e r0 r' [Hl Hn] Hx]; eauto.
  exists r'. rewrite log_event_runs. simpl. rewrite lookup_insert_eq. split; [done|].
  apply run_next_scenario in Hx as (_ & _ & _ & _ & _ & -> & _). congruence.
Qed.

Lemma Memory_op_events m o c id :
  ∃ es, events_of (run_op_apply o c id m) id = events_of m id ++ es ∧ (length es ≤ 1)%nat.
Proof.
  destruct (run_op_effect o c id m); rewrite ?events_of_log, ?events_of_set_run;
    [exists []; split; [by rewrite app_nil_r|simpl; lia]|by eexists..].
Qed.

Lemma life_of_log now id e m :
  life_of (log_event now id e m) id = life_write (life_of m id) (OpEvent e).
Proof.
  unfold life_of. simpl. rewrite isRunCancelRequested_log. by destruct (mem_runs m !! id).
Qed.

Lemma life_of_run now id e r m :
  life_of (log_event now id e (set_run id r m)) id
  = Build_life (Some (Run_Status r)) (isRunCancelRequestedLocked m id || is_cancel_request e).
Proof. rewrite life_of_log. unfold life_of. simpl. by rewrite lookup_insert_eq. Qed.

Lemma Numbered_stamp now id log e :
  Numbered log → Numbered (log ++ [stamp_event now id log e]).
Proof.
  intros H i e' He. apply lookup_app_Some in He as [He|[Hlen He]]; [by apply H|].
  apply list_lookup_singleton_Some in He as [Hi <-]. simpl. f_equal. lia.
Qed.

Lemma Memory_op_numbered m o c id :
  Numbered (events_of m id) → Numbered (events_of (run_op_apply o c id m) id).
Proof.
  intros Hn. destruct (run_op_effect o c id m); rewrite ?events_of_log, ?events_of_set_run;
    auto using Numbered_stamp.
Qed.

Lemma mem_life_some m id r :
  mem_runs m !! id = Some r →
  life_of m id = Build_life (Some (Run_Status r)) (isRunCancelRequestedLocked m id).
Proof. unfold life_of. simpl. by intros ->. Qed.

Lemma Memory_op_life m o c id :
  life_of (run_op_apply o c id m) id = life_step (life_of m id) o.
Proof.
  pose proof life_of_run as Hlog. unfold log_event in Hlog.
  unfold life_step. change (storable o) with true. cbv iota.
  destruct (mem_runs m !! id) as [r|] eqn:Hr.
  2:{ destruct o; simpl; unfold mem_MarkRunStarted, mem_CompleteRun, mem_CancelRun, mem_ErrorRun,
        mem_RequestRunCancel, with_status, live, life_of; simpl; by rewrite ?Hr; simpl; rewrite ?Hr. }
  rewrite (mem_life_some m id r Hr).
  destruct o as [|rep|rep|msg| |e]; simpl;
    unfold mem_MarkRunStarted, mem_CompleteRun, mem_CancelRun, mem_ErrorRun,
      mem_RequestRunCancel, with_status, live; rewrite ?Hr; cbn [life_status life_cancel].
  1-4: destruct (isTerminalRunStatus (Run_Status r)) eqn:Ht; cbn [negb];
    [by apply mem_life_some|]; rewrite Hlog; cbn [Run_Status finish_record].
  1,3,4: by rewrite orb_false_r.
  - f_equal. unfold is_cancel_request. rewrite verdict_event_type.
    by case_match; rewrite orb_false_r.
  - destruct (isCancelableRunStatus (Run_Status r)); simpl; [|by apply mem_life_some].
    destruct (isRunCancelRequestedLocked m id) eqn:Hq; simpl; [by rewrite (mem_life_some m id r), <-Hq|].
    pose proof (life_of_log (clk_event c) id
      (new_event LevelWarn TypeCancelRequested "run cancellation requested"
         (meta [("status", VString (Run_Status r))])) m) as Hl.
    etrans; [exact Hl|]. rewrite (mem_life_some m id r Hr). simpl. by rewrite orb_true_r.
  - pose proof (life_of_log (clk_event c) id e m) as Hl. etrans; [exact Hl|].
    by rewrite (mem_life_some m id r Hr).
Qed.

#[export] Instance Memory_store_laws : RunStoreLaws Memory.
Proof.
  split; simpl.
  - split.
    + intros a. apply String.eqb_refl.
    + intros a b. by rewrite String.eqb_sym.
    + intros a b d. rewrite !String.eqb_eq. congruence.
  - by intros s id id' ->%String.eqb_eq.
  - apply Memory_op_life.
  - intros m o c id id' Hne%String.eqb_neq. by apply Memory_op_frame.
  - intros m o c id id' r ->%String.eqb_eq. apply Memory_op_terminal.
  - intros m o c id id' r ->%String.eqb_eq. apply Memory_op_scenario.
  - intros m c id msg r Hr Ht _. unfold mem_ErrorRun. rewrite Hr, Ht. simpl.
    by rewrite lookup_insert_eq.
  - intros m c id. unfold mem_RequestRunCancel, life_of. simpl.
    destruct (mem_runs m !! id) as [r|]; simpl; [|done].
    destruct (isCancelableRunStatus _); simpl; [|done]. by destruct (isRunCancelRequestedLocked m id).
  - apply Memory_op_events.
  - intros m c id e r _ _. eexists. split; [apply events_of_log|done].
  - apply Memory_op_numbered.
  - by intros [].
Qed.

#[export] Instance Memory_store_exact : RunStoreExact Memory.
Proof. split; [done|]. intros m c id e. eexists. split; [apply events_of_log|done]. Qed.

#[export] Instance Memory_store_keeps : RunStoreKeeps Memory keeps_exactly.
Proof.
  split; simpl; intros m c id rep r r' Hr Ht _; unfold mem_CompleteRun, mem_CancelRun;
    rewrite Hr, Ht; simpl; rewrite lookup_insert_eq; intros [= <-]; by exists r.
Qed.

(** ** All the mutating methods *)
Inductive mem_op :=
| MCreateTarget (now : Time) (target : TargetRecord)
| MUpdateTarget (now : Time) (id : string) (target : TargetRecord)
| MDeleteTarget (id : string)
| MCreateScenario (now : Time) (sc : Scenario)
| MUpdateScenario (now : Time) (id : string) (sc : Scenario)
| MCreateRun (c : clock) (scenarioID targetID : string) (sc : Scenario)
    (versionRef : list ScenarioVersionRecord)
| MRun (o : run_op) (c : clock) (id : string).

Definition mem_apply (m : Memory) (o : mem_op) : Memory :=
  match o with
  | MCreateTarget now t => snd (CreateTarget now t m)
  | MUpdateTarget now id t => snd (UpdateTarget now id t m)
  | MDeleteTarget id => snd (DeleteTarget id m)
  | MCreateScenario now sc => snd (CreateScenario now sc m)
  | MUpdateScenario now id sc => snd (UpdateScenario now id sc m)
  | MCreateRun c scn tgt sc ref => snd (CreateRun c scn tgt sc ref m)
  | MRun o c id => run_op_apply o c id m
  end.
(** The store after any sequence of calls. *)
Definition mem_after (l : list mem_op) : Memory := fold_left mem_apply l NewMemory.

(** ** The invariant of the store *)

(** Events are numbered from one without gaps and are never anonymous. *)
Definition EventsOK (log : list Event) : Prop :=
  ∀ i e, log !! i = Some e →
    Event_Sequence e = Z.of_nat i + 1 ∧ Event_ID e ≠ "" ∧ Event_Level e ≠ "".

(** Versions are numbered from one; the record mirrors the last one. *)
Definition VersionsOK (id : string) (r : ScenarioRecord) (vs : list ScenarioVersionRecord) : Prop :=
  Scn_ID r = id
  ∧ (∀ i v, vs !! i = Some v → Scv_VersionNumber v = Z.of_nat i + 1 ∧ Scv_ScenarioID v = id)
  ∧ (∃ v, last vs = Some v ∧ Scv_ID v = Scn_CurrentVersionID r
          ∧ Scv_VersionNumber v = Scn_CurrentVersionNumber r ∧ Scv_Scenario v = Scn_Scenario r).

(** What a run's record may look like in each status. *)
Inductive RunPhase (r : RunRecord) : Prop :=
| phase_queued :
    Run_Status r = RunQueued → Run_Report r = None → Run_Error r = "" →
    Run_StartedAt r = None → Run_FinishedAt r = None → RunPhase r
| phase_running started :
    Run_Status r = RunRunning → Run_Report r = None → Run_Error r = "" →
    Run_StartedAt r = Some started → Run_FinishedAt r = None → RunPhase r
| phase_completed rep finished :
    Run_Status r = verdict_status rep → Run_Report r = Some (stamp_report r (Report_Status rep) rep) →
    Run_Error r = "" → Run_FinishedAt r = Some finished → RunPhase r
| phase_canceled rep finished :
    Run_Status r = RunCanceled → Run_Report r = Some (stamp_report r StatusCanceled rep) →
    Run_Error r = "run canceled" → Run_FinishedAt r = Some finished → RunPhase r
| phase_errored finished :
    Run_Status r = RunErrored → Run_Report r = None → Run_FinishedAt r = Some finished →
    RunPhase r.

Record MemoryOK (m : Memory) : Prop := {
  ok_targets id t : mem_targets m !! id = Some t → Tgt_ID t = id ∧ Tgt_Headers t ≠ None;
  ok_scenarios id r : mem_scenarios m !! id = Some r → VersionsOK id r (versions_of m id);
  ok_runs id r : mem_runs m !! id = Some r → Run_ID r = id ∧ RunPhase r;
  ok_events id : EventsOK (events_of m id);
}.

Lemma new_id_nonempty p n : p ≠ "" → new_id p n ≠ "".
Proof. unfold new_id. by destruct p. Qed.

Lemma EventsOK_app now id log e : EventsOK log → EventsOK (log ++ [stamp_event now id log e]).
Proof.
  intros H i e' He. apply lookup_app_Some in He as [He|[Hlen He]]; [by apply H|].
  apply list_lookup_singleton_Some in He as [Hi <-]. simpl.
  split_and!; [f_equal; lia| |].
  - destruct (String.eqb_spec (Event_ID e) ""); [by apply new_id_nonempty|done].
  - destruct (String.eqb_spec (Event_Level e) ""); done.
Qed.

Lemma MemoryOK_log now id e m : MemoryOK m → MemoryOK (log_event now id e m).
Proof.
  intros [Ht Hs Hr He]. split; [exact Ht|exact Hs|exact Hr|].
  intros id'. destruct (decide (id' = id)) as [->|Hne].
  - rewrite events_of_log. by apply EventsOK_app.
  - by rewrite events_of_log_ne.
Qed.

Lemma MemoryOK_set_run id r m :
  MemoryOK m → Run_ID r = id → RunPhase r → MemoryOK (set_run id r m).
Proof.
  intros [Ht Hs Hr He] Hid Hp. split; [exact Ht|exact Hs| |exact He].
  intros id' r'. simpl. destruct (decide (id' = id)) as [->|Hne].
  - rewrite lookup_insert_eq. by intros [= <-].
  - rewrite lookup_insert_ne by done. apply Hr.
Qed.

Lemma RunPhase_live r :
  RunPhase r → isTerminalRunStatus (Run_Status r) = false →
  Run_Report r = None ∧ Run_Error r = "" ∧ Run_FinishedAt r = None.
Proof.
  intros Hp Ht. destruct Hp as [Hs| ? Hs|rep ? Hs|rep ? Hs|? Hs]; auto; rewrite Hs in Ht;
    [unfold verdict_status in Ht; by case_match|done|done].
Qed.

Lemma run_next_phase r r' t :
  RunPhase r → isTerminalRunStatus (Run_Status r) = false → run_next r r' t → RunPhase r'.
Proof.
  intros Hp Ht. destruct (RunPhase_live r Hp Ht) as (Hrep & Herr & Hfin).
  destruct 1 as [r' now Hsame Hs Hr He Hst Hf|rep now|rep now|msg now].
  - eapply phase_running; [done|congruence|congruence|done|congruence].
  - by eapply phase_completed.
  - by eapply phase_canceled.
  - by eapply phase_errored.
Qed.

Lemma MemoryOK_run_op o c id m : MemoryOK m → MemoryOK (run_op_apply o c id m).
Proof.
  intros Hm. destruct (run_op_effect o c id m) as [| | |o now e r r' [Hl Ht] Hx];
    auto using MemoryOK_log.
  destruct (ok_runs m Hm id r Hl) as [Hid Hp]. apply MemoryOK_log, MemoryOK_set_run; [done| |].
  - apply run_next_scenario in Hx as (-> & _). done.
  - by eapply run_next_phase.
Qed.

Lemma MemoryOK_set_target id t m :
  MemoryOK m → Tgt_ID t = id → Tgt_Headers t ≠ None → MemoryOK (set_targets <[id := t]> m).
Proof.
  intros [Ht Hs Hr He] Hid Hh. split; [|exact Hs|exact Hr|exact He].
  intros id' t'. simpl. destruct (decide (id' = id)) as [->|Hne].
  - rewrite lookup_insert_eq. by intros [= <-].
  - rewrite lookup_insert_ne by done. apply Ht.
Qed.

Lemma MemoryOK_set_scenario id r vs m :
  MemoryOK m → VersionsOK id r vs → MemoryOK (set_scenario id r vs m).
Proof.
  intros [Ht Hs Hr He] Hv. split; [exact Ht| |exact Hr|exact He].
  intros id' r'. unfold versions_of. simpl. destruct (decide (id' = id)) as [->|Hne].
  - rewrite !lookup_insert_eq. by intros [= <-].
  - rewrite !lookup_insert_ne by done. apply Hs.
Qed.

Lemma VersionsOK_snoc id r vs now sc :
  VersionsOK id r vs →
  let n := Z.of_nat (length vs) + 1 in
  VersionsOK id
    (Build_ScenarioRecord (Scn_ID r) sc (new_id "scv_" now) n (Scn_CreatedAt r))
    (vs ++ [Build_ScenarioVersionRecord (new_id "scv_" now) id n sc now]).
Proof.
  intros (Hid & Hvs & _). split_and!; [done| |].
  - intros i v Hi. apply lookup_app_Some in Hi as [Hi|[Hlen Hi]]; [by apply Hvs|].
    apply list_lookup_singleton_Some in Hi as [Hi <-]. simpl. split; [f_equal; lia|done].
  - eexists. split; [apply last_snoc|done].
Qed.

Lemma MemoryOK_apply o m : MemoryOK m → MemoryOK (mem_apply m o).
Proof.
  intros Hm. destruct o as [now t|now id t|id|now sc|now id sc|c scn tgt sc ref|o c id]; simpl.
  - by apply MemoryOK_set_target.
  - unfold UpdateTarget. destruct (mem_targets m !! id) eqn:E; simpl; [|done].
    by apply MemoryOK_set_target.
  - unfold DeleteTarget. destruct (mem_targets m !! id) eqn:E; simpl; [|done].
    destruct Hm as [Ht Hs Hr He]. split; [|exact Hs|exact Hr|exact He].
    intros id' t'. simpl. rewrite lookup_delete_Some. intros [_ ?]. by apply Ht.
  - apply MemoryOK_set_scenario; [done|]. split_and!; [done| |by eexists].
    intros i v Hi. apply list_lookup_singleton_Some in Hi as [-> <-]. done.
  - unfold UpdateScenario. destruct (mem_scenarios m !! id) as [r|] eqn:E; simpl; [|done].
    apply MemoryOK_set_scenario; [done|]. apply VersionsOK_snoc. by apply (ok_scenarios m Hm).
  - unfold CreateRun. destruct (match ref with [] => _ | _ => _ end) as [vid vn].
    apply MemoryOK_log, MemoryOK_set_run; [done|done|]. by apply phase_queued.
  - by apply MemoryOK_run_op.
Qed.

Lemma MemoryOK_new : MemoryOK NewMemory.
Proof.
  split; simpl; intros id *; rewrite ?lookup_empty; try done.
Qed.

Lemma MemoryOK_after l m : MemoryOK m → MemoryOK (fold_left mem_apply l m).
Proof. revert m. induction l; simpl; auto using MemoryOK_apply. Qed.

(** ** The event log tells the life of the run

    [clocked t m]: [m] is reached by calls whose run creations read an advancing
    clock, last at [t], and whose callers append only events of their own types
    (the executor, the runner and the worker do). *)

Definition is_store_type (t : string) : bool :=
  is_lifecycle_type t || String.eqb t TypeCancelRequested.
Definition foreign_event (o : run_op) : Prop :=
  match o with OpEvent e => is_store_type (Event_Type e) = false | _ => True end.

Inductive clocked : Time → Memory → Prop :=
| clocked_new t : clocked t NewMemory
| clocked_create_run t m c scn tgt sc ref :
    clocked t m → t < clk_now c → clocked (clk_now c) (mem_apply m (MCreateRun c scn tgt sc ref))
| clocked_run t m o c id :
    clocked t m → foreign_event o → clocked t (mem_apply m (MRun o c id))
| clocked_other t m o :
    clocked t m → match o with MCreateRun _ _ _ _ _ | MRun _ _ _ => False | _ => True end →
    clocked t (mem_apply m o).

Definition lifecycle (log : list Event) : list string :=
  List.filter is_lifecycle_type (map Event_Type log).
Definition final_types (st : RunStatus) : list string :=
  if String.eqb st RunPassed then [TypeRunCompleted]
  else if String.eqb st RunFailed || String.eqb st RunErrored then [TypeRunFailed]
  else if String.eqb st RunCanceled then [TypeRunCanceled]
  else [].
Definition life_trace (st : RunStatus) (tr : list string) : Prop :=
  ∃ n, tr = TypeRunQueued :: replicate n TypeRunStarted ++ final_types st
       ∧ (st = RunQueued → n = 0%nat) ∧ (st = RunRunning → n ≠ 0%nat).
Definition cancel_requests (log : list Event) : nat :=
  length (List.filter is_cancel_request log).

(** Identifiers are injective in the clock. *)
Lemma new_id_inj p a b : new_id p a = new_id p b → a = b.
Proof. unfold new_id. intros H. apply (inj (String.append p)) in H. by apply Itoa_inj. Qed.

Record ClockedOK (t : Time) (m : Memory) : Prop := {
  clk_ids id r : mem_runs m !! id = Some r → ∃ k, k ≤ t ∧ id = new_id "run_" k;
  clk_life id :
    match mem_runs m !! id with
    | None => lifecycle (events_of m id) = []
    | Some r => life_trace (Run_Status r) (lifecycle (events_of m id))
    end;
  clk_cancel id : (cancel_requests (events_of m id) ≤ 1)%nat;
}.

Lemma lifecycle_app l1 l2 : lifecycle (l1 ++ l2) = lifecycle l1 ++ lifecycle l2.
Proof. unfold lifecycle. by rewrite map_app, List.filter_app. Qed.
Lemma lifecycle_stamp now id log e :
  lifecycle [stamp_event now id log e]
  = if is_lifecycle_type (Event_Type e) then [Event_Type e] else [].
Proof. done. Qed.
Lemma cancel_requests_app l1 l2 :
  cancel_requests (l1 ++ l2) = (cancel_requests l1 + cancel_requests l2)%nat.
Proof. unfold cancel_requests. by rewrite List.filter_app, length_app. Qed.
Lemma cancel_requests_stamp now id log e :
  cancel_requests [stamp_event now id log e] = if is_cancel_request e then 1%nat else 0%nat.
Proof. unfold cancel_requests, is_cancel_request. simpl. by destruct (String.eqb _ _). Qed.
Lemma cancel_requests_none log : existsb is_cancel_request log = false → cancel_requests log = 0%nat.
Proof.
  unfold cancel_requests. induction log as [|e log IH]; simpl; [done|].
  destruct (is_cancel_request e); [done|]. apply IH.
Qed.

Lemma final_types_live st : isTerminalRunStatus st = false → final_types st = [].
Proof.
  unfold isTerminalRunStatus, string_in, final_types. simpl. rewrite !orb_false_iff.
  intros (-> & -> & -> & -> & _). done.
Qed.

Lemma run_next_type r r' t :
  run_next r r' t → is_lifecycle_type t = true ∧ String.eqb t TypeCancelRequested = false.
Proof. destruct 1; try done. by case_match. Qed.

(** One transition of a record extends the trace accordingly. *)
Lemma run_next_trace r r' t tr :
  run_next r r' t → isTerminalRunStatus (Run_Status r) = false →
  life_trace (Run_Status r) tr → life_trace (Run_Status r') (tr ++ [t]).
Proof.
  intros Hn Ht (n & -> & _). rewrite (final_types_live _ Ht), app_nil_r.
  destruct Hn as [r' now _ -> _ _ _ _|rep now|rep now|msg now]; simpl.
  - exists (S n). rewrite final_types_live by done. rewrite app_nil_r.
    split_and!; [by rewrite replicate_S_end|done|done].
  - exists n. unfold verdict_status. destruct (String.eqb (Report_Status rep) StatusFailed); by split_and!.
  - exists n; by split_and!.
  - exists n; by split_and!.
Qed.

Lemma ClockedOK_log t now id e m :
  ClockedOK t m → is_lifecycle_type (Event_Type e) = false →
  (is_cancel_request e = true → isRunCancelRequestedLocked m id = false) →
  ClockedOK t (log_event now id e m).
Proof.
  intros [Hi Hl Hc] Hty Hreq. split; [exact Hi| |]; intros id'; rewrite ?log_event_runs.
  - destruct (decide (id' = id)) as [->|Hne]; [|rewrite events_of_log_ne by done; apply Hl].
    rewrite events_of_log, lifecycle_app, lifecycle_stamp, Hty, app_nil_r. apply Hl.
  - destruct (decide (id' = id)) as [->|Hne]; [|rewrite events_of_log_ne by done; apply Hc].
    rewrite events_of_log, cancel_requests_app, cancel_requests_stamp.
    destruct (is_cancel_request e); [|specialize (Hc id); lia].
    rewrite (cancel_requests_none (events_of m id)) by (by apply Hreq). done.
Qed.

Lemma ClockedOK_run t now id e r' m :
  ClockedOK t m → (∃ k, k ≤ t ∧ id = new_id "run_" k) →
  is_lifecycle_type (Event_Type e) = true → is_cancel_request e = false →
  life_trace (Run_Status r') (lifecycle (events_of m id) ++ [Event_Type e]) →
  ClockedOK t (log_event now id e (set_run id r' m)).
Proof.
  intros [Hi Hl Hc] Hid Hty Hreq Htr. split; intros id'; rewrite ?log_event_runs; simpl.
  - destruct (decide (id' = id)) as [->|Hne]; [done|].
    rewrite lookup_insert_ne by done. apply Hi.
  - destruct (decide (id' = id)) as [->|Hne].
    + rewrite lookup_insert_eq, events_of_log, lifecycle_app, lifecycle_stamp, Hty. done.
    + rewrite lookup_insert_ne, events_of_log_ne by done. apply Hl.
  - destruct (decide (id' = id)) as [->|Hne]; [|rewrite events_of_log_ne by done; apply Hc].
    rewrite events_of_log, cancel_requests_app, cancel_requests_stamp, Hreq.
    specialize (Hc id). rewrite events_of_set_run. lia.
Qed.

Lemma ClockedOK_later t t' m : ClockedOK t m → t ≤ t' → ClockedOK t' m.
Proof.
  intros [Hi Hl Hc] Hle. split; [|exact Hl|exact Hc].
  intros id r Hr. destruct (Hi id r Hr) as (k & ? & ?). exists k. split; [lia|done].
Qed.

Lemma ClockedOK_run_op t o c id m :
  ClockedOK t m → foreign_event o → ClockedOK t (run_op_apply o c id m).
Proof.
  intros Hm Hf. destruct (run_op_effect o c id m) as [|now e r Hr Hq Hty|now e|o now e r r' [Hl Ht] Hx].
  - done.
  - apply ClockedOK_log; [done|by rewrite Hty|done].
  - unfold foreign_event, is_store_type in Hf. apply orb_false_iff in Hf as [Hf1 Hf2].
    apply ClockedOK_log; [done|done|]. unfold is_cancel_request. by rewrite Hf2.
  - destruct (run_next_type _ _ _ Hx) as [Hty Hnc].
    apply ClockedOK_run; [done|by eapply clk_ids|done|done|].
    eapply run_next_trace; [done|done|]. pose proof (clk_life _ _ Hm id) as Htr.
    by rewrite Hl in Htr.
Qed.

Lemma clocked_ok t m : clocked t m → ClockedOK t m.
Proof.
  induction 1 as [t|t m c scn tgt sc ref _ IH Hlt|t m o c id _ IH Hf|t m o _ IH Ho].
  - split; simpl; intros id; [by rewrite lookup_empty|by rewrite lookup_empty|].
    unfold cancel_requests, events_of. simpl. rewrite lookup_empty. simpl. lia.
  - simpl. unfold CreateRun. destruct (match ref with [] => _ | _ => _ end) as [vid vn].
    apply ClockedOK_run; [by apply (ClockedOK_later t); [|lia]|by eexists|done|done|].
    pose proof (clk_life _ _ IH (new_id "run_" (clk_now c))) as Hl.
    destruct (mem_runs m !! new_id "run_" (clk_now c)) as [r|] eqn:E.
    { destruct (clk_ids _ _ IH _ _ E) as (k & Hk & Heq%new_id_inj). lia. }
    rewrite Hl. by exists 0%nat.
  - by apply ClockedOK_run_op.
  - destruct IH as [Hi Hl Hc].
    destruct o; try done; simpl; unfold UpdateTarget, DeleteTarget, UpdateScenario;
      repeat case_match; done.
Qed.

(** ** Versions *)

Lemma GetScenarioVersion_lookup m id r n v :
  VersionsOK id r (versions_of m id) →
  GetScenarioVersion m id n = Some v ↔ 0 < n ∧ versions_of m id !! Z.to_nat (n - 1) = Some v.
Proof.
  intros (_ & Hvs & _). unfold GetScenarioVersion. generalize dependent (versions_of m id).
  intros vs Hvs. split.
  - intros Hf. apply List.find_some in Hf as [Hin Heq]. apply Z.eqb_eq in Heq.
    apply list_elem_of_In, list_elem_of_lookup in Hin as [i Hi].
    destruct (Hvs i v Hi) as [Hn _]. split; [lia|]. rewrite <-Hi. f_equal. lia.
  - intros [Hn Hv]. destruct (Hvs _ _ Hv) as [Hvn _].
    destruct (List.find _ vs) as [w|] eqn:Hf.
    + apply List.find_some in Hf as [Hin Heq]. apply Z.eqb_eq in Heq.
      apply list_elem_of_In, list_elem_of_lookup in Hin as [i Hi].
      destruct (Hvs i w Hi) as [Hw _].
      assert (i = Z.to_nat (n - 1)) as -> by lia. congruence.
    + eapply List.find_none in Hf; [|by apply list_elem_of_In, (list_elem_of_lookup_2 _ _ _ Hv)].
      apply Z.eqb_neq in Hf. lia.
Qed.

Lemma versions_of_set m id r vs : versions_of (set_scenario id r vs m) id = vs.
Proof. unfold versions_of. simpl. by rewrite lookup_insert_eq. Qed.

(** ** Properties *)

(** C5: the memory store refines the abstract run life cycle: after any
    interleaving of operations on any runs, a run's status and its cancellation
    flag are those that the operations on that run give, in their order, and no
    other run is touched. *)
Theorem Memory_refines_life (l : list (run_op * clock * string)) (m : Memory) (id : string) :
  life_of (ops_apply l m) id
  = fold_left life_step
      (omap (λ '(o, _, id'), if String.eqb id' id then Some o else None) l) (life_of m id).
Proof. exact (ops_life l m id). Qed.

(** A finished run is immutable: whatever operations follow, on it or on
    other runs, its record (status, report, error, times) stays the same. *)
Theorem Memory_terminal_immutable (l : list (run_op * clock * string)) (m : Memory) id r :
  GetRun m id = Some r → isTerminalRunStatus (Run_Status r) = true →
  GetRun (ops_apply l m) id = Some r.
Proof. apply ops_terminal. Qed.

Definition sample_clock (t : Time) : clock := Build_clock t t.
Definition sample_report (status : string) : Report :=
  Build_Report "run_1" "s" "" 0 status 1 2 f0 zero_Summary [] [] [] [].
Definition sample_store : Memory :=
  mem_after [MCreateRun (sample_clock 1) "" "" zero_Scenario [];
             MRun OpStart (sample_clock 2) "run_1";
             MRun (OpComplete (sample_report StatusPassed)) (sample_clock 3) "run_1"].

Lemma Memory_terminal_immutable_witness :
  ∃ r, Run_Status r = RunPassed
  ∧ GetRun (ops_apply [(OpError "late", sample_clock 9, "run_1");
                       (OpCancel (sample_report ""), sample_clock 9, "run_1")] sample_store)
      "run_1" = Some r.
Proof.
  eexists. split; [|eapply Memory_terminal_immutable; [vm_compute; reflexivity|reflexivity]].
  reflexivity.
Defined.

(** C26: whatever methods are called, in whatever order and with whatever clock
    readings, every record is filed under its own identifier, events are
    numbered 1, 2, 3, ... without gaps, the versions of a scenario are numbered
    1, 2, 3, ... and its record mirrors the last one, and every run record is
    in one of the five phases of its life (report present exactly when it
    completed or was canceled, finish time exactly when it ended, the verdict
    agreeing with the report). *)
Theorem Memory_wellformed (l : list mem_op) : MemoryOK (mem_after l).
Proof. apply MemoryOK_after, MemoryOK_new. Qed.


Lemma sample_clocked : clocked 1 sample_store.
Proof.
  apply clocked_run; [apply clocked_run; [|done]|done].
  apply (clocked_create_run 0 NewMemory (sample_clock 1)); [constructor|simpl; lia].
Qed.

(** Updating a scenario of a well-formed store adds a version: the record
    is the given scenario with the next version number, the new version is
    found under that number, and every earlier version is still found,
    unchanged. *)
Theorem UpdateScenario_adds_version now id sc m r0 :
  MemoryOK m → GetScenario m id = Some r0 →
  ∃ r m', UpdateScenario now id sc m = (Some r, m')
  ∧ GetScenario m' id = Some r ∧ Scn_Scenario r = sc ∧ Scn_CreatedAt r = Scn_CreatedAt r0
  ∧ Scn_CurrentVersionNumber r = Scn_CurrentVersionNumber r0 + 1
  ∧ (∃ v, GetScenarioVersion m' id (Scn_CurrentVersionNumber r) = Some v
          ∧ Scv_ID v = Scn_CurrentVersionID r ∧ Scv_Scenario v = sc)
  ∧ (∀ n v, GetScenarioVersion m id n = Some v → GetScenarioVersion m' id n = Some v).
Proof.
  intros Hm Hr0. pose proof (ok_scenarios m Hm id r0 Hr0) as Hv.
  unfold UpdateScenario. unfold GetScenario in Hr0. rewrite Hr0.
  eexists _, _. split; [done|].
  pose proof (VersionsOK_snoc id r0 _ now sc Hv) as Hv'. simpl in Hv'.
  rewrite <-(versions_of_set m id (Build_ScenarioRecord (Scn_ID r0) sc (new_id "scv_" now)
     (Z.of_nat (length (versions_of m id)) + 1) (Scn_CreatedAt r0)) (_ ++ _)) in Hv'.
  split_and!; [by unfold GetScenario; simpl; rewrite lookup_insert_eq|done|done| | |].
  - simpl. destruct Hv as (_ & Hvs & v & Hlast & _ & <- & _).
    rewrite last_lookup in Hlast. destruct (Hvs _ _ Hlast) as [-> _].
    apply lookup_lt_Some in Hlast. lia.
  - simpl. exists (Build_ScenarioVersionRecord (new_id "scv_" now) id
             (Z.of_nat (length (versions_of m id)) + 1) sc now).
    split; [apply (GetScenarioVersion_lookup _ _ _ _ _ Hv')|done].
    split; [lia|]. rewrite versions_of_set, list_lookup_middle; [done|lia].
  - intros n v. rewrite (GetScenarioVersion_lookup _ _ _ _ _ Hv),
      (GetScenarioVersion_lookup _ _ _ _ _ Hv'), versions_of_set.
    intros [Hn Hl]. split; [done|]. by apply lookup_app_l_Some.
Qed.

Lemma UpdateScenario_adds_version_witness :
  ∃ r m', UpdateScenario 8 "scn_5" zero_Scenario (mem_after [MCreateScenario 5 zero_Scenario])
          = (Some r, m') ∧ Scn_CurrentVersionNumber r = 2.
Proof.
  edestruct (UpdateScenario_adds_version 8 "scn_5" zero_Scenario
               (mem_after [MCreateScenario 5 zero_Scenario]))
    as (r & m' & Heq & _ & _ & _ & Hn & _).
  - apply MemoryOK_after, MemoryOK_new.
  - vm_compute. reflexivity.
  - exists r, m'. split; [exact Heq|exact Hn].
Defined.

(** A run pins the scenario it was created from: CreateRun stores a queued
    record with the given scenario and the version it was given, or else the
    scenario's current version; nothing that happens later to scenarios,
    targets or other runs changes the run's record. *)
Theorem CreateRun_pins_version c scenarioID targetID sc versionRef m :
  ∃ r m', CreateRun c scenarioID targetID sc versionRef m = (r, m')
  ∧ GetRun m' (Run_ID r) = Some r
  ∧ Run_Status r = RunQueued ∧ Run_Scenario r = sc ∧ Run_TargetID r = targetID
  ∧ (∀ v rest, versionRef = v :: rest →
       Run_ScenarioVersionID r = Scv_ID v ∧ Run_ScenarioVersionNumber r = Scv_VersionNumber v)
  ∧ (∀ s, versionRef = [] → scenarioID ≠ "" → GetScenario m scenarioID = Some s →
       Run_ScenarioVersionID r = Scn_CurrentVersionID s
       ∧ Run_ScenarioVersionNumber r = Scn_CurrentVersionNumber s)
  ∧ (∀ ops, Forall (λ o, match o with
                         | MRun _ _ id => id ≠ Run_ID r
                         | MCreateRun c' _ _ _ _ => clk_now c' ≠ clk_now c
                         | _ => True end) ops →
       GetRun (fold_left mem_apply ops m') (Run_ID r) = Some r).
Proof.
  unfold CreateRun.
  destruct (match versionRef with [] => _ | _ => _ end) as [vid vn] eqn:E.
  eexists _, _. split; [done|]. simpl. split_and!; try done.
  - by rewrite lookup_insert_eq.
  - intros v rest ->. by injection E as <- <-.
  - intros s -> Hne Hs. rewrite (proj2 (String.eqb_neq _ _) Hne) in E. simpl in E.
    unfold GetScenario in Hs. rewrite Hs in E. by injection E as <- <-.
  - intros ops. match goal with |- Forall _ _ → mem_runs (fold_left _ _ ?m0) !! _ = ?R =>
      assert (mem_runs m0 !! new_id "run_" (clk_now c) = R) as H0
        by (simpl; by rewrite lookup_insert_eq); generalize dependent m0 end.
    induction ops as [|o ops IH]; intros m1 H1 Hall; simpl; [done|].
    apply Forall_cons in Hall as [Ho Hall]. apply IH; [|done].
    destruct o as [| | | | |c' ? ? sc' ref'|o c' id]; simpl;
      [| | | | | |by destruct (Memory_op_frame m1 o c' id (new_id "run_" (clk_now c))) as (-> & _)];
      unfold UpdateTarget, DeleteTarget, UpdateScenario.
    1-5: by repeat case_match.
    unfold CreateRun. destruct (match ref' with [] => _ | _ => _ end).
    simpl. rewrite lookup_insert_ne; [done|]. intros Heq%new_id_inj; congruence.
Qed.

(** Targets behave as a map with stable identity: a created target is read
    back with its header map present; an update keeps identifier and creation
    time, replaces the rest and touches no other target; deleting reports
    whether the target existed and removes only it. *)
Theorem targets_as_map now id (t : TargetRecord) (m : Memory) :
  (let '(t', m') := CreateTarget now t m in
   GetTarget m' (Tgt_ID t') = Some t' ∧ Tgt_Headers t' = Some (default ∅ (Tgt_Headers t))
   ∧ Tgt_BaseURL t' = Tgt_BaseURL t
   ∧ ∀ i, i ≠ Tgt_ID t' → GetTarget m' i = GetTarget m i)
  ∧ (let '(o, m') := UpdateTarget now id t m in
     match GetTarget m id with
     | None => o = None ∧ m' = m
     | Some cur => ∃ t', o = Some t' ∧ GetTarget m' id = Some t' ∧ Tgt_ID t' = id
                   ∧ Tgt_CreatedAt t' = Tgt_CreatedAt cur ∧ Tgt_UpdatedAt t' = now
                   ∧ Tgt_BaseURL t' = Tgt_BaseURL t
     end ∧ ∀ i, i ≠ id → GetTarget m' i = GetTarget m i)
  ∧ (let '(b, m') := DeleteTarget id m in
     (b = true ↔ is_Some (GetTarget m id)) ∧ GetTarget m' id = None
     ∧ ∀ i, i ≠ id → GetTarget m' i = GetTarget m i).
Proof.
  unfold GetTarget. split_and!; simpl.
  - rewrite lookup_insert_eq. split_and!; [done..|]. intros i Hi. by rewrite lookup_insert_ne.
  - unfold UpdateTarget. destruct (mem_targets m !! id) as [cur|]; simpl; [|done].
    split; [eexists; by rewrite lookup_insert_eq|]. intros i Hi. by rewrite lookup_insert_ne.
  - unfold DeleteTarget. destruct (mem_targets m !! id) as [cur|] eqn:E; simpl.
    + split_and!; [by split; eauto|by rewrite lookup_delete_eq|].
      intros i Hi. by rewrite lookup_delete_ne.
    + split_and!; [|done|done]. split; [done|]. by intros [? ?].
Qed.
