(* ===== verification/PgSpec.v ===== *)
(** * The Postgres store: what it shows (src/apps/api/internal/store/postgres.go)

    The properties of the store: it refines the abstract life of a run, agrees
    with the in-memory store, keeps its tables well formed under any number of
    concurrent and failing calls, and what two concurrent updates of a scenario
    and the two ways to read a report give.  [Sample] is a server for the
    witnesses. *)

From S2P Require Export PgStore.
From S2P Require Import Memory.
From Stdlib Require Import Ascii.

Open Scope Z_scope.
Open Scope pg_scope.

#[local] Arguments isTerminalRunStatus : simpl never.
#[local] Arguments isCancelableRunStatus : simpl never.

(** ** A server *)
Module Sample.
(** An id is a "u" followed by digits, which may be written "U" too. *)
Definition uuid_text (s : string) : option string :=
  match s with
  | String c r => if Ascii.eqb c "u"%char || Ascii.eqb c "U"%char then Some (String "u"%char r) else None
  | "" => None
  end.
#[export] Instance types : PgTypes := {
  uuid_in := uuid_text;
  uuid_nth n := "u" +:+ Itoa (Z.of_N n);
  text_in := string_forall (in_range 1 127);
}.
Inductive column :=
| CScenario (sc : Scenario)
| CHeaders (h : gmap string string)
| CMetadata (m : gmap string any)
| CSummary (s : Summary)
| CChecks (l : list CheckResult)
| CFailures (l : list string).
#[export] Instance columns : PgColumns := {
  jsonb := column;
  write_scenario sc := Some (CScenario sc);
  read_scenario c := if c is CScenario sc then Some sc else None;
  read_name c := if c is CScenario sc then Some (Scenario_Name sc) else None;
  scenario_checksum := Scenario_Name;
  write_headers h := Some (CHeaders h);
  read_headers c := if c is CHeaders h then Some h else None;
  write_metadata m := Some (CMetadata m);
  read_metadata c := if c is CMetadata m then Some m else None;
  write_summary s := Some (CSummary s);
  read_summary c := if c is CSummary s then Some s else None;
  write_checks l := Some (CChecks l);
  read_checks c := if c is CChecks l then Some l else None;
  write_failures l := Some (CFailures l);
  read_failures c := if c is CFailures l then Some l else None;
}.
#[export] Instance laws : PgLaws.
Proof.
  split.
  - intros [|c s] u; cbn; [done|]. by destruct (_ || _); intros [= <-].
  - done.
  - done.
  - intros sc raw [= <-]. by eexists.
  - intros st _. by eexists.
Defined.
#[export] Instance project : PgProject := {| projectID := "u0" |}.
Definition at_ (t : Time) : clock := Build_clock t t.
End Sample.

Section Specs.
Context `{UT : UnicodeTables} `{PT : PgTypes} `{PC : PgColumns} {PL : PgLaws} {PP : PgProject}.

(** ** Lists of rows *)
Lemma insert_by_perm {A} (before : A → A → bool) x l : insert_by before x l ≡ₚ x :: l.
Proof.
  induction l as [|y l IH]; [done|]. cbn. destruct (before x y); [done|]. rewrite IH. constructor.
Qed.
Lemma order_by_perm {A} (before : A → A → bool) l : order_by before l ≡ₚ l.
Proof. induction l as [|x l IH]; [done|]. cbn. by rewrite insert_by_perm, IH. Qed.
Lemma mapM_elem {A B} (f : A → option B) l x :
  (∀ x, x ∈ l → is_Some (f x)) → x ∈ l →
  ∃ ys y, mapM f l = Some ys ∧ f x = Some y ∧ y ∈ ys.
Proof.
  intros Hf Hx. destruct (f x) as [y|] eqn:Hy; [|by destruct (Hf x Hx); congruence].
  assert (is_Some (mapM f l)) as [ys Hys] by (apply mapM_is_Some, Forall_forall; naive_solver).
  exists ys, y. split_and!; [done|done|]. apply mapM_Some in Hys.
  apply list_elem_of_lookup in Hx as [i Hi].
  destruct (Forall2_lookup_l _ _ _ _ _ Hys Hi) as (y' & Hy' & E).
  apply list_elem_of_lookup. exists i. congruence.
Qed.

(** ** Reading a report *)
Lemma listed_run_some db u r :
  DBOk db → db_runs db !! u = Some r →
  ∃ rec, listed_run (u, r, run_version_number db r, db_reports db !! u) = Some rec
         ∧ Run_ID rec = u ∧ Run_Status rec = rr_status r
         ∧ Run_Report rec
           = (λ p, row_report u (default "" (read_name (rr_snapshot r)))
                     (default "" (rr_version r)) (run_version_number db r) p)
               <$> db_reports db !! u.
Proof.
  intros Hok Hr. destruct (ok_run db Hok u r Hr) as [_ [_ [sc Hsc] _ _ _]].
  unfold listed_run, run_record. rewrite Hsc. cbn. by eexists.
Qed.
Lemma listed_elem (s : Pg) u r :
  db_runs (pg_db s) !! u = Some r → rr_project r = projectID →
  ∃ rec, rec ∈ st_ListRuns s
         ∧ listed_run (u, r, run_version_number (pg_db s) r, db_reports (pg_db s) !! u) = Some rec.
Proof.
  intros Hr Hp. change (st_ListRuns s) with (fst (run (pg_ListRuns projectID) (pg_db s))).
  unfold pg_ListRuns. rewrite run_ask. unfold select_runs, q_get. cbn [run fst].
  set (rows := map _ (newest_first _ _)).
  assert (∀ x, x ∈ rows ↔ ∃ v rv, x = (v, rv, run_version_number (pg_db s) rv, db_reports (pg_db s) !! v)
            ∧ db_runs (pg_db s) !! v = Some rv ∧ rr_project rv = projectID) as Hrows.
  { intros x. unfold rows, newest_first. rewrite list_elem_of_In, in_map_iff.
    setoid_rewrite <-list_elem_of_In. setoid_rewrite order_by_perm.
    setoid_rewrite list_elem_of_In. setoid_rewrite filter_In.
    setoid_rewrite <-list_elem_of_In. setoid_rewrite String.eqb_eq. split.
    - intros ([v rv] & <- & Hin & Hpr). exists v, rv. by apply elem_of_map_to_list in Hin.
    - intros (v & rv & -> & Hv & Hpr). exists (v, rv). by rewrite elem_of_map_to_list. }
  destruct (mapM_elem listed_run rows
              (u, r, run_version_number (pg_db s) r, db_reports (pg_db s) !! u))
    as (ys & rec & Hm & Hl & Hin).
  - intros x (v & rv & -> & Hv & _)%Hrows.
    destruct (listed_run_some _ v rv (pg_ok s) Hv) as (rec & E & _). by rewrite E.
  - apply Hrows. by exists u, r.
  - exists rec. by rewrite Hm.
Qed.
Lemma stored_report_spec c id rep (s : Pg) u r :
  uuid_in id = Some u → db_runs (pg_db s) !! u = Some r → rr_project r = projectID →
  isCancelableRunStatus (rr_status r) = true → pg_storable (OpComplete rep) = true →
  let s' := CompleteRun c id rep s in
  ∃ p got listed, report_row (verdict_status rep) rep = Some p
    ∧ GetRun s' id = Some got ∧ Run_Report got = Some (row_report id "" "" 0 p)
    ∧ listed ∈ st_ListRuns s' ∧ Run_ID listed = u
    ∧ Run_Report listed
      = Some (row_report u (default "" (read_name (rr_snapshot r))) (default "" (rr_version r))
                (run_version_number (pg_db s) r) p).
Proof.
  intros Hu Hr Hp Hc Hsto s'. change s' with (run_op_apply (OpComplete rep) c id s).
  pose proof (effect_at s (OpComplete rep) c id u r Hu Hr) as [Ht [now Hrow] Hrep _ _].
  assert (writes (OpComplete rep) r = true) as Hw by (unfold writes; by rewrite Hc, Hsto).
  rewrite Hw in Hrow, Hrep. cbn [op_row op_report] in Hrow, Hrep.
  apply bool_decide_eq_true_1 in Hsto. apply (report_row_any _ (verdict_status rep)) in Hsto as [p Hp'].
  rewrite Hp' in Hrep.
  destruct (GetRun_of _ id u _ Hu Hrow) as (got & Hg & _ & _ & _ & Hgr). rewrite Hrep in Hgr.
  destruct (listed_elem _ u _ Hrow Hp) as (listed & Hin & Hl).
  destruct (listed_run_some _ u _ (pg_ok (run_op_apply (OpComplete rep) c id s)) Hrow)
    as (listed' & Hl' & Hid & _ & Hlr).
  rewrite Hl in Hl'. injection Hl' as <-. rewrite Hrep in Hlr.
  exists p, got, listed. split_and!; try done. rewrite Hlr.
  unfold run_version_number. by rewrite (to_versions _ _ _ Ht).
Qed.

(** ** Two updates of a scenario *)
Lemma pstep_inv {A} (p p' : pg A) db db' :
  pstep p db p' db' →
  match p with
  | Ret _ => False
  | Stmt q k => p' = k None ∨ ∃ r, q db = Some (r, db') ∧ p' = k (Some r)
  end.
Proof. destruct 1; eauto. Qed.

Lemma update_tx_inv c id sc n raw sum db v u created db' :
  update_scenario_tx c id sc n raw sum db = Some ((v, u, created), db') →
  uuid_in id = Some u
  ∧ (∃ vr, db_versions db' !! v = Some vr ∧ vr_scenario vr = u ∧ vr_number vr = n
           ∧ vr_definition vr = raw)
  ∧ ∃ r, db_scenarios db' !! u = Some r ∧ sr_current_version r = Some v.
Proof.
  unfold update_scenario_tx, insert_version, update_scenario. intros H.
  apply q_bind_Some in H as (v1 & db1 & Hins & H).
  apply q_bind_Some in Hins as (u1 & d1 & Hu & Hins). unfold uuid_arg, q_option in Hu.
  destruct (uuid_in id) as [u0|] eqn:Hid; [|done]. injection Hu as <- <-.
  apply q_bind_Some in Hins as ([] & d2 & Hg & Hins). unfold q_guard in Hg.
  destruct (_ <=? _); [|done]. injection Hg as <-.
  apply q_bind_Some in Hins as ([] & d2 & Hg & Hins). unfold references, q_guard in Hg.
  destruct (bool_decide _); [|done]. injection Hg as <-.
  apply q_bind_Some in Hins as ([] & d2 & Hg & Hins). unfold q_guard in Hg.
  destruct (negb _); [|done]. injection Hg as <-.
  apply q_bind_Some in Hins as (now & d2 & [= <- <-] & Hins).
  apply q_bind_Some in Hins as (vid & d3 & [= <- <-] & Hins).
  apply q_bind_Some in Hins as ([] & d4 & Hg & Hins). unfold primary_key, q_guard in Hg.
  destruct (bool_decide _); [|done]. injection Hg as <-. injection Hins as <- <-.
  apply q_bind_Some in H as (row & db2 & Hup & H).
  unfold q_bind at 1, uuid_arg, q_option in Hup. rewrite Hid in Hup.
  apply q_bind_Some in Hup as (v2 & d5 & Hv & Hup). rewrite uuid_nth_canonical in Hv.
  injection Hv as <- <-.
  apply q_bind_Some in Hup as ([] & d6 & Hg & Hup). unfold text_args, q_guard in Hg.
  destruct (forallb _ _); [|done]. injection Hg as <-.
  apply q_bind_Some in Hup as ([] & d6 & Hg & Hup). unfold references, q_guard in Hg.
  destruct (bool_decide _); [|done]. injection Hg as <-. unfold q_bind at 1, q_get in Hup.
  destruct (_ !! u0) as [r|] eqn:Hr; [|injection Hup as <- <-; done].
  injection Hup as <- <-. injection H as <- <- <- <-. split; [done|]. cbn.
  split; [|by eexists; rewrite lookup_insert_eq].
  eexists. rewrite lookup_insert_eq. done.
Qed.
Lemma update_tx_taken c id sc n raw sum db u v vr :
  uuid_in id = Some u → db_versions db !! v = Some vr → vr_scenario vr = u → vr_number vr = n →
  update_scenario_tx c id sc n raw sum db = None.
Proof.
  intros Hu Hv Hs Hn. unfold update_scenario_tx, q_bind at 1, insert_version.
  unfold q_bind at 1, uuid_arg, q_option. rewrite Hu. unfold q_bind at 1, q_guard at 1.
  destruct (_ <=? _); [|done]. unfold q_bind at 1, references, q_guard at 1.
  destruct (bool_decide _); [|done]. unfold q_bind at 1, q_guard at 1.
  assert (existsb (λ kr, vr_number kr.2 =? n) (PgTables.versions_of db u) = true) as ->; [|done].
  apply existsb_exists. exists (v, vr). cbn. rewrite Hn, Z.eqb_refl. split; [|done].
  rewrite <-Hs. by apply list_elem_of_In, in_versions_of.
Qed.
Lemma concurrent_update_spec c1 c2 id sc1 sc2 db db1 p1 p2 rec :
  pstep (pg_UpdateScenario c1 id sc1) db p1 db →
  pstep (pg_UpdateScenario c2 id sc2) db p2 db → run p1 db = (Some rec, db1) →
  run p2 db1 = (None, db1)
  ∧ ∃ got, run (pg_GetScenario id) db1 = (Some got, db1)
           ∧ Scn_CurrentVersionNumber got = Scn_CurrentVersionNumber rec.
Proof.
  unfold pg_UpdateScenario, marshalScenario. intros H1 H2 Hrun.
  destruct (write_scenario sc1) as [raw1|] eqn:Hw1; [|by apply pstep_inv in H1].
  cbn [mbind option_bind] in H1. apply pstep_inv in H1. cbn in H1.
  destruct H1 as [->|(n & Hn & ->)]; [done|]. destruct (n =? 1) eqn:H1; [done|].
  rewrite run_ask in Hrun.
  destruct (update_scenario_tx _ _ _ _ _ _ _) as [[[[v u] created] d]|] eqn:Htx; [|done].
  injection Hrun as <- <-.
  destruct (update_tx_inv _ _ _ _ _ _ _ _ _ _ _ Htx)
    as (Hu & (vr & Hv & Hvs & Hvn & Hvd) & r & Hr & Hcur). split.
  - destruct (write_scenario sc2) as [raw2|]; [|by apply pstep_inv in H2].
    apply pstep_inv in H2. cbn in H2. destruct H2 as [->|(n2 & Hn2 & ->)]; [done|].
    rewrite Hn2 in Hn. injection Hn as ->. rewrite H1, run_ask.
    by rewrite (update_tx_taken _ _ _ _ _ _ _ u v vr).
  - unfold pg_GetScenario. rewrite run_ask. unfold select_scenario, q_bind, uuid_arg, q_option, q_get.
    rewrite Hu. destruct (scenario_readable sc1 raw1 Hw1) as [sc Hsc].
    rewrite Hr. cbn [mbind option_bind]. unfold current_version. rewrite Hcur. cbn [mbind option_bind].
    rewrite Hv. cbn [mbind option_bind run]. unfold scenario_record. rewrite Hvd, Hsc.
    cbn. by eexists.
Qed.

(** ** Properties *)

(** C6: Postgres refines the abstract life of a run: after any calls on any
    runs, one after the other, the status of a run and its cancellation flag,
    as they are read back, are those that the calls on that run give in their
    order; a call whose report, message or event the columns cannot hold changes
    nothing, and a text that is no uuid is a run that never exists. *)
Theorem Postgres_refines_life (l : list (run_op * clock * string)) (s : Pg) (id : string) :
  life_of (ops_apply l s) id
  = fold_left (life_step (St := Pg))
      (omap (λ '(o, _, id'), if same_uuid id' id then Some o else None) l) (life_of s id).
Proof. exact (ops_life l s id). Qed.

(** C27: the two stores agree.  Take the same calls on both, the runs of the one
    named by [name] in the other (different runs by different ids), with nothing
    in them that the columns cannot hold, and whatever the clocks read: a run on
    whose life the stores agree before is a run on whose life they agree after. *)
Theorem stores_agree (name : string → string) (tick : clock → clock)
    (l : list (run_op * clock * string)) (m : Memory) (s : Pg) id :
  Forall (λ '(o, _, id'), pg_storable o = true
                          ∧ same_uuid (name id') (name id) = String.eqb id' id) l →
  life_of m id = life_of s (name id) →
  life_of (ops_apply l m) id
  = life_of (ops_apply (map (λ '(o, c, id'), (o, tick c, name id')) l) s) (name id).
Proof.
  intros Hl Hlife. rewrite !ops_life, Hlife. clear Hlife. generalize (life_of s (name id)).
  induction Hl as [|[[o c] id'] l [Ho Hid] _ IH]; intros lf; [done|]. cbn [map omap list_omap].
  change (same_id (name id') (name id)) with (same_uuid (name id') (name id)).
  change (same_id id' id) with (String.eqb id' id). rewrite Hid.
  destruct (String.eqb id' id); [|apply IH]. cbn [fold_left]. rewrite IH. f_equal.
  unfold life_step. change (storable o) with (pg_storable o) at 2. by rewrite Ho.
Qed.

(** C7: concurrent calls cannot break the tables.  Start with an empty database
    and let any calls begin at any time in any processes, interleaved statement
    by statement, each statement executed, refused, lost, or executed with its
    reply lost.  Then the tables satisfy their invariant (the events of a run
    numbered from one without gaps, a report exactly of the status of its run
    and only of a run that has ended, one version per number), and between any
    two moments they evolve: no run, event or version goes, a run keeps its
    snapshot and moves only forward through the statuses, and a run that has
    ended keeps its status, error, times and report. *)
Theorem concurrent_calls_safe w w' :
  rtc world_step empty_world w → rtc world_step w w' →
  DBOk (w_db w) ∧ DBOk (w_db w') ∧ evolves (w_db w) (w_db w').
Proof.
  intros H1 H2. destruct (world_steps_ok _ _ H1) as (Hok & Hs & _); [apply empty_ok|constructor|].
  destruct (world_steps_ok _ _ H2 Hok Hs) as (Hok' & _ & He). done.
Qed.

(** Of two updates of a scenario that read its versions at the same time,
    the second is refused.  The number of the new version is read before it is
    inserted, without a lock: when the first update goes through, the second
    changes nothing and returns what it returns for a scenario that does not
    exist, although the scenario is there, with the first update's version. *)
Theorem concurrent_update_refused c1 c2 id sc1 sc2 db db1 p1 p2 rec :
  pstep (pg_UpdateScenario c1 id sc1) db p1 db →
  pstep (pg_UpdateScenario c2 id sc2) db p2 db → run p1 db = (Some rec, db1) →
  run p2 db1 = (None, db1)
  ∧ ∃ got, run (pg_GetScenario id) db1 = (Some got, db1)
           ∧ Scn_CurrentVersionNumber got = Scn_CurrentVersionNumber rec.
Proof. apply concurrent_update_spec. Qed.

(** The two ways to read a report differ.  When a run of the project
    completes with a report that the columns can hold, [GetRun] returns that
    report without the scenario's name and version, because its second query
    asks for a column that does not exist, while the same run in [ListRuns] has
    them; both lack its times, its duration and its responses. *)
Theorem stored_report_partial c id rep (s : Pg) u r :
  uuid_in id = Some u → db_runs (pg_db s) !! u = Some r → rr_project r = projectID →
  isCancelableRunStatus (rr_status r) = true → pg_storable (OpComplete rep) = true →
  let s' := CompleteRun c id rep s in
  ∃ p got listed, report_row (verdict_status rep) rep = Some p
    ∧ GetRun s' id = Some got ∧ Run_Report got = Some (row_report id "" "" 0 p)
    ∧ listed ∈ st_ListRuns s' ∧ Run_ID listed = u
    ∧ Run_Report listed
      = Some (row_report u (default "" (read_name (rr_snapshot r))) (default "" (rr_version r))
                (run_version_number (pg_db s) r) p).
Proof. apply stored_report_spec. Qed.
End Specs.

(** ** Examples *)
Import Sample.
#[local] Existing Instance ascii_tables.

Definition empty_pg : Pg := Build_Pg empty_db empty_ok.
(** The default project ("u0"), a scenario ("u1", version "u2") and a run of it
    ("u3", its event "u4"). *)
Definition project_pg : Pg :=
  snd (call ensureDefaultProject (pg_call_safe "" _ _ (call_project "")) empty_pg).
Definition scenario_pg : Pg := snd (st_CreateScenario (at_ 1000) zero_Scenario project_pg).
Definition run_pg : Pg := snd (st_CreateRun (at_ 2000) "u1" "" zero_Scenario [] scenario_pg).
Definition empty_report (status : string) : Report :=
  Build_Report "u3" "" "" 0 status 0 0 f0 zero_Summary [] [] [] [].

Definition sample_calls : list (run_op * clock * string) :=
  [(OpStart, at_ 3000, "u3"); (OpRequestCancel, at_ 4000, "U3");
   (OpError (String "000" ""), at_ 5000, "u3"); (OpCancel (empty_report "passed"), at_ 6000, "u3");
   (OpComplete (empty_report "passed"), at_ 7000, "u3")].
Lemma Postgres_refines_life_witness :
  life_of (ops_apply sample_calls run_pg) "u3" = Build_life (Some RunCanceled) true.
Proof. etrans; [apply Postgres_refines_life|]. vm_compute. reflexivity. Defined.

Definition run_memory : Memory := mem_after [MCreateRun (at_ 1) "" "" zero_Scenario []].
Definition agreed_calls : list (run_op * clock * string) :=
  [(OpStart, at_ 3, "run_1"); (OpRequestCancel, at_ 4, "run_1"); (OpStart, at_ 4, "run_2");
   (OpCancel (empty_report "passed"), at_ 6, "run_1")].
Definition sample_name (id : string) : string := if String.eqb id "run_1" then "u3" else "u9".
Lemma stores_agree_witness :
  life_of (ops_apply agreed_calls run_memory) "run_1"
  = life_of (ops_apply (map (λ '(o, c, id'), (o, at_ (1000 * clk_now c), sample_name id'))
                          agreed_calls) run_pg) "u3".
Proof.
  apply (stores_agree sample_name (λ c, at_ (1000 * clk_now c)) agreed_calls run_memory run_pg "run_1").
  - repeat constructor.
  - vm_compute. reflexivity.
Defined.

(** A process makes the project; another begins to cancel a run. *)
Definition project_world : world := Build_world (pg_db project_pg) [Proc (Ret (Some "u0"))].
Lemma project_world_reached : rtc world_step empty_world project_world.
Proof.
  eapply rtc_l; [exact (ws_begin _ "" _ _ (call_project ""))|]. apply rtc_once.
  exact (ws_step (Build_world empty_db [Proc ensureDefaultProject]) 0 _ ensureDefaultProject
           (Ret (Some "u0")) (pg_db project_pg) eq_refl
           (ps_executed _ (upsert_project "default") (λ r, Ret r) empty_db "u0" (pg_db project_pg)
              eq_refl)).
Defined.
Lemma concurrent_calls_safe_witness :
  ∃ w', rtc world_step project_world w' ∧ length (w_procs w') = 2%nat
        ∧ DBOk (w_db w') ∧ evolves (w_db project_world) (w_db w').
Proof.
  eexists. assert (rtc world_step project_world
    (Build_world (pg_db project_pg) (w_procs project_world
       ++ [Proc (pg_RequestRunCancel (at_ 1000) "u3")]))) as H.
  { apply rtc_once. exact (ws_begin project_world "" _ _ (call_request_cancel "" (at_ 1000) "u3")). }
  destruct (concurrent_calls_safe _ _ project_world_reached H) as (_ & H1 & H2).
  split_and!; [exact H|reflexivity|exact H1|exact H2].
Defined.

(** Two updates that have read the number 2. *)
Definition updating_after (t : Time) (read : option Z) : pg (option ScenarioRecord) :=
  match read with
  | Some number =>
      if number =? 1 then Ret None
      else ask (update_scenario_tx (at_ t) "u1" zero_Scenario number (CScenario zero_Scenario) "") None
             (λ '(version, u, created),
                Ret (Some (Build_ScenarioRecord u zero_Scenario version number created)))
  | None => Ret None
  end.
Definition updating (t : Time) : pg (option ScenarioRecord) := updating_after t (Some 2).
Lemma concurrent_update_refused_witness :
  Scn_CurrentVersionNumber <$> fst (run (updating 5000) (pg_db scenario_pg)) = Some 2
  ∧ fst (run (updating 6000) (snd (run (updating 5000) (pg_db scenario_pg)))) = None.
Proof.
  split; [vm_compute; reflexivity|].
  assert (∀ t, pstep (pg_UpdateScenario (at_ t) "u1" zero_Scenario) (pg_db scenario_pg)
                 (updating t) (pg_db scenario_pg)) as H.
  { intros t. apply (ps_executed _ (next_version_number "u1") (updating_after t) (pg_db scenario_pg) 2).
    vm_cast_no_check (eq_refl (Some (2, pg_db scenario_pg))). }
  destruct (run (updating 5000) (pg_db scenario_pg)) as [[rec|] db1] eqn:Hr.
  - destruct (concurrent_update_refused _ _ _ _ _ _ _ _ _ _ (H 5000) (H 6000) Hr) as [Hp _].
    cbn [snd]. rewrite Hp. reflexivity.
  - exfalso. assert (bool_decide (fst (run (updating 5000) (pg_db scenario_pg)) = None) = false) as Hx
      by (vm_compute; reflexivity). rewrite Hr in Hx. discriminate.
Defined.

Definition run_row : RunRow :=
  default (Build_RunRow "" None None None "" (CFailures []) None 0 None None)
    (db_runs (pg_db run_pg) !! "u3").
Lemma stored_report_partial_witness :
  ∃ p got, GetRun (CompleteRun (at_ 3000) "U3" (empty_report "failed") run_pg) "U3" = Some got
           ∧ Run_Report got = Some (row_report "U3" "" "" 0 p).
Proof.
  assert (db_runs (pg_db run_pg) !! "u3" = Some run_row) as Hr
    by vm_cast_no_check (eq_refl (Some run_row)).
  assert (rr_project run_row = "u0") as Hp by vm_cast_no_check (eq_refl "u0").
  assert (rr_status run_row = RunQueued) as Hs by vm_cast_no_check (eq_refl RunQueued).
  destruct (stored_report_partial (at_ 3000) "U3" (empty_report "failed") run_pg "u3" run_row)
    as (p & got & _ & _ & Hg & Hrep & _); [reflexivity|exact Hr|exact Hp|by rewrite Hs|reflexivity|].
  exists p, got. split; [exact Hg|exact Hrep].
Defined.
