(* ===== verification/Blob.v ===== *)
(** * The blob stores (src/apps/api/internal/blob/store.go, memory.go, s3.go)

    [BlobStore] is the interface, [BlobLaws] what its clients may rely on: a
    successful [Put] replaces the value under its key, a failed one may have, and
    a value that is read is the one stored.  [MemoryStore] keeps a copy of the
    bytes under each key; [Put] and [Get] copy the slice, so a stored value never
    changes through an alias and values are immutable here.  [S3Store] calls the
    client of the AWS SDK, a parameter, and wraps its errors. *)

From S2P Require Export Scenario Config.

(** ** The interface *)

(** The state of a store includes what stands between it and its answers, so
    that a read can fail. *)
Class BlobStore (B : Type) := {
  Put : string → string → string → B → error * B;
  Get : string → B → result string;
  Delete : string → B → error * B;
}.
Class BlobLaws (B : Type) `{BlobStore B} := {
  blobs : B → gmap string string;
  blobs_put key data contentType b :
    fst (Put key data contentType b) = None →
    blobs (snd (Put key data contentType b)) = <[key := data]> (blobs b);
  blobs_put_failed key data contentType b :
    blobs (snd (Put key data contentType b)) = <[key := data]> (blobs b)
    ∨ blobs (snd (Put key data contentType b)) = blobs b;
  blobs_get key data b : Get key b = Ok data → blobs b !! key = Some data;
  blobs_delete key b :
    fst (Delete key b) = None → blobs (snd (Delete key b)) = delete key (blobs b);
}.

Section Laws.
Context `{BlobLaws B}.
Lemma blobs_put_other key key' data contentType b :
  key' ≠ key → blobs (snd (Put key data contentType b)) !! key' = blobs b !! key'.
Proof.
  intros Hne. destruct (blobs_put_failed key data contentType b) as [->| ->]; [|done].
  by rewrite lookup_insert_ne.
Qed.
End Laws.

(** ** In memory *)
Record MemoryStore := { blob_store : gmap string string }.
Definition NewMemoryStore : MemoryStore := Build_MemoryStore ∅.

Definition mem_Put (key data contentType : string) (m : MemoryStore) : error * MemoryStore :=
  (None, Build_MemoryStore (<[key := data]> (blob_store m))).
Definition mem_Get (key : string) (m : MemoryStore) : result string :=
  match blob_store m !! key with
  | None => Err ("key not found: " +:+ key)
  | Some data => Ok data
  end.
Definition mem_Delete (key : string) (m : MemoryStore) : error * MemoryStore :=
  (None, Build_MemoryStore (delete key (blob_store m))).

#[export] Instance MemoryStore_blob : BlobStore MemoryStore := {
  Put := mem_Put; Get := mem_Get; Delete := mem_Delete;
}.
#[export] Instance MemoryStore_laws : BlobLaws MemoryStore.
Proof.
  refine (Build_BlobLaws _ _ blob_store _ _ _ _); cbn.
  - done.
  - by left.
  - intros key data b. unfold mem_Get. destruct (_ !! key); [|done]. by intros [= ->].
  - done.
Defined.

(** ** S3 *)

(** The client: a bucket, a key and a body or a content type; [Get] has the
    error of the call and that of reading the body. *)
Class S3Client (C : Type) := {
  PutObject : string → string → string → option string → C → error * C;
  GetObject : string → string → C → result (result string);
  DeleteObject : string → string → C → error * C;
}.
(** What the service documents: reads see the last write that succeeded. *)
Class S3ClientLaws (C : Type) `{S3Client C} := {
  objects : C → string → gmap string string;      (* the objects of a bucket *)
  put_object bucket key body contentType c :
    fst (PutObject bucket key body contentType c) = None →
    objects (snd (PutObject bucket key body contentType c)) bucket
      = <[key := body]> (objects c bucket);
  put_object_failed bucket key body contentType c :
    objects (snd (PutObject bucket key body contentType c)) bucket
      = <[key := body]> (objects c bucket)
    ∨ objects (snd (PutObject bucket key body contentType c)) bucket = objects c bucket;
  get_object bucket key body c :
    GetObject bucket key c = Ok (Ok body) → objects c bucket !! key = Some body;
  delete_object bucket key c :
    fst (DeleteObject bucket key c) = None →
    objects (snd (DeleteObject bucket key c)) bucket = delete key (objects c bucket);
}.

(** The SDK's configuration: what [LoadDefaultConfig] makes of the region and
    the credentials, and the client that [NewFromConfig] makes of it, with its
    endpoint and its path style. *)
Class S3Sdk (C : Type) := {
  AwsConfig : Type;
  LoadDefaultConfig : option string → option (string * string) → result AwsConfig;
  NewFromConfig : AwsConfig → option string → bool → C;
}.

Record S3Store (C : Type) := { s3_client : C; s3_bucket : string }.
Arguments Build_S3Store {C}.
Arguments s3_client {C}.
Arguments s3_bucket {C}.

Definition NewS3Store {C} `{S3Sdk C} (cfg : S3Config) : result (S3Store C) :=
  let region := if String.eqb (S3_Region cfg) "" then None else Some (S3_Region cfg) in
  let credentials :=
    if negb (String.eqb (S3_AccessKeyID cfg) "")
       && negb (String.eqb (S3_SecretAccessKey cfg) "")
    then Some (S3_AccessKeyID cfg, S3_SecretAccessKey cfg) else None in
  match LoadDefaultConfig region credentials with
  | Err m => Err ("unable to load SDK config: " +:+ m)
  | Ok aws =>
      let endpoint :=
        if String.eqb (S3_Endpoint cfg) "" then None else Some (S3_Endpoint cfg) in
      Ok (Build_S3Store (NewFromConfig aws endpoint (S3_ForcePathStyle cfg))
            (S3_Bucket cfg))
  end.

(** Whether to use SSL is read into the configuration and not looked at here. *)
Lemma NewS3Store_ignores_ssl `{S3Sdk C} e r b k x ssl ssl' style :
  NewS3Store (Build_S3Config e r b k x ssl style) = NewS3Store (Build_S3Config e r b k x ssl' style).
Proof. done. Qed.

Section S3Ops.
Context `{SC : S3Client C}.

Definition wrap_error (what : string) (e : error) : error :=
  match e with None => None | Some m => Some (what +:+ m) end.
Definition s3_Put (key data contentType : string) (s : S3Store C) : error * S3Store C :=
  let contentTyp := if String.eqb contentType "" then None else Some contentType in
  let '(err, client) := PutObject (s3_bucket s) key data contentTyp (s3_client s) in
  (wrap_error "failed to put object to S3: " err, Build_S3Store client (s3_bucket s)).
Definition s3_Get (key : string) (s : S3Store C) : result string :=
  match GetObject (s3_bucket s) key (s3_client s) with
  | Err m => Err ("failed to get object from S3: " +:+ m)
  | Ok (Err m) => Err ("failed to read S3 object body: " +:+ m)
  | Ok (Ok data) => Ok data
  end.
Definition s3_Delete (key : string) (s : S3Store C) : error * S3Store C :=
  let '(err, client) := DeleteObject (s3_bucket s) key (s3_client s) in
  (wrap_error "failed to delete object from S3: " err, Build_S3Store client (s3_bucket s)).

#[export] Instance S3Store_blob : BlobStore (S3Store C) := {
  Put := s3_Put; Get := s3_Get; Delete := s3_Delete;
}.

Lemma wrap_error_none what e : wrap_error what e = None → e = None.
Proof. by destruct e. Qed.

(** Over a client that behaves as documented, the store is a blob store. *)
#[export] Instance S3Store_laws {SL : S3ClientLaws C} : BlobLaws (S3Store C).
Proof.
  refine (Build_BlobLaws _ _ (λ s, objects (s3_client s) (s3_bucket s)) _ _ _ _);
    cbn [Put Get Delete S3Store_blob]; unfold s3_Put, s3_Get, s3_Delete.
  - intros key data ct [c bucket]. cbn. set (ct' := if String.eqb ct "" then _ else _).
    destruct (PutObject bucket key data ct' c) as [e c'] eqn:E. cbn.
    intros ->%wrap_error_none. pose proof (put_object bucket key data ct' c) as H.
    rewrite E in H. by apply H.
  - intros key data ct [c bucket]. cbn. set (ct' := if String.eqb ct "" then _ else _).
    pose proof (put_object_failed bucket key data ct' c) as H.
    by destruct (PutObject bucket key data ct' c) as [e c'].
  - intros key data [c bucket]. cbn. destruct (GetObject bucket key c) as [[body|]|] eqn:E; [|done..].
    intros [= <-]. by apply get_object.
  - intros key [c bucket]. cbn. destruct (DeleteObject bucket key c) as [e c'] eqn:E. cbn.
    intros ->%wrap_error_none. pose proof (delete_object bucket key c) as H. rewrite E in H. by apply H.
Defined.
End S3Ops.

(** ** The one the process opens (src/apps/api/internal/app/store.go) *)
Definition OpenBlobStore `{UnicodeTables} {C} `{S3Sdk C} (cfg : Config) : result (MemoryStore + S3Store C) :=
  if String.eqb (ToLower (StoreBackend cfg)) "memory"
     || String.eqb (S3_Endpoint (S3 cfg)) ""
  then Ok (inl NewMemoryStore)
  else match NewS3Store (S3 cfg) with
       | Ok s => Ok (inr s)
       | Err m => Err m
       end.
