(* ===== verification/RunExec.v ===== *)
(** * The run executor (src/apps/api/internal/runexec/executor.go)

    [Execute] reads and writes a store that other processes (the API, other
    workers, the runner's event recorder) change between any two of its calls.
    [ExecEnv] holds everything the executor does not decide: the calls that
    others make at each point, the runner's outcome, the instants at which the
    monitor goroutine polls, and the clock.  All theorems quantify over it.

    The runner and the blob store are the Go interfaces [ScenarioRunner] and
    [blob.Store]; [report_json] is [Report.JSON]. *)

From S2P Require Export Store Blob ReportJson.
From S2P Require Export Memory.

Open Scope Z_scope.

(** A call some process makes on the store. *)
Abbreviation call := (run_op * clock * string)%type (only parsing).

Record ExecEnv := {
  ex_before_check : list call;     (* between GetRun and IsRunCancelRequested *)
  ex_before_start : list call;     (* before MarkRunStarted *)
  ex_before_reread : list call;    (* before the second GetRun *)
  ex_during : list call;           (* while the runner runs, its events included *)
  ex_polls : list nat;             (* polls of the monitor, after that many of these calls *)
  ex_outcome : Report * error;     (* what RunWithOptions returns *)
  ex_before_finish : list call;    (* between the last check and the final write *)
  ex_clock : clock;
}.

Record Executor := {
  Exec_BlobStore : bool;           (* e.BlobStore != nil *)
  Exec_Timeout : Z;
  Exec_CancelCheckInterval : Z;
}.

(** The deadline of the run and the polling interval of the monitor. *)
Definition exec_timeout (e : Executor) : Z :=
  if Exec_Timeout e <=? 0 then 5 * Minute else Exec_Timeout e.
Definition monitor_interval (e : Executor) : Z :=
  if Exec_CancelCheckInterval e <=? 0 then 100 * Millisecond else Exec_CancelCheckInterval e.

Definition canceledReport (now : Time) (id scenarioName message : string) : Report :=
  Build_Report id scenarioName "" 0 StatusCanceled now now f0 zero_Summary [] []
    (if String.eqb message "" then [] else [message]) [].

Definition appendIfMissing (values : list string) (value : string) : list string :=
  if existsb (String.eqb value) values then values else values ++ [value].

Definition with_failures (rep : Report) (failures : list string) : Report :=
  Build_Report (Report_RunID rep) (Report_Scenario rep) (Report_ScenarioVersionID rep)
    (Report_ScenarioVersionNumber rep) (Report_Status rep) (Report_StartedAt rep)
    (Report_FinishedAt rep) (Report_DurationMS rep) (Report_Summary rep)
    (Report_Thresholds rep) (Report_Invariants rep) failures (Report_Responses rep).

Definition report_key (runID : string) : string := "runs/" +:+ runID +:+ "/report.json".

Section Executor.
Context `{JE : JsonErrors} `{UT : UnicodeTables} `{RJ : EncodeErrors} `{RS : RunStore St}
  `{BS : BlobStore B}.

Definition uploadReport (e : Executor) (runID : string) (rep : Report) (b : B) : B :=
  if negb (Exec_BlobStore e) then b
  else match report_json rep with
       | Err _ => b
       | Ok raw => snd (Put (report_key runID) raw "application/json" b)
       end.

(** [monitorCancellation]: one of its polls sees the request. *)
Definition monitor_sees (polls : list nat) (calls : list call) (s : St) (id : string) : bool :=
  existsb (λ k, IsRunCancelRequested (ops_apply (take k calls) s) id) polls.

(** The report of a canceled run. *)
Definition cancel_report (now : Time) (runID name : string) (outcome : Report * error) : Report :=
  let '(rep, err) := outcome in
  let rep := match err with Some m => canceledReport now runID name m | None => rep end in
  with_failures rep (appendIfMissing (Report_Failures rep) "run canceled by user").

(** From the runner's return to the end of [Execute]. *)
Definition finish_execution (e : Executor) (env : ExecEnv) (runID : string) (sc : Scenario)
    (s0 : St) (b : B) : error * St * B :=
  let c := ex_clock env in
  let s := ops_apply (ex_during env) s0 in
  let '(rep, err) := ex_outcome env in
  if monitor_sees (ex_polls env) (ex_during env) s0 runID || IsRunCancelRequested s runID then
    let rep := cancel_report (clk_now c) runID (Scenario_Name sc) (ex_outcome env) in
    let b := uploadReport e runID rep b in
    (None, CancelRun c runID rep (ops_apply (ex_before_finish env) s), b)
  else match err with
  | Some m => (Some m, ErrorRun c runID m (ops_apply (ex_before_finish env) s), b)
  | None =>
      let b := uploadReport e runID rep b in
      (None, CompleteRun c runID rep (ops_apply (ex_before_finish env) s), b)
  end.

Definition Execute (e : Executor) (env : ExecEnv) (runID : string) (s : St) (b : B)
  : error * St * B :=
  let c := ex_clock env in
  match GetRun s runID with
  | None => (Some ("run " +:+ Quote runID +:+ " not found"), s, b)
  | Some record =>
      let status := Run_Status record in
      if isTerminalRunStatus status then (None, s, b)
      else if negb (isCancelableRunStatus status) then
        (Some ("run " +:+ Quote runID +:+ " cannot execute from status " +:+ Quote status), s, b)
      else
        let s := ops_apply (ex_before_check env) s in
        if IsRunCancelRequested s runID then
          let rep := canceledReport (clk_now c) runID (Scenario_Name (Run_Scenario record))
                       "run canceled before worker execution" in
          let b := uploadReport e runID rep b in
          (None, CancelRun c runID rep (ops_apply (ex_before_start env) s), b)
        else
          let s := ops_apply (ex_before_start env) s in
          let s := if String.eqb status RunQueued then MarkRunStarted c runID s else s in
          let s := ops_apply (ex_before_reread env) s in
          match GetRun s runID with
          | Some started =>
              if String.eqb (Run_Status started) RunRunning
              then finish_execution e env runID (Run_Scenario record) s b
              else (None, s, b)
          | None => (None, s, b)
          end
  end.
End Executor.

(** ** The life of the run under interference *)
Section Interference.
Context `{RL : RunStoreLaws St}.

(** The calls on a run that leave its status alone: logging, and requesting
    its cancellation. *)
Definition quiet_op (o : run_op) : bool :=
  match o with OpEvent _ | OpRequestCancel => true | _ => false end.
Definition quiet (id : string) (l : list call) : Prop :=
  Forall (λ '(o, _, id'), same_id id' id = true → quiet_op o = true) l.
(** One of the calls requests the cancellation of the run. *)
Definition requests_cancel (id : string) (l : list call) : bool :=
  existsb (λ '(o, _, id'), same_id id' id &&
             match o with
             | OpRequestCancel => true
             | OpEvent e => storable o && is_cancel_request e
             | _ => false
             end) l.

Definition started (l : life) : Prop :=
  ∃ st, life_status l = Some st ∧ (st = RunRunning ∨ isTerminalRunStatus st = true).

Lemma started_step l o : started l → started (life_step l o).
Proof.
  intros (st & Hst & Hor).
  assert (∀ st', st' = RunRunning ∨ isTerminalRunStatus st' = true →
                 started (with_status st' l)) as Hw.
  { intros st' Hst'. unfold with_status. destruct (live l); [by exists st'|by exists st]. }
  unfold life_step. destruct (storable o); [|by exists st].
  destruct o; simpl; try (apply Hw; by auto); try (by exists st).
  - apply Hw. right. unfold verdict_status. by case_match.
  - case_match; by exists st.
  - rewrite Hst. by exists st.
Qed.

Lemma life_of_ops l (s : St) id P :
  (∀ lf o, P lf → P (life_step lf o)) → P (life_of s id) → P (life_of (ops_apply l s) id).
Proof.
  intros Hstep H0. rewrite ops_life. revert H0. generalize (life_of s id).
  match goal with |- context [fold_left _ ?l _] => generalize l end. intros ops.
  induction ops; simpl; auto.
Qed.

Lemma started_ops l (s : St) id : started (life_of s id) → started (life_of (ops_apply l s) id).
Proof. apply life_of_ops, started_step. Qed.

Lemma status_of_life (s : St) id st :
  life_status (life_of s id) = Some st ↔ ∃ r, GetRun s id = Some r ∧ Run_Status r = st.
Proof. rewrite life_of_status, fmap_Some. naive_solver. Qed.

Lemma live_of_status lf st :
  life_status lf = Some st → live lf = negb (isTerminalRunStatus st).
Proof. unfold live. by intros ->. Qed.

(** The three final writes leave the run terminal, whoever wrote before. *)
Definition final_op (o : run_op) : option RunStatus :=
  match o with
  | OpComplete rep => Some (verdict_status rep)
  | OpCancel _ => Some RunCanceled
  | OpError _ => Some RunErrored
  | _ => None
  end.
Lemma final_op_step lf o st :
  storable o = true → final_op o = Some st → life_step lf o = with_status st lf.
Proof. intros Hs. unfold life_step. rewrite Hs. destruct o; simpl; by intros [= <-]. Qed.
Lemma final_op_terminal o st : final_op o = Some st → isTerminalRunStatus st = true.
Proof. destruct o; intros [= <-]; try done. unfold verdict_status. by case_match. Qed.

Definition ended (s : St) (id : string) : Prop :=
  ∃ r, GetRun s id = Some r ∧ isTerminalRunStatus (Run_Status r) = true.

Lemma final_op_ends o c id (s : St) r :
  storable o = true → is_Some (final_op o) → GetRun s id = Some r → ended (run_op_apply o c id s) id.
Proof.
  intros Hs [st Ho] Hr. pose proof (op_life s o c id) as Hl.
  rewrite (final_op_step _ _ _ Hs Ho), (life_of_some _ _ _ Hr) in Hl.
  unfold with_status, live in Hl. cbn [life_status life_cancel] in Hl.
  assert (∃ st', life_status (life_of (run_op_apply o c id s) id) = Some st'
                 ∧ isTerminalRunStatus st' = true) as (st' & Hst & Ht).
  { rewrite Hl. destruct (isTerminalRunStatus (Run_Status r)) eqn:Ht; cbn [negb life_status];
      eexists; (split; [done|]); [done|by eapply final_op_terminal]. }
  apply status_of_life in Hst as (r' & Hr' & <-). by exists r'.
Qed.

Lemma exists_ops l (s : St) id r :
  GetRun s id = Some r → ∃ r', GetRun (ops_apply l s) id = Some r' ∧ Run_Scenario r' = Run_Scenario r.
Proof. apply ops_scenario. Qed.

Lemma final_op_ends_ops o c id l (s : St) r :
  storable o = true → is_Some (final_op o) → GetRun s id = Some r →
  ended (run_op_apply o c id (ops_apply l s)) id.
Proof.
  intros Hs Ho Hr. destruct (exists_ops l s id r Hr) as (r' & Hr' & _).
  by eapply final_op_ends.
Qed.

(** Quiet calls keep the status and record exactly the requests. *)
Lemma quiet_step o (lf : life) st :
  quiet_op o = true → life_status lf = Some st → isCancelableRunStatus st = true →
  life_step lf o
  = Build_life (Some st) (life_cancel lf || match o with
                                            | OpRequestCancel => true
                                            | OpEvent e => storable o && is_cancel_request e
                                            | _ => false
                                            end).
Proof.
  destruct lf as [os b]. simpl. intros Ho -> Hc. unfold life_step.
  destruct o; try done; cbn [life_write life_status life_cancel from_option].
  - rewrite (storable_bare OpRequestCancel), Hc. by rewrite orb_true_r.
  - destruct (storable (OpEvent e)); [done|]. by rewrite orb_false_r.
Qed.

Lemma quiet_life' id l (s : St) st b :
  quiet id l → life_of s id = Build_life (Some st) b → isCancelableRunStatus st = true →
  life_of (ops_apply l s) id = Build_life (Some st) (b || requests_cancel id l).
Proof.
  revert s b. induction l as [|[[o c] id'] l IH]; intros s b Hq Hl Hc.
  - cbn [requests_cancel existsb]. by rewrite orb_false_r.
  - apply Forall_cons in Hq as [Ho Hq].
    change (ops_apply ((o, c, id') :: l) s) with (ops_apply l (run_op_apply o c id' s)).
    cbn [requests_cancel existsb].
    destruct (same_id id' id) eqn:Hs; cbn [andb orb].
    + erewrite IH; [|done| |done].
      2:{ rewrite <-(life_of_same _ _ _ Hs), op_life, (life_of_same _ _ _ Hs), Hl.
          by rewrite (quiet_step o (Build_life _ b) st (Ho eq_refl) eq_refl Hc). }
      by rewrite orb_assoc.
    + rewrite same_id_sym in Hs. by rewrite (IH _ b); rewrite ?run_op_life_other.
Qed.

Lemma cancel_of_life (s : St) id st b :
  life_of s id = Build_life (Some st) b → IsRunCancelRequested s id = b.
Proof. unfold life_of. destruct (GetRun s id); by intros [= _ <-]. Qed.

Lemma known_of_life (s : St) id st b :
  life_of s id = Build_life (Some st) b → ∃ r, GetRun s id = Some r ∧ Run_Status r = st.
Proof. intros Hl. apply status_of_life. by rewrite Hl. Qed.

(** A poll that saw the request is confirmed by the executor's own check. *)
Lemma monitor_sees_confirmed polls l (s : St) id r :
  GetRun s id = Some r →
  monitor_sees polls l s id = true → IsRunCancelRequested (ops_apply l s) id = true.
Proof.
  intros Hr. unfold monitor_sees. rewrite existsb_true. intros (k & _ & Hk).
  rewrite <-(take_drop k l). unfold ops_apply. rewrite fold_left_app.
  destruct (ops_scenario (take k l) s id r Hr) as (r' & Hr' & _).
  by eapply ops_cancel_monotone.
Qed.
Lemma monitor_check polls l (s : St) id r :
  GetRun s id = Some r →
  monitor_sees polls l s id || IsRunCancelRequested (ops_apply l s) id
  = IsRunCancelRequested (ops_apply l s) id.
Proof.
  intros Hr. destruct (monitor_sees polls l s id) eqn:E; [|done].
  by rewrite (monitor_sees_confirmed _ _ _ _ _ Hr E).
Qed.
End Interference.

(** ** What an execution does to the store is a sequence of calls *)
Section Calls.
Context `{JE : JsonErrors} `{UT : UnicodeTables} `{RJ : EncodeErrors} `{RS : RunStore St}
  `{BS : BlobStore B}.

Definition by_calls (s s' : St) : Prop := ∃ l, s' = ops_apply l s.
Lemma by_calls_refl s : by_calls s s.
Proof. by exists []. Qed.
Lemma by_calls_ops l s s' : by_calls s s' → by_calls s (ops_apply l s').
Proof. intros [l' ->]. exists (l' ++ l). unfold ops_apply. by rewrite fold_left_app. Qed.
Lemma by_calls_trans s s1 s2 : by_calls s s1 → by_calls s1 s2 → by_calls s s2.
Proof. intros H [l ->]. by apply by_calls_ops. Qed.
Lemma by_calls_op o c id s s' : by_calls s s' → by_calls s (run_op_apply o c id s').
Proof. apply (by_calls_ops [(o, c, id)]). Qed.

Lemma finish_execution_calls e env id sc (s0 s : St) b :
  by_calls s0 s → by_calls s0 (snd (fst (finish_execution e env id sc s b))).
Proof.
  intros Hs. unfold finish_execution. destruct (ex_outcome env) as [rep err].
  assert (H : by_calls s0 (ops_apply (ex_before_finish env) (ops_apply (ex_during env) s)))
    by by apply by_calls_ops, by_calls_ops.
  destruct (_ || _); [|destruct err]; cbn [fst snd];
    [by apply (by_calls_op (OpCancel _))|by apply (by_calls_op (OpError _))
    |by apply (by_calls_op (OpComplete _))].
Qed.
Lemma Execute_calls e env id (s : St) b : by_calls s (snd (fst (Execute e env id s b))).
Proof.
  unfold Execute. destruct (GetRun s id) as [r|]; [|apply by_calls_refl].
  destruct (isTerminalRunStatus (Run_Status r)); [apply by_calls_refl|].
  destruct (negb _); [apply by_calls_refl|].
  assert (H1 : by_calls s (ops_apply (ex_before_start env) (ops_apply (ex_before_check env) s)))
    by apply by_calls_ops, by_calls_ops, by_calls_refl.
  destruct (IsRunCancelRequested _ id).
  { by apply (by_calls_op (OpCancel _)). }
  assert (H2 : by_calls s (ops_apply (ex_before_reread env)
    (if String.eqb (Run_Status r) RunQueued
     then MarkRunStarted (ex_clock env) id
            (ops_apply (ex_before_start env) (ops_apply (ex_before_check env) s))
     else ops_apply (ex_before_start env) (ops_apply (ex_before_check env) s)))).
  { apply by_calls_ops. destruct (String.eqb _ _); [by apply (by_calls_op OpStart)|done]. }
  destruct (GetRun _ id) as [r'|]; [|done].
  destruct (String.eqb (Run_Status r') RunRunning); [|done].
  by apply finish_execution_calls.
Qed.
End Calls.

(** ** Properties *)
Section Properties.
Context `{JE : JsonErrors} `{UT : UnicodeTables} `{RJ : EncodeErrors} `{RL : RunStoreLaws St}
  `{BL : BlobLaws B}.

(** The store can represent the reports that [Execute] may write. *)
Record exec_storable (id name : string) (env : ExecEnv) : Prop := {
  stores_verdict : storable (OpComplete (fst (ex_outcome env))) = true;
  stores_canceled :
    storable (OpCancel (cancel_report (clk_now (ex_clock env)) id name (ex_outcome env))) = true;
  stores_early :
    storable (OpCancel (canceledReport (clk_now (ex_clock env)) id name
                          "run canceled before worker execution")) = true;
  stores_error m : snd (ex_outcome env) = Some m → storable (OpError m) = true;
}.

Lemma finish_execution_ends e env id sc (s : St) b r :
  exec_storable id (Scenario_Name sc) env →
  GetRun s id = Some r → ended (snd (fst (finish_execution e env id sc s b))) id.
Proof.
  intros Hst Hr. destruct (exists_ops (ex_during env) s id r Hr) as (r1 & Hr1 & _).
  unfold finish_execution. pose proof (stores_verdict _ _ _ Hst) as Hv.
  pose proof (stores_canceled _ _ _ Hst) as Hc. pose proof (stores_error _ _ _ Hst) as He.
  destruct (ex_outcome env) as [rep err].
  destruct (_ || _); [|destruct err]; cbn [fst snd] in *;
    [eapply (final_op_ends_ops (OpCancel _))|eapply (final_op_ends_ops (OpError _))
    |eapply (final_op_ends_ops (OpComplete _))]; eauto; try by eexists.
Qed.

Lemma Execute_ends_spec e env id (s : St) b r :
  exec_storable id (Scenario_Name (Run_Scenario r)) env →
  GetRun s id = Some r →
  isTerminalRunStatus (Run_Status r) || isCancelableRunStatus (Run_Status r) = true →
  ended (snd (fst (Execute e env id s b))) id.
Proof.
  intros Hsto Hr Hknown. unfold Execute. rewrite Hr.
  destruct (isTerminalRunStatus (Run_Status r)) eqn:Ht; [by exists r|].
  simpl in Hknown. rewrite Hknown. simpl.
  set (s1 := ops_apply (ex_before_check env) s).
  destruct (exists_ops (ex_before_check env) s id r Hr) as (r1 & Hr1 & _). fold s1 in Hr1.
  destruct (IsRunCancelRequested s1 id); simpl.
  { eapply (final_op_ends_ops (OpCancel _)); [apply Hsto|by eexists|exact Hr1]. }
  set (s2 := ops_apply (ex_before_start env) s1).
  destruct (exists_ops (ex_before_start env) s1 id r1 Hr1) as (r2 & Hr2 & _). fold s2 in Hr2.
  assert (started (life_of (if String.eqb (Run_Status r) RunQueued
                            then MarkRunStarted (ex_clock env) id s2 else s2) id)) as Hst.
  { destruct (String.eqb_spec (Run_Status r) RunQueued) as [Hq|Hq].
    - pose proof (op_life s2 OpStart (ex_clock env) id) as Hl. cbn [run_op_apply] in Hl.
      rewrite Hl, (life_of_some _ _ _ Hr2). unfold life_step. rewrite (storable_bare OpStart).
      cbn [life_write]. unfold with_status, live. cbn [life_status].
      destruct (isTerminalRunStatus (Run_Status r2)) eqn:Ht2; eexists; simpl; eauto.
    - apply started_ops, started_ops. exists (Run_Status r). rewrite (life_of_some _ _ _ Hr).
      split; [done|]. left. unfold isCancelableRunStatus in Hknown.
      apply orb_true_iff in Hknown as [Hk|Hk]; apply String.eqb_eq in Hk; [done|exact Hk]. }
  apply (started_ops (ex_before_reread env)) in Hst. destruct Hst as (st & Hst & Hor).
  apply status_of_life in Hst as (r3 & Hr3 & <-). rewrite Hr3.
  destruct (String.eqb_spec (Run_Status r3) RunRunning) as [Hrun|Hrun]; simpl.
  - by eapply finish_execution_ends.
  - destruct Hor as [Hor|Hor]; [done|]. by exists r3.
Qed.

(** What the store keeps of a report. *)
Context {kept : string → Report → RunRecord → Prop} {RK : RunStoreKeeps St kept}.

(** What [Execute] does when the other processes only log events and request
    cancellations. *)
Record exec_quiet (id : string) (env : ExecEnv) : Prop := {
  quiet_check : quiet id (ex_before_check env);
  quiet_start : quiet id (ex_before_start env);
  quiet_reread : quiet id (ex_before_reread env);
  quiet_during : quiet id (ex_during env);
  quiet_finish : quiet id (ex_before_finish env);
}.
Definition requested_early (id : string) (env : ExecEnv) (s : St) : bool :=
  IsRunCancelRequested s id || requests_cancel id (ex_before_check env).
Definition requested_during (id : string) (env : ExecEnv) : bool :=
  requests_cancel id (ex_before_start env) || requests_cancel id (ex_before_reread env)
  || requests_cancel id (ex_during env).

Definition ends_canceled (rep : Report) (r' : RunRecord) : Prop :=
  Run_Status r' = RunCanceled ∧ kept StatusCanceled rep r'.
Definition ends_completed (rep : Report) (r' : RunRecord) : Prop :=
  Run_Status r' = verdict_status rep ∧ kept (Report_Status rep) rep r'.
Definition ends_errored (m : string) (r' : RunRecord) : Prop :=
  Run_Status r' = RunErrored ∧ Run_Error r' = m.

Definition ExecOutcome (id : string) (env : ExecEnv) (name : string) (early during : bool)
    (err : error) (r' : RunRecord) : Prop :=
  let t := clk_now (ex_clock env) in
  if early then
    err = None ∧ ends_canceled (canceledReport t id name "run canceled before worker execution") r'
  else if during then err = None ∧ ends_canceled (cancel_report t id name (ex_outcome env)) r'
  else match ex_outcome env with
       | (_, Some m) => err = Some m ∧ ends_errored m r'
       | (rep, None) => err = None ∧ ends_completed rep r'
       end.

Lemma final_op_status o c id (s : St) st b st' :
  life_of s id = Build_life (Some st) b → isCancelableRunStatus st = true →
  storable o = true → final_op o = Some st' →
  ∃ r r', GetRun s id = Some r ∧ isTerminalRunStatus (Run_Status r) = false
          ∧ GetRun (run_op_apply o c id s) id = Some r' ∧ Run_Status r' = st'.
Proof.
  intros Hl Hc%cancelable_not_terminal Hsto Ho.
  destruct (known_of_life _ _ _ _ Hl) as (r & Hr & Hst).
  pose proof (op_life s o c id) as Hop. rewrite Hl, (final_op_step _ _ _ Hsto Ho) in Hop.
  unfold with_status, live in Hop. cbn [life_status] in Hop. rewrite Hc in Hop. simpl in Hop.
  destruct (known_of_life _ _ _ _ Hop) as (r' & Hr' & Hst'). exists r, r'. by rewrite Hst.
Qed.

Lemma CancelRun_outcome c id (s : St) st b rep :
  life_of s id = Build_life (Some st) b → isCancelableRunStatus st = true →
  storable (OpCancel rep) = true →
  ∃ r', GetRun (CancelRun c id rep s) id = Some r' ∧ ends_canceled rep r'.
Proof.
  intros Hl Hc Hsto.
  destruct (final_op_status (OpCancel rep) c id s st b RunCanceled Hl Hc Hsto eq_refl)
    as (r & r' & Hr & Ht & Hr' & Hst').
  exists r'. split; [done|]. split; [done|]. exact (keep_cancel _ _ _ _ _ _ Hr Ht Hsto Hr').
Qed.
Lemma CompleteRun_outcome c id (s : St) st b rep :
  life_of s id = Build_life (Some st) b → isCancelableRunStatus st = true →
  storable (OpComplete rep) = true →
  ∃ r', GetRun (CompleteRun c id rep s) id = Some r' ∧ ends_completed rep r'.
Proof.
  intros Hl Hc Hsto. destruct (final_op_status (OpComplete rep) c id s st b _ Hl Hc Hsto eq_refl)
    as (r & r' & Hr & Ht & Hr' & Hst').
  exists r'. split; [done|]. split; [done|]. exact (keep_complete _ _ _ _ _ _ Hr Ht Hsto Hr').
Qed.
Lemma ErrorRun_outcome c id (s : St) st b m :
  life_of s id = Build_life (Some st) b → isCancelableRunStatus st = true →
  storable (OpError m) = true →
  ∃ r', GetRun (ErrorRun c id m s) id = Some r' ∧ ends_errored m r'.
Proof.
  intros Hl Hc Hsto.
  destruct (final_op_status (OpError m) c id s st b _ Hl Hc Hsto eq_refl)
    as (r & r' & Hr & Ht & Hr' & Hst').
  pose proof (op_error s c id m r Hr Ht Hsto) as Hrep. simpl in Hr'. rewrite Hr' in Hrep.
  simpl in Hrep. injection Hrep as Hrep. by exists r'.
Qed.

Lemma finish_execution_outcome e env id sc (s : St) b cb during :
  exec_storable id (Scenario_Name sc) env →
  exec_quiet id env → life_of s id = Build_life (Some RunRunning) cb →
  cb || requests_cancel id (ex_during env) = during →
  ∃ r', GetRun (snd (fst (finish_execution e env id sc s b))) id = Some r'
        ∧ ExecOutcome id env (Scenario_Name sc) false during
            (fst (fst (finish_execution e env id sc s b))) r'.
Proof.
  intros [Hs1 Hs2 _ Hs3] Hq Hl <-. unfold finish_execution, ExecOutcome.
  pose proof (quiet_life' id _ s _ _ (quiet_during _ _ Hq) Hl eq_refl) as H1.
  destruct (ex_outcome env) as [rep err] eqn:Eo.
  destruct (known_of_life _ _ _ _ Hl) as (r & Hr & _).
  rewrite (monitor_check _ _ _ _ _ Hr), (cancel_of_life _ _ _ _ H1).
  pose proof (quiet_life' id _ _ _ _ (quiet_finish _ _ Hq) H1 eq_refl) as H2.
  destruct (_ || _); [|destruct err]; cbn [fst snd] in *.
  - destruct (CancelRun_outcome (ex_clock env) id _ _ _ _ H2 eq_refl Hs2) as (r' & ? & ?). eauto.
  - edestruct (ErrorRun_outcome (ex_clock env) id) as (r' & ? & ?); [exact H2|done|by apply Hs3|]. eauto.
  - destruct (CompleteRun_outcome (ex_clock env) id _ _ _ _ H2 eq_refl Hs1) as (r' & ? & ?). eauto.
Qed.

(** Without an early request, quiet calls let [Execute] start the run. *)
Lemma Execute_reaches_runner e env id (s : St) b r :
  exec_quiet id env → GetRun s id = Some r → isCancelableRunStatus (Run_Status r) = true →
  requested_early id env s = false →
  ∃ s', Execute e env id s b = finish_execution e env id (Run_Scenario r) s' b
        ∧ life_of s' id = Build_life (Some RunRunning)
            (requests_cancel id (ex_before_start env) || requests_cancel id (ex_before_reread env)).
Proof.
  intros Hq Hr Hc He. unfold Execute.
  rewrite Hr, Hc, (cancelable_not_terminal _ Hc). cbn [negb].
  assert (life_of s id = Build_life (Some (Run_Status r)) (IsRunCancelRequested s id)) as Hl
    by (unfold life_of; by rewrite Hr).
  apply (quiet_life' id _ _ _ _ (quiet_check _ _ Hq)) in Hl; [|done].
  fold (requested_early id env s) in Hl. rewrite He in Hl.
  rewrite (cancel_of_life _ _ _ _ Hl).
  pose proof (quiet_life' id _ _ _ _ (quiet_start _ _ Hq) Hl Hc) as H2.
  set (s2 := ops_apply (ex_before_start env) _) in *.
  assert (life_of (if String.eqb (Run_Status r) RunQueued
                   then MarkRunStarted (ex_clock env) id s2 else s2) id
          = Build_life (Some RunRunning) (requests_cancel id (ex_before_start env))) as H3.
  { destruct (String.eqb_spec (Run_Status r) RunQueued) as [Hs|Hs].
    - pose proof (op_life s2 OpStart (ex_clock env) id) as Ho. cbn [run_op_apply] in Ho.
      rewrite Ho, H2. unfold life_step. rewrite (storable_bare OpStart).
      cbn [life_write]. unfold with_status, live. cbn [life_status].
      by rewrite (cancelable_not_terminal _ Hc).
    - rewrite H2. do 2 f_equal. unfold isCancelableRunStatus in Hc.
      apply orb_true_iff in Hc as [Hk|Hk]; apply String.eqb_eq in Hk; done. }
  apply (quiet_life' id _ _ _ _ (quiet_reread _ _ Hq)) in H3; [|done].
  set (s3 := ops_apply (ex_before_reread env) _) in *.
  assert (life_status (life_of s3 id) = Some RunRunning) as Hs by (by rewrite H3).
  apply status_of_life in Hs as (r3 & -> & ->). exists s3. by split.
Qed.

Lemma Execute_outcome_spec e env id (s : St) b r :
  exec_storable id (Scenario_Name (Run_Scenario r)) env →
  exec_quiet id env → GetRun s id = Some r → isCancelableRunStatus (Run_Status r) = true →
  ∃ r', GetRun (snd (fst (Execute e env id s b))) id = Some r'
        ∧ ExecOutcome id env (Scenario_Name (Run_Scenario r)) (requested_early id env s)
            (requested_during id env) (fst (fst (Execute e env id s b))) r'.
Proof.
  intros Hsto Hq Hr Hc. destruct (requested_early id env s) eqn:He.
  - unfold Execute. rewrite Hr, Hc, (cancelable_not_terminal _ Hc). cbn [negb].
    assert (life_of s id = Build_life (Some (Run_Status r)) (IsRunCancelRequested s id)) as Hl
      by (unfold life_of; by rewrite Hr).
    apply (quiet_life' id _ _ _ _ (quiet_check _ _ Hq)) in Hl; [|done].
    fold (requested_early id env s) in Hl. rewrite (cancel_of_life _ _ _ _ Hl).
    rewrite He. cbn [fst snd].
    pose proof (quiet_life' id _ _ _ _ (quiet_start _ _ Hq) Hl Hc) as H2.
    edestruct (CancelRun_outcome (ex_clock env) id) as (r' & ? & ?);
      [exact H2|done|apply (stores_early _ _ _ Hsto)|].
    eexists. split; [done|]. by split.
  - destruct (Execute_reaches_runner e env id s b r Hq Hr Hc He) as (s' & -> & Hl).
    by apply (finish_execution_outcome e env id (Run_Scenario r) _ b _ _ Hsto Hq Hl).
Qed.

Lemma Execute_upload_spec e env id (s : St) b r rep raw :
  exec_quiet id env → GetRun s id = Some r → isCancelableRunStatus (Run_Status r) = true →
  requested_early id env s = false → requested_during id env = true →
  ex_outcome env = (rep, None) → Exec_BlobStore e = true →
  report_json (with_failures rep (appendIfMissing (Report_Failures rep) "run canceled by user"))
    = Ok raw →
  fst (Put (report_key id) raw "application/json" b) = None →
  blobs (snd (Execute e env id s b)) !! report_key id = Some raw.
Proof.
  intros Hq Hr Hc He Hd Ho Hb Hraw Hput.
  destruct (Execute_reaches_runner e env id s b r Hq Hr Hc He) as (s' & -> & Hl).
  destruct (known_of_life _ _ _ _ Hl) as (r1 & Hr1 & _).
  unfold finish_execution. rewrite Ho, (monitor_check _ _ _ _ _ Hr1).
  pose proof (quiet_life' id _ _ _ _ (quiet_during _ _ Hq) Hl eq_refl) as H4.
  rewrite (cancel_of_life _ _ _ _ H4).
  unfold requested_during in Hd. rewrite Hd. cbn [snd cancel_report].
  unfold uploadReport. rewrite Hb, Hraw. cbn [negb].
  by rewrite blobs_put, lookup_insert_eq.
Qed.

Lemma Execute_keeps_others e env id (s : St) b key :
  key ≠ report_key id → blobs (snd (Execute e env id s b)) !! key = blobs b !! key.
Proof.
  intros Hk. assert (∀ rep, blobs (uploadReport e id rep b) !! key = blobs b !! key) as Hu.
  { intros rep. unfold uploadReport. destruct (Exec_BlobStore e); simpl; [|done].
    destruct (report_json rep); [by apply blobs_put_other|done]. }
  unfold Execute, finish_execution. destruct (ex_outcome env) as [rep [m|]];
    repeat case_match; simplify_eq; simpl; by rewrite ?Hu.
Qed.

(** Execute always ends a known run, in any store that keeps the contract
    and can represent the reports it may be handed: whatever the other
    processes do between and during its calls, and whatever the runner returns,
    after Execute a run that had one of the program's statuses has a terminal
    one. *)
Theorem Execute_ends_run e env id (s : St) b r :
  exec_storable id (Scenario_Name (Run_Scenario r)) env →
  GetRun s id = Some r →
  isTerminalRunStatus (Run_Status r) || isCancelableRunStatus (Run_Status r) = true →
  ended (snd (fst (Execute e env id s b))) id.
Proof. intros Hs. by apply Execute_ends_spec. Qed.


(** Executing a finished run again does nothing: no write to the store,
    no upload, a nil error.  In particular a retried worker task of a run whose
    first attempt failed does not run it again. *)
Theorem Execute_finished_noop e env env' id (s : St) b r b' :
  exec_storable id (Scenario_Name (Run_Scenario r)) env →
  GetRun s id = Some r →
  isTerminalRunStatus (Run_Status r) || isCancelableRunStatus (Run_Status r) = true →
  let s' := snd (fst (Execute e env id s b)) in
  Execute e env' id s' b' = (None, s', b').
Proof.
  intros Hsto Hr Hk. destruct (Execute_ends_spec e env id s b r Hsto Hr Hk) as (r' & Hr' & Ht).
  intros s'. change (GetRun s' id = Some r') in Hr'. clearbody s'.
  unfold Execute. by rewrite Hr', Ht.
Qed.

(** The report uploaded for a run canceled while running keeps the
    runner's status: the blob holds the JSON of a report whose status is the
    runner's verdict, while the store's record and report say canceled. *)
Theorem Execute_canceled_upload e env id (s : St) b r rep raw :
  exec_storable id (Scenario_Name (Run_Scenario r)) env →
  exec_quiet id env → GetRun s id = Some r → isCancelableRunStatus (Run_Status r) = true →
  requested_early id env s = false → requested_during id env = true →
  ex_outcome env = (rep, None) → Exec_BlobStore e = true →
  let uploaded := with_failures rep
                    (appendIfMissing (Report_Failures rep) "run canceled by user") in
  report_json uploaded = Ok raw → fst (Put (report_key id) raw "application/json" b) = None →
  Report_Status uploaded = Report_Status rep
  ∧ blobs (snd (Execute e env id s b)) !! report_key id = Some raw
  ∧ ∃ r', GetRun (snd (fst (Execute e env id s b))) id = Some r'
          ∧ ends_canceled uploaded r'.
Proof.
  intros Hsto Hq Hr Hc He Hd Ho Hb uploaded Hraw Hput.
  split_and!; [done|by eapply Execute_upload_spec|].
  destruct (Execute_outcome_spec e env id s b r Hsto Hq Hr Hc) as (r' & Hr' & Hout).
  rewrite He, Hd in Hout. destruct Hout as (_ & Hout). unfold cancel_report in Hout.
  rewrite Ho in Hout. eauto.
Qed.
End Properties.

(** ** Examples *)
Definition sample_json : EncodeErrors := {| encode_error type := type |}.
Definition sample_errors : JsonErrors := {| json_error s := s |}.
Definition sample_env (during : list call) (outcome : Report * error) : ExecEnv :=
  Build_ExecEnv [] [] [] during [1%nat] outcome [] (sample_clock 7).
Definition queued_store : Memory :=
  mem_after [MCreateRun (sample_clock 1) "" "" zero_Scenario []].
Definition sample_executor : Executor := Build_Executor true 0 0.
Definition cancel_call : call := (OpRequestCancel, sample_clock 5, "run_1").

#[local] Existing Instances sample_json sample_errors ascii_tables.

Lemma Execute_ends_run_witness :
  ended (snd (fst (Execute sample_executor (sample_env [] (sample_report "", Some "boom"))
                     "run_1" queued_store NewMemoryStore))) "run_1".
Proof. eapply Execute_ends_run; [by split|vm_compute; reflexivity|reflexivity]. Defined.

Lemma sample_quiet during outcome :
  quiet "run_1" during → exec_quiet "run_1" (sample_env during outcome).
Proof. intros H. split; simpl; (done || constructor). Qed.


Lemma Execute_finished_noop_witness :
  let s' := snd (fst (Execute sample_executor (sample_env [] (sample_report "", Some "boom"))
                        "run_1" queued_store NewMemoryStore)) in
  Execute sample_executor (sample_env [] (sample_report StatusPassed, None)) "run_1" s'
    NewMemoryStore = (None, s', NewMemoryStore).
Proof. eapply Execute_finished_noop; [by split|vm_compute; reflexivity|reflexivity]. Defined.

(** What is uploaded for [sample_report] after a cancellation. *)
Definition sample_raw (status : string) : string :=
  match report_json (with_failures (sample_report status) ["run canceled by user"]) with
  | Ok raw => raw
  | Err _ => ""
  end.
Lemma Execute_canceled_upload_witness :
  blobs (snd (Execute sample_executor (sample_env [cancel_call] (sample_report StatusPassed, None))
                "run_1" queued_store NewMemoryStore)) !! report_key "run_1" = Some (sample_raw StatusPassed).
Proof.
  edestruct (Execute_canceled_upload sample_executor
    (sample_env [cancel_call] (sample_report StatusPassed, None)) "run_1" queued_store
    NewMemoryStore) as (_ & Hget & _); [..|exact Hget].
  - by split.
  - apply sample_quiet. repeat constructor.
  - vm_compute. reflexivity.
  - reflexivity.
  - reflexivity.
  - reflexivity.
  - reflexivity.
  - reflexivity.
  - reflexivity.
  - reflexivity.
Defined.
