(* ===== verification/Worker.v ===== *)
(** * The run queue and the worker (src/apps/api/internal/runqueue/asynq.go,
    src/apps/api/internal/worker/worker.go)

    A task is its type and its JSON payload.  The worker's handler decodes the
    payload, records an attempt event and calls the executor; its error handler
    records what asynq does with a failed task.  asynq itself (delivery,
    retries) is outside: [HandleError] is given the error, the context values
    and so on as asynq passes them. *)

From S2P Require Export RunExec.
From Stdlib Require Import Ascii.

Open Scope Z_scope.

(** ** runqueue *)
Definition QueueRuns : string := "runs".
Definition TypeRunExecute : string := "runs.execute".

Record Task := { Task_Type : string; Task_Payload : string }.

(** The options [NewAsynqEnqueuer] gives to every task: queue, retries, timeout. *)
Definition enqueue_options (timeout : Z) : string * Z * Z :=
  (QueueRuns, 3, if timeout <=? 0 then 5 * Minute else timeout).

Definition payload_open : string :=
  String "{"%char (quote_char +:+ "run_id" +:+ quote_char +:+ ":").
Definition NewRunTask (runID : string) : Task :=
  Build_Task TypeRunExecute (payload_open +:+ json_string runID +:+ "}").

(** [EnqueueRun]: the client hands the task to the queue, or says why not; a
    payload of one string can always be encoded. *)
Definition EnqueueRun (client : error) (runID : string) (queue : list Task) : error * list Task :=
  match client with
  | Some err => (Some err, queue)
  | None => (None, queue ++ [NewRunTask runID])
  end.

(** The field of [RunPayload] that a key names: encoding/json compares names
    under case folding; no non-ASCII character folds to a letter of "run_id". *)
Definition is_run_id_key (k : string) : bool :=
  is_ascii_string k && String.eqb (string_map byte_lower k) "run_id".

(** [json.Unmarshal] into [RunPayload]: unknown keys are ignored, null leaves
    the field alone, the last value wins, another kind of value is an error. *)
Definition DecodeRunPayload `{JsonErrors} (task : Task) : result string :=
  let bad := Err (json_error (Task_Payload task)) in
  match parse_json (Task_Payload task) with
  | Some JNull => Ok ""
  | Some (JObj m) =>
      fold_left (λ acc '(k, v),
        if is_run_id_key k then
          match acc, v with
          | Err e, _ => Err e
          | Ok _, JStr s => Ok s
          | Ok old, JNull => Ok old
          | Ok _, _ => bad
          end
        else acc) m (Ok "")
  | _ => bad
  end.

(** ** worker *)
Record TaskInfo := {
  TaskID : string;
  Queue : string;
  RetryCount : Z;
  MaxRetry : Z;
  Known : bool;
}.

(** What [asynq.GetTaskID] and its siblings find in the context. *)
Record AsynqContext := {
  ctx_TaskID : option string;
  ctx_Queue : option string;
  ctx_RetryCount : option Z;
  ctx_MaxRetry : option Z;
}.
Definition taskInfoFromAsynq (ctx : AsynqContext) : TaskInfo :=
  let id := default "" (ctx_TaskID ctx) in
  let queue := default "" (ctx_Queue ctx) in
  match ctx_RetryCount ctx, ctx_MaxRetry ctx with
  | Some retry, Some max => Build_TaskInfo id queue retry max true
  | _, _ => Build_TaskInfo id queue 0 0 false
  end.

Record Handler := {
  Handler_Executor : Executor;
  Handler_Events : bool;                                   (* h.Events != nil *)
  Handler_TaskInfo : option (AsynqContext → TaskInfo);
}.
Definition taskInfo (h : Handler) (ctx : AsynqContext) : TaskInfo :=
  match Handler_TaskInfo h with Some f => f ctx | None => taskInfoFromAsynq ctx end.

(** The metadata [recordWorkerEvent] adds to an event's own. *)
Definition worker_metadata (info : TaskInfo) (task_type : string) (md : option (gmap string any))
  : gmap string any :=
  let md := default ∅ md in
  let md := <["task_type" := VString task_type]> md in
  let md := if String.eqb (TaskID info) "" then md
            else <["task_id" := VString (TaskID info)]> md in
  let md := if String.eqb (Queue info) "" then md
            else <["queue" := VString (Queue info)]> md in
  if Known info
  then <["max_retries" := VInt (MaxRetry info)]>
         (<["retry_count" := VInt (RetryCount info)]>
            (<["attempt" := VInt (wrap64 (RetryCount info + 1))]> md))
  else md.

Section Worker.
Context `{JE : JsonErrors} `{UT : UnicodeTables} `{RJ : EncodeErrors} `{RS : RunStore St}
  `{BS : BlobStore B}.

Definition recordWorkerEvent (h : Handler) (ctx : AsynqContext) (task : Task) (c : clock)
    (runID : string) (event : Event) (s : St) : St :=
  if negb (Handler_Events h) then s
  else
    let md := worker_metadata (taskInfo h ctx) (Task_Type task) (Event_Metadata event) in
    snd (AppendRunEvent c runID
           (new_event (Event_Level event) (Event_Type event) (Event_Message event) (Some md)) s).

Definition handleRunExecute (h : Handler) (ctx : AsynqContext) (task : Task) (c : clock)
    (env : ExecEnv) (s : St) (b : B) : error * St * B :=
  match DecodeRunPayload task with
  | Err e => (Some ("decode run task: " +:+ e), s, b)
  | Ok runID =>
      if String.eqb runID "" then (Some "run task missing run_id", s, b)
      else
        let s := recordWorkerEvent h ctx task c runID
                   (new_event LevelInfo TypeWorkerAttemptStarted "worker attempt started" None) s in
        Execute (Handler_Executor h) env runID s b
  end.

Definition error_meta (err : string) : option (gmap string any) := meta [("error", VString err)].

Definition HandleError (h : Handler) (ctx : AsynqContext) (task : Task) (c : clock)
    (err : string) (s : St) : St :=
  match DecodeRunPayload task with
  | Err _ => s
  | Ok runID =>
      if String.eqb runID "" then s
      else
        let info := taskInfo h ctx in
        let s := recordWorkerEvent h ctx task c runID
                   (new_event LevelError TypeWorkerAttemptFailed "worker attempt failed"
                      (error_meta err)) s in
        if Known info && (MaxRetry info <=? RetryCount info) then
          recordWorkerEvent h ctx task c runID
            (new_event LevelError TypeWorkerDeadLettered "worker retries exhausted"
               (error_meta err)) s
        else if Known info then
          recordWorkerEvent h ctx task c runID
            (new_event LevelWarn TypeWorkerRetryScheduled "worker retry scheduled"
               (error_meta err)) s
        else s
  end.
End Worker.

(** ** Lemmas *)
Lemma parse_members_single F depth r k body v :
  parse_string_body (S (String.length r)) r = Some (k, String ":"%char body) →
  parse_value F depth body = Some (v, "}") →
  parse_members (S F) depth (String (byte 34) r) [] = Some (JObj [(k, v)], "").
Proof.
  intros Hk Hv. cbn [parse_members].
  change (skip_space (String (byte 34) r)) with (String (byte 34) r). cbv iota.
  change (Ascii.eqb (byte 34) (byte 34)) with true. cbv iota. rewrite Hk.
  change (skip_space (String ":"%char body)) with (String ":"%char body). cbv beta iota.
  rewrite Hv. reflexivity.
Qed.

Lemma parse_run_payload runID :
  ValidString runID = true →
  parse_json (payload_open +:+ json_string runID +:+ "}")
  = Some (JObj [("run_id", JStr runID)]).
Proof.
  intros Hs. unfold parse_json.
  set (p := payload_open +:+ json_string runID +:+ "}").
  assert (∃ f, (2 * String.length p + 2 = S (S (S f)))%nat) as [f ->].
  { exists (2 * String.length p - 1)%nat. unfold p. rewrite length_append. simpl. lia. }
  assert (parse_value (S (S (S f))) 0 p = Some (JObj [("run_id", JStr runID)], "")) as ->;
    [|done].
  unfold p. pose proof (parse_json_string runID "}" f 1 Hs) as Hv.
  remember (json_string runID +:+ "}") as body eqn:Hb. clear Hb p.
  etrans; [|by apply (parse_members_single (S f) 1 ("run_id" +:+ quote_char +:+ String ":"%char body)
    "run_id" body (JStr runID))]. reflexivity.
Qed.

(** Holds of every identifier that is valid UTF-8; those the stores make are. *)
Lemma Decode_New_spec `{JsonErrors} runID :
  ValidString runID = true → DecodeRunPayload (NewRunTask runID) = Ok runID.
Proof.
  intros Hs. unfold DecodeRunPayload, NewRunTask. cbn [Task_Payload].
  by rewrite parse_run_payload.
Qed.

Section Lemmas.
Context `{JE : JsonErrors} `{UT : UnicodeTables} `{RJ : EncodeErrors} `{RL : RunStoreLaws St}
  `{BL : BlobLaws B}.

Lemma recordWorkerEvent_op h ctx task c runID event (s : St) :
  recordWorkerEvent h ctx task c runID event s = s
  ∨ ∃ md, recordWorkerEvent h ctx task c runID event s
      = run_op_apply (OpEvent (new_event (Event_Level event) (Event_Type event)
                                 (Event_Message event) md)) c runID s.
Proof. unfold recordWorkerEvent. destruct (Handler_Events h); [right; by eexists|by left]. Qed.

(** Recording leaves the run's record as it is, up to what the store's
    contract lets an append do: its status stays. *)
Lemma recordWorkerEvent_status h ctx task c runID event (s : St) id :
  life_status (life_of (recordWorkerEvent h ctx task c runID event s) id)
  = life_status (life_of s id).
Proof.
  destruct (recordWorkerEvent_op h ctx task c runID event s) as [->|[md ->]]; [done|].
  destruct (same_id id runID) eqn:Hs.
  - rewrite !(life_of_same _ _ _ Hs), op_life. unfold life_step. destruct (storable _); [|done].
    simpl. by destruct (life_status (life_of s runID)) eqn:E; simpl.
  - by rewrite run_op_life_other.
Qed.

Lemma recordWorkerEvent_run h ctx task c runID event (s : St) r :
  GetRun s runID = Some r →
  ∃ r', GetRun (recordWorkerEvent h ctx task c runID event s) runID = Some r'
        ∧ Run_Status r' = Run_Status r ∧ Run_Scenario r' = Run_Scenario r.
Proof.
  intros Hr. pose proof (recordWorkerEvent_status h ctx task c runID event s runID) as Hs.
  rewrite !life_of_status, Hr in Hs. apply fmap_Some in Hs as (r' & Hr' & Hst).
  exists r'. split_and!; [done|by symmetry|].
  destruct (recordWorkerEvent_op h ctx task c runID event s) as [Heq|[md Heq]];
    rewrite Heq in Hr'; [congruence|].
  match type of Hr' with GetRun (run_op_apply ?o _ _ _) _ = _ =>
    destruct (op_scenario s o c runID r Hr) as (r2 & Hr2 & <-) end.
  congruence.
Qed.

Lemma recordWorkerEvent_logs `{!RunStoreExact St} h ctx task c runID event (s : St) :
  Handler_Events h = true →
  ∃ e, ListRunEvents (recordWorkerEvent h ctx task c runID event s) runID
       = ListRunEvents s runID ++ [e]
       ∧ Event_Type e = Event_Type event
       ∧ Event_Metadata e
         = Some (worker_metadata (taskInfo h ctx) (Task_Type task) (Event_Metadata event)).
Proof.
  intros He. unfold recordWorkerEvent. rewrite He. simpl.
  edestruct (exact_append s c runID) as (e & Hlog & Ht & Hm). exists e.
  rewrite Hlog. by split_and!.
Qed.
End Lemmas.

(** ** One delivery of a task *)
Section Delivery.
Context `{JE : JsonErrors} `{UT : UnicodeTables} `{RJ : EncodeErrors} `{RL : RunStoreLaws St}
  `{BL : BlobLaws B}.

Lemma handleRunExecute_calls h ctx task c env (s : St) b :
  by_calls s (snd (fst (handleRunExecute h ctx task c env s b))).
Proof.
  unfold handleRunExecute. destruct (DecodeRunPayload task) as [runID|]; [|apply by_calls_refl].
  destruct (String.eqb runID ""); [apply by_calls_refl|].
  destruct (recordWorkerEvent_op h ctx task c runID
    (new_event LevelInfo TypeWorkerAttemptStarted "worker attempt started" None) s) as [->|[md ->]];
    [apply Execute_calls|].
  eapply by_calls_trans; [|apply Execute_calls]. by apply (by_calls_op (OpEvent _)), by_calls_refl.
Qed.
(** The run of the task has ended afterwards. *)
Lemma handleRunExecute_ends h ctx runID c env (s : St) b r :
  ValidString runID = true → runID ≠ "" →
  exec_storable runID (Scenario_Name (Run_Scenario r)) env →
  GetRun s runID = Some r →
  isTerminalRunStatus (Run_Status r) || isCancelableRunStatus (Run_Status r) = true →
  ended (snd (fst (handleRunExecute h ctx (NewRunTask runID) c env s b))) runID.
Proof.
  intros Ha Hne Hsto Hr Hk.
  unfold handleRunExecute. rewrite (Decode_New_spec _ Ha), (proj2 (String.eqb_neq _ _) Hne).
  destruct (recordWorkerEvent_run h ctx (NewRunTask runID) c runID
    (new_event LevelInfo TypeWorkerAttemptStarted "worker attempt started" None) s r Hr)
    as (r0 & Hr0 & Hs0 & Hn0).
  eapply Execute_ends_spec; [by rewrite Hn0|exact Hr0|by rewrite Hs0].
Qed.
End Delivery.

(** ** Properties *)
Section Properties.
Context `{JE : JsonErrors} `{UT : UnicodeTables} `{RJ : EncodeErrors} `{RL : RunStoreLaws St}
  `{BL : BlobLaws B}.

(** The payload survives the queue: decoding the task made for a run
    gives its identifier back, for every identifier that is valid UTF-8 (those the stores
    make are), whatever characters JSON escapes in it. *)
Theorem Decode_New_roundtrip runID :
  ValidString runID = true → DecodeRunPayload (NewRunTask runID) = Ok runID.
Proof. apply Decode_New_spec. Qed.

(** The types of the events [HandleError] appends. *)
Definition retry_events (info : TaskInfo) : list string :=
  TypeWorkerAttemptFailed ::
  (if Known info
   then [if MaxRetry info <=? RetryCount info then TypeWorkerDeadLettered
         else TypeWorkerRetryScheduled]
   else []).

(** The error handler logs, for a task of a run, one attempt failure, then
    "dead lettered" exactly when asynq's retry count has reached its maximum
    and "retry scheduled" exactly when it has not (nothing when asynq gives no
    counts), and it leaves the run's status alone. *)
Theorem HandleError_logs `{!RunStoreExact St} h ctx runID c err (s : St) :
  ValidString runID = true → runID ≠ "" → Handler_Events h = true →
  let s' := HandleError h ctx (NewRunTask runID) c err s in
  (∃ es, ListRunEvents s' runID = ListRunEvents s runID ++ es
         ∧ map Event_Type es = retry_events (taskInfo h ctx)
         ∧ Forall (λ e, match Event_Metadata e with
                        | Some md => md !! "error" = Some (VString err)
                        | None => False end) es)
  ∧ life_status (life_of s' runID) = life_status (life_of s runID).
Proof.
  intros Ha Hne He s'. unfold s', HandleError. rewrite (Decode_New_spec _ Ha).
  rewrite (proj2 (String.eqb_neq _ _) Hne).
  set (info := taskInfo h ctx). set (s1 := recordWorkerEvent _ _ _ _ _ _ s).
  assert (∀ t, worker_metadata info t (error_meta err) !! "error" = Some (VString err)) as Hmd.
  { intros t. unfold worker_metadata. repeat case_match; by rewrite ?lookup_insert_ne. }
  edestruct (recordWorkerEvent_logs h ctx (NewRunTask runID) c runID) as (e1 & H1 & Ht1 & Hm1);
    [done|]. fold s1 in H1.
  assert (life_status (life_of s1 runID) = life_status (life_of s runID)) as Hs1
    by apply recordWorkerEvent_status.
  unfold retry_events. destruct (Known info); cbn [andb].
  2:{ split; [|done]. exists [e1]. split_and!; [done|by simpl; rewrite Ht1|].
      repeat constructor. rewrite Hm1. apply Hmd. }
  assert (∀ lvl t m, t = TypeWorkerDeadLettered ∨ t = TypeWorkerRetryScheduled →
    let s2 := recordWorkerEvent h ctx (NewRunTask runID) c runID
                (new_event lvl t m (error_meta err)) s1 in
    (∃ es, ListRunEvents s2 runID = ListRunEvents s runID ++ es
           ∧ map Event_Type es = [TypeWorkerAttemptFailed; t]
           ∧ Forall (λ e, match Event_Metadata e with
                          | Some md => md !! "error" = Some (VString err)
                          | None => False end) es)
    ∧ life_status (life_of s2 runID) = life_status (life_of s runID)) as Hsecond.
  { intros lvl t m _ s2. split; [|unfold s2; by rewrite recordWorkerEvent_status].
    destruct (recordWorkerEvent_logs h ctx (NewRunTask runID) c runID
      (new_event lvl t m (error_meta err)) s1 He) as (e2 & H2 & Ht2 & Hm2).
    exists [e1; e2]. unfold s2. rewrite H2. unfold s1. rewrite H1, <-app_assoc.
    split_and!; [done|simpl; by rewrite Ht1, Ht2|].
    repeat constructor; [rewrite Hm1|rewrite Hm2]; apply Hmd. }
  destruct (MaxRetry info <=? RetryCount info); apply Hsecond; auto.
Qed.

End Properties.

(** ** Examples *)
Definition sample_handler : Handler := Build_Handler sample_executor true None.
Definition last_attempt : AsynqContext := Build_AsynqContext (Some "t") (Some QueueRuns) (Some 3) (Some 3).

#[local] Existing Instances sample_json sample_errors ascii_tables.

Lemma Decode_New_roundtrip_witness :
  DecodeRunPayload (NewRunTask (String (byte 34) "<run>")) = Ok (String (byte 34) "<run>").
Proof. apply Decode_New_roundtrip. reflexivity. Defined.

Lemma HandleError_logs_witness :
  ∃ es, ListRunEvents (HandleError sample_handler last_attempt (NewRunTask "run_1") (sample_clock 5)
                         "boom" queued_store) "run_1"
        = ListRunEvents queued_store "run_1" ++ es
        ∧ map Event_Type es = [TypeWorkerAttemptFailed; TypeWorkerDeadLettered].
Proof.
  destruct (HandleError_logs sample_handler last_attempt "run_1" (sample_clock 5) "boom" queued_store)
    as ((es & H1 & H2 & _) & _); [reflexivity|discriminate|reflexivity|].
  exists es. split; [exact H1|exact H2].
Defined.

