(* ===== verification/HttpApi.v ===== *)
(** * The HTTP API (src/apps/api/internal/httpapi/server.go)

    The handlers of [Server], over any store.  A handler is a function from the
    parts of the request it reads (the path values, the body) and the server's
    state to a response and a new state.  The body of a response is the Go value
    given to the JSON encoder ([Payload]).  The routing is in ApiRoutes.v.

    The in-process execution of a run ([executeRun]) and the handler that
    cancels it ([cancelRun]) are composed of atomic parts: a call on the store,
    or a critical section of [cancelMu].  What others do between two parts is an
    argument, a list of [action]s. *)

From S2P Require Export Config Guardrails RunExec.

Open Scope Z_scope.

Record targetRequest := {
  TargetReq_Name : string;
  TargetReq_BaseURL : string;
  TargetReq_Environment : string;
  TargetReq_Description : string;
  TargetReq_Headers : headers;
}.
Record createRunRequest := {
  RunReq_ScenarioID : string;
  RunReq_TargetID : string;
  RunReq_ScenarioVersionNumber : Z;
  RunReq_Scenario : option Scenario;
  RunReq_Sync : bool;
}.

(** What a body is decoded into, unknown fields refused. *)
Definition targetRequest_names : list string :=
  ["name"; "baseUrl"; "environment"; "description"; "headers"].
Definition decode_targetRequest : Decoder targetRequest := λ raws,
  ms ← struct_members true targetRequest_names raws;
  let field := field_texts targetRequest_names ms in
  name ← decode_string (field "name");
  base_url ← decode_string (field "baseUrl");
  environment ← decode_string (field "environment");
  description ← decode_string (field "description");
  hs ← decode_map decode_string (field "headers");
  Some (Build_targetRequest name base_url environment description hs).
Definition createRunRequest_names : list string :=
  ["scenario_id"; "target_id"; "scenario_version_number"; "scenario"; "sync"].
Definition decode_createRunRequest : Decoder createRunRequest := λ raws,
  ms ← struct_members true createRunRequest_names raws;
  let field := field_texts createRunRequest_names ms in
  scenario_id ← decode_string (field "scenario_id");
  target_id ← decode_string (field "target_id");
  version ← decode_int (field "scenario_version_number");
  sc ← decode_pointer (decode_Scenario true) (field "scenario");
  sync ← decode_bool (field "sync");
  Some (Build_createRunRequest scenario_id target_id version sc sync).

(** What a handler writes. *)
Inductive Payload :=
| PEmpty
| PHealth (now : Time)
| PText (text : string)                      (* not JSON: the metrics, a stored report *)
| PError (msg : string)
| PTarget (t : TargetRecord)
| PTargets (l : list TargetRecord)
| PScenario (s : ScenarioRecord)
| PScenarios (l : list ScenarioRecord)
| PVersion (v : ScenarioVersionRecord)
| PVersions (l : list ScenarioVersionRecord)
| PRun (r : RunRecord)
| PRuns (l : list RunRecord)
| PReport (rep : Report)
| PEvents (l : list Event)
| PCanceled (id : string).                   (* {"id": id, "status": "canceled"} *)

Record Response := { Resp_Status : Z; Resp_Type : string; Resp_Body : Payload }.

(** [RunRecord{}]. *)
Definition zero_RunRecord : RunRecord :=
  Build_RunRecord "" "" "" "" 0 "" zero_Scenario None "" zero_time None None.

Definition writeJSON (status : Z) (payload : Payload) : Response :=
  Build_Response status "application/json" payload.
Definition writeError (status : Z) (msg : string) : Response := writeJSON status (PError msg).

Definition StatusOK : Z := 200.
Definition StatusCreated : Z := 201.
Definition StatusAccepted : Z := 202.
Definition StatusNoContent : Z := 204.
Definition StatusBadRequest : Z := 400.
Definition StatusNotFound : Z := 404.
Definition StatusConflict : Z := 409.
Definition StatusServiceUnavailable : Z := 503.

(** ** The state of the server

    [srv_runCancels] holds the [CancelFunc] of the executions in this process,
    identified by a number; calling one cancels its context. *)
Record Server (St B : Type) := {
  srv_store : St;
  srv_blobs : option B;
  srv_runCancels : gmap string nat;
  srv_cancelRequests : gset string;
  srv_canceledCtx : gset nat;
}.
Arguments Build_Server {St B}.
Arguments srv_store {St B}.
Arguments srv_blobs {St B}.
Arguments srv_runCancels {St B}.
Arguments srv_cancelRequests {St B}.
Arguments srv_canceledCtx {St B}.

Definition NewWithQueue {St B} (st : St) (bs : option B) : Server St B :=
  Build_Server st bs ∅ ∅ ∅.

Definition set_store {St B} (st : St) (srv : Server St B) : Server St B :=
  Build_Server st (srv_blobs srv) (srv_runCancels srv) (srv_cancelRequests srv)
    (srv_canceledCtx srv).

(** ** The registry of cancellations: one critical section each *)
Definition registerRunCancel {St B} (id : string) (cancel : nat) (srv : Server St B) : Server St B :=
  Build_Server (srv_store srv) (srv_blobs srv) (<[id := cancel]> (srv_runCancels srv))
    (srv_cancelRequests srv) (srv_canceledCtx srv).

Definition requestRunCancel {St B} (id : string) (srv : Server St B) : bool * Server St B :=
  match srv_runCancels srv !! id with
  | Some cancel =>
      (true, Build_Server (srv_store srv) (srv_blobs srv) (srv_runCancels srv)
               ({[id]} ∪ srv_cancelRequests srv) ({[cancel]} ∪ srv_canceledCtx srv))
  | None => (false, srv)
  end.

Definition finishRunCancel {St B} (id : string) (srv : Server St B) : bool * Server St B :=
  (bool_decide (id ∈ srv_cancelRequests srv),
   Build_Server (srv_store srv) (srv_blobs srv) (delete id (srv_runCancels srv))
     (srv_cancelRequests srv ∖ {[id]}) (srv_canceledCtx srv)).

(** ** Pure helpers *)
Definition hasTerminalEvent (events : list Event) : bool :=
  existsb (λ e, is_terminal_type (Event_Type e)) events.

Definition mergeHeaders (targetHeaders scenarioHeaders : headers) : headers :=
  Some (default ∅ scenarioHeaders ∪ default ∅ targetHeaders).

Definition effectiveRunTimeout (cfg : Config) : Z :=
  if (0 <? MaxRunDuration (Config_Guardrails cfg))
     && (MaxRunDuration (Config_Guardrails cfg) <? RunTimeout cfg)
  then MaxRunDuration (Config_Guardrails cfg) else RunTimeout cfg.

Definition with_traffic (sc : Scenario) (t : Traffic) : Scenario :=
  Build_Scenario (Scenario_Version sc) (Scenario_Name sc) (Scenario_Description sc)
    (Scenario_Target sc) t (Scenario_Setup sc) (Scenario_Requests sc) (Scenario_Teardown sc)
    (Scenario_Thresholds sc) (Scenario_Invariants sc).
Definition with_target (sc : Scenario) (t : Target) : Scenario :=
  Build_Scenario (Scenario_Version sc) (Scenario_Name sc) (Scenario_Description sc)
    t (Scenario_Traffic sc) (Scenario_Setup sc) (Scenario_Requests sc) (Scenario_Teardown sc)
    (Scenario_Thresholds sc) (Scenario_Invariants sc).

Definition applyRunGuardrails (cfg : Config) (sc : Scenario) : Scenario :=
  let rate := MaxRequestRate (Config_Guardrails cfg) in
  let t := Scenario_Traffic sc in
  if (0 <? rate) && (Traffic_RatePerSecond t =? 0)
  then with_traffic sc (Build_Traffic (Traffic_Type t) (Traffic_Concurrency t)
                          (Traffic_Iterations t) rate (Traffic_Retry t))
  else sc.

Definition target_environments : list string :=
  [TargetLocal; TargetDevelopment; TargetStaging; TargetProduction].

(** The API's [canceledReport], which keeps an empty message too. *)
Definition api_canceledReport (now : Time) (id scenarioName message : string) : Report :=
  Build_Report id scenarioName "" 0 StatusCanceled now now f0 zero_Summary [] [] [message] [].
Definition reportFromRunError (now : Time) (id scenarioName err : string) : Report :=
  api_canceledReport now id scenarioName err.

(** [lastEventSequence]: the header's value, else the query's. *)
Definition lastEventSequence (header after : string) : Z :=
  let value := if String.eqb header "" then after else header in
  match Atoi value with
  | Some sequence => if sequence <? 0 then 0 else sequence
  | None => 0
  end.

Section Helpers.
Context `{UT : UnicodeTables} `{JE : JsonErrors} `{EE : EncodeErrors} `{TZ : TimeZone}.

Definition validateTargetRecord (target : TargetRecord) (cfg : Config.Guardrails) : error :=
  let problems :=
    problem_if (String.eqb (Tgt_Name target) "") "name is required"
    ++ problem_if (negb (string_in (Tgt_Environment target) target_environments))
         "environment must be one of local, development, staging, production"
    ++ match ValidateTargetBaseURL (Tgt_BaseURL target) cfg with
       | Some err => [err]
       | None => []
       end
    ++ problem_if (existsb (λ '(key, _), is_blank key)
                     (map_to_list (default ∅ (Tgt_Headers target))))
         "header names must not be empty" in
  if (0 <? length problems)%nat then Some (Join problems "; ") else None.

(** [readJSON]: the decoder reads one JSON value from at most [maxBytes] bytes
    of the body; what follows the value is not looked at. *)
Definition readJSON `{DecodeErrors} {A} (type : string) (decode : Decoder A) (maxBytes : Z)
    (body : string) : result A :=
  decode_first true type decode (string_take (Z.to_nat maxBytes) body).

(** [writeSSEEvent]: the frame of an event, or the error of the encoder. *)
Definition newline : string := bytes_of [10]%N.
Definition sse_frame (event : Event) : result string :=
  let! raw := event_json event in
  Ok ("id: " +:+ Itoa (Event_Sequence event) +:+ newline
      +:+ "event: " +:+ Event_Type event +:+ newline
      +:+ "data: " +:+ raw +:+ newline +:+ newline).
End Helpers.

(** ** What others do between two parts of a handler *)
Inductive action :=
| ActStore (c : call)
| ActCancel (id : string)
| ActRegister (id : string) (ctx : nat)
| ActFinish (id : string).

Record ApiRunEnv := {
  ax_ctx : nat;                    (* the context of this execution *)
  ax_before_start : list action;
  ax_before_reread : list action;
  ax_during : list action;         (* while the runner runs, its events included *)
  ax_before_write : list action;   (* between finishRunCancel and the final write *)
  ax_outcome : Report * error;     (* what RunWithOptions returns *)
  ax_clock : clock;
}.
Record CancelEnv := {
  cx_before_request : list action;
  cx_before_registry : list action;
  cx_before_write : list action;
  cx_clock : clock;
}.

Section Server.
Context `{UT : UnicodeTables} `{JE : JsonErrors} `{DE : DecodeErrors} `{RS : RunStore St} {B : Type}.

Definition apply_action (a : action) (srv : Server St B) : Server St B :=
  match a with
  | ActStore (o, c, id) => set_store (run_op_apply o c id (srv_store srv)) srv
  | ActCancel id => snd (requestRunCancel id srv)
  | ActRegister id ctx => registerRunCancel id ctx srv
  | ActFinish id => snd (finishRunCancel id srv)
  end.
Definition apply_actions (l : list action) (srv : Server St B) : Server St B :=
  fold_left (λ srv a, apply_action a srv) l srv.

(** *** The execution of a run in this process *)
Definition run_write (c : clock) (id : string) (o : run_op) (srv : Server St B) : Server St B :=
  set_store (run_op_apply o c id (srv_store srv)) srv.

(** The write that ends a run, from the outcome of the runner and what
    [finishRunCancel] returned. *)
Definition final_write (now : Time) (id : string) (sc : Scenario) (canceled : bool)
    (outcome : Report * error) : run_op :=
  let '(rep, err) := outcome in
  if canceled then
    let rep := match err with
               | Some m => reportFromRunError now id (Scenario_Name sc) m
               | None => rep
               end in
    OpCancel (with_failures rep (Report_Failures rep ++ ["run canceled by user"]))
  else match err with
       | Some m => OpError m
       | None => OpComplete rep
       end.

Definition executeRun (env : ApiRunEnv) (id : string) (sc : Scenario) (srv : Server St B)
  : Server St B :=
  let c := ax_clock env in
  let srv := registerRunCancel id (ax_ctx env) srv in
  let srv := apply_actions (ax_before_start env) srv in
  let srv := run_write c id OpStart srv in
  let srv := apply_actions (ax_before_reread env) srv in
  match GetRun (srv_store srv) id with
  | Some started =>
      if negb (String.eqb (Run_Status started) RunRunning) then snd (finishRunCancel id srv)
      else
        let srv := apply_actions (ax_during env) srv in
        let '(canceled, srv) := finishRunCancel id srv in
        let srv := apply_actions (ax_before_write env) srv in
        run_write c id (final_write (clk_now c) id sc canceled (ax_outcome env)) srv
  | None => snd (finishRunCancel id srv)
  end.

(** *** [POST /v1/runs/{id}/cancel] *)
Definition cancelRun (env : CancelEnv) (id : string) (srv : Server St B) : Response * Server St B :=
  let c := cx_clock env in
  let accepted := writeJSON StatusAccepted (PCanceled id) in
  match GetRun (srv_store srv) id with
  | None => (writeError StatusNotFound ("run " +:+ Quote id +:+ " not found"), srv)
  | Some record =>
      if negb (isCancelableRunStatus (Run_Status record)) then
        (writeError StatusConflict
           ("run " +:+ Quote id +:+ " cannot be canceled from status "
            +:+ Quote (Run_Status record)), srv)
      else
        let srv := apply_actions (cx_before_request env) srv in
        let '(requested, st) := RequestRunCancel c id (srv_store srv) in
        let srv := set_store st srv in
        if negb requested then
          (writeError StatusConflict ("run " +:+ Quote id +:+ " is not currently cancellable"), srv)
        else
          let srv := apply_actions (cx_before_registry env) srv in
          let '(hit, srv) := requestRunCancel id srv in
          if negb hit && String.eqb (Run_Status record) RunQueued then
            let srv := apply_actions (cx_before_write env) srv in
            (accepted,
             run_write c id
               (OpCancel (api_canceledReport (clk_now c) id (Scenario_Name (Run_Scenario record))
                            "run canceled before worker execution")) srv)
          else (accepted, srv)
  end.
End Server.

(** ** The handlers *)
Section Handlers.
Context `{UT : UnicodeTables} `{JE : JsonErrors} `{DE : DecodeErrors} `{AS : ApiStore St}
  `{BS : BlobStore B}.
Variable cfg : Config.
Variable env : string → string.

Definition not_found (what id : string) : Response :=
  writeError StatusNotFound (what +:+ " " +:+ Quote id +:+ " not found").
Definition version_not_found (id : string) (n : Z) : Response :=
  writeError StatusNotFound
    ("scenario " +:+ Quote id +:+ " version " +:+ Itoa n +:+ " not found").

(** *** Health and metrics *)
Definition health (now : Time) : Response := writeJSON StatusOK (PHealth now).

Definition count_status (runs : list RunRecord) (statuses : list RunStatus) : Z :=
  Z.of_nat (length (List.filter (λ r, string_in (Run_Status r) statuses) runs)).
Definition metrics_counts (runs : list RunRecord) : list (string * Z) :=
  [("wreckr_runs_total", Z.of_nat (length runs));
   ("wreckr_runs_active", count_status runs [RunRunning; RunQueued]);
   ("wreckr_runs_passed_total", count_status runs [RunPassed]);
   ("wreckr_runs_failed_total", count_status runs [RunFailed]);
   ("wreckr_runs_errored_total", count_status runs [RunErrored]);
   ("wreckr_runs_canceled_total", count_status runs [RunCanceled])].
Definition metrics (srv : Server St B) : Response :=
  let line '(name, n) := name +:+ " " +:+ Itoa n +:+ newline in
  Build_Response StatusOK "text/plain; version=0.0.4"
    (PText ("wreckr_api_up 1" +:+ newline
            +:+ Join (map line (metrics_counts (st_ListRuns (srv_store srv)))) "")).

(** *** Targets *)
Definition readTargetRequest (body : string) : Response + TargetRecord :=
  match readJSON "targetRequest" decode_targetRequest (MaxBodyBytes cfg) body with
  | Err e => inl (writeError StatusBadRequest e)
  | Ok req =>
      let environment := if String.eqb (TargetReq_Environment req) "" then TargetDevelopment
                         else TargetReq_Environment req in
      let target := Build_TargetRecord "" (TrimSpace (TargetReq_Name req))
                      (TrimSpace (TargetReq_BaseURL req)) environment
                      (TrimSpace (TargetReq_Description req)) (TargetReq_Headers req)
                      zero_time zero_time in
      match validateTargetRecord target (Config_Guardrails cfg) with
      | Some err => inl (writeError StatusBadRequest err)
      | None => inr target
      end
  end.

Definition createTarget (c : clock) (body : string) (srv : Server St B) : Response * Server St B :=
  match readTargetRequest body with
  | inl resp => (resp, srv)
  | inr target =>
      let '(record, st) := st_CreateTarget c target (srv_store srv) in
      (writeJSON StatusCreated (PTarget record), set_store st srv)
  end.
Definition listTargets (srv : Server St B) : Response :=
  writeJSON StatusOK (PTargets (st_ListTargets (srv_store srv))).
Definition getTarget (id : string) (srv : Server St B) : Response :=
  match st_GetTarget (srv_store srv) id with
  | None => not_found "target" id
  | Some record => writeJSON StatusOK (PTarget record)
  end.
Definition updateTarget (c : clock) (id body : string) (srv : Server St B) : Response * Server St B :=
  match readTargetRequest body with
  | inl resp => (resp, srv)
  | inr target =>
      match st_UpdateTarget c id target (srv_store srv) with
      | (None, st) => (not_found "target" id, set_store st srv)
      | (Some record, st) => (writeJSON StatusOK (PTarget record), set_store st srv)
      end
  end.
Definition deleteTarget (id : string) (srv : Server St B) : Response * Server St B :=
  match st_DeleteTarget id (srv_store srv) with
  | (false, st) => (not_found "target" id, set_store st srv)
  | (true, st) => (writeJSON StatusNoContent PEmpty, set_store st srv)
  end.

(** *** What a scenario goes through before it is stored *)
Definition resolveScenarioTarget (sc : Scenario) (explicitTargetID : string) (st : St)
  : result (Scenario * string) :=
  let targetID := TrimSpace explicitTargetID in
  let targetID := if String.eqb targetID "" then TrimSpace (Target_ID (Scenario_Target sc))
                  else targetID in
  if String.eqb targetID "" then Ok (sc, "")
  else match st_GetTarget st targetID with
  | None => Err ("target " +:+ Quote targetID +:+ " not found")
  | Some target =>
      Ok (with_target sc
            (Build_Target (Tgt_ID target) (Tgt_BaseURL target)
               (mergeHeaders (Tgt_Headers target) (Target_Headers (Scenario_Target sc)))),
          Tgt_ID target)
  end.

Definition vet_scenario (sc : Scenario) (explicitTargetID : string) (st : St)
  : result (Scenario * string) :=
  let! (sc, targetID) := resolveScenarioTarget sc explicitTargetID st in
  let sc := prepare env sc in
  match Validate sc with
  | Some err => Err err
  | None =>
      match GuardrailValidate sc (Config_Guardrails cfg) with
      | Some err => Err err
      | None => Ok (sc, targetID)
      end
  end.

(** *** Scenarios *)
Definition createScenario (c : clock) (body : string) (srv : Server St B) : Response * Server St B :=
  match readJSON "Scenario" (decode_Scenario true) (MaxBodyBytes cfg) body with
  | Err e => (writeError StatusBadRequest e, srv)
  | Ok sc =>
      match vet_scenario sc "" (srv_store srv) with
      | Err e => (writeError StatusBadRequest e, srv)
      | Ok (sc, _) =>
          let '(record, st) := st_CreateScenario c sc (srv_store srv) in
          (writeJSON StatusCreated (PScenario record), set_store st srv)
      end
  end.
Definition listScenarios (srv : Server St B) : Response :=
  writeJSON StatusOK (PScenarios (st_ListScenarios (srv_store srv))).
Definition getScenario (id : string) (srv : Server St B) : Response :=
  match st_GetScenario (srv_store srv) id with
  | None => not_found "scenario" id
  | Some record => writeJSON StatusOK (PScenario record)
  end.
Definition listScenarioVersions (id : string) (srv : Server St B) : Response :=
  match st_ListScenarioVersions (srv_store srv) id with
  | [] => not_found "scenario" id
  | versions => writeJSON StatusOK (PVersions versions)
  end.
Definition getScenarioVersion (id version : string) (srv : Server St B) : Response :=
  let bad := writeError StatusBadRequest "scenario version must be a positive integer" in
  match Atoi version with
  | None => bad
  | Some n =>
      if n <? 1 then bad
      else match st_GetScenarioVersion (srv_store srv) id n with
           | None => version_not_found id n
           | Some v => writeJSON StatusOK (PVersion v)
           end
  end.
Definition updateScenario (c : clock) (id body : string) (srv : Server St B)
  : Response * Server St B :=
  if String.eqb id "" then (not_found "scenario" id, srv)
  else match readJSON "Scenario" (decode_Scenario true) (MaxBodyBytes cfg) body with
  | Err e => (writeError StatusBadRequest e, srv)
  | Ok sc =>
      match vet_scenario sc "" (srv_store srv) with
      | Err e => (writeError StatusBadRequest e, srv)
      | Ok (sc, _) =>
          match st_UpdateScenario c id sc (srv_store srv) with
          | (None, st) => (not_found "scenario" id, set_store st srv)
          | (Some record, st) => (writeJSON StatusOK (PScenario record), set_store st srv)
          end
      end
  end.

(** *** Runs *)

(** The scenario a run request names, and the version it pins. *)
Definition requested_scenario (req : createRunRequest) (st : St)
  : Response + (Scenario * list ScenarioVersionRecord) :=
  let scenarioID := TrimSpace (RunReq_ScenarioID req) in
  match RunReq_Scenario req with
  | Some sc => inr (sc, [])
  | None =>
      if String.eqb scenarioID "" then
        inl (writeError StatusBadRequest "scenario_id or scenario is required")
      else if 0 <? RunReq_ScenarioVersionNumber req then
        match st_GetScenarioVersion st scenarioID (RunReq_ScenarioVersionNumber req) with
        | None => inl (version_not_found scenarioID (RunReq_ScenarioVersionNumber req))
        | Some version => inr (Scv_Scenario version, [version])
        end
      else match st_GetScenario st scenarioID with
           | None => inl (not_found "scenario" scenarioID)
           | Some record => inr (Scn_Scenario record, [])
           end
  end.

(** How a created run goes on: queued (with the queue's reply), executed before
    the response, or executed by a goroutine that the response does not wait
    for. *)
Inductive Dispatch :=
| Queued (reply : error)
| InProcess (run : ApiRunEnv).

(** [started]: the execution the handler leaves running. *)
Definition createRun (c : clock) (dispatch : Dispatch) (body : string) (srv : Server St B)
  : Response * Server St B * option (string * Scenario) :=
  match readJSON "createRunRequest" decode_createRunRequest (MaxBodyBytes cfg) body with
  | Err e => (writeError StatusBadRequest e, srv, None)
  | Ok req =>
      match requested_scenario req (srv_store srv) with
      | inl resp => (resp, srv, None)
      | inr (sc, versionRef) =>
          match vet_scenario sc (TrimSpace (RunReq_TargetID req)) (srv_store srv) with
          | Err e => (writeError StatusBadRequest e, srv, None)
          | Ok (sc, targetID) =>
              let sc := applyRunGuardrails cfg sc in
              let '(run, st) := st_CreateRun c (TrimSpace (RunReq_ScenarioID req)) targetID sc
                                  versionRef (srv_store srv) in
              let srv := set_store st srv in
              let accepted := writeJSON StatusAccepted (PRun run) in
              match dispatch with
              | Queued (Some err) =>
                  let err := "enqueue run: " +:+ err in
                  (writeError StatusServiceUnavailable err,
                   run_write c (Run_ID run) (OpError err) srv, None)
              | Queued None => (accepted, srv, None)
              | InProcess ax =>
                  if RunReq_Sync req then
                    let srv := executeRun ax (Run_ID run) sc srv in
                    match GetRun (srv_store srv) (Run_ID run) with
                    | Some updated => (writeJSON StatusCreated (PRun updated), srv, None)
                    | None => (writeJSON StatusCreated (PRun zero_RunRecord), srv, None)
                    end
                  else (accepted, srv, Some (Run_ID run, sc))
              end
          end
      end
  end.

Definition listRuns (srv : Server St B) : Response :=
  writeJSON StatusOK (PRuns (st_ListRuns (srv_store srv))).

(** [GET /v1/runs/...]: the record, or its report when the path ends in
    "/report", from the blob store when it has one. *)
Definition getRun (url_path : string) (srv : Server St B) : Response :=
  let path := TrimPrefix url_path "/v1/runs/" in
  let id := TrimSuffix path "/report" in
  match GetRun (srv_store srv) id with
  | None => not_found "run" id
  | Some record =>
      if HasSuffix path "/report" then
        match (match srv_blobs srv with Some b => Get (report_key id) b | None => Err "" end) with
        | Ok data => Build_Response StatusOK "application/json" (PText data)
        | Err _ =>
            match Run_Report record with
            | None => writeError StatusConflict "report is not ready"
            | Some rep => writeJSON StatusOK (PReport rep)
            end
        end
      else writeJSON StatusOK (PRun record)
  end.

Definition getRunEvents (id : string) (srv : Server St B) : Response :=
  match GetRun (srv_store srv) id with
  | None => not_found "run" id
  | Some _ => writeJSON StatusOK (PEvents (ListRunEvents (srv_store srv) id))
  end.
End Handlers.

(** ** The execution of a run under interference *)
Section Execution.
Context `{UT : UnicodeTables} `{JE : JsonErrors} `{RL : RunStoreLaws St} {B : Type}.

(** The calls on the store among what others do; a request to cancel [id]; the
    executor alone registers and finishes its run. *)
Definition store_calls (l : list action) : list call :=
  omap (λ a, match a with ActStore c => Some c | _ => None end) l.
Definition cancels (id : string) (l : list action) : bool :=
  existsb (λ a, match a with ActCancel id' => String.eqb id' id | _ => false end) l.
Definition leaves_registry (id : string) (l : list action) : Prop :=
  Forall (λ a, match a with ActRegister id' _ | ActFinish id' => id' ≠ id | _ => True end) l.

Lemma apply_actions_store l (srv : Server St B) :
  srv_store (apply_actions l srv) = ops_apply (store_calls l) (srv_store srv).
Proof.
  revert srv. induction l as [|a l IH]; intros srv; [done|].
  change (apply_actions (a :: l) srv) with (apply_actions l (apply_action a srv)).
  rewrite IH. destruct a as [[[o c] id']|id'|id' x|id']; simpl; [done| |done|done].
  unfold requestRunCancel. by destruct (srv_runCancels srv !! id').
Qed.

Definition registered (id : string) (srv : Server St B) : Prop := is_Some (srv_runCancels srv !! id).

Lemma apply_actions_registry id l (srv : Server St B) :
  leaves_registry id l → registered id srv →
  registered id (apply_actions l srv)
  ∧ (id ∈ srv_cancelRequests (apply_actions l srv)
     ↔ id ∈ srv_cancelRequests srv ∨ cancels id l = true).
Proof.
  revert srv. induction l as [|a l IH]; intros srv Hl Hreg.
  - split; [done|]. simpl. split; [by left|by intros [?|?]].
  - change (apply_actions (a :: l) srv) with (apply_actions l (apply_action a srv)).
    apply Forall_cons in Hl as [Ha Hl].
    assert (registered id (apply_action a srv)
            ∧ (id ∈ srv_cancelRequests (apply_action a srv)
               ↔ id ∈ srv_cancelRequests srv ∨ a = ActCancel id)) as [H1 H2].
    { destruct a as [[[o c] id']|id'|id' x|id']; simpl.
      - split; [done|]. split; [by left|by intros [?|?]].
      - unfold requestRunCancel. destruct (srv_runCancels srv !! id') eqn:E; simpl.
        + split; [done|]. rewrite elem_of_union, elem_of_singleton. split.
          * intros [->|?]; [by right|by left].
          * intros [?|[= ->]]; [by right|by left].
        + split; [done|]. split; [by left|]. intros [?|[= ->]]; [done|].
          destruct Hreg as [? Hreg]. congruence.
      - unfold registered. simpl. rewrite lookup_insert_ne by done.
        split; [done|]. split; [by left|by intros [?|?]].
      - unfold registered. simpl. rewrite lookup_delete_ne by done. split; [done|].
        rewrite elem_of_difference, elem_of_singleton. split; [by intros [? _]; left|].
        intros [?|?]; [|done]. split; [done|congruence]. }
    destruct (IH _ Hl H1) as [H3 H4]. split; [done|]. rewrite H4, H2. simpl.
    rewrite orb_true_iff.
    assert (match a with ActCancel id' => String.eqb id' id | _ => false end = true
            ↔ a = ActCancel id) as ->; [|tauto].
    destruct a; rewrite ?String.eqb_eq; split; congruence.
Qed.

Lemma run_write_life c id o (srv : Server St B) :
  life_of (srv_store (run_write c id o srv)) id = life_step (life_of (srv_store srv) id) o.
Proof. apply op_life. Qed.

Lemma final_write_final now id sc canceled outcome :
  is_Some (final_op (final_write now id sc canceled outcome)).
Proof. unfold final_write. destruct outcome as [rep [m|]], canceled; by eexists. Qed.

(** The store can represent the reports the execution may write. *)
Definition run_storable (env : ApiRunEnv) (id : string) (sc : Scenario) : Prop :=
  ∀ canceled,
    storable (final_write (clk_now (ax_clock env)) id sc canceled (ax_outcome env)) = true.

Definition finished_cleanly (id : string) (srv : Server St B) : Prop :=
  srv_runCancels srv !! id = None ∧ id ∉ srv_cancelRequests srv.

Lemma apply_actions_clean id l (srv : Server St B) :
  leaves_registry id l → finished_cleanly id srv → finished_cleanly id (apply_actions l srv).
Proof.
  revert srv. induction l as [|a l IH]; intros srv Hl Hc; [done|].
  apply Forall_cons in Hl as [Ha Hl]. apply IH; [done|]. destruct Hc as [H1 H2].
  destruct a as [[[o c] id']|id'|id' x|id']; simpl; [done| | |].
  - unfold requestRunCancel. destruct (srv_runCancels srv !! id') eqn:E; simpl; [|done].
    split; [done|]. simpl. rewrite elem_of_union, elem_of_singleton. intros [->|?]; congruence.
  - split; simpl; [by rewrite lookup_insert_ne|done].
  - split; simpl; [by rewrite lookup_delete_ne|]. set_solver.
Qed.

Lemma finishRunCancel_clean id (srv : Server St B) :
  finished_cleanly id (snd (finishRunCancel id srv)).
Proof. split; simpl; [by rewrite lookup_delete_eq|]. set_solver. Qed.

(** The run has started, or ended before it could. *)
Lemma run_start_started c id (srv : Server St B) r :
  GetRun (srv_store srv) id = Some r → started (life_of (srv_store (run_write c id OpStart srv)) id).
Proof.
  intros Hr. rewrite run_write_life, (life_of_some _ _ _ Hr). unfold life_step.
  rewrite (storable_bare OpStart). cbn [life_write]. unfold with_status, live. cbn [life_status].
  destruct (isTerminalRunStatus (Run_Status r)) eqn:Ht; eexists; simpl; eauto.
Qed.

Lemma executeRun_ends_spec env id sc (srv : Server St B) r :
  run_storable env id sc → GetRun (srv_store srv) id = Some r →
  ended (srv_store (executeRun env id sc srv)) id.
Proof.
  intros Hsto Hr. unfold executeRun.
  set (srv1 := apply_actions _ (registerRunCancel _ _ _)).
  assert (∃ r1, GetRun (srv_store srv1) id = Some r1) as [r1 Hr1].
  { unfold srv1. rewrite apply_actions_store.
    destruct (ops_scenario (store_calls (ax_before_start env)) (srv_store srv) id r Hr)
      as (r1 & ? & _). eauto. }
  pose proof (run_start_started (ax_clock env) id srv1 r1 Hr1) as Hst.
  set (srv2 := apply_actions _ (run_write _ _ _ _)).
  assert (started (life_of (srv_store srv2) id)) as (st & Hst2 & Hor).
  { unfold srv2. rewrite apply_actions_store. by apply started_ops. }
  apply status_of_life in Hst2 as (r2 & Hr2 & <-). rewrite Hr2.
  destruct (String.eqb_spec (Run_Status r2) RunRunning) as [Hrun|Hrun]; simpl.
  - destruct (ops_scenario (store_calls (ax_during env)) _ id r2 Hr2) as (r3 & Hr3 & _).
    apply (ops_scenario (store_calls (ax_before_write env))) in Hr3 as (r4 & Hr4 & _).
    eapply (final_op_ends _ _ _ _ r4); [apply Hsto|apply final_write_final|].
    rewrite apply_actions_store. simpl. by rewrite apply_actions_store.
  - destruct Hor as [Hor|Hor]; [done|]. by exists r2.
Qed.

(** Others only log, request cancellations through the store, and work on the
    registry entries of other runs. *)
Definition unobtrusive (id : string) (l : list action) : Prop :=
  quiet id (store_calls l) ∧ leaves_registry id l.
Record run_quiet (id : string) (env : ApiRunEnv) : Prop := {
  rq_start : unobtrusive id (ax_before_start env);
  rq_reread : unobtrusive id (ax_before_reread env);
  rq_during : unobtrusive id (ax_during env);
  rq_write : unobtrusive id (ax_before_write env);
}.
(** A cancellation reached the registry while the run was registered. *)
Definition canceled_in_time (id : string) (env : ApiRunEnv) : bool :=
  cancels id (ax_before_start env) || cancels id (ax_before_reread env)
  || cancels id (ax_during env).

Definition final_status (canceled : bool) (outcome : Report * error) : RunStatus :=
  if canceled then RunCanceled
  else match outcome with
       | (_, Some _) => RunErrored
       | (rep, None) => verdict_status rep
       end.

Lemma final_write_status now id sc canceled outcome :
  final_op (final_write now id sc canceled outcome) = Some (final_status canceled outcome).
Proof. destruct outcome as [rep [m|]], canceled; reflexivity. Qed.

Lemma quiet_actions id l (srv : Server St B) st b :
  quiet id (store_calls l) → life_of (srv_store srv) id = Build_life (Some st) b →
  isCancelableRunStatus st = true →
  ∃ b', life_of (srv_store (apply_actions l srv)) id = Build_life (Some st) b'.
Proof. intros Hq Hl Hc. rewrite apply_actions_store. rewrite (quiet_life' _ _ _ _ _ Hq Hl Hc). eauto. Qed.

Lemma executeRun_outcome_spec env id sc (srv : Server St B) r :
  run_storable env id sc → run_quiet id env →
  GetRun (srv_store srv) id = Some r → isCancelableRunStatus (Run_Status r) = true →
  id ∉ srv_cancelRequests srv →
  let srv' := executeRun env id sc srv in
  life_status (life_of (srv_store srv') id)
    = Some (final_status (canceled_in_time id env) (ax_outcome env))
  ∧ finished_cleanly id srv'.
Proof.
  intros Hsto [[Q1 U1] [Q2 U2] [Q3 U3] [Q4 U4]] Hr Hc Hnot. cbv zeta. unfold executeRun.
  set (srv0 := registerRunCancel id (ax_ctx env) srv).
  assert (registered id srv0) as R0 by (unfold registered; simpl; rewrite lookup_insert_eq; eauto).
  pose proof (life_of_some _ _ _ Hr) as L0. change (srv_store srv) with (srv_store srv0) in L0.
  destruct (quiet_actions id (ax_before_start env) srv0 _ _ Q1 L0 Hc) as [b1 L1].
  destruct (apply_actions_registry id _ srv0 U1 R0)
    as [R1 C1].
  set (srv1 := apply_actions (ax_before_start env) srv0) in *.
  assert (life_of (srv_store (run_write (ax_clock env) id OpStart srv1)) id
          = Build_life (Some RunRunning) b1) as L2.
  { rewrite run_write_life, L1. unfold life_step. rewrite (storable_bare OpStart).
    cbn [life_write]. unfold with_status, live. cbn [life_status].
    by rewrite (cancelable_not_terminal _ Hc). }
  destruct (quiet_actions id (ax_before_reread env) _ _ _ Q2 L2 eq_refl)
    as [b3 L3].
  destruct (apply_actions_registry id _ (run_write (ax_clock env) id OpStart srv1)
    U2 R1) as [R3 C3].
  set (srv3 := apply_actions (ax_before_reread env) _) in *.
  destruct (known_of_life _ _ _ _ L3) as (r3 & -> & ->). cbn [negb String.eqb].
  rewrite String.eqb_refl. cbn [negb].
  destruct (quiet_actions id (ax_during env) srv3 _ _ Q3 L3 eq_refl) as [b4 L4].
  destruct (apply_actions_registry id _ srv3 U3 R3) as [R4 C4].
  set (srv4 := apply_actions (ax_during env) srv3) in *.
  assert (bool_decide (id ∈ srv_cancelRequests srv4) = canceled_in_time id env) as Hdec.
  { unfold canceled_in_time. apply eq_true_iff_eq. rewrite bool_decide_eq_true, !orb_true_iff.
    rewrite C4, C3. simpl. rewrite C1. simpl. tauto. }
  unfold finishRunCancel. cbv beta iota zeta. rewrite Hdec.
  set (srv5 := Build_Server _ _ _ _ _).
  assert (finished_cleanly id srv5) as Hclean by apply (finishRunCancel_clean id srv4).
  destruct (quiet_actions id (ax_before_write env) srv5 _ _ Q4 L4 eq_refl)
    as [b6 L6].
  split.
  - rewrite run_write_life, L6, (final_op_step _ _ _ (Hsto _) (final_write_status _ _ _ _ _)).
    done.
  - by apply (apply_actions_clean id (ax_before_write env) srv5 U4).
Qed.
End Execution.
