(* ===== verification/ApiSpec.v ===== *)
(** * What the API lets into the store

    Every handler refines calls of the store ([api_refines_spec]); the
    scenarios those calls carry have passed [Validate] and the guardrails, the
    targets [validateTargetRecord].  Hence whatever requests arrive, in whatever
    order, everything the store holds is vetted. *)

From S2P Require Export HttpApi.

Open Scope Z_scope.

Section Spec.
Context `{U : UnicodeTables}.
Variable cfg : Config.

(** What may be executed: a valid scenario within the guardrails. *)
Record Vetted (sc : Scenario) : Prop := {
  vetted_valid : ScenarioOK sc;
  vetted_guarded : GuardrailsOK sc (Config_Guardrails cfg);
}.

Record TargetOK (t : TargetRecord) : Prop := {
  target_named : Tgt_Name t ≠ "";
  target_env : Tgt_Environment t ∈ target_environments;
  target_url : ∃ base, parseTargetURL (Tgt_BaseURL t) = Ok base
                       ∧ URLAllowed (TargetAllowlist (Config_Guardrails cfg))
                           (AllowMetadataTarget (Config_Guardrails cfg)) base;
  target_headers : map_Forall (λ k _, is_blank k = false) (default ∅ (Tgt_Headers t));
}.

Lemma ValidateTargetBaseURL_spec raw g :
  ValidateTargetBaseURL raw g = None
  ↔ ∃ base, parseTargetURL raw = Ok base
            ∧ URLAllowed (TargetAllowlist g) (AllowMetadataTarget g) base.
Proof.
  unfold ValidateTargetBaseURL. destruct (parseTargetURL raw) as [base|m].
  - set (ps := validateTargetURL _ _ _ _).
    assert ((if (0 <? length ps)%nat then Some (ViolationError_Error ps) else None) = None
            ↔ ps = []) as ->.
    { rewrite <-length_pos_nil. by destruct (0 <? length ps)%nat. }
    unfold ps. rewrite validateTargetURL_nil. split; [by eauto|]. by intros (b & [= <-] & ?).
  - split; [done|]. by intros (b & ? & _).
Qed.

Lemma problems_none ps :
  (if (0 <? length ps)%nat then Some (Join ps "; ") else None) = None ↔ ps = [].
Proof. rewrite <-length_pos_nil. by destruct (0 <? length ps)%nat. Qed.

Lemma option_problem (o : error) : match o with Some e => [e] | None => [] end = [] ↔ o = None.
Proof. by destruct o. Qed.

Lemma validateTargetRecord_spec t :
  validateTargetRecord t (Config_Guardrails cfg) = None ↔ TargetOK t.
Proof.
  unfold validateTargetRecord.
  rewrite problems_none, !app_nil, !problem_if_nil, option_problem, ValidateTargetBaseURL_spec,
    negb_false_iff, string_in_spec, String.eqb_neq.
  assert (existsb (λ '(key, _), is_blank key) (map_to_list (default ∅ (Tgt_Headers t))) = false
          ↔ map_Forall (λ k _, is_blank k = false) (default ∅ (Tgt_Headers t))) as ->.
  { rewrite Forall_existsb_false, map_Forall_to_list. apply Forall_iff. by intros [k v]. }
  split; [intros (? & ? & ? & ?); by split|intros []; by split_and!].
Qed.

Lemma applyRunGuardrails_vetted sc : Vetted sc → Vetted (applyRunGuardrails cfg sc).
Proof.
  intros [[] [Hc Hr Hb Ht]]. unfold applyRunGuardrails. cbv zeta.
  destruct (0 <? MaxRequestRate (Config_Guardrails cfg)) eqn:Hm; [|by split; split].
  destruct (Traffic_RatePerSecond (Scenario_Traffic sc) =? 0) eqn:Hz; [|by split; split].
  cbn [andb]. split; split; try done; simpl; try lia.
  all: destruct scenario_traffic; split; simpl; (done || lia).
Qed.
End Spec.

(** ** The calls of the API *)
Section Calls.
Context `{UT : UnicodeTables} `{JE : JsonErrors} `{DE : DecodeErrors} `{AS : ApiStore St}
  {B : Type}.
Variable cfg : Config.
Variable env : string → string.

(** One request that can change the store, or one execution started by an
    earlier request. *)
Inductive api_call :=
| CallCreateTarget (c : clock) (body : string)
| CallUpdateTarget (c : clock) (id body : string)
| CallDeleteTarget (id : string)
| CallCreateScenario (c : clock) (body : string)
| CallUpdateScenario (c : clock) (id body : string)
| CallCreateRun (c : clock) (dispatch : Dispatch) (body : string)
| CallCancelRun (cx : CancelEnv) (id : string)
| CallExecute (ax : ApiRunEnv) (id : string) (sc : Scenario).

Definition api_apply (srv : Server St B) (call : api_call) : Server St B :=
  match call with
  | CallCreateTarget c body => snd (createTarget cfg c body srv)
  | CallUpdateTarget c id body => snd (updateTarget cfg c id body srv)
  | CallDeleteTarget id => snd (deleteTarget id srv)
  | CallCreateScenario c body => snd (createScenario cfg env c body srv)
  | CallUpdateScenario c id body => snd (updateScenario cfg env c id body srv)
  | CallCreateRun c dispatch body => snd (fst (createRun cfg env c dispatch body srv))
  | CallCancelRun cx id => snd (cancelRun cx id srv)
  | CallExecute ax id sc => executeRun ax id sc srv
  end.

Lemma vet_scenario_vetted sc tgt (st : St) sc' tgt' :
  vet_scenario cfg env sc tgt st = Ok (sc', tgt') → Vetted cfg sc'.
Proof.
  unfold vet_scenario. destruct (resolveScenarioTarget sc tgt st) as [[sc1 t1]|]; [|done].
  cbn [result_bind]. destruct (Validate _) eqn:Hv; [done|].
  destruct (GuardrailValidate _ _) eqn:Hg; [done|]. intros [= <- <-].
  split; [by apply Validate_spec|by apply GuardrailValidate_spec].
Qed.

Lemma readTargetRequest_ok body t : readTargetRequest cfg body = inr t → TargetOK cfg t.
Proof.
  unfold readTargetRequest. destruct (readJSON _ _ _); [|done].
  destruct (validateTargetRecord _ _) eqn:Hv; [done|]. intros [= <-].
  by apply validateTargetRecord_spec.
Qed.

(** The parts of a handler that act on existing runs only call [run_op]s. *)
Definition run_calls (srv srv' : Server St B) : Prop :=
  srv_blobs srv' = srv_blobs srv ∧ ∃ l, srv_store srv' = ops_apply l (srv_store srv).

Lemma run_calls_refl srv : run_calls srv srv.
Proof. split; [done|by exists []]. Qed.
Lemma run_calls_trans srv1 srv2 srv3 :
  run_calls srv1 srv2 → run_calls srv2 srv3 → run_calls srv1 srv3.
Proof.
  intros [Hb1 [l1 H1]] [Hb2 [l2 H2]]. split; [by rewrite Hb2|].
  exists (l1 ++ l2). unfold ops_apply in *. by rewrite fold_left_app, <-H1.
Qed.
Lemma run_calls_write c id o srv : run_calls srv (run_write c id o srv).
Proof. split; [done|by exists [(o, c, id)]]. Qed.
Lemma run_calls_store l srv : run_calls srv (set_store (ops_apply l (srv_store srv)) srv).
Proof. split; [done|by exists l]. Qed.
Lemma run_calls_same srv srv' :
  srv_store srv' = srv_store srv → srv_blobs srv' = srv_blobs srv → run_calls srv srv'.
Proof. intros H1 H2. split; [done|by exists []]. Qed.
Lemma requestRunCancel_calls id srv : run_calls srv (snd (requestRunCancel id srv)).
Proof. unfold requestRunCancel. by destruct (srv_runCancels srv !! id); apply run_calls_same. Qed.
Lemma run_calls_action a srv : run_calls srv (apply_action a srv).
Proof.
  destruct a as [[[o c] id']|id'|id' x|id']; simpl.
  - apply run_calls_write.
  - apply requestRunCancel_calls.
  - by apply run_calls_same.
  - by apply run_calls_same.
Qed.
Lemma run_calls_actions l srv : run_calls srv (apply_actions l srv).
Proof.
  revert srv. induction l as [|a l IH]; intros srv; [apply run_calls_refl|].
  eapply run_calls_trans; [apply run_calls_action|apply IH].
Qed.

Lemma executeRun_run_calls ax id sc srv : run_calls srv (executeRun ax id sc srv).
Proof.
  unfold executeRun. set (s1 := apply_actions (ax_before_start ax) _).
  set (s2 := apply_actions (ax_before_reread ax) _).
  assert (run_calls srv s2) as H2.
  { eapply run_calls_trans; [|apply run_calls_actions].
    eapply run_calls_trans; [|apply run_calls_write].
    eapply run_calls_trans; [|apply run_calls_actions]. by apply run_calls_same. }
  destruct (GetRun (srv_store s2) id) as [r|]; [|by eapply run_calls_trans; [|apply run_calls_same]].
  destruct (negb _); [by eapply run_calls_trans; [|apply run_calls_same]|].
  unfold finishRunCancel. cbv beta iota zeta.
  eapply run_calls_trans; [|apply run_calls_write].
  eapply run_calls_trans; [|apply run_calls_actions].
  eapply run_calls_trans; [exact H2|]. by eapply run_calls_trans; [apply (run_calls_actions (ax_during ax))|apply run_calls_same].
Qed.

Lemma cancelRun_run_calls cx id srv : run_calls srv (snd (cancelRun cx id srv)).
Proof.
  unfold cancelRun. destruct (GetRun _ _) as [r|]; [|apply run_calls_refl].
  destruct (negb _); [apply run_calls_refl|].
  set (s1 := apply_actions (cx_before_request cx) srv).
  destruct (RequestRunCancel (cx_clock cx) id (srv_store s1)) as [ok st] eqn:Hq.
  assert (run_calls srv (set_store st s1)) as H1.
  { eapply run_calls_trans; [apply (run_calls_actions (cx_before_request cx))|].
    split; [done|]. exists [(OpRequestCancel, cx_clock cx, id)]. fold s1. simpl. by rewrite Hq. }
  destruct (negb ok); [exact H1|].
  set (s2 := apply_actions (cx_before_registry cx) _).
  assert (run_calls srv s2) as H2 by (eapply run_calls_trans; [exact H1|apply run_calls_actions]).
  pose proof (requestRunCancel_calls id s2) as Hs.
  destruct (requestRunCancel id s2) as [hit s3].
  assert (run_calls srv s3) as H3 by by eapply run_calls_trans.
  destruct (_ && _); [|exact H3].
  eapply run_calls_trans; [|apply run_calls_write].
  eapply run_calls_trans; [exact H3|apply run_calls_actions].
Qed.
End Calls.

(** ** The API over the memory store *)
Section Refinement.
Context `{UT : UnicodeTables} `{JE : JsonErrors} `{DE : DecodeErrors} {B : Type}.
Variable cfg : Config.
Variable env : string → string.

(** A call of the store that carries vetted values only. *)
Definition vetted_op (o : mem_op) : Prop :=
  match o with
  | MCreateTarget _ t | MUpdateTarget _ _ t => TargetOK cfg t
  | MCreateScenario _ sc | MUpdateScenario _ _ sc | MCreateRun _ _ _ sc _ => Vetted cfg sc
  | MDeleteTarget _ | MRun _ _ _ => True
  end.
Definition vetted_calls (m m' : Memory) : Prop :=
  ∃ ops, m' = fold_left mem_apply ops m ∧ Forall vetted_op ops.

Lemma vetted_calls_refl m : vetted_calls m m.
Proof. by exists []. Qed.
Lemma vetted_calls_one o m : vetted_op o → vetted_calls m (mem_apply m o).
Proof. intros Ho. exists [o]. by repeat constructor. Qed.
Lemma vetted_calls_trans m1 m2 m3 : vetted_calls m1 m2 → vetted_calls m2 m3 → vetted_calls m1 m3.
Proof.
  intros (l1 & -> & H1) (l2 & -> & H2). exists (l1 ++ l2).
  by rewrite fold_left_app, Forall_app.
Qed.
Lemma run_calls_vetted (srv srv' : Server Memory B) :
  run_calls srv srv' → vetted_calls (srv_store srv) (srv_store srv').
Proof.
  intros [_ [l ->]]. exists (map (λ '(o, c, id), MRun o c id) l). split.
  - generalize (srv_store srv). induction l as [|[[o c] id] l IH]; intros m; [done|]. apply IH.
  - apply Forall_map, Forall_true. by intros [[o c] id].
Qed.

Lemma api_refines_spec (srv : Server Memory B) call :
  vetted_calls (srv_store srv) (srv_store (api_apply cfg env srv call)).
Proof.
  destruct call as [c body|c id body|id|c body|c id body|c dispatch body|cx id|ax id sc]; simpl.
  - unfold createTarget. destruct (readTargetRequest cfg body) as [resp|t] eqn:Ht;
      [apply vetted_calls_refl|].
    apply (vetted_calls_one (MCreateTarget _ t)). by eapply readTargetRequest_ok.
  - unfold updateTarget. destruct (readTargetRequest cfg body) as [resp|t] eqn:Ht;
      [apply vetted_calls_refl|]. apply readTargetRequest_ok in Ht.
    pose proof (vetted_calls_one (MUpdateTarget (clk_now c) id t) (srv_store srv) Ht) as Hv.
    simpl in *. by destruct (UpdateTarget _ _ _ _) as [[r|] m].
  - unfold deleteTarget.
    pose proof (vetted_calls_one (MDeleteTarget id) (srv_store srv) I) as Hv.
    simpl in *. by destruct (DeleteTarget _ _) as [[] m].
  - unfold createScenario. destruct (readJSON _ _ _) as [sc|]; [|apply vetted_calls_refl].
    destruct (vet_scenario _ _ _ _ _) as [[sc' t]|] eqn:Hv; [|apply vetted_calls_refl].
    apply (vetted_calls_one (MCreateScenario _ sc')). by eapply vet_scenario_vetted.
  - unfold updateScenario. destruct (String.eqb id ""); [apply vetted_calls_refl|].
    destruct (readJSON _ _ _) as [sc|]; [|apply vetted_calls_refl].
    destruct (vet_scenario _ _ _ _ _) as [[sc' t]|] eqn:Hv; [|apply vetted_calls_refl].
    apply vet_scenario_vetted in Hv.
    pose proof (vetted_calls_one (MUpdateScenario (clk_now c) id sc') (srv_store srv) Hv) as H1.
    simpl in *. by destruct (UpdateScenario _ _ _ _) as [[r|] m].
  - unfold createRun. destruct (readJSON _ _ _) as [req|]; [|apply vetted_calls_refl].
    destruct (requested_scenario req _) as [resp|[sc ref]]; [apply vetted_calls_refl|].
    destruct (vet_scenario _ _ _ _ _) as [[sc' t]|] eqn:Hv; [|apply vetted_calls_refl].
    apply vet_scenario_vetted, applyRunGuardrails_vetted in Hv.
    pose proof (vetted_calls_one
      (MCreateRun c (TrimSpace (RunReq_ScenarioID req)) t (applyRunGuardrails cfg sc') ref)
      (srv_store srv) Hv) as H1. simpl in *.
    destruct (CreateRun _ _ _ _ _ _) as [run m].
    assert (∀ srv', run_calls (set_store m srv) srv' → vetted_calls (srv_store srv) (srv_store srv'))
      as Hrun by (intros srv' Hr; eapply vetted_calls_trans; [exact H1|]; by apply run_calls_vetted in Hr).
    destruct dispatch as [[err|]|ax]; [apply Hrun, run_calls_write|exact H1|].
    destruct (RunReq_Sync req); [|exact H1].
    pose proof (Hrun _ (executeRun_run_calls ax (Run_ID run) (applyRunGuardrails cfg sc') _)) as H2.
    simpl. by destruct (mem_runs _ !! _).
  - apply run_calls_vetted, cancelRun_run_calls.
  - apply run_calls_vetted, executeRun_run_calls.
Qed.

(** Everything the store holds has been vetted. *)
Record StoreVetted (m : Memory) : Prop := {
  held_targets id t : GetTarget m id = Some t → TargetOK cfg t;
  held_scenarios id r : GetScenario m id = Some r → Vetted cfg (Scn_Scenario r);
  held_versions id v : v ∈ versions_of m id → Vetted cfg (Scv_Scenario v);
  held_runs id r : GetRun m id = Some r → Vetted cfg (Run_Scenario r);
}.

Lemma StoreVetted_new : StoreVetted NewMemory.
Proof.
  split; intros id x; unfold GetTarget, GetScenario, versions_of; simpl; rewrite ?lookup_empty;
    simpl; try done. by intros ?%elem_of_nil.
Qed.

Lemma TargetOK_stored t id now now' :
  TargetOK cfg t →
  TargetOK cfg (Build_TargetRecord id (Tgt_Name t) (Tgt_BaseURL t) (Tgt_Environment t)
                  (Tgt_Description t) (nonnil_headers (Tgt_Headers t)) now now').
Proof. by intros []. Qed.

Lemma StoreVetted_set_target m id t :
  StoreVetted m → TargetOK cfg t → StoreVetted (set_targets <[id := t]> m).
Proof.
  intros [Ht Hs Hv Hr] Hok. split; [|exact Hs|exact Hv|exact Hr].
  intros id' t'. unfold GetTarget. simpl. rewrite lookup_insert_Some.
  intros [[_ <-]|[_ Hl]]; [done|by eapply Ht].
Qed.

Lemma StoreVetted_set_scenario m id r vs :
  StoreVetted m → Vetted cfg (Scn_Scenario r) → (∀ v, v ∈ vs → Vetted cfg (Scv_Scenario v)) →
  StoreVetted (set_scenario id r vs m).
Proof.
  intros [Ht Hs Hv Hr] Hsc Hvs. split; [exact Ht| | |exact Hr].
  - intros id' r'. unfold GetScenario. simpl. rewrite lookup_insert_Some.
    intros [[_ <-]|[_ Hl]]; [done|by eapply Hs].
  - intros id' v. unfold versions_of. simpl. destruct (decide (id' = id)) as [->|Hne].
    + rewrite lookup_insert_eq. apply Hvs.
    + rewrite lookup_insert_ne by done. apply Hv.
Qed.

Lemma StoreVetted_run m o c id : StoreVetted m → StoreVetted (run_op_apply o c id m).
Proof.
  intros Hm. destruct (run_op_effect o c id m) as [|now e r Hr _ _|now e|o now e r r' [Hl Ht] Hx];
    destruct Hm as [H1 H2 H3 H4]; (split; [exact H1|exact H2|exact H3|]); try exact H4.
  intros id' r''. simpl. rewrite lookup_insert_Some.
  intros [[_ <-]|[_ Hl']]; [|exact (H4 _ _ Hl')].
  apply run_next_scenario in Hx as (_ & _ & _ & _ & _ & -> & _). exact (H4 _ _ Hl).
Qed.

Lemma StoreVetted_apply m o : StoreVetted m → vetted_op o → StoreVetted (mem_apply m o).
Proof.
  intros Hm Ho. destruct o as [now t|now id t|id|now sc|now id sc|c scn tgt sc ref|o c id]; simpl.
  - apply StoreVetted_set_target; [done|]. by apply TargetOK_stored.
  - unfold UpdateTarget. destruct (mem_targets m !! id); simpl; [|done].
    apply StoreVetted_set_target; [done|]. by apply TargetOK_stored.
  - unfold DeleteTarget. destruct (mem_targets m !! id); simpl; [|done].
    destruct Hm as [Ht Hs Hv Hr]. split; [|exact Hs|exact Hv|exact Hr].
    intros id' t'. unfold GetTarget. simpl. rewrite lookup_delete_Some. intros [_ Hl].
    by eapply Ht.
  - apply StoreVetted_set_scenario; [done|done|]. intros v Hv. apply list_elem_of_singleton in Hv as ->. done.
  - unfold UpdateScenario. destruct (mem_scenarios m !! id); simpl; [|done].
    apply StoreVetted_set_scenario; [done|done|].
    intros v [Hv|Hv]%elem_of_app; [by eapply held_versions|]. apply list_elem_of_singleton in Hv as ->. done.
  - unfold CreateRun. destruct (match ref with [] => _ | _ => _ end) as [vid vn].
    destruct Hm as [Ht Hs Hv Hr]. split; [exact Ht|exact Hs|exact Hv|].
    intros id' r. simpl. rewrite lookup_insert_Some.
    intros [[_ <-]|[_ Hl]]; [done|exact (Hr _ _ Hl)].
  - by apply StoreVetted_run.
Qed.

Lemma StoreVetted_calls m m' : vetted_calls m m' → StoreVetted m → StoreVetted m'.
Proof.
  intros (ops & -> & Hops) Hm. revert m Hm. induction Hops as [|o ops Ho _ IH]; intros m Hm; [done|].
  simpl. by apply IH, StoreVetted_apply.
Qed.

(** Everything the API stores has been vetted: whatever requests arrive
    at a server that starts with an empty memory store, in whatever order and
    with whatever interference, every target in the store passes the target
    checks and every scenario, every version of it and the snapshot of every run
    satisfies [Validate]'s specification and the guardrails; and the store stays
    well formed. *)
Theorem api_store_vetted (calls : list api_call) (bs : option B) :
  let m := srv_store (fold_left (api_apply cfg env) calls (NewWithQueue NewMemory bs)) in
  StoreVetted m ∧ MemoryOK m.
Proof.
  intros m. assert (vetted_calls NewMemory m) as Hm.
  { unfold m. change NewMemory with (srv_store (NewWithQueue NewMemory bs)) at 1.
    generalize (NewWithQueue NewMemory bs). clear m. induction calls as [|call calls IH]; intros srv.
    - apply vetted_calls_refl.
    - eapply vetted_calls_trans; [apply api_refines_spec|apply IH]. }
  split.
  - eapply StoreVetted_calls; [exact Hm|apply StoreVetted_new].
  - destruct Hm as (ops & -> & _). apply MemoryOK_after, MemoryOK_new.
Qed.
End Refinement.

(** ** What a client is told *)
Section Answers.
Context `{UT : UnicodeTables} `{JE : JsonErrors} `{DE : DecodeErrors} {B : Type}.
Variable cfg : Config.
Variable env : string → string.

(** The rate a run is created with: never unlimited when a cap is set. *)
Definition rate_capped (sc : Scenario) : Prop :=
  0 < MaxRequestRate (Config_Guardrails cfg) →
  1 ≤ Traffic_RatePerSecond (Scenario_Traffic sc) ≤ MaxRequestRate (Config_Guardrails cfg).

Lemma applyRunGuardrails_capped sc : Vetted cfg sc → rate_capped (applyRunGuardrails cfg sc).
Proof.
  intros [Hv Hg] Hm. pose proof (guard_rate _ _ Hg Hm) as Hr.
  pose proof (traffic_rate _ (scenario_traffic _ Hv)) as H0.
  unfold applyRunGuardrails. cbv zeta. rewrite (proj2 (Z.ltb_lt _ _) Hm). cbn [andb].
  destruct (Z.eqb_spec (Traffic_RatePerSecond (Scenario_Traffic sc)) 0); simpl; lia.
Qed.

(** The answers to [POST /v1/runs]. *)
Inductive RunAnswer (dispatch : Dispatch) (srv : Server Memory B)
  : Response → Server Memory B → option (string * Scenario) → Prop :=
| answer_refused status msg :
    status = StatusBadRequest ∨ status = StatusNotFound →
    RunAnswer dispatch srv (writeError status msg) srv None
| answer_created run resp srv' started :
    Vetted cfg (Run_Scenario run) → rate_capped (Run_Scenario run) → Run_Status run = RunQueued →
    match dispatch with
    | Queued None =>
        resp = writeJSON StatusAccepted (PRun run) ∧ started = None
        ∧ GetRun (srv_store srv') (Run_ID run) = Some run
    | Queued (Some err) =>
        resp = writeError StatusServiceUnavailable ("enqueue run: " +:+ err) ∧ started = None
        ∧ ∃ r, GetRun (srv_store srv') (Run_ID run) = Some r ∧ Run_Status r = RunErrored
               ∧ Run_Error r = "enqueue run: " +:+ err
    | InProcess _ =>
        (resp = writeJSON StatusAccepted (PRun run)
         ∧ started = Some (Run_ID run, Run_Scenario run)
         ∧ GetRun (srv_store srv') (Run_ID run) = Some run)
        ∨ (∃ r, resp = writeJSON StatusCreated (PRun r) ∧ started = None
                ∧ GetRun (srv_store srv') (Run_ID run) = Some r
                ∧ isTerminalRunStatus (Run_Status r) = true)
    end →
    RunAnswer dispatch srv resp srv' started.

Lemma requested_scenario_refused req (m : Memory) resp :
  requested_scenario req m = inl resp →
  ∃ status msg, resp = writeError status msg ∧ (status = StatusBadRequest ∨ status = StatusNotFound).
Proof.
  unfold requested_scenario, version_not_found, not_found.
  destruct (RunReq_Scenario req); [done|]. destruct (String.eqb _ _); [intros [= <-]; eauto|].
  destruct (0 <? _).
  - destruct (st_GetScenarioVersion _ _ _); [done|]. intros [= <-]; eauto.
  - destruct (st_GetScenario _ _); [done|]. intros [= <-]; eauto.
Qed.

Lemma CreateRun_record c scn tgt sc ref (m : Memory) run m' :
  CreateRun c scn tgt sc ref m = (run, m') →
  GetRun m' (Run_ID run) = Some run ∧ Run_Status run = RunQueued ∧ Run_Scenario run = sc.
Proof.
  unfold CreateRun. destruct (match ref with [] => _ | _ => _ end). intros [= <- <-].
  simpl. by rewrite lookup_insert_eq.
Qed.


(** A scenario that names a registered target is sent there: the explicit
    target of the request wins over the scenario's own; the identifier and the
    base URL become the target's, whatever the scenario said; the headers are
    the target's with the scenario's on top; all else is kept; an unknown target
    is an error and no target leaves the scenario as it is. *)
Theorem resolveScenarioTarget_spec sc explicit (m : Memory) :
  let id := if is_blank explicit then TrimSpace (Target_ID (Scenario_Target sc))
            else TrimSpace explicit in
  match resolveScenarioTarget sc explicit m with
  | Ok (sc', tgt) =>
      (id = "" ∧ sc' = sc ∧ tgt = "")
      ∨ ∃ t, id ≠ "" ∧ GetTarget m id = Some t ∧ tgt = Tgt_ID t
          ∧ Target_ID (Scenario_Target sc') = Tgt_ID t
          ∧ Target_BaseURL (Scenario_Target sc') = Tgt_BaseURL t
          ∧ with_target sc' (Scenario_Target sc) = sc
          ∧ ∀ k, default ∅ (Target_Headers (Scenario_Target sc')) !! k
                 = match default ∅ (Target_Headers (Scenario_Target sc)) !! k with
                   | Some v => Some v
                   | None => default ∅ (Tgt_Headers t) !! k
                   end
  | Err _ => id ≠ "" ∧ GetTarget m id = None
  end.
Proof.
  intros id. unfold resolveScenarioTarget.
  change (if String.eqb (TrimSpace explicit) "" then _ else _) with id.
  destruct (String.eqb_spec id "") as [Hid|Hid]; [by left|].
  cbn [st_GetTarget Memory_api]. destruct (GetTarget m id) as [t|] eqn:Ht; [|done].
  right. exists t. split_and!; try done; [by destruct sc|].
  intros k. simpl. rewrite lookup_union.
  by destruct (default ∅ (Target_Headers _) !! k), (default ∅ (Tgt_Headers t) !! k).
Qed.

(** The metrics add up: in every store reached by its methods the runs
    counted as active, passed, failed, errored and canceled are all the runs,
    each counted once. *)
Theorem metrics_add_up (l : list mem_op) :
  let n k := default 0 (snd <$> metrics_counts (st_ListRuns (mem_after l)) !! k) in
  n 0%nat = n 1%nat + n 2%nat + n 3%nat + n 4%nat + n 5%nat
  ∧ n 0%nat = Z.of_nat (size (mem_runs (mem_after l))).
Proof.
  intros n. unfold n, metrics_counts, count_status. cbn [lookup list_lookup fmap option_fmap
    option_map default from_option snd st_ListRuns Memory_api].
  pose proof (MemoryOK_after l _ MemoryOK_new) as Hok. fold (mem_after l) in Hok.
  split; [|unfold ListRuns; by rewrite length_map, length_map_to_list].
  assert (Forall (λ r, RunPhase r) (ListRuns (mem_after l))) as Hall.
  { unfold ListRuns. apply Forall_map, Forall_forall. intros [id r] Hin. simpl.
    apply elem_of_map_to_list in Hin. by apply (ok_runs _ Hok id r). }
  induction Hall as [|r rs Hr _ IH]; [done|].
  cbn [List.filter].
  assert (Run_Status r ∈ [RunRunning; RunQueued; RunPassed; RunFailed; RunErrored; RunCanceled])
    as Hk.
  { destruct Hr as [Hs|? Hs|rep ? Hs|rep ? Hs|? Hs]; rewrite Hs; try set_solver.
    unfold verdict_status. case_match; set_solver. }
  rewrite !elem_of_cons in Hk.
  destruct Hk as [Hk|[Hk|[Hk|[Hk|[Hk|[Hk|Hk%elem_of_nil]]]]]]; try done;
    rewrite !Hk; simpl in *; lia.
Qed.
End Answers.

(** ** The report of a canceled run *)
Section CanceledReport.
Context `{UT : UnicodeTables} `{JE : JsonErrors} `{RJ : EncodeErrors} `{RL : RunStoreLaws St}
  `{BL : BlobLaws B}.

Definition run_path (id : string) : string := "/v1/runs/" +:+ id.

Lemma getRun_record id (srv : Server St B) r :
  HasSuffix id "/report" = false → GetRun (srv_store srv) id = Some r →
  getRun (run_path id) srv = writeJSON StatusOK (PRun r).
Proof.
  intros Hs Hr. unfold getRun, run_path.
  by rewrite TrimPrefix_app, (TrimSuffix_none _ _ Hs), Hr, Hs.
Qed.
Lemma getRun_report id (srv : Server St B) r b raw :
  GetRun (srv_store srv) id = Some r → srv_blobs srv = Some b → Get (report_key id) b = Ok raw →
  getRun (run_path id +:+ "/report") srv
  = Build_Response StatusOK "application/json" (PText raw).
Proof.
  intros Hr Hb Hget. unfold getRun, run_path.
  rewrite append_assoc, TrimPrefix_app, TrimSuffix_app, HasSuffix_app, Hr, Hb, Hget. done.
Qed.

(** C37: the report endpoint contradicts the run endpoint: after the executor
    ends a run that was canceled while the runner worked, the record that the
    API serves is canceled, but the report it serves, if its upload went
    through and the blob store answers, is the uploaded one, whose status is the
    runner's verdict (passed, say). *)
Theorem canceled_report_contradicts e env id (s : St) b r rep raw :
  exec_storable id (Scenario_Name (Run_Scenario r)) env →
  exec_quiet id env → GetRun s id = Some r → isCancelableRunStatus (Run_Status r) = true →
  requested_early id env s = false → requested_during id env = true →
  ex_outcome env = (rep, None) → Exec_BlobStore e = true → HasSuffix id "/report" = false →
  let uploaded := with_failures rep
                    (appendIfMissing (Report_Failures rep) "run canceled by user") in
  report_json uploaded = Ok raw → fst (Put (report_key id) raw "application/json" b) = None →
  let '(_, s', b') := Execute e env id s b in
  let srv := NewWithQueue s' (Some b') in
  Report_Status uploaded = Report_Status rep
  ∧ (is_ok (Get (report_key id) b') = true →
     getRun (run_path id +:+ "/report") srv
     = Build_Response StatusOK "application/json" (PText raw))
  ∧ ∃ r', getRun (run_path id) srv = writeJSON StatusOK (PRun r') ∧ Run_Status r' = RunCanceled.
Proof.
  intros Hsto Hq Hr Hc He Hd Ho Hb Hid uploaded Hraw Hput.
  pose proof (Execute_upload_spec e env id s b r rep raw Hq Hr Hc He Hd Ho Hb Hraw Hput) as Hup.
  pose proof keeps_nothing_keeps as RK.
  destruct (Execute_outcome_spec (kept := keeps_nothing) e env id s b r Hsto Hq Hr Hc)
    as (r' & Hr' & Hout).
  rewrite He, Hd in Hout. destruct Hout as (_ & Hst & _).
  destruct (Execute e env id s b) as [[err s'] b']. cbn [fst snd] in *.
  split_and!; [done| |].
  { destruct (Get (report_key id) b') as [data|] eqn:Hget; [intros _|done].
    apply blobs_get in Hget as Hs2. rewrite Hup in Hs2. injection Hs2 as <-. by eapply getRun_report. }
  exists r'. split; [by apply getRun_record|done].
Qed.
End CanceledReport.

(** ** Examples *)
#[local] Existing Instances sample_json sample_errors ascii_tables.

(** What it serves is the JSON of a report that passed. *)
Example sample_raw_passed :
  ∃ m, parse_json (sample_raw StatusPassed) = Some (JObj m) ∧ map_get "status" m = Some (JStr "passed").
Proof. eexists. split; [vm_compute; reflexivity|vm_compute; reflexivity]. Qed.
Lemma canceled_report_contradicts_witness :
  let '(_, s', b') := Execute sample_executor
    (sample_env [cancel_call] (sample_report StatusPassed, None)) "run_1" queued_store NewMemoryStore in
  getRun (run_path "run_1" +:+ "/report") (NewWithQueue s' (Some b'))
  = Build_Response StatusOK "application/json" (PText (sample_raw StatusPassed)).
Proof.
  pose proof (canceled_report_contradicts sample_executor
    (sample_env [cancel_call] (sample_report StatusPassed, None)) "run_1" queued_store
    NewMemoryStore (default zero_RunRecord (GetRun queued_store "run_1"))
    (sample_report StatusPassed) (sample_raw StatusPassed)) as H.
  assert (is_ok (Get (report_key "run_1") (snd (Execute sample_executor
    (sample_env [cancel_call] (sample_report StatusPassed, None)) "run_1" queued_store
    NewMemoryStore))) = true) as Hok by reflexivity.
  destruct (Execute _ _ _ _ _) as [[err s'] b'].
  apply H; try reflexivity; [| |exact Hok].
  - split; reflexivity.
  - apply sample_quiet. repeat constructor.
Defined.
