(* ===== verification/ApiCancel.v ===== *)
(** * Canceling a run while it is executed (src/apps/api/internal/httpapi/server.go,
    [executeRun] and [cancelRun])

    The goroutine that executes a run and any number of requests that cancel it,
    interleaved at every call on the store and every critical section of
    [cancelMu].  A state holds the server, the point the execution has reached
    and the point each request has reached; the steps are the parts of the two
    functions. *)

From S2P Require Export HttpApi.

Open Scope Z_scope.

(** Where [executeRun] stands. *)
Inductive exec_pc :=
| EInit                                        (* before registerRunCancel *)
| ERegistered                                  (* before MarkRunStarted *)
| EStarted                                     (* before the GetRun that checks the status *)
| EAborting                                    (* not running: before finishRunCancel *)
| ERunning                                     (* the runner works *)
| EReturned (outcome : Report * error)         (* before finishRunCancel *)
| EWriting (canceled : bool) (outcome : Report * error)   (* before the final write *)
| EDone.

(** What a request was answered: an error, or 202 because the cancellation
    reached the registry, because it canceled the queued run itself, or although
    it did neither. *)
Inductive cancel_answer :=
| Refused (status : Z)
| AcceptedHit
| AcceptedQueued
| AcceptedLate.

(** Where [cancelRun] stands. *)
Inductive cancel_pc :=
| CInit
| CRead (record : RunRecord)                   (* before RequestRunCancel *)
| CRequested (record : RunRecord)              (* before requestRunCancel *)
| CMissed (record : RunRecord)                 (* before CancelRun *)
| CDone (answer : cancel_answer).

Record sys (St B : Type) := { sy_srv : Server St B; sy_exec : exec_pc; sy_cancels : list cancel_pc }.
Arguments Build_sys {St B}.
Arguments sy_srv {St B}.
Arguments sy_exec {St B}.
Arguments sy_cancels {St B}.

Section Sys.
Context `{UT : UnicodeTables} `{RS : RunStore St} {B : Type}.
Variable id : string.
Variable sc : Scenario.
Variable ctx : nat.
Variable outcomes : Report * error → Prop.     (* what the runner may return *)

(** One part of [executeRun]. *)
Inductive exec_step (srv : Server St B) : exec_pc → exec_pc → Server St B → Prop :=
| ex_register : exec_step srv EInit ERegistered (registerRunCancel id ctx srv)
| ex_start c : exec_step srv ERegistered EStarted (run_write c id OpStart srv)
| ex_check_running r :
    GetRun (srv_store srv) id = Some r → Run_Status r = RunRunning →
    exec_step srv EStarted ERunning srv
| ex_check_other :
    (∀ r, GetRun (srv_store srv) id = Some r → Run_Status r ≠ RunRunning) →
    exec_step srv EStarted EAborting srv
| ex_abort : exec_step srv EAborting EDone (snd (finishRunCancel id srv))
| ex_event c e :
    is_cancel_request e = false →
    exec_step srv ERunning ERunning (run_write c id (OpEvent e) srv)
| ex_return o : outcomes o → exec_step srv ERunning (EReturned o) srv
| ex_finish o :
    exec_step srv (EReturned o) (EWriting (fst (finishRunCancel id srv)) o)
      (snd (finishRunCancel id srv))
| ex_write c canceled o :
    exec_step srv (EWriting canceled o) EDone
      (run_write c id (final_write (clk_now c) id sc canceled o) srv).

(** The report [cancelRun] writes for a run nobody executes yet. *)
Definition queued_report (c : clock) (r : RunRecord) : Report :=
  api_canceledReport (clk_now c) id (Scenario_Name (Run_Scenario r))
    "run canceled before worker execution".

(** One part of [cancelRun]. *)
Inductive cancel_step (srv : Server St B) : cancel_pc → cancel_pc → Server St B → Prop :=
| cs_unknown :
    GetRun (srv_store srv) id = None →
    cancel_step srv CInit (CDone (Refused StatusNotFound)) srv
| cs_ended r :
    GetRun (srv_store srv) id = Some r → isCancelableRunStatus (Run_Status r) = false →
    cancel_step srv CInit (CDone (Refused StatusConflict)) srv
| cs_read r :
    GetRun (srv_store srv) id = Some r → isCancelableRunStatus (Run_Status r) = true →
    cancel_step srv CInit (CRead r) srv
| cs_request c r requested st :
    RequestRunCancel c id (srv_store srv) = (requested, st) →
    cancel_step srv (CRead r)
      (if requested then CRequested r else CDone (Refused StatusConflict)) (set_store st srv)
| cs_registry r hit srv' :
    requestRunCancel id srv = (hit, srv') →
    cancel_step srv (CRequested r)
      (if hit then CDone AcceptedHit
       else if String.eqb (Run_Status r) RunQueued then CMissed r else CDone AcceptedLate) srv'
| cs_cancel c r :
    cancel_step srv (CMissed r) (CDone AcceptedQueued)
      (run_write c id (OpCancel (queued_report c r)) srv).

Inductive sys_step (s : sys St B) : sys St B → Prop :=
| sy_exec_step pc srv :
    exec_step (sy_srv s) (sy_exec s) pc srv → sys_step s (Build_sys srv pc (sy_cancels s))
| sy_cancel_step i pc pc' srv :
    sy_cancels s !! i = Some pc → cancel_step (sy_srv s) pc pc' srv →
    sys_step s (Build_sys srv (sy_exec s) (<[i := pc']> (sy_cancels s))).

(** A queued run that the process is about to execute, and [n] requests. *)
Definition sys_init (srv : Server St B) (n : nat) : sys St B :=
  Build_sys srv EInit (replicate n CInit).
Definition fresh_run (srv : Server St B) : Prop :=
  (∃ r, GetRun (srv_store srv) id = Some r ∧ Run_Status r = RunQueued) ∧ finished_cleanly id srv.

Inductive reachable (srv : Server St B) (n : nat) : sys St B → Prop :=
| reach_init : reachable srv n (sys_init srv n)
| reach_step s s' : reachable srv n s → sys_step s s' → reachable srv n s'.

Definition cancel_done (pc : cancel_pc) : bool :=
  match pc with CDone _ => true | _ => false end.
Definition sys_done (s : sys St B) : Prop :=
  sy_exec s = EDone ∧ Forall (λ pc, cancel_done pc = true) (sy_cancels s).

(** How far a state is from the end, the runner's events aside. *)
Definition exec_left (pc : exec_pc) : nat :=
  match pc with
  | EInit => 6 | ERegistered => 5 | EStarted => 4 | ERunning => 3 | EReturned _ => 2
  | EWriting _ _ | EAborting => 1 | EDone => 0
  end.
Definition cancel_left (pc : cancel_pc) : nat :=
  match pc with CInit => 4 | CRead _ => 3 | CRequested _ => 2 | CMissed _ => 1 | CDone _ => 0 end.
Definition sys_left (s : sys St B) : nat :=
  (exec_left (sy_exec s) + sum_list_with cancel_left (sy_cancels s))%nat.
Definition is_runner_event (s s' : sys St B) : Prop := sy_exec s = ERunning ∧ sy_exec s' = ERunning
  ∧ sy_cancels s' = sy_cancels s.
End Sys.

(** ** The invariant *)
Section Invariant.
Context `{UT : UnicodeTables} `{RL : RunStoreLaws St} {B : Type}.
Variable id : string.
Variable sc : Scenario.
Variable ctx : nat.
Variable outcomes : Report * error → Prop.
Hypothesis outcomes_storable : ∀ now canceled o,
  outcomes o → storable (final_write now id sc canceled o) = true.
Hypothesis queued_storable : ∀ c r, storable (OpCancel (queued_report id c r)) = true.

Abbreviation step := (sys_step id sc ctx outcomes).

Definition status_of (srv : Server St B) : option RunStatus :=
  life_status (life_of (srv_store srv) id).

(** The statuses possible at each point of the execution. *)
Definition exec_status (pc : exec_pc) (st : RunStatus) : Prop :=
  match pc with
  | EInit | ERegistered => st = RunQueued ∨ st = RunCanceled
  | EStarted | ERunning | EReturned _ | EWriting _ _ => st = RunRunning ∨ st = RunCanceled
  | EAborting => st = RunCanceled
  | EDone => isTerminalRunStatus st = true
  end.
(** The execution is registered exactly between its two critical sections. *)
Definition exec_registered (pc : exec_pc) : bool :=
  match pc with ERegistered | EStarted | EAborting | ERunning | EReturned _ => true | _ => false end.
Definition exec_outcome (pc : exec_pc) : Prop :=
  match pc with EReturned o | EWriting _ o => outcomes o | _ => True end.

(** A cancellation that reached the registry is on its way to the store. *)
Definition hit_tracked (s : sys St B) : Prop :=
  match sy_exec s with
  | ERegistered | EStarted | EAborting | ERunning | EReturned _ =>
      id ∈ srv_cancelRequests (sy_srv s)
  | EWriting canceled _ => canceled = true
  | EDone => status_of (sy_srv s) = Some RunCanceled
  | EInit => False
  end.
Definition answer_ok (s : sys St B) (pc : cancel_pc) : Prop :=
  match pc with
  | CDone AcceptedHit => hit_tracked s
  | CDone AcceptedQueued => from_option isTerminalRunStatus false (status_of (sy_srv s)) = true
  | _ => True
  end.

Record SysOK (s : sys St B) : Prop := {
  ok_status : ∃ st, status_of (sy_srv s) = Some st ∧ exec_status (sy_exec s) st;
  ok_registered : is_Some (srv_runCancels (sy_srv s) !! id) ↔ exec_registered (sy_exec s) = true;
  ok_outcome : exec_outcome (sy_exec s);
  ok_answers : Forall (answer_ok s) (sy_cancels s);
}.

Lemma status_write c o (srv : Server St B) :
  storable o = true →
  status_of (run_write c id o srv)
  = life_status (life_write (life_of (srv_store srv) id) o).
Proof. intros Ho. unfold status_of. rewrite run_write_life. unfold life_step. by rewrite Ho. Qed.

Lemma status_known (srv : Server St B) st :
  status_of srv = Some st → ∃ r, GetRun (srv_store srv) id = Some r ∧ Run_Status r = st.
Proof. apply status_of_life. Qed.

Lemma status_event c e (srv : Server St B) : status_of (run_write c id (OpEvent e) srv) = status_of srv.
Proof.
  unfold status_of. rewrite run_write_life. unfold life_step. destruct (storable _); [|done].
  simpl. by destruct (life_status (life_of (srv_store srv) id)) eqn:E.
Qed.

(** Writes that set a status, on a run whose status is known. *)
Lemma status_with c o st st' (srv : Server St B) :
  storable o = true → status_of srv = Some st →
  (∀ l, life_write l o = with_status st' l) →
  status_of (run_write c id o srv)
  = Some (if isTerminalRunStatus st then st else st').
Proof.
  intros Ho Hst Hw. rewrite status_write, Hw by done. unfold with_status, live.
  unfold status_of in Hst. rewrite Hst. by destruct (isTerminalRunStatus st).
Qed.

Lemma status_request c (srv : Server St B) b st :
  RequestRunCancel c id (srv_store srv) = (b, st) → status_of (set_store st srv) = status_of srv.
Proof.
  intros Hr. unfold status_of. simpl.
  assert (st = run_op_apply OpRequestCancel c id (srv_store srv)) as -> by (simpl; by rewrite Hr).
  rewrite op_life. unfold life_step. rewrite (storable_bare OpRequestCancel). simpl.
  by destruct (from_option _ _ _).
Qed.

Lemma terminal_stays (o : run_op) c (srv : Server St B) st :
  status_of srv = Some st → isTerminalRunStatus st = true →
  status_of (run_write c id o srv) = Some st.
Proof.
  intros Hst Ht. destruct (status_known _ _ Hst) as (r & Hr & <-).
  unfold status_of. simpl. by rewrite life_of_status, (op_terminal _ o c id r Hr Ht).
Qed.

(** A step keeps the answers good when it tracks the hits and ended runs. *)
Lemma answers_keep (s s' : sys St B) :
  (hit_tracked s → hit_tracked s') →
  (∀ st, status_of (sy_srv s) = Some st → isTerminalRunStatus st = true →
         status_of (sy_srv s') = Some st) →
  Forall (answer_ok s) (sy_cancels s) → Forall (answer_ok s') (sy_cancels s).
Proof.
  intros Hh Ht Hall. eapply Forall_impl; [exact Hall|]. intros [|r|r|r|[]]; simpl; auto.
  destruct (status_of (sy_srv s)) as [st|] eqn:E; simpl; [|done].
  intros Hst. by rewrite (Ht st).
Qed.

Lemma exec_step_ok (s : sys St B) pc srv :
  SysOK s → exec_step id sc ctx outcomes (sy_srv s) (sy_exec s) pc srv →
  SysOK (Build_sys srv pc (sy_cancels s)).
Proof.
  destruct s as [srv0 pc0 cs]. intros [(st & Hst & Hpc) Hreg Hout Hans] Hstep. simpl in *.
  assert (∀ srv', status_of srv' = status_of srv0 →
    ∀ st', status_of srv0 = Some st' → isTerminalRunStatus st' = true → status_of srv' = Some st')
    as Hsame by (intros srv' ->; done).
  inversion Hstep; subst; simpl in *; clear Hstep.
  - (* register *)
    split; simpl; [by exists st|rewrite lookup_insert_eq; by split; eauto|done|].
    by apply (answers_keep (Build_sys srv0 EInit cs)); [|apply Hsame|].
  - (* start *)
    assert (status_of (run_write c id OpStart srv0)
            = Some (if isTerminalRunStatus st then st else RunRunning)) as Hst'
      by (apply (status_with c OpStart st); [apply (storable_bare OpStart)|done|done]).
    split; simpl; [|done|done|].
    + eexists. split; [exact Hst'|]. destruct Hpc as [-> | ->]; simpl; by auto.
    + apply (answers_keep (Build_sys srv0 ERegistered cs)); [done| |done].
      intros st' H1 H2. by apply terminal_stays.
  - (* check: running *)
    split; simpl; [by exists st|done|done|].
    by apply (answers_keep (Build_sys srv EStarted cs)); [|apply Hsame|].
  - (* check: other *)
    split; simpl; [|done|done|by apply (answers_keep (Build_sys srv EStarted cs)); [|apply Hsame|]].
    exists st. split; [done|]. destruct (status_known _ _ Hst) as (r & Hr & Hrs).
    destruct Hpc as [-> | ->]; [|done]. exfalso. eapply H0; eauto.
  - (* abort *)
    split; simpl; [exists st; split; [done|by rewrite Hpc]| |done|].
    + rewrite lookup_delete_eq. split; [by intros []|done].
    + apply (answers_keep (Build_sys srv0 EAborting cs)); [|by apply Hsame|done].
      simpl. unfold hit_tracked. simpl. unfold status_of in *. simpl. by rewrite Hst, Hpc.
  - (* the runner logs *)
    pose proof (status_event c e srv0) as He. split; simpl; [rewrite He; by exists st|done|done|].
    by apply (answers_keep (Build_sys srv0 ERunning cs)); [|apply Hsame|].
  - (* the runner returns *)
    split; simpl; [by exists st|done|done|].
    by apply (answers_keep (Build_sys srv ERunning cs)); [|apply Hsame|].
  - (* finish *)
    split; simpl; [by exists st| |done|].
    + rewrite lookup_delete_eq. split; [by intros []|done].
    + apply (answers_keep (Build_sys srv0 (EReturned o) cs)); [|by apply Hsame|done].
      unfold hit_tracked. simpl. apply bool_decide_eq_true_2.
  - (* the final write *)
    assert (status_of (run_write c id (final_write (clk_now c) id sc canceled o) srv0)
            = Some (if isTerminalRunStatus st then st else final_status canceled o)) as Hst'.
    { apply (status_with c _ st); [by apply outcomes_storable|done|].
      intros l. pose proof (final_op_step l _ _ (outcomes_storable (clk_now c) canceled o Hout)
        (final_write_status (clk_now c) id sc canceled o)) as Hf.
      unfold life_step in Hf. by rewrite outcomes_storable in Hf. }
    split; simpl; [|done|done|].
    + eexists. split; [exact Hst'|]. destruct (isTerminalRunStatus st) eqn:Ht; [done|].
      unfold final_status, verdict_status. by repeat case_match.
    + apply (answers_keep (Build_sys srv0 (EWriting canceled o) cs)); [| |done].
      * unfold hit_tracked. simpl. intros ->. rewrite Hst'. by destruct Hpc as [-> | ->].
      * intros st' H1 H2. by apply terminal_stays.
Qed.

Lemma cancel_step_ok (s : sys St B) i pc pc' srv :
  SysOK s → sy_cancels s !! i = Some pc → cancel_step id (sy_srv s) pc pc' srv →
  SysOK (Build_sys srv (sy_exec s) (<[i := pc']> (sy_cancels s))).
Proof.
  destruct s as [srv0 epc cs]. intros [(st & Hst & Hpc) Hreg Hout Hans] Hi Hstep. simpl in *.
  assert (∀ srv' pc0, status_of srv' = status_of srv0 →
    srv_runCancels srv' = srv_runCancels srv0 →
    (hit_tracked (Build_sys srv0 epc cs) → hit_tracked (Build_sys srv' epc cs)) →
    answer_ok (Build_sys srv' epc cs) pc0 →
    SysOK (Build_sys srv' epc (<[i := pc0]> cs))) as Hkeep.
  { intros srv' pc0 Hs Hr Hh Ha. split; simpl; [by exists st; rewrite Hs|by rewrite Hr|done|].
    apply Forall_insert; [|done].
    apply (answers_keep (Build_sys srv0 epc cs) (Build_sys srv' epc cs)); [exact Hh| |exact Hans].
    simpl. by rewrite Hs. }
  inversion Hstep; subst; clear Hstep.
  - by apply Hkeep.
  - by apply Hkeep.
  - by apply Hkeep.
  - apply Hkeep; [by eapply status_request|done| |by destruct requested].
    unfold hit_tracked. simpl. destruct epc; try done.
    by rewrite (status_request _ _ _ _ H0).
  - unfold requestRunCancel in H0.
    destruct (srv_runCancels srv0 !! id) as [cx|] eqn:E; injection H0 as <- <-.
    + pose proof (proj1 Hreg (mk_is_Some _ _ eq_refl)) as Hpcs.
      assert (hit_tracked (Build_sys (Build_Server (srv_store srv0) (srv_blobs srv0)
        (srv_runCancels srv0) ({[id]} ∪ srv_cancelRequests srv0) ({[cx]} ∪ srv_canceledCtx srv0))
        epc cs)) as Hh.
      { unfold hit_tracked. simpl.
        destruct epc; try discriminate Hpcs; apply elem_of_union_l, elem_of_singleton; done. }
      by apply Hkeep.
    + apply Hkeep; [done|done|done|]. by destruct (String.eqb _ _).
  - assert (status_of (run_write c id (OpCancel (queued_report id c r)) srv0)
            = Some (if isTerminalRunStatus st then st else RunCanceled)) as Hst'
      by (apply (status_with c _ st); [apply queued_storable|done|done]).
    assert (∀ st', status_of srv0 = Some st' → isTerminalRunStatus st' = true →
      status_of (run_write c id (OpCancel (queued_report id c r)) srv0) = Some st') as Hterm
      by (intros st' H1 H2; by apply terminal_stays).
    split; simpl; [|done|done|].
    + eexists. split; [exact Hst'|]. destruct (isTerminalRunStatus st) eqn:Ht; [done|].
      destruct epc; simpl in *; auto; by rewrite Hpc in Ht.
    + apply Forall_insert.
      * apply (answers_keep (Build_sys srv0 epc cs)); [|done|done].
        unfold hit_tracked. simpl. destruct epc; try done. intros Hc. by apply Hterm.
      * simpl. rewrite Hst'. simpl. by destruct (isTerminalRunStatus st) eqn:Ht.
Qed.

Lemma reachable_ok (srv : Server St B) n s :
  fresh_run id srv → reachable id sc ctx outcomes srv n s → SysOK s.
Proof.
  intros [(r & Hr & Hq) [Hreg Hreq]]. induction 1 as [|s s' _ IH Hstep].
  - split; simpl.
    + exists RunQueued. split; [|by left]. unfold status_of. by rewrite life_of_status, Hr, <-Hq.
    + rewrite Hreg. split; [by intros []|done].
    + done.
    + by apply Forall_replicate.
  - destruct Hstep; [by apply exec_step_ok|by eapply cancel_step_ok].
Qed.

(** C8: a cancellation that reaches a run in time cancels it: in every
    interleaving of the execution of a queued run with any number of cancel
    requests, once the execution is over the run has ended, its registry entry
    is gone, and if a request found it there the run is canceled, whatever the
    runner returned. *)
Theorem cancel_reaches_run (srv : Server St B) n s :
  fresh_run id srv → reachable id sc ctx outcomes srv n s → sy_exec s = EDone →
  ended (srv_store (sy_srv s)) id
  ∧ srv_runCancels (sy_srv s) !! id = None
  ∧ (CDone AcceptedHit ∈ sy_cancels s →
     ∃ r, GetRun (srv_store (sy_srv s)) id = Some r ∧ Run_Status r = RunCanceled).
Proof.
  intros Hfresh Hreach Hdone. destruct (reachable_ok srv n s Hfresh Hreach)
    as [(st & Hst & Hpc) Hreg _ Hans].
  rewrite Hdone in *. simpl in *. split_and!.
  - destruct (status_known _ _ Hst) as (r & Hr & <-). by exists r.
  - destruct (srv_runCancels _ !! id); [|done]. discriminate (proj1 Hreg (mk_is_Some _ _ eq_refl)).
  - intros Hin. rewrite Forall_forall in Hans. specialize (Hans _ Hin). simpl in Hans.
    unfold hit_tracked in Hans. rewrite Hdone in Hans. by apply status_known.
Qed.

Lemma sum_list_insert {A} (f : A → nat) l i x y :
  l !! i = Some x → (f y < f x)%nat →
  (sum_list_with f (<[i := y]> l) < sum_list_with f l)%nat.
Proof.
  revert i. induction l as [|z l IH]; intros [|i] Hi Hlt; simpl in *; [done..| |].
  - injection Hi as ->. lia.
  - specialize (IH _ Hi Hlt). lia.
Qed.

Definition some_clock : clock := Build_clock 0 0.

Lemma exec_progress (srv : Server St B) pc o r :
  outcomes o → GetRun (srv_store srv) id = Some r → pc ≠ EDone →
  ∃ pc' srv', exec_step id sc ctx outcomes srv pc pc' srv' ∧ (exec_left pc' < exec_left pc)%nat.
Proof.
  intros Ho Hr Hne. destruct pc; try done.
  - eexists _, _. split; [apply ex_register|simpl; lia].
  - eexists _, _. split; [apply (ex_start _ _ _ _ _ some_clock)|simpl; lia].
  - destruct (decide (Run_Status r = RunRunning)) as [Hs|Hs]; eexists _, _; split.
    + by eapply ex_check_running.
    + simpl; lia.
    + apply ex_check_other. intros r'. rewrite Hr. by intros [= <-].
    + simpl; lia.
  - eexists _, _. split; [apply ex_abort|simpl; lia].
  - eexists _, _. split; [by apply (ex_return _ _ _ _ _ o)|simpl; lia].
  - eexists _, _. split; [apply ex_finish|simpl; lia].
  - eexists _, _. split; [apply (ex_write _ _ _ _ _ some_clock)|simpl; lia].
Qed.

Lemma cancel_step_left (srv : Server St B) pc pc' srv' :
  cancel_step id srv pc pc' srv' → (cancel_left pc' < cancel_left pc)%nat.
Proof.
  destruct 1; simpl; try lia; [destruct requested|destruct hit; [|destruct (String.eqb _ _)]];
    simpl; lia.
Qed.

Lemma cancel_progress (srv : Server St B) pc :
  cancel_done pc = false → ∃ pc' srv', cancel_step id srv pc pc' srv'.
Proof.
  destruct pc as [|r|r|r|]; [| | | |done]; intros _.
  - destruct (GetRun (srv_store srv) id) as [r|] eqn:Hr; [|by eexists _, _; apply cs_unknown].
    destruct (isCancelableRunStatus (Run_Status r)) eqn:Hc; eexists _, _;
      [by eapply cs_read|by eapply cs_ended].
  - destruct (RequestRunCancel some_clock id (srv_store srv)) eqn:E.
    eexists _, _. by eapply cs_request.
  - destruct (requestRunCancel id srv) eqn:E. eexists _, _. by apply cs_registry.
  - eexists _, _. apply (cs_cancel _ _ some_clock).
Qed.

Lemma step_left (s s' : sys St B) : step s s' → is_runner_event s s' ∨ (sys_left s' < sys_left s)%nat.
Proof.
  destruct s as [srv0 pc0 cs].
  intros [pc srv' He|i pc pc' srv' Hi Hc]; unfold sys_left; simpl in *.
  - destruct He; simpl; try (right; lia). by left.
  - right. pose proof (sum_list_insert cancel_left _ _ _ pc' Hi (cancel_step_left _ _ _ _ Hc)). lia.
Qed.

Lemma sum_list_with_replicate_init n : sum_list_with cancel_left (replicate n CInit) = (4 * n)%nat.
Proof. induction n as [|n IH]; simpl; [done|]. rewrite IH. lia. Qed.

End Invariant.

(** ** Requests that are accepted in vain *)
#[local] Existing Instance ascii_tables.

Definition passed_outcome : Report * error := (sample_report StatusPassed, None).
Definition api_queued : Server Memory MemoryStore :=
  NewWithQueue (mem_after [MCreateRun (sample_clock 1) "" "" zero_Scenario []]) None.
Definition only_passed (o : Report * error) : Prop := o = passed_outcome.

Lemma api_queued_fresh : fresh_run "run_1" api_queued.
Proof. split; [eexists; split; [vm_compute; reflexivity|reflexivity]|]. split; [done|set_solver]. Qed.

(** [follow R t]: one more step of the run [R], by [t]. *)
Ltac follow R t := eapply reach_step in R; [|t].

(** A cancellation can be accepted in vain: there is an interleaving in
    which a request to cancel a running run is answered 202 with the status
    "canceled", after the execution has left the registry and before it writes,
    and the run ends as passed. *)
Theorem accepted_cancel_lost :
  ∃ s, reachable "run_1" zero_Scenario 0 only_passed api_queued 1 s
       ∧ sys_done s ∧ sy_cancels s = [CDone AcceptedLate]
       ∧ Run_Status <$> GetRun (srv_store (sy_srv s)) "run_1" = Some RunPassed.
Proof.
  pose proof (reach_init "run_1" zero_Scenario 0 only_passed api_queued 1) as R.
  follow R ltac:(apply sy_exec_step, ex_register).
  follow R ltac:(apply sy_exec_step, (ex_start _ _ _ _ _ (sample_clock 2))).
  follow R ltac:(apply sy_exec_step; eapply ex_check_running; reflexivity).
  follow R ltac:(apply sy_exec_step, (ex_return _ _ _ _ _ passed_outcome); reflexivity).
  (* the request reads the running record; the execution leaves the registry *)
  follow R ltac:(apply (sy_cancel_step _ _ _ _ _ 0 CInit); [reflexivity|eapply cs_read; reflexivity]).
  follow R ltac:(apply sy_exec_step, ex_finish).
  (* the request is stored and misses the registry *)
  follow R ltac:(eapply (sy_cancel_step _ _ _ _ _ 0 (CRead _));
                 [reflexivity|apply (cs_request _ _ (sample_clock 8)); reflexivity]).
  follow R ltac:(eapply (sy_cancel_step _ _ _ _ _ 0 (CRequested _));
                 [reflexivity|apply cs_registry; reflexivity]).
  follow R ltac:(apply sy_exec_step, (ex_write _ _ _ _ _ (sample_clock 9))).
  eexists. split; [exact R|].
  split_and!; [split; [done|repeat constructor]|reflexivity|vm_compute; reflexivity].
Qed.

Lemma only_passed_storable now canceled o :
  only_passed o → storable (final_write now "run_1" zero_Scenario canceled o) = true.
Proof. done. Qed.

(** A run whose cancellation arrives while the runner works. *)
Lemma canceled_path :
  ∃ s, reachable "run_1" zero_Scenario 0 only_passed api_queued 1 s
       ∧ sy_exec s = EDone ∧ sy_cancels s = [CDone AcceptedHit].
Proof.
  pose proof (reach_init "run_1" zero_Scenario 0 only_passed api_queued 1) as R.
  follow R ltac:(apply sy_exec_step, ex_register).
  follow R ltac:(apply sy_exec_step, (ex_start _ _ _ _ _ (sample_clock 2))).
  follow R ltac:(apply sy_exec_step; eapply ex_check_running; reflexivity).
  follow R ltac:(apply (sy_cancel_step _ _ _ _ _ 0 CInit); [reflexivity|eapply cs_read; reflexivity]).
  follow R ltac:(eapply (sy_cancel_step _ _ _ _ _ 0 (CRead _));
                 [reflexivity|apply (cs_request _ _ (sample_clock 8)); reflexivity]).
  follow R ltac:(eapply (sy_cancel_step _ _ _ _ _ 0 (CRequested _));
                 [reflexivity|apply cs_registry; reflexivity]).
  follow R ltac:(apply sy_exec_step, (ex_return _ _ _ _ _ passed_outcome); reflexivity).
  follow R ltac:(apply sy_exec_step, ex_finish).
  follow R ltac:(apply sy_exec_step, (ex_write _ _ _ _ _ (sample_clock 9))).
  eexists. split; [exact R|]. by split.
Qed.

Lemma cancel_reaches_run_witness :
  ∃ s : sys Memory MemoryStore, sy_exec s = EDone
  ∧ ∃ r, GetRun (srv_store (sy_srv s)) "run_1" = Some r ∧ Run_Status r = RunCanceled.
Proof.
  destruct canceled_path as (s & Hs & Hd & Hc). exists s. split; [exact Hd|].
  edestruct (cancel_reaches_run (B := MemoryStore) "run_1" zero_Scenario 0 only_passed) as (_ & _ & H).
  - exact only_passed_storable.
  - reflexivity.
  - exact api_queued_fresh.
  - exact Hs.
  - exact Hd.
  - apply H. rewrite Hc. left.
Defined.

