(* ===== verification/ApiStream.v ===== *)
(** * Streaming the events of a run (src/apps/api/internal/httpapi/server.go,
    [streamRunEvents])

    The handler polls the store: it lists the events, sends those it has not
    sent, reads the run, and stops when the run has ended or waits.  A [poll]
    holds what others call on the store between the two reads and while the
    handler waits, and whether the client goes away while it waits. *)

From S2P Require Export HttpApi.

Open Scope Z_scope.

Record poll := {
  po_between : list call;      (* between ListRunEvents and GetRun *)
  po_waiting : list call;      (* until the next tick *)
  po_gone : bool;              (* the request's context is done before the tick *)
}.

(** Why the loop stopped. *)
Inductive stream_end := SWriteFailed | SEnded | SGone | SOpen.

Section Stream.
Context `{RS : RunStore St}.
Variable id : string.
Variable writes : Event → bool.       (* writeSSEEvent returns nil *)

(** The inner loop: the events sent, the last sequence, and no write error. *)
Fixpoint send_events (events : list Event) (last : Z) : list Event * Z * bool :=
  match events with
  | [] => ([], last, true)
  | event :: events =>
      if Event_Sequence event <=? last then send_events events last
      else if negb (writes event) then ([], last, false)
      else let '(sent, last, ok) := send_events events (Event_Sequence event) in
           (event :: sent, last, ok)
  end.

Fixpoint stream_loop (polls : list poll) (last : Z) (s : St)
  : list Event * stream_end * St :=
  match polls with
  | [] => ([], SOpen, s)
  | p :: polls =>
      let events := ListRunEvents s id in
      let '(sent, last, ok) := send_events events last in
      if negb ok then (sent, SWriteFailed, s)
      else
        let s := ops_apply (po_between p) s in
        if match GetRun s id with
           | Some record => isTerminalRunStatus (Run_Status record) || hasTerminalEvent events
           | None => true
           end
        then (sent, SEnded, s)
        else
          let s := ops_apply (po_waiting p) s in
          if po_gone p then (sent, SGone, s)
          else let '(sent', e, s) := stream_loop polls last s in (sent ++ sent', e, s)
  end.

(** [header] and [after] are the two places a client names the last event it
    has; [flushes] says that the response can be flushed. *)
Definition streamRunEvents `{UnicodeTables} (flushes : bool) (header after : string)
    (polls : list poll) (s : St) : Response + (list Event * stream_end * St) :=
  match GetRun s id with
  | None => inl (writeError StatusNotFound ("run " +:+ Quote id +:+ " not found"))
  | Some _ =>
      if negb flushes then inl (writeError 500 "streaming is not supported")
      else inr (stream_loop polls (lastEventSequence header after) s)
  end.
End Stream.

(** ** What is sent *)
Section Sent.
Context `{RL : RunStoreLaws St}.
Variable id : string.

Lemma send_events_spec log base last :
  (∀ i e, log !! i = Some e → Event_Sequence e = Z.of_nat (base + i) + 1) →
  Z.of_nat base ≤ last →
  send_events (λ _, true) log last
  = (drop (Z.to_nat last - base) log, Z.max last (Z.of_nat (base + length log)), true).
Proof.
  revert base last. induction log as [|e log IH]; intros base last Hn Hb; cbn [send_events].
  - rewrite drop_nil. f_equal. f_equal. simpl. lia.
  - assert (Event_Sequence e = Z.of_nat base + 1) as He
      by (rewrite (Hn 0%nat e eq_refl); lia).
    assert (∀ i e, log !! i = Some e → Event_Sequence e = Z.of_nat (S base + i) + 1) as Hn'
      by (intros i e' Hi; rewrite (Hn (S i) e' Hi); lia).
    destruct (Z.leb_spec (Event_Sequence e) last) as [Hle|Hlt].
    + rewrite (IH (S base) last Hn') by lia.
      replace (Z.to_nat last - base)%nat with (S (Z.to_nat last - S base)) by lia.
      f_equal. f_equal. simpl. lia.
    + cbn [negb]. rewrite (IH (S base) _ Hn') by lia. rewrite He.
      replace (Z.to_nat (Z.of_nat base + 1) - S base)%nat with 0%nat by lia.
      replace (Z.to_nat last - base)%nat with 0%nat by lia.
      f_equal. f_equal. simpl. lia.
Qed.

Lemma slice_app {A} (l : list A) (a n k : nat) :
  (n ≤ length l)%nat →
  drop a (take n l) ++ drop (Nat.max a n) (take k l) = drop a (take (Nat.max n k) l).
Proof.
  intros Hn. destruct (decide (k ≤ n)%nat) as [Hk|Hk].
  - rewrite (drop_ge (take k l)) by (rewrite length_take; lia).
    rewrite app_nil_r. do 2 f_equal. lia.
  - replace (Nat.max n k) with k by lia. replace k with (n + (k - n))%nat by lia.
    rewrite <-(take_take_drop l n (k - n)).
    destruct (decide (a ≤ n)%nat) as [Ha|Ha].
    + replace (Nat.max a n) with n by lia.
      rewrite (drop_app_ge (take n l)), (drop_app_le (take n l)); rewrite ?length_take; try lia.
      do 2 f_equal. replace (n - n `min` length l)%nat with 0%nat by lia. done.
    + rewrite (drop_ge (take n l)) by (rewrite length_take; lia).
      replace (Nat.max a n) with a by lia. done.
Qed.

(** The final log extends the one the loop starts with. *)
Lemma stream_loop_log polls last s :
  ∃ es, ListRunEvents (stream_loop id (λ _, true) polls last s).2 id = ListRunEvents s id ++ es.
Proof.
  revert last s. induction polls as [|p polls IH]; intros last s; cbn [stream_loop].
  - exists []. by rewrite app_nil_r.
  - destruct (send_events _ _ _) as [[sent last'] ok]. destruct (negb ok).
    { exists []. by rewrite app_nil_r. }
    destruct (ops_events (po_between p) s id) as [e1 H1].
    destruct (match GetRun _ id with Some _ => _ | None => _ end); [by eexists|].
    destruct (ops_events (po_waiting p) (ops_apply (po_between p) s) id) as [e2 H2].
    destruct (po_gone p); [exists (e1 ++ e2); cbn [snd]; by rewrite H2, H1, app_assoc|].
    specialize (IH last' (ops_apply (po_waiting p) (ops_apply (po_between p) s))).
    destruct (stream_loop _ _ _ _ _) as [[sent' e] s'] eqn:E. cbn [snd] in *.
    destruct IH as [e3 ->]. exists (e1 ++ e2 ++ e3). by rewrite H2, H1, !app_assoc.
Qed.

Lemma stream_loop_spec polls last s :
  Numbered (ListRunEvents s id) → 0 ≤ last →
  let '(sent, e, s') := stream_loop id (λ _, true) polls last s in
  let log := ListRunEvents s' id in
  ∃ k, sent = drop (Z.to_nat last) (take k log)
       ∧ (e = SEnded → Forall (λ p, po_between p = []) polls → (length log ≤ k)%nat).
Proof.
  revert last s. induction polls as [|p polls IH]; intros last s Hn Hl; cbn [stream_loop].
  { exists 0%nat. split; [by rewrite take_0, drop_nil|done]. }
  rewrite (send_events_spec (ListRunEvents s id) 0 last); [|exact Hn|lia]. cbn [negb].
  rewrite Nat.sub_0_r, Nat.add_0_l.
  set (log := ListRunEvents s id) in *. set (s1 := ops_apply (po_between p) s).
  destruct (ops_events (po_between p) s id) as [e1 H1]. fold s1 log in H1.
  assert (∀ es, drop (Z.to_nat last) log
          = drop (Z.to_nat last) (take (length log) (log ++ es))) as Htake
    by (intros es; by rewrite take_app_length).
  destruct (match GetRun s1 id with Some _ => _ | None => _ end).
  { exists (length log). rewrite H1. split; [apply Htake|]. intros _ Hall.
    apply Forall_cons in Hall as [Hp _]. unfold s1 in H1. rewrite Hp in H1. simpl in H1.
    fold log in H1. rewrite <-H1. done. }
  set (s2 := ops_apply (po_waiting p) s1).
  destruct (ops_events (po_waiting p) s1 id) as [e2 H2]. fold s2 in H2. rewrite H1 in H2.
  destruct (po_gone p).
  { exists (length log). split; [|done]. rewrite H2, <-app_assoc. apply Htake. }
  assert (Numbered (ListRunEvents s2 id)) as Hn2 by (by apply ops_numbered, ops_numbered).
  specialize (IH (Z.max last (Z.of_nat (length log))) s2 Hn2 ltac:(lia)).
  pose proof (stream_loop_log polls (Z.max last (Z.of_nat (length log))) s2) as [e3 H3].
  destruct (stream_loop _ _ _ _ s2) as [[sent e] s3]. cbn [snd] in H3.
  destruct IH as (k & -> & Hend). rewrite H2, <-!app_assoc in H3.
  exists (Nat.max (length log) k). split.
  - rewrite <-slice_app by (rewrite H3, length_app; lia).
    f_equal; [|do 2 f_equal; lia]. rewrite H3. apply Htake.
  - intros He Hall. apply Forall_cons in Hall as [_ Hall]. specialize (Hend He Hall). lia.
Qed.

Lemma lastEventSequence_nonneg header after : 0 ≤ lastEventSequence header after.
Proof.
  unfold lastEventSequence. destruct (Atoi _) as [n|]; [|done].
  destruct (Z.ltb_spec n 0); lia.
Qed.

(** C13: a client is sent every event once, in order and without gaps: what the
    stream sends is a contiguous piece of the run's log, from just after the
    event the client names (nothing is skipped, repeated or reordered), whatever
    is written to the store meanwhile; and when nobody writes between the two
    reads of a poll, a stream that ends because the run has ended has sent the
    whole rest of the log. *)
Theorem stream_contiguous `{UnicodeTables} header after polls (s : St) sent e s' :
  Numbered (ListRunEvents s id) →
  streamRunEvents id (λ _, true) true header after polls s = inr (sent, e, s') →
  let log := ListRunEvents s' id in
  let first := Z.to_nat (lastEventSequence header after) in
  (∃ k, sent = drop first (take k log))
  ∧ (e = SEnded → Forall (λ p, po_between p = []) polls → sent = drop first log).
Proof.
  intros Hn Hs log first. unfold streamRunEvents in Hs.
  destruct (GetRun s id); [|done]. cbn [negb] in Hs. injection Hs as Hs.
  pose proof (stream_loop_spec polls _ s Hn (lastEventSequence_nonneg header after)) as Hspec.
  rewrite Hs in Hspec. destruct Hspec as (k & -> & Hend). fold log first in Hend |- *.
  split; [by exists k|]. intros He Hall. by rewrite take_ge by auto.
Qed.
End Sent.

(** ** Examples *)
#[local] Existing Instance ascii_tables.

Definition stream_store : Memory :=
  mem_after [MCreateRun (sample_clock 1) "" "" zero_Scenario []; MRun OpStart (sample_clock 2) "run_1"].
Definition complete_call : call := (OpComplete (sample_report StatusPassed), sample_clock 3, "run_1").

Lemma stream_contiguous_witness :
  ∃ sent s', streamRunEvents "run_1" (λ _, true) true "1" "" 
               [Build_poll [] [complete_call] false; Build_poll [] [] false] stream_store
             = inr (sent, SEnded, s')
             ∧ sent = drop 1 (ListRunEvents s' "run_1").
Proof.
  eexists _, _. split; [vm_compute; reflexivity|].
  eapply (stream_contiguous "run_1" "1" "" [Build_poll [] [complete_call] false; Build_poll [] [] false]
            stream_store).
  - intros [|[|i]] e He; vm_compute in He; [injection He as <-; reflexivity..|discriminate].
  - vm_compute. reflexivity.
  - reflexivity.
  - repeat constructor.
Defined.

(** A stream can end without the event that ends the run: when the run
    completes between the two reads of a poll, the stream stops because the run
    has ended, and its last event was never sent. *)
Theorem stream_misses_end :
  ∃ polls sent s',
    streamRunEvents "run_1" (λ _, true) true "" "" polls stream_store = inr (sent, SEnded, s')
    ∧ (∃ e, last (ListRunEvents s' "run_1") = Some e ∧ Event_Type e = TypeRunCompleted)
    ∧ hasTerminalEvent sent = false.
Proof.
  exists [Build_poll [complete_call] [] false]. eexists _, _.
  split; [vm_compute; reflexivity|]. split; [eexists|]; by vm_compute.
Qed.
