(* ===== verification/ApiRoutes.v ===== *)
(** * The HTTP surface of the API (src/apps/api/internal/httpapi/server.go,
      [Handler], [withCORS], [withJSON])

    A request as the server receives it, the routing table of [Handler], and the
    handler that the multiplexer and the two wrappers make of it. *)

From S2P Require Export GoMux ApiSpec ApiStream.
From Stdlib Require Import Ascii.

Open Scope Z_scope.

(** ** The table of [Handler] *)
Inductive endpoint :=
| EpHealth | EpMetrics
| EpListTargets | EpCreateTarget | EpGetTarget | EpUpdateTarget | EpDeleteTarget
| EpListScenarios | EpCreateScenario | EpGetScenario | EpUpdateScenario
| EpListScenarioVersions | EpGetScenarioVersion
| EpListRuns | EpCreateRun | EpCancelRun | EpGetRunEvents | EpStreamRunEvents | EpGetRun.
#[export] Instance endpoint_dec : EqDecision endpoint.
Proof. solve_decision. Defined.

Definition handle_funcs : list (string * endpoint) :=
  [("GET /healthz", EpHealth);
   ("GET /metrics", EpMetrics);
   ("GET /v1/targets", EpListTargets);
   ("POST /v1/targets", EpCreateTarget);
   ("GET /v1/targets/{id}", EpGetTarget);
   ("PUT /v1/targets/{id}", EpUpdateTarget);
   ("DELETE /v1/targets/{id}", EpDeleteTarget);
   ("GET /v1/scenarios", EpListScenarios);
   ("POST /v1/scenarios", EpCreateScenario);
   ("GET /v1/scenarios/{id}", EpGetScenario);
   ("PUT /v1/scenarios/{id}", EpUpdateScenario);
   ("GET /v1/scenarios/{id}/versions", EpListScenarioVersions);
   ("GET /v1/scenarios/{id}/versions/{version}", EpGetScenarioVersion);
   ("GET /v1/runs", EpListRuns);
   ("POST /v1/runs", EpCreateRun);
   ("POST /v1/runs/{id}/cancel", EpCancelRun);
   ("GET /v1/runs/{id}/events", EpGetRunEvents);
   ("GET /v1/runs/{id}/events/stream", EpStreamRunEvents);
   ("GET /v1/runs/", EpGetRun)].

(** The body of an answer, and the answer. *)
Inductive AnswerBody :=
| BPayload (p : Payload)
| BStream (sent : list Event) (how : stream_end).
Record Answer := { ans_Status : Z; ans_Header : Header; ans_Body : AnswerBody }.

(** What the handler of one request reads besides the request: the clock, the
    queue, what others do meanwhile, the connection. *)
Record ServeEnv := {
  se_clock : clock;
  se_dispatch : Dispatch;
  se_cancel : CancelEnv;
  se_flushes : bool;
  se_writes : Event → bool;
  se_polls : list poll;
}.

Section Routes.
Context `{UT : UnicodeTables} `{JE : JsonErrors} `{DE : DecodeErrors} `{AS : ApiStore St}
  `{BL : BlobStore B}.
Variable cfg : Config.
Variable env : string → string.

Definition mux_routes : list (pattern * endpoint) :=
  omap (λ '(s, e), (λ p, (p, e)) <$> parsePattern s) handle_funcs.

(** What a handler leaves: the answer, the server and the run it has started in
    a goroutine. *)
Definition served : Type := Answer * Server St B * option (string * Scenario).
Definition http_handler : Type := HttpRequest → Header → Server St B → served.

Definition answer (h : Header) (resp : HttpApi.Response) : Answer :=
  Build_Answer (Resp_Status resp) (Header_Set "Content-Type" (Resp_Type resp) h)
    (BPayload (Resp_Body resp)).
Definition read_only (h : Header) (resp : HttpApi.Response) (srv : Server St B) : served :=
  (answer h resp, srv, None).
Definition changing (h : Header) (r : HttpApi.Response * Server St B) : served :=
  (answer h r.1, r.2, None).

(** The handler of each endpoint, on the values of the path. *)
Definition serve_endpoint (se : ServeEnv) (e : endpoint) (values : gmap string string) : http_handler :=
  λ r h srv,
    let id := default "" (values !! "id") in
    let body := default "" (hr_Body r) in
    let c := se_clock se in
    match e with
    | EpHealth => read_only h (health (clk_now c)) srv
    | EpMetrics => read_only h (metrics srv) srv
    | EpListTargets => read_only h (listTargets srv) srv
    | EpCreateTarget => changing h (createTarget cfg c body srv)
    | EpGetTarget => read_only h (getTarget id srv) srv
    | EpUpdateTarget => changing h (updateTarget cfg c id body srv)
    | EpDeleteTarget => changing h (deleteTarget id srv)
    | EpListScenarios => read_only h (listScenarios srv) srv
    | EpCreateScenario => changing h (createScenario cfg env c body srv)
    | EpGetScenario => read_only h (getScenario id srv) srv
    | EpUpdateScenario => changing h (updateScenario cfg env c id body srv)
    | EpListScenarioVersions => read_only h (listScenarioVersions id srv) srv
    | EpGetScenarioVersion =>
        read_only h (getScenarioVersion id (default "" (values !! "version")) srv) srv
    | EpListRuns => read_only h (listRuns srv) srv
    | EpCreateRun =>
        let '(resp, srv, started) := createRun cfg env c (se_dispatch se) body srv in
        (answer h resp, srv, started)
    | EpCancelRun => changing h (cancelRun (se_cancel se) id srv)
    | EpGetRunEvents => read_only h (getRunEvents id srv) srv
    | EpStreamRunEvents =>
        match streamRunEvents id (se_writes se) (se_flushes se)
                (Header_Get "Last-Event-ID" (hr_Header r))
                (Query_Get "after" (URL_RawQuery (hr_URL r))) (se_polls se) (srv_store srv) with
        | inl resp => read_only h resp srv
        | inr (sent, how, st) =>
            (Build_Answer StatusOK
               (Header_Set "Connection" "keep-alive" (Header_Set "Cache-Control" "no-cache"
                  (Header_Set "Content-Type" "text/event-stream" h)))
               (BStream sent how), set_store st srv, None)
        end
    | EpGetRun => read_only h (getRun (URL_Path (hr_URL r)) srv) srv
    end.

(** ** The multiplexer and its answers where no handler is registered *)
(** [http.Error]. *)
Definition http_Error (h : Header) (status : Z) (text : string) (srv : Server St B) : served :=
  (Build_Answer status
     (Header_Set "X-Content-Type-Options" "nosniff"
        (Header_Set "Content-Type" "text/plain; charset=utf-8" h))
     (BPayload (PText (text +:+ newline))), srv, None).
Definition serve_mux (se : ServeEnv) : http_handler := λ r h srv,
  match findHandler mux_routes (hr_Method r) (hr_URL r) with
  | MuxHandler e values => serve_endpoint se e values r h srv
  | MuxBadRequest =>
      (Build_Answer 400 (Header_Set "Connection" "close" h) (BPayload PEmpty), srv, None)
  | MuxRedirect location =>
      (Build_Answer 301 (Header_Set "Location" (URL_String location) h) (BPayload PEmpty), srv, None)
  | MuxMethodNotAllowed allow =>
      http_Error (Header_Set "Allow" allow h) 405 "Method Not Allowed" srv
  | MuxNotFound => http_Error h 404 "404 page not found" srv
  end.

(** ** The wrappers *)
Definition withJSON (next : http_handler) : http_handler := λ r h srv,
  next r (Header_Set "Content-Type" "application/json" h) srv.
Definition withCORS (next : http_handler) : http_handler := λ r h srv,
  let h := Header_Set "Access-Control-Allow-Origin" "*" h in
  let h := Header_Set "Access-Control-Allow-Methods" "GET,POST,PUT,DELETE,OPTIONS" h in
  let h := Header_Set "Access-Control-Allow-Headers" "Content-Type,Authorization" h in
  if String.eqb (hr_Method r) "OPTIONS" then
    (Build_Answer StatusNoContent h (BPayload PEmpty), srv, None)
  else next r h srv.

(** [Server.Handler], serving one request. *)
Definition serve (se : ServeEnv) (r : HttpRequest) (srv : Server St B) : served :=
  withCORS (withJSON (serve_mux se)) r ∅ srv.
End Routes.

(** ** Paths *)
Section Paths.
Context `{UT : UnicodeTables}.

(** The text [raw] is a segment of a path that a client sends for the value
    [v], however it escapes it. *)
Record raw_segment (raw v : string) : Prop := {
  rs_slash : lacks "/"%char raw = true;
  rs_plain : raw ≠ "" ∧ raw ≠ "." ∧ raw ≠ "..";
  rs_value : unescape raw encodePath = Ok v;
  rs_not_slash : v ≠ "/";
}.
Definition path_of (segs : list string) : string := "/" +:+ Join segs "/".

Lemma Join_cons s t l sep : Join (s :: t :: l) sep = s +:+ sep +:+ Join (t :: l) sep.
Proof. done. Qed.
Lemma clean_segments_id segs out :
  Forall (λ s, s ≠ "" ∧ s ≠ "." ∧ s ≠ "..") segs →
  fold_left (λ out seg,
    if String.eqb seg "" || String.eqb seg "." then out
    else if String.eqb seg ".." then tail out else seg :: out) segs out = rev segs ++ out.
Proof.
  revert out. induction segs as [|s segs IH]; intros out Hs; [done|].
  apply Forall_cons in Hs as [(H1 & H2 & H3) Hs]. simpl.
  rewrite (proj2 (String.eqb_neq s "")), (proj2 (String.eqb_neq s ".")),
    (proj2 (String.eqb_neq s "..")) by done. simpl. rewrite IH by done. by rewrite <-app_assoc.
Qed.
Lemma Split_byte_count c s : length (Split_byte c s) = S (Count_byte s c).
Proof.
  induction s as [|d s IH]; simpl; [done|]. destruct (Ascii.eqb d c); simpl; [by rewrite IH|].
  by destruct (Split_byte c s).
Qed.
Lemma suffix_of_last q s u : q +:+ s = u +:+ "/" → s ≠ "" → ∃ v, s = v +:+ "/".
Proof.
  revert u. induction q as [|c q IH]; intros u He Hs; [by exists u|].
  destruct u as [|d u]; simpl in He.
  - injection He as _ He. by destruct q, s.
  - injection He as _ He. by apply (IH u).
Qed.
Lemma no_slash_suffix q s : lacks "/"%char s = true → s ≠ "" → HasSuffix (q +:+ s) "/" = false.
Proof.
  intros Hl Hs. apply not_true_is_false. intros [u Hu]%HasSuffix_spec.
  destruct (suffix_of_last q s u Hu Hs) as [v ->]. by rewrite lacks_app, andb_false_r in Hl.
Qed.
Lemma Join_last l s : ∃ q, Join (l ++ [s]) "/" = q +:+ s.
Proof.
  induction l as [|t l [q IH]]; [by exists ""|].
  destruct (l ++ [s]) as [|s' l'] eqn:E1; [by destruct l|].
  exists (t +:+ "/" +:+ q). change ((t :: l) ++ [s]) with (t :: (l ++ [s])).
  rewrite E1, Join_cons, IH. by rewrite !append_assoc.
Qed.

(** A path of plain segments. *)
Definition plain_segment (s : string) : Prop :=
  lacks "/"%char s = true ∧ s ≠ "" ∧ s ≠ "." ∧ s ≠ "..".
Section Plain.
Variable segs : list string.
Hypothesis Hne : segs ≠ [].
Hypothesis Hsegs : Forall plain_segment segs.

Lemma path_of_split : Split_byte "/"%char (path_of segs) = "" :: segs.
Proof.
  unfold path_of. change ("/" +:+ Join segs "/") with ("" +:+ String "/"%char (Join segs "/")).
  rewrite Split_byte_app by done. rewrite Split_byte_Join; [done|done|].
  eapply Forall_impl; [exact Hsegs|]. by intros s [].
Qed.
Lemma path_of_suffix : HasSuffix (path_of segs) "/" = false.
Proof.
  destruct (exists_last Hne) as (l & s & ->). unfold path_of. destruct (Join_last l s) as [q ->].
  apply Forall_app in Hsegs as [_ [(Hs & Hn & _) _]%Forall_cons].
  rewrite <-append_assoc. by apply no_slash_suffix.
Qed.
Lemma path_of_clean : cleanPath (path_of segs) = path_of segs.
Proof.
  unfold cleanPath. change (String.eqb (path_of segs) "") with false. cbn [negb].
  replace (HasPrefix (path_of segs) "/") with true by (symmetry; apply prefix_app).
  cbv iota zeta.
  rewrite path_of_suffix, path_of_split. cbn [andb]. cbv iota. unfold clean_segments, path_of.
  f_equal. f_equal. simpl. rewrite clean_segments_id; [by rewrite app_nil_r, rev_involutive|].
  eapply Forall_impl; [exact Hsegs|]. by intros s [].
Qed.
Lemma path_of_segments : path_segments (path_of segs) = map pathUnescape segs.
Proof.
  unfold path_segments. change (String.eqb (path_of segs) "") with false. cbv iota.
  assert (Split_byte "/"%char (string_drop 1 (path_of segs)) = segs) as ->.
  { change (string_drop 1 (path_of segs)) with (Join segs "/"). apply Split_byte_Join; [done|].
    eapply Forall_impl; [exact Hsegs|]. by intros s []. }
  clear Hne. induction Hsegs as [|s l [_ [Hs _]] Hl IH]; [done|]. destruct l as [|t l].
  - simpl. by rewrite (proj2 (String.eqb_neq s "")).
  - change (path_pieces (s :: t :: l)) with (pathUnescape s :: path_pieces (t :: l)).
    by rewrite IH.
Qed.

(** The same path with a slash at its end. *)
Lemma path_of_slash : path_of segs +:+ "/" = path_of (segs ++ [""]).
Proof.
  unfold path_of. rewrite append_assoc. f_equal. clear Hsegs.
  induction segs as [|s [|t l] IH]; [done|done|].
  change ((s :: t :: l) ++ [""]) with (s :: t :: (l ++ [""])). rewrite !Join_cons.
  rewrite !append_assoc. f_equal. f_equal. by apply IH.
Qed.
Lemma path_slash_split : Split_byte "/"%char (string_drop 1 (path_of segs +:+ "/")) = segs ++ [""].
Proof.
  rewrite path_of_slash. change (string_drop 1 (path_of (segs ++ [""]))) with (Join (segs ++ [""]) "/").
  apply Split_byte_Join; [by destruct segs|]. apply Forall_app_2; [|by repeat constructor].
  eapply Forall_impl; [exact Hsegs|]. by intros s [].
Qed.
Lemma path_slash_segments : path_segments (path_of segs +:+ "/") = map pathUnescape segs ++ ["/"].
Proof.
  unfold path_segments. change (String.eqb (path_of segs +:+ "/") "") with false. cbv iota.
  rewrite path_slash_split. clear. induction segs as [|s l IH]; [done|].
  simpl. rewrite <-IH. by destruct (l ++ [""]) eqn:E1; [destruct l|].
Qed.
Lemma path_slash_count : Count_byte (path_of segs +:+ "/") "/"%char = S (length segs).
Proof.
  pose proof (Split_byte_count "/"%char (string_drop 1 (path_of segs +:+ "/"))) as Hc.
  rewrite path_slash_split, length_app in Hc. cbn [length] in Hc.
  change (Count_byte (path_of segs +:+ "/") "/"%char)
    with (S (Count_byte (string_drop 1 (path_of segs +:+ "/")) "/"%char)). lia.
Qed.
End Plain.
End Paths.

(** ** Reaching the endpoints *)
Section Reach.
Context `{UT : UnicodeTables}.

(** The segments of a pattern, with texts for its wildcards. *)
Fixpoint instantiate (p : list segment) (raws : list string) : list string :=
  match p, raws with
  | SLit s :: p, raws => s :: instantiate p raws
  | SWild _ :: p, raw :: raws => raw :: instantiate p raws
  | _, _ => []
  end.

Lemma raw_plain raw v : raw_segment raw v → plain_segment raw.
Proof. by intros [H1 (H2 & H3 & H4) _ _]. Qed.
Lemma raw_value raw v : raw_segment raw v → pathUnescape raw = v.
Proof. intros [_ _ H _]. unfold pathUnescape. by rewrite H. Qed.

(** On a clean path that does not ask for a redirect, the handler is that of the
    route that matches. *)
Lemma findHandler_clean routes m u segs p (e : endpoint) ms :
  m ≠ "CONNECT" → segs ≠ [] → Forall plain_segment segs → EscapedPath u = path_of segs →
  match_route routes m (path_of segs) = Some (p, e, ms) →
  (ends_multi p = false ∨
   exactMatch (match_route routes m (path_of segs +:+ "/")) (path_of segs +:+ "/") = false) →
  findHandler routes m u = MuxHandler e (path_values p ms).
Proof.
  intros Hm Hne Hs Hu Hr Hex. unfold findHandler. rewrite Hu.
  change (String.eqb (path_of segs) "*") with false. cbv iota.
  rewrite (proj2 (String.eqb_neq m "CONNECT")) by done.
  rewrite path_of_clean by done. rewrite Hr.
  assert (negb (exactMatch (Some (p, e, ms)) (path_of segs))
    && negb (HasSuffix (path_of segs) "/")
    && exactMatch (match_route routes m (path_of segs +:+ "/")) (path_of segs +:+ "/") = false)
    as ->.
  { destruct Hex as [Hex|Hex]; [unfold exactMatch at 1; by rewrite Hex|].
    by rewrite Hex, andb_false_r. }
  by rewrite String.eqb_refl.
Qed.

Ltac compute_routes :=
  match goal with |- context [mux_routes] =>
    let l := eval vm_compute in mux_routes in change mux_routes with l end.
Lemma matched_by_method routes m path (r : pattern * endpoint * list string) :
  matchPath (method_node routes m) (path_segments path) [] = Some r →
  match_route routes m path = Some r.
Proof. intros H. unfold match_route, match_method. by rewrite H. Qed.

Lemma endpoint_matches p e raws vs :
  (p, e) ∈ mux_routes → ends_multi p = false → Forall2 raw_segment raws vs →
  length raws = length (wild_names p) →
  let segs := instantiate (pat_segments p) raws in
  segs ≠ [] ∧ Forall plain_segment segs ∧ pat_method p ≠ "CONNECT" ∧
  matchPath (method_node mux_routes (pat_method p)) (map pathUnescape segs) [] = Some (p, e, vs).
Proof.
  compute_routes. intros Hin Hp Hr Hl segs. subst segs. revert Hp Hl.
  repeat (apply elem_of_cons in Hin as [[= -> ->]|Hin]); [..|by apply elem_of_nil in Hin];
    intros Hp Hl; [..|done];
    destruct Hr as [|raw1 v1 ? ? R1 [|raw2 v2 ? ? R2 [|]]]; try discriminate Hl;
    (split; [done|]);
    (split; [repeat constructor; try done; by eapply raw_plain|]);
    (split; [done|]).
  1, 2, 3, 4, 8, 9, 14, 15: reflexivity.
  all: cbn [pat_segments instantiate map]; rewrite ?(raw_value _ _ R1).
  all: try rewrite (raw_value _ _ R2).
  all: simpl; rewrite (proj2 (String.eqb_neq v1 "/")) by apply R1; simpl.
  all: try reflexivity.
  by rewrite (proj2 (String.eqb_neq v2 "/")) by apply R2.
Qed.

(** The routes of [/v1/runs/...]. *)
Lemma getRun_matches segs raw v :
  segs = [] ∨ segs = ["report"] → raw_segment raw v →
  let path := "v1" :: "runs" :: raw :: segs in
  Forall plain_segment path ∧
  ∃ p, match_route mux_routes "GET" (path_of path) = Some (p, EpGetRun, []) ∧
    path_values p [] = ∅ ∧
    exactMatch (match_route mux_routes "GET" (path_of path +:+ "/")) (path_of path +:+ "/") = false.
Proof.
  intros Hsegs R path. pose proof (raw_plain _ _ R) as Hraw.
  assert (Hp : Forall plain_segment path).
  { unfold path. destruct Hsegs as [->| ->]; repeat constructor; done || apply Hraw. }
  split; [done|].
  exists (Build_pattern "GET" [SLit "v1"; SLit "runs"; SMulti]).
  assert (Hv := raw_value _ _ R). pose proof (rs_not_slash _ _ R) as Hns.
  split.
  { apply matched_by_method. rewrite path_of_segments by done. unfold path. compute_routes.
    destruct Hsegs as [->| ->]; cbn [map]; rewrite Hv; simpl;
      by rewrite (proj2 (String.eqb_neq v "/")). }
  split; [done|].
  assert (match_route mux_routes "GET" (path_of path +:+ "/")
    = Some (Build_pattern "GET" [SLit "v1"; SLit "runs"; SMulti], EpGetRun, [])) as ->.
  { apply matched_by_method. rewrite path_slash_segments by done. unfold path. compute_routes.
    destruct Hsegs as [->| ->]; cbn [map app]; rewrite Hv; simpl;
      by rewrite (proj2 (String.eqb_neq v "/")). }
  unfold exactMatch. simpl negb. cbv iota. destruct (negb _); [done|].
  rewrite path_slash_count by done. unfold path. by destruct Hsegs as [->| ->].
Qed.

(** C11: every endpoint of the API answers at its address: whatever text a
    client escapes into the path for an identifier (but the empty one, a dot,
    two dots and a slash), the request reaches the handler registered for the
    pattern, with exactly that identifier, and no other pattern takes it; and
    [/v1/runs/{id}] and [/v1/runs/{id}/report] reach [getRun], past the longer
    patterns below the same prefix. *)
Theorem endpoints_reachable (u : URL) :
  (∀ p e raws vs, (p, e) ∈ mux_routes → e ≠ EpGetRun → Forall2 raw_segment raws vs →
     length raws = length (wild_names p) →
     EscapedPath u = path_of (instantiate (pat_segments p) raws) →
     findHandler mux_routes (pat_method p) u
     = MuxHandler e (list_to_map (zip (wild_names p) vs)))
  ∧ (∀ raw v, raw_segment raw v →
       EscapedPath u = path_of ["v1"; "runs"; raw]
       ∨ EscapedPath u = path_of ["v1"; "runs"; raw; "report"] →
       findHandler mux_routes "GET" u = MuxHandler EpGetRun ∅).
Proof.
  split.
  - intros p e raws vs Hin He Hr Hl Hu.
    assert (Hp : ends_multi p = false).
    { revert Hin He. compute_routes. intros Hin He.
      repeat (apply elem_of_cons in Hin as [[= -> ->]|Hin]); [..|by apply elem_of_nil in Hin];
        first [reflexivity|by destruct He]. }
    destruct (endpoint_matches p e raws vs Hin Hp Hr Hl) as (Hne & Hs & Hm & Hmatch).
    eapply findHandler_clean; [done..|exact Hu| |by left].
    apply matched_by_method. by rewrite path_of_segments.
  - intros raw v R Hu.
    assert (∃ segs, (segs = [] ∨ segs = ["report"])
      ∧ EscapedPath u = path_of ("v1" :: "runs" :: raw :: segs)) as (segs & Hsegs & Hu').
    { destruct Hu as [Hu|Hu]; [by exists []; auto|by exists ["report"]; auto]. }
    destruct (getRun_matches segs raw v Hsegs R) as (Hp & p & Hm & Hv & Hex).
    rewrite <-Hv. apply (findHandler_clean _ _ _ ("v1" :: "runs" :: raw :: segs));
      [done|done|exact Hp|exact Hu'|exact Hm|by right].
Qed.
End Reach.

(** ** What a request changes *)
Section Effects.
Context `{UT : UnicodeTables} `{JE : JsonErrors} `{DE : DecodeErrors} `{AS : ApiStore St}
  `{BL : BlobStore B}.
Variable cfg : Config.
Variable env : string → string.

(** The calls of others during the polls of a stream. *)
Definition interference (polls : list poll) : list call :=
  concat (map (λ p, po_between p ++ po_waiting p) polls).
Lemma ops_apply_app (l1 l2 : list call) (s : St) :
  ops_apply (l1 ++ l2) s = ops_apply l2 (ops_apply l1 s).
Proof. unfold ops_apply. apply fold_left_app. Qed.
Lemma stream_loop_calls id writes polls last (s : St) :
  ∃ calls, (stream_loop id writes polls last s).2 = ops_apply calls s
    ∧ calls `prefix_of` interference polls.
Proof.
  revert last s. induction polls as [|p polls IH]; intros last s; simpl.
  { by exists []. }
  destruct (send_events writes _ last) as [[sent last'] ok].
  assert (Hnil : [] `prefix_of` interference (p :: polls)) by apply prefix_nil.
  destruct (negb ok); [by exists []|].
  destruct (match GetRun _ id with Some _ => _ | None => _ end).
  { exists (po_between p). split; [done|]. unfold interference. simpl. rewrite <-app_assoc.
    by apply prefix_app_r. }
  destruct (po_gone p).
  { exists (po_between p ++ po_waiting p). rewrite ops_apply_app. split; [done|].
    by apply prefix_app_r. }
  destruct (IH last' (ops_apply (po_waiting p) (ops_apply (po_between p) s))) as (calls & E1 & Hc).
  destruct (stream_loop _ _ polls last' _) as [[sent' how] s']. simpl in *.
  exists ((po_between p ++ po_waiting p) ++ calls). rewrite !ops_apply_app. split; [done|].
  destruct Hc as [k Hk]. exists k. unfold interference in *. simpl. by rewrite Hk, !app_assoc.
Qed.
Lemma streamRunEvents_calls id writes flushes header after polls (s : St) :
  match streamRunEvents id writes flushes header after polls s with
  | inl _ => True
  | inr (_, _, s') => ∃ calls, s' = ops_apply calls s ∧ calls `prefix_of` interference polls
  end.
Proof.
  unfold streamRunEvents. destruct (GetRun s id); [|done]. destruct (negb flushes); [done|].
  pose proof (stream_loop_calls id writes polls (lastEventSequence header after) s) as Hs.
  by destruct (stream_loop _ _ _ _ _) as [[sent how] s'].
Qed.

(** Every registered endpoint that can change the server has a method of its
    own. *)
Definition changing_methods : list string := ["POST"; "PUT"; "DELETE"].
Definition reading (e : endpoint) : bool :=
  bool_decide (e ∉ [EpCreateTarget; EpUpdateTarget; EpDeleteTarget; EpCreateScenario;
                    EpUpdateScenario; EpCreateRun; EpCancelRun]).
Lemma routes_by_method p e : (p, e) ∈ mux_routes →
  pat_method p ∉ changing_methods → reading e = true.
Proof.
  match goal with |- context [mux_routes] =>
    let l := eval vm_compute in mux_routes in change mux_routes with l end.
  intros Hin.
  repeat (apply elem_of_cons in Hin as [[= -> ->]|Hin]); [..|by apply elem_of_nil in Hin];
    intros Hm; try reflexivity; exfalso; apply Hm; simpl; set_solver.
Qed.
Lemma findHandler_route m u e values :
  findHandler mux_routes m u = MuxHandler e values →
  ∃ p, (p, e) ∈ mux_routes ∧ (pat_method p = m ∨ m = "HEAD" ∧ pat_method p = "GET").
Proof.
  unfold findHandler. destruct (String.eqb _ "*"); [done|]. cbv zeta.
  set (path := if String.eqb m "CONNECT" then _ else _).
  destruct (negb _ && _ && _); [done|]. destruct (negb (String.eqb path _)); [done|].
  destruct (match_route mux_routes m path) as [[[p e'] ms]|] eqn:Hr;
    [|by destruct (matchingMethods mux_routes path)].
  intros [= -> _]. exists p. unfold match_route in Hr.
  destruct (match_method mux_routes m path) as [r|] eqn:H1.
  - rewrite Hr in H1. apply match_method_sound in H1 as (Hin & Hm & _). by auto.
  - destruct (String.eqb_spec m "HEAD") as [->|]; [|done].
    apply match_method_sound in Hr as (Hin & Hm & _). by auto.
Qed.

Lemma set_store_same (srv : Server St B) : set_store (srv_store srv) srv = srv.
Proof. by destruct srv. Qed.

Lemma reading_endpoint se e values r h (srv : Server St B) : reading e = true →
  ∃ ans calls, serve_endpoint cfg env se e values r h srv
    = (ans, set_store (ops_apply calls (srv_store srv)) srv, None)
    ∧ calls `prefix_of` interference (se_polls se).
Proof.
  intros He.
  assert (Hro : ∀ resp, ∃ ans calls, read_only h resp srv
    = (ans, set_store (ops_apply calls (srv_store srv)) srv, None)
    ∧ calls `prefix_of` interference (se_polls se)).
  { intros resp. exists (answer h resp), []. unfold read_only, ops_apply. simpl.
    rewrite set_store_same. split; [done|]. apply prefix_nil. }
  destruct e; try discriminate He; try apply Hro. unfold serve_endpoint.
  pose proof (streamRunEvents_calls (default "" (values !! "id")) (se_writes se) (se_flushes se)
    (Header_Get "Last-Event-ID" (hr_Header r)) (Query_Get "after" (URL_RawQuery (hr_URL r)))
    (se_polls se) (srv_store srv)) as Hs.
  destruct (streamRunEvents _ _ _ _ _ _ _) as [resp|[[sent how] s']]; [apply Hro|].
  destruct Hs as (calls & -> & Hc). by eexists _, calls.
Qed.

(** C10: only POST, PUT and DELETE change anything: a request with another
    method (GET, HEAD, OPTIONS, whatever the path, the header and the body)
    leaves the store, the registry of running executions and the blobs as they
    are, up to what other calls do while it streams events, and starts no run. *)
Theorem safe_methods se r (srv : Server St B) (Hm : hr_Method r ∉ changing_methods) :
  ∃ ans calls,
    serve cfg env se r srv = (ans, set_store (ops_apply calls (srv_store srv)) srv, None)
    ∧ calls `prefix_of` interference (se_polls se).
Proof.
  unfold serve, withCORS. cbv zeta.
  assert (Hro : ∀ ans : Answer, ∃ ans' calls, (ans, srv, @None (string * Scenario))
    = (ans', set_store (ops_apply calls (srv_store srv)) srv, None)
    ∧ calls `prefix_of` interference (se_polls se)).
  { intros ans. exists ans, []. unfold ops_apply. simpl. rewrite set_store_same.
    split; [done|]. apply prefix_nil. }
  destruct (String.eqb _ "OPTIONS"); [apply Hro|]. unfold withJSON, serve_mux, http_Error.
  destruct (findHandler _ _ _) as [|e values|loc|allow|] eqn:Hf; try apply Hro.
  apply findHandler_route in Hf as (p & Hin & Hp). apply reading_endpoint.
  apply (routes_by_method p); [done|]. destruct Hp as [->|[_ ->]]; [done|].
  simpl. by apply (bool_decide_unpack _).
Qed.
End Effects.

(** ** A server under load *)
Section Load.
Context `{UT : UnicodeTables} `{JE : JsonErrors} `{DE : DecodeErrors} `{BL : BlobStore B}.
Variable cfg : Config.
Variable env : string → string.

(** One request that arrives, or a run that an earlier one has started. *)
Inductive api_event :=
| EvRequest (se : ServeEnv) (r : HttpRequest)
| EvExecute (ax : ApiRunEnv) (id : string) (sc : Scenario).
Definition event_apply (srv : Server Memory B) (ev : api_event) : Server Memory B :=
  match ev with
  | EvRequest se r => (serve cfg env se r srv).1.2
  | EvExecute ax id sc => executeRun ax id sc srv
  end.

Lemma ops_vetted calls (srv : Server Memory B) :
  vetted_calls cfg (srv_store srv) (ops_apply calls (srv_store srv)).
Proof.
  apply (run_calls_vetted cfg srv (set_store (ops_apply calls (srv_store srv)) srv)).
  apply run_calls_store.
Qed.
Lemma endpoint_vetted se e values r h (srv : Server Memory B) :
  vetted_calls cfg (srv_store srv) (srv_store (serve_endpoint cfg env se e values r h srv).1.2).
Proof.
  destruct (reading e) eqn:He.
  { destruct (reading_endpoint cfg env se e values r h srv He) as (ans & calls & -> & _).
    apply ops_vetted. }
  assert (Hcall : ∀ call, vetted_calls cfg (srv_store srv) (srv_store (api_apply cfg env srv call)))
    by apply api_refines_spec.
  set (c := se_clock se). set (body := default "" (hr_Body r)).
  set (id := default "" (values !! "id")).
  destruct e; try discriminate He.
  - apply (Hcall (CallCreateTarget c body)).
  - apply (Hcall (CallUpdateTarget c id body)).
  - apply (Hcall (CallDeleteTarget id)).
  - apply (Hcall (CallCreateScenario c body)).
  - apply (Hcall (CallUpdateScenario c id body)).
  - pose proof (Hcall (CallCreateRun c (se_dispatch se) body)) as Hr. simpl in Hr |- *.
    fold c body. by destruct (createRun cfg env c (se_dispatch se) body srv) as [[resp srv'] started].
  - apply (Hcall (CallCancelRun (se_cancel se) id)).
Qed.
Lemma event_vetted ev (srv : Server Memory B) :
  vetted_calls cfg (srv_store srv) (srv_store (event_apply srv ev)).
Proof.
  destruct ev as [se r|ax id sc]; [|apply run_calls_vetted, executeRun_run_calls].
  simpl. unfold serve, withCORS. cbv zeta.
  destruct (String.eqb _ "OPTIONS"); [apply vetted_calls_refl|].
  unfold withJSON, serve_mux, http_Error.
  destruct (findHandler _ _ _); try apply vetted_calls_refl. apply endpoint_vetted.
Qed.

End Load.

(** ** Examples *)
#[local] Existing Instances sample_json sample_errors ascii_tables plain_errors.

Definition url_of (path raw : string) : URL :=
  Build_URL "" "" None "" path raw false false "" "" "".
Definition sample_serve : ServeEnv :=
  Build_ServeEnv (Build_clock zero_time zero_time) (Queued None)
    (Build_CancelEnv [] [] [] (Build_clock zero_time zero_time)) true (λ _, true)
    [Build_poll [cancel_call] [] true].
Definition request_of (method path : string) : HttpRequest :=
  Build_HttpRequest method (url_of path "") ∅ None.

(** A slash in an identifier, escaped. *)
Lemma endpoints_reachable_witness :
  findHandler mux_routes "GET" (url_of "/v1/runs/a/b/events" "/v1/runs/a%2Fb/events")
  = MuxHandler EpGetRunEvents {["id" := "a/b"]}.
Proof.
  apply (proj1 (endpoints_reachable (url_of "/v1/runs/a/b/events" "/v1/runs/a%2Fb/events"))
    (Build_pattern "GET" [SLit "v1"; SLit "runs"; SWild "id"; SLit "events"]) EpGetRunEvents
    ["a%2Fb"] ["a/b"]); try reflexivity; [|done|].
  - apply (bool_decide_unpack _). vm_compute. exact I.
  - constructor; [|constructor]. by split.
Defined.

(** A stream during which another process cancels the run. *)
Lemma safe_methods_witness :
  ∃ ans calls,
    serve (FromEnv no_env) no_env sample_serve
      (request_of "GET" "/v1/runs/run_1/events/stream")
      (NewWithQueue queued_store (Some NewMemoryStore))
    = (ans, set_store (ops_apply calls queued_store)
              (NewWithQueue queued_store (Some NewMemoryStore)), None).
Proof.
  destruct (safe_methods (FromEnv no_env) no_env sample_serve
    (request_of "GET" "/v1/runs/run_1/events/stream")
    (NewWithQueue queued_store (Some NewMemoryStore))) as (ans & calls & H & _).
  - apply (bool_decide_unpack _). vm_compute. exact I.
  - by exists ans, calls.
Defined.

(** What the server says to a method that a path does not have, and to a path
    that is not clean. *)
Example delete_run_refused :
  findHandler mux_routes "DELETE" (url_of "/v1/runs/run_1" "") = MuxMethodNotAllowed "GET, HEAD".
Proof. vm_compute. reflexivity. Qed.
Example unclean_path_redirected :
  findHandler mux_routes "GET" (url_of "/v1//runs/../targets" "")
  = MuxRedirect (url_of "/v1/targets" "").
Proof. vm_compute. reflexivity. Qed.
Example slash_identifier_unreachable :
  findHandler mux_routes "GET" (url_of "/v1/targets//" "/v1/targets/%2F") = MuxNotFound.
Proof. vm_compute. reflexivity. Qed.
