(* ===== verification/System.v ===== *)
(** * The API, the queue and the workers together

    The API serves requests and queues the runs it creates, workers take tasks
    from the queue and execute them, and a server without a queue executes its
    runs in goroutines; all of them share one store.  A request or the handling
    of a task is one step, with the calls on runs that other processes make in
    between as its interference; what a process does that stops half-way is a
    step of calls of its own, and its task is delivered again.  What is proved
    is proved over any store that keeps the promises of [RunRecords]; the memory
    store does (here), the Postgres store does (PgSystem.v). *)

From S2P Require Export ApiRoutes Worker.

Open Scope Z_scope.

(** ** What a store promises about the records of runs *)
Definition stored_id (id : string) : Prop := ValidString id = true ∧ id ≠ "".

Section Records.
Context `{RS : RunStore St}.

Definition run_status (s : St) (id : string) : option RunStatus := Run_Status <$> GetRun s id.
Definition keeps_runs (s s' : St) : Prop := ∀ id, run_status s' id = run_status s id.
(** One run is new, and queued; the others stay. *)
Definition adds_run (run : RunRecord) (s s' : St) : Prop :=
  stored_id (Run_ID run) ∧ run_status s' (Run_ID run) = Some RunQueued
  ∧ ∀ id, same_id id (Run_ID run) = false → run_status s' id = run_status s id.
End Records.

Class RunRecords (St : Type) `{AS : ApiStore St} := {
  creating_target c t s : keeps_runs s (snd (st_CreateTarget c t s));
  updating_target c id t s : keeps_runs s (snd (st_UpdateTarget c id t s));
  deleting_target id s : keeps_runs s (snd (st_DeleteTarget id s));
  creating_scenario c sc s : keeps_runs s (snd (st_CreateScenario c sc s));
  updating_scenario c id sc s : keeps_runs s (snd (st_UpdateScenario c id sc s));
  creating_run c sid tid sc refs s :
    let '(run, s') := st_CreateRun c sid tid sc refs s in keeps_runs s s' ∨ adds_run run s s';
}.

Section System.
Context `{UT : UnicodeTables} `{JE : JsonErrors} `{DE : DecodeErrors} `{RJ : EncodeErrors}
  `{RL : RunStoreLaws St} {AS : ApiStore St} {RR : RunRecords St} `{BL : BlobLaws B}.
Variable cfg : Config.
Variable os_env : string → string.

Record system := {
  sys_server : Server St B;
  sys_queue : list Task;
  sys_goroutines : list (string * Scenario);     (* executions started, not yet done *)
}.
Definition sys_store (sy : system) : St := srv_store (sys_server sy).

(** What [createRun] has put into the queue: the task of the run of a 202 answer. *)
Definition queue_after (dispatch : Dispatch) (ans : Answer) (queue : list Task) : list Task :=
  match dispatch, ans_Body ans with
  | Queued client, BPayload (PRun run) =>
      if ans_Status ans =? StatusAccepted then snd (EnqueueRun client (Run_ID run) queue) else queue
  | _, _ => queue
  end.
Definition set_blobs (b : B) (srv : Server St B) : Server St B :=
  Build_Server (srv_store srv) (Some b) (srv_runCancels srv) (srv_cancelRequests srv)
    (srv_canceledCtx srv).

(** The store can hold what a request, a task or an execution may write. *)
Definition dispatch_storable (d : Dispatch) : Prop :=
  match d with
  | Queued (Some err) => storable (OpError ("enqueue run: " +:+ err)) = true
  | Queued None => True
  | InProcess ax => ∀ id sc, run_storable ax id sc
  end.
Definition env_storable (ex : ExecEnv) : Prop := ∀ id name, exec_storable id name ex.

Inductive sys_step : system → system → Prop :=
| sys_request se r srv queue gs ans srv' started :
    dispatch_storable (se_dispatch se) →
    serve cfg os_env se r srv = (ans, srv', started) →
    sys_step (Build_system srv queue gs)
      (Build_system srv' (queue_after (se_dispatch se) ans queue) (gs ++ option_list started))
| sys_task h ctx c ex task queue1 queue2 srv gs b err st b' :
    env_storable ex → srv_blobs srv = Some b →
    handleRunExecute h ctx task c ex (srv_store srv) b = (err, st, b') →
    sys_step (Build_system srv (queue1 ++ task :: queue2) gs)
      (Build_system (set_blobs b' (set_store st srv)) (queue1 ++ queue2) gs)
| sys_goroutine ax id sc srv queue gs1 gs2 :
    run_storable ax id sc →
    sys_step (Build_system srv queue (gs1 ++ (id, sc) :: gs2))
      (Build_system (executeRun ax id sc srv) queue (gs1 ++ gs2))
(** Other processes: calls on runs, and tasks delivered again. *)
| sys_calls l srv queue gs :
    sys_step (Build_system srv queue gs)
      (Build_system (set_store (ops_apply l (srv_store srv)) srv) queue gs)
| sys_redelivered task srv queue gs :
    sys_step (Build_system srv queue gs) (Build_system srv (queue ++ [task]) gs).

Definition sys_init (s : St) (b : B) : system := Build_system (NewWithQueue s (Some b)) [] [].

(** ** Statuses *)
Definition known (st : RunStatus) : Prop :=
  isTerminalRunStatus st || isCancelableRunStatus st = true.
Definition known_run (s : St) (id : string) : Prop := ∃ st, run_status s id = Some st ∧ known st.

Lemma run_status_life s id : run_status s id = life_status (life_of s id).
Proof. symmetry. apply life_of_status. Qed.
Lemma run_status_same s id id' : same_id id id' = true → run_status s id = run_status s id'.
Proof. intros Hs. by destruct (same_id_reads s id' id Hs). Qed.
Lemma ended_status s id :
  ended s id ↔ ∃ st, run_status s id = Some st ∧ isTerminalRunStatus st = true.
Proof.
  unfold ended, run_status. split.
  - intros (r & -> & Ht). by exists (Run_Status r).
  - intros (st & (r & Hr & ->)%fmap_Some & Ht). by exists r.
Qed.
Lemma ended_same s id id' : same_id id id' = true → ended s id' → ended s id.
Proof. intros Hs. by rewrite !ended_status, (run_status_same s id id' Hs). Qed.
Lemma ended_keeps s s' id : keeps_runs s s' → ended s id → ended s' id.
Proof. intros Hk. by rewrite !ended_status, (Hk id). Qed.

(** Every run of [s'] is one of [s], still known, and ended if it had ended; or
    it is one of [P]. *)
Definition runs_kept (P : string → Prop) (s s' : St) : Prop :=
  ∀ id st', run_status s' id = Some st' →
    P id ∨ ∃ st, run_status s id = Some st ∧ (known st → known st')
                ∧ (isTerminalRunStatus st = true → isTerminalRunStatus st' = true).
Definition none_new (id : string) : Prop := False.

Lemma runs_kept_same P s s' : keeps_runs s s' → runs_kept P s s'.
Proof. intros Hk id st' Hs. right. exists st'. by rewrite <-(Hk id). Qed.
Lemma runs_kept_trans P s1 s2 s3 : runs_kept P s1 s2 → runs_kept none_new s2 s3 → runs_kept P s1 s3.
Proof.
  intros H1 H2 id st3 H3. destruct (H2 id st3 H3) as [[]|(st2 & Hs2 & Hk2 & Ht2)].
  destruct (H1 id st2 Hs2) as [Hp|(st1 & Hs1 & Hk1 & Ht1)]; [by left|right].
  exists st1. split_and!; auto.
Qed.

(** The calls on runs neither make nor revive one. *)
Lemma life_step_known lf o :
  match life_status lf, life_status (life_step lf o) with
  | Some st, Some st' => (known st → known st')
                         ∧ (isTerminalRunStatus st = true → isTerminalRunStatus st' = true)
  | None, None => True
  | _, _ => False
  end.
Proof.
  unfold life_step. destruct (storable o); [|by destruct (life_status lf)].
  destruct lf as [[st|] cb]; simpl.
  - destruct o; simpl; unfold with_status, live; simpl;
      try (destruct (isTerminalRunStatus st) eqn:Ht; simpl; rewrite ?Ht; split; try done;
           unfold known, verdict_status; by try case_match).
    by destruct (isCancelableRunStatus st).
  - by destruct o.
Qed.
Lemma runs_kept_ops P l s : runs_kept P s (ops_apply l s).
Proof.
  intros id. pose (Q := λ lf, match run_status s id, life_status lf with
    | Some st, Some st' => (known st → known st')
                         ∧ (isTerminalRunStatus st = true → isTerminalRunStatus st' = true)
    | None, None => True
    | _, _ => False end).
  assert (HQ : Q (life_of (ops_apply l s) id)).
  { apply life_of_ops; unfold Q; rewrite ?run_status_life.
    - intros lf o. pose proof (life_step_known lf o) as Hs.
      destruct (life_status lf), (life_status (life_step lf o)), (life_status (life_of s id));
        naive_solver.
    - by destruct (life_status (life_of s id)). }
  intros st' Hs'. unfold Q in HQ. rewrite run_status_life in Hs'. rewrite Hs' in HQ.
  destruct (run_status s id) as [st|]; [|done]. right. by exists st.
Qed.
Lemma runs_kept_calls P s s' : by_calls s s' → runs_kept P s s'.
Proof. intros [l ->]. apply runs_kept_ops. Qed.

(** ** A run that is stored has ended, is queued, or is executing *)
Definition looked_after (s : St) (queue : list Task) (gs : list (string * Scenario))
    (id : string) : Prop :=
  ended s id ∨ known_run s id ∧ ∃ id', same_id id id' = true ∧ stored_id id'
                               ∧ (NewRunTask id' ∈ queue ∨ id' ∈ gs.*1).

Lemma looked_after_mono s queue gs queue' gs' id :
  looked_after s queue gs id → queue ⊆ queue' → gs.*1 ⊆ gs'.*1 → looked_after s queue' gs' id.
Proof.
  intros [He|(Hk & id' & Hs & Hid & Hq)] Hqs Hgs; [by left|right].
  split; [done|]. exists id'. split_and!; [done..|]. destruct Hq; [left|right]; auto.
Qed.
Lemma looked_after_kept s s' queue gs id st' :
  (∀ st, run_status s id = Some st → looked_after s queue gs id) →
  (∃ st, run_status s id = Some st ∧ (known st → known st')
         ∧ (isTerminalRunStatus st = true → isTerminalRunStatus st' = true)) →
  run_status s' id = Some st' → looked_after s' queue gs id.
Proof.
  intros Hl (st & Hs & Hk & Ht) Hs'. destruct (Hl st Hs) as [He|((st0 & Hst0 & Hk0) & Hq)].
  - left. rewrite ended_status in *. destruct He as (st0 & Hst0 & Ht0). simplify_eq. eauto.
  - right. split; [|done]. simplify_eq. exists st'. split; [done|auto].
Qed.

(** *** Requests *)
Lemma queue_after_app d ans queue : queue_after d ans queue = queue ++ queue_after d ans [].
Proof.
  unfold queue_after, EnqueueRun. repeat case_match; simpl; by rewrite ?app_nil_r.
Qed.

(** What [createRun] does to the runs: it stores none, or it stores one, and has
    ended it, started it or answers with it. *)
Lemma createRun_runs c dispatch body (srv : Server St B) : dispatch_storable dispatch →
  let '(resp, srv', started) := createRun cfg os_env c dispatch body srv in
  runs_kept none_new (srv_store srv) (srv_store srv') ∨ ∃ run,
    stored_id (Run_ID run)
    ∧ runs_kept (λ id, same_id id (Run_ID run) = true) (srv_store srv) (srv_store srv')
    ∧ (ended (srv_store srv') (Run_ID run)
       ∨ known_run (srv_store srv') (Run_ID run)
         ∧ ((dispatch = Queued None ∧ resp = writeJSON StatusAccepted (PRun run))
            ∨ Run_ID run ∈ (option_list started).*1)).
Proof.
  intros Hsto. pose proof (runs_kept_same none_new (srv_store srv) (srv_store srv) (λ _, eq_refl)) as Hsame.
  unfold createRun. destruct (readJSON _ _ _) as [req|e]; [|by left].
  destruct (requested_scenario req _) as [resp|[sc ref]]; [by left|].
  destruct (vet_scenario _ _ _ _ _) as [[sc' t]|]; [|by left].
  set (sc2 := applyRunGuardrails cfg sc').
  pose proof (creating_run c (TrimSpace (RunReq_ScenarioID req)) t sc2 ref (srv_store srv)) as Hrun.
  destruct (st_CreateRun _ _ _ _ _ _) as [run st].
  destruct Hrun as [Hk|(Hid & Hst & Hother)].
  - assert (runs_kept none_new (srv_store srv) st) as Hkept by by apply runs_kept_same.
    destruct dispatch as [[err|]|ax]; [|by left|].
    + left. eapply runs_kept_trans; [exact Hkept|]. apply (runs_kept_ops _ [(OpError _, c, _)]).
    + destruct (RunReq_Sync req); [|by left].
      destruct (executeRun_run_calls ax (Run_ID run) sc2 (set_store st srv)) as [_ [l Hl]].
      assert (runs_kept none_new (srv_store srv)
        (srv_store (executeRun ax (Run_ID run) sc2 (set_store st srv)))) as He.
      { rewrite Hl. eapply runs_kept_trans; [exact Hkept|apply runs_kept_ops]. }
      destruct (GetRun _ _); by left.
  - assert (runs_kept (λ id, same_id id (Run_ID run) = true) (srv_store srv) st) as Hkept.
    { intros id st' Hs'. destruct (same_id id (Run_ID run)) eqn:Hd; [by left|right].
      rewrite (Hother id Hd) in Hs'. by exists st'. }
    pose proof Hst as (r & Hr & _)%fmap_Some.
    destruct dispatch as [[err|]|ax].
    + right. exists run. split; [done|]. split; [eapply runs_kept_trans; [exact Hkept|apply (runs_kept_ops _ [(OpError _, c, _)])]|].
      left. eapply (final_op_ends (OpError _)); [exact Hsto|by eexists|exact Hr].
    + right. exists run. split; [done|]. split; [done|]. right. split; [|by left]. by exists RunQueued.
    + destruct (RunReq_Sync req).
      * destruct (executeRun_ends_spec ax (Run_ID run) sc2 (set_store st srv) r)
          as (r' & Hr' & Ht); [apply Hsto|exact Hr|].
        destruct (executeRun_run_calls ax (Run_ID run) sc2 (set_store st srv)) as [_ [l Hl]].
        rewrite Hr'. right. exists run. split; [done|]. split; [|left; by exists r'].
        rewrite Hl. eapply runs_kept_trans; [exact Hkept|apply runs_kept_ops].
      * right. exists run. split; [done|]. split; [done|]. right. split; [by exists RunQueued|]. right. simpl. by left.
Qed.

(** What any request does: the runs that it stores are looked after. *)
Definition tends (srv : Server St B) (d : Dispatch) (out : served) : Prop :=
  let '(ans, srv', started) := out in
  srv_blobs srv' = srv_blobs srv
  ∧ ∃ P, runs_kept P (srv_store srv) (srv_store srv')
    ∧ ∀ id, P id → looked_after (srv_store srv') (queue_after d ans []) (option_list started) id.

Lemma tends_none srv d ans srv' started :
  srv_blobs srv' = srv_blobs srv → runs_kept none_new (srv_store srv) (srv_store srv') →
  tends srv d (ans, srv', started).
Proof. intros Hb Hk. split; [done|]. exists none_new. split; [done|]. by intros id []. Qed.
Lemma tends_same srv d ans started : tends srv d (ans, srv, started).
Proof. by apply tends_none, runs_kept_same. Qed.
(** A handler of targets or scenarios: one call of the store, or none. *)
Lemma tends_changing srv d h (out : HttpApi.Response * Server St B) :
  out.2 = srv ∨ (∃ st, out.2 = set_store st srv ∧ keeps_runs (srv_store srv) st) →
  tends srv d (changing h out).
Proof.
  unfold changing. intros [-> |(st & -> & Hk)]; [apply tends_same|by apply tends_none, runs_kept_same].
Qed.
Lemma tends_calls srv d ans srv' : run_calls srv srv' → tends srv d (ans, srv', None).
Proof. intros [Hb [l Hl]]. apply tends_none; [done|]. rewrite Hl. apply runs_kept_ops. Qed.

Lemma createRun_blobs c d body (srv : Server St B) :
  srv_blobs (createRun cfg os_env c d body srv).1.2 = srv_blobs srv.
Proof.
  unfold createRun. destruct (readJSON _ _ _) as [req|e]; [|done].
  destruct (requested_scenario req _) as [resp|[sc ref]]; [done|].
  destruct (vet_scenario _ _ _ _ _) as [[sc' t]|]; [|done].
  destruct (st_CreateRun _ _ _ _ _ _) as [run st].
  destruct d as [[err|]|ax]; [done..|]. destruct (RunReq_Sync req); [|done].
  assert (∀ sc2, srv_blobs (executeRun ax (Run_ID run) sc2 (set_store st srv)) = srv_blobs srv)
    as Hb by (intros sc2; by destruct (executeRun_run_calls ax (Run_ID run) sc2 (set_store st srv))).
  destruct (GetRun _ _); apply Hb.
Qed.
Lemma createRun_tends c d body h (srv : Server St B) : dispatch_storable d →
  tends srv d (let '(resp, srv', started) := createRun cfg os_env c d body srv in
               (answer h resp, srv', started)).
Proof.
  intros Hsto. pose proof (createRun_runs c d body srv Hsto) as Hc.
  pose proof (createRun_blobs c d body srv) as Hb.
  destruct (createRun _ _ _ _ _ _) as [[resp srv'] started]. simpl in Hb.
  destruct Hc as [Hk|(run & Hid & Hk & Hl)]; [by apply tends_none|].
  split; [done|]. exists (λ id, same_id id (Run_ID run) = true). split; [done|].
  intros id Hs. destruct Hl as [He|[(st & Hst & Hkn) Hl]]; [left; by eapply ended_same|right].
  split; [exists st; by rewrite (run_status_same _ _ _ Hs)|].
  exists (Run_ID run). split_and!; [done|apply Hid..|].
  destruct Hl as [[-> ->]|Hl]; [left; simpl; by left|by right].
Qed.

Lemma endpoint_tends se e values r h (srv : Server St B) : dispatch_storable (se_dispatch se) →
  tends srv (se_dispatch se) (serve_endpoint cfg os_env se e values r h srv).
Proof.
  intros Hsto. destruct (reading e) eqn:He.
  { destruct (reading_endpoint cfg os_env se e values r h srv He) as (ans & calls & -> & _).
    apply tends_calls, run_calls_store. }
  destruct e; try discriminate He; cbn [serve_endpoint]; cbv zeta.
  - apply tends_changing. unfold createTarget. destruct (readTargetRequest _ _) as [|t]; [by left|right].
    pose proof (creating_target (se_clock se) t (srv_store srv)) as Hk.
    destruct (st_CreateTarget _ _ _). by eexists.
  - apply tends_changing. unfold updateTarget. destruct (readTargetRequest _ _) as [|t]; [by left|right].
    pose proof (updating_target (se_clock se) (default "" (values !! "id")) t (srv_store srv)) as Hk.
    destruct (st_UpdateTarget _ _ _ _) as [[]]; by eexists.
  - apply tends_changing. unfold deleteTarget. right.
    pose proof (deleting_target (default "" (values !! "id")) (srv_store srv)) as Hk.
    destruct (st_DeleteTarget _ _) as [[]]; by eexists.
  - apply tends_changing. unfold createScenario. destruct (readJSON _ _ _); [|by left].
    destruct (vet_scenario _ _ _ _ _) as [[sc t]|]; [right|by left].
    pose proof (creating_scenario (se_clock se) sc (srv_store srv)) as Hk.
    destruct (st_CreateScenario _ _ _). by eexists.
  - apply tends_changing. unfold updateScenario. destruct (String.eqb _ _); [by left|].
    destruct (readJSON _ _ _); [|by left].
    destruct (vet_scenario _ _ _ _ _) as [[sc t]|]; [right|by left].
    pose proof (updating_scenario (se_clock se) (default "" (values !! "id")) sc (srv_store srv)) as Hk.
    destruct (st_UpdateScenario _ _ _ _) as [[]]; by eexists.
  - by apply createRun_tends.
  - apply tends_calls, cancelRun_run_calls.
Qed.
Lemma serve_tends se r (srv : Server St B) : dispatch_storable (se_dispatch se) →
  tends srv (se_dispatch se) (serve cfg os_env se r srv).
Proof.
  intros Hsto. unfold serve, withCORS. cbv zeta. destruct (String.eqb _ "OPTIONS"); [apply tends_same|].
  unfold withJSON, serve_mux, http_Error.
  destruct (findHandler _ _ _); try apply tends_same. by apply endpoint_tends.
Qed.

(** ** The invariant *)
Record system_ok (sy : system) : Prop := {
  so_runs id st : run_status (sys_store sy) id = Some st →
    looked_after (sys_store sy) (sys_queue sy) (sys_goroutines sy) id;
  so_blobs : is_Some (srv_blobs (sys_server sy));
}.

Lemma handle_ends h ctx c ex id (s : St) b :
  env_storable ex → stored_id id → known_run s id →
  ended (snd (fst (handleRunExecute h ctx (NewRunTask id) c ex s b))) id.
Proof.
  intros Hsto [Ha Hne] (st & (r & Hr & ->)%fmap_Some & Hk).
  by apply (handleRunExecute_ends h ctx id c ex s b r Ha Hne).
Qed.
Lemma known_same s id id' : same_id id id' = true → known_run s id → known_run s id'.
Proof. intros Hs (st & Hst & Hk). exists st. by rewrite <-(run_status_same s id id' Hs). Qed.

(** A step that takes work [taken] away has to end it. *)
Lemma taking_ok sy sy' (taken : string → Prop) :
  system_ok sy →
  srv_blobs (sys_server sy') = srv_blobs (sys_server sy) ∨ is_Some (srv_blobs (sys_server sy')) →
  runs_kept none_new (sys_store sy) (sys_store sy') →
  (∀ id, NewRunTask id ∈ sys_queue sy ∨ id ∈ (sys_goroutines sy).*1 →
     NewRunTask id ∈ sys_queue sy' ∨ id ∈ (sys_goroutines sy').*1 ∨ taken id) →
  (∀ id, taken id → stored_id id → known_run (sys_store sy) id → ended (sys_store sy') id) →
  system_ok sy'.
Proof.
  intros [Hruns Hb] Hb' Hk Hq Ht. split.
  - intros id st' Hs'. destruct (Hk id st' Hs') as [[]|Hst].
    destruct Hst as (st & Hs & Hst). pose proof (Hruns id st Hs) as [He|(Hkn & id' & Hid & Hsid & Hw)].
    + eapply looked_after_kept; [by left|exists st; split; [exact Hs|exact Hst]|done].
    + destruct (Hq id' Hw) as [?|[?|Htk]].
      1,2: eapply looked_after_kept; [right; split; [exact Hkn|exists id'; auto]|eauto|done].
      left. eapply ended_same; [exact Hid|]. apply (Ht id' Htk Hsid). by eapply known_same.
  - destruct Hb' as [->|?]; done.
Qed.

Lemma sys_step_ok sy sy' : system_ok sy → sys_step sy sy' → system_ok sy'.
Proof.
  intros Hok Hs. destruct Hs as
    [se r srv queue gs ans srv' started Hsto Hserve|h ctx c ex task q1 q2 srv gs b err st b' Hsto Hb Hh
    |ax id sc srv queue gs1 gs2 Hsto|l srv queue gs|task srv queue gs].
  - destruct Hok as [Hruns Hb]. pose proof (serve_tends se r srv Hsto) as Ht. rewrite Hserve in Ht.
    destruct Ht as [Hb' (P & Hk & HP)]. split; [|by simpl; rewrite Hb'].
    intros id st' Hs'. simpl in *. rewrite queue_after_app. destruct (Hk id st' Hs') as [Hp|Hst].
    + eapply looked_after_mono; [by apply HP|set_solver|rewrite fmap_app; set_solver].
    + eapply looked_after_mono; [|instantiate (1 := queue); set_solver
                                 |instantiate (1 := gs); rewrite fmap_app; set_solver].
      eapply looked_after_kept; [apply Hruns|exact Hst|done].
  - pose proof (handleRunExecute_calls h ctx task c ex (srv_store srv) b) as Hc.
    rewrite Hh in Hc. apply (taking_ok _ _ (λ id, task = NewRunTask id) Hok); simpl.
    + right. by eexists.
    + by apply runs_kept_calls.
    + intros id. rewrite !elem_of_app, elem_of_cons. naive_solver.
    + intros id -> Hid Hk. pose proof (handle_ends h ctx c ex id _ b Hsto Hid Hk) as He.
      change (sys_store _) with (srv_store srv) in He. by rewrite Hh in He.
  - destruct (executeRun_run_calls ax id sc srv) as [Hb [l Hl]].
    apply (taking_ok _ _ (λ id', id' = id) Hok); simpl.
    + by left.
    + change (runs_kept none_new (srv_store srv) (srv_store (executeRun ax id sc srv))).
      rewrite Hl. apply runs_kept_ops.
    + intros id'. rewrite !fmap_app, fmap_cons, !elem_of_app, elem_of_cons. naive_solver.
    + intros id' -> _ (st & (r & Hr & _)%fmap_Some & _). by eapply executeRun_ends_spec.
  - apply (taking_ok _ _ none_new Hok); simpl; [by left|apply runs_kept_ops|naive_solver|by intros ? []].
  - apply (taking_ok _ _ none_new Hok); simpl; [by left|by apply runs_kept_same| |by intros ? []].
    intros id [?|?]; [left; set_solver|by right; left].
Qed.
Lemma sys_steps_ok sy sy' : system_ok sy → rtc sys_step sy sy' → system_ok sy'.
Proof. intros Hok. induction 1; eauto using sys_step_ok. Qed.

(** ** The workers and the goroutines go on *)
Section Work.
Variable h : Handler.
Variable ctx : AsynqContext.
Variable c : clock.
Variable ex : Task → ExecEnv.
Variable ax : string → ApiRunEnv.

Definition work_task (srv : Server St B) (task : Task) : Server St B :=
  match srv_blobs srv with
  | Some b => let '(_, st, b') := handleRunExecute h ctx task c (ex task) (srv_store srv) b in
              set_blobs b' (set_store st srv)
  | None => srv
  end.
Definition work (sy : system) : system :=
  Build_system
    (fold_left (λ srv '(id, sc), executeRun (ax id) id sc srv) (sys_goroutines sy)
       (fold_left work_task (sys_queue sy) (sys_server sy))) [] [].

Hypothesis ex_storable : ∀ task, env_storable (ex task).
Hypothesis ax_storable : ∀ id sc, run_storable (ax id) id sc.

Lemma work_tasks_steps queue srv gs : is_Some (srv_blobs srv) →
  rtc sys_step (Build_system srv queue gs) (Build_system (fold_left work_task queue srv) [] gs).
Proof.
  revert srv. induction queue as [|task queue IH]; intros srv [b Hb]; [done|].
  simpl. destruct (handleRunExecute h ctx task c (ex task) (srv_store srv) b) as [[err st] b'] eqn:Hh.
  assert (work_task srv task = set_blobs b' (set_store st srv)) as ->
    by (unfold work_task; by rewrite Hb, Hh).
  eapply rtc_l; [|apply IH; by eexists].
  by apply (sys_task h ctx c (ex task) task [] queue srv gs b err st b').
Qed.
Lemma work_goroutines_steps gs srv :
  rtc sys_step (Build_system srv [] gs)
    (Build_system (fold_left (λ srv '(id, sc), executeRun (ax id) id sc srv) gs srv) [] []).
Proof.
  revert srv. induction gs as [|[id sc] gs IH]; intros srv; [done|]. simpl.
  eapply rtc_l; [|apply IH]. by apply (sys_goroutine (ax id) id sc srv [] [] gs).
Qed.
Lemma work_steps sy : is_Some (srv_blobs (sys_server sy)) → rtc sys_step sy (work sy).
Proof.
  intros Hb. destruct sy as [srv queue gs]. unfold work. simpl.
  etrans; [by apply work_tasks_steps|apply work_goroutines_steps].
Qed.
End Work.

Definition all_ended (s : St) : Prop :=
  ∀ id r, GetRun s id = Some r → isTerminalRunStatus (Run_Status r) = true.

Lemma idle_ended sy : system_ok sy → sys_queue sy = [] → sys_goroutines sy = [] → all_ended (sys_store sy).
Proof.
  intros [Hruns _] Hq Hg id r Hr.
  destruct (Hruns id (Run_Status r)) as [(r' & Hr' & Ht)|(_ & id' & _ & _ & Hw)].
  - unfold run_status. by rewrite Hr.
  - by simplify_eq.
  - rewrite Hq, Hg in Hw. destruct Hw as [Hw|Hw]; by apply elem_of_nil in Hw.
Qed.
Lemma sys_init_ok s b : all_ended s → system_ok (sys_init s b).
Proof.
  intros Hs. split; [|by eexists]. intros id st (r & Hr & ->)%fmap_Some. left.
  exists r. split; [done|by eapply Hs].
Qed.

(** ** Property *)

End System.

(** ** The memory store *)
Lemma stored_number prefix n :
  string_forall is_ascii_byte prefix = true → prefix ≠ "" → stored_id (prefix +:+ Itoa n).
Proof.
  intros Hp Hne. split; [|by destruct prefix]. apply ascii_ValidString.
  unfold is_ascii_string. rewrite string_forall_app, Hp.
  apply string_forall_Itoa; [|done]. intros d. unfold is_digit, in_range, is_ascii_byte.
  rewrite andb_true_iff, !N.leb_le, N.ltb_lt. lia.
Qed.
#[export] Instance Memory_records : RunRecords Memory.
Proof.
  assert (Hsame : ∀ m m' : Memory, mem_runs m' = mem_runs m → keeps_runs m m').
  { intros m m' He id. unfold run_status, GetRun. simpl. by rewrite He. }
  split; simpl; intros.
  - by apply Hsame.
  - apply Hsame. unfold UpdateTarget. by destruct (mem_targets _ !! _).
  - apply Hsame. unfold DeleteTarget. by destruct (mem_targets _ !! _).
  - by apply Hsame.
  - apply Hsame. unfold UpdateScenario. by destruct (mem_scenarios _ !! _).
  - destruct (CreateRun c sid tid sc refs s) as [run m] eqn:Hrun. right.
    destruct (CreateRun_record _ _ _ _ _ _ _ _ Hrun) as (Hget & Hst & _).
    unfold CreateRun in Hrun. destruct (match refs with [] => _ | _ => _ end).
    injection Hrun as Hid Hm. split_and!.
    + rewrite <-Hid. cbn [Run_ID]. by apply stored_number.
    + unfold run_status. by rewrite Hget, <-Hst.
    + intros id Hne%String.eqb_neq. unfold run_status, GetRun. rewrite <-Hm. simpl.
      rewrite lookup_insert_ne; [done|]. intros Heq. apply Hne. rewrite <-Hid. by symmetry.
Qed.

(** ** Examples *)
#[local] Existing Instances sample_json sample_errors ascii_tables plain_errors.
Definition sample_post : HttpRequest :=
  Build_HttpRequest "POST" (url_of "/v1/runs" "") ∅
    (Some (quotes "{'scenario': " +:+ sample_text +:+ "}")).
Definition sample_start : Server Memory MemoryStore := NewWithQueue NewMemory (Some NewMemoryStore).
(** The system after a request to run a scenario. *)
Definition sys_posted : system :=
  let '(ans, srv, started) := serve (FromEnv no_env) no_env sample_serve sample_post sample_start in
  Build_system srv (queue_after (se_dispatch sample_serve) ans []) (option_list started).
Definition sample_ax : ApiRunEnv :=
  Build_ApiRunEnv 1 [] [] [] [] (sample_report StatusPassed, None) (sample_clock 5).
Definition sample_work : system → system :=
  work sample_handler last_attempt (sample_clock 5)
    (λ _, sample_env [] (sample_report StatusPassed, None)) (λ _, sample_ax).

Lemma posted_step :
  sys_step (FromEnv no_env) no_env (sys_init NewMemory NewMemoryStore) sys_posted.
Proof.
  unfold sys_posted.
  destruct (serve (FromEnv no_env) no_env sample_serve sample_post sample_start)
    as [[ans srv] started] eqn:Hs.
  exact (sys_request _ _ sample_serve sample_post sample_start [] [] ans srv started I Hs).
Qed.
