(* ===== verification/PgSystem.v ===== *)
(** * The Postgres store in the system

    The Postgres store keeps the promises of [RunRecords]: the calls on targets
    and scenarios leave the status of every run ([still]), and [CreateRun]
    inserts one queued run or none. *)

From S2P Require Export System PgSpec.

Open Scope Z_scope.
Open Scope pg_scope.

(** A uuid is written in hexadecimal digits and dashes. *)
Class PgPlain `{PgTypes} := { uuid_plain n : stored_id (uuid_nth n) }.

Section Still.
Context `{PT : PgTypes} `{PC : PgColumns}.

(** ** What leaves the statuses alone *)
Definition statuses (db : DB) (u : string) : option RunStatus := rr_status <$> db_runs db !! u.
Definition still {A} (q : query A) : Prop :=
  ∀ db a db', q db = Some (a, db') → ∀ u, statuses db' u = statuses db u.

Lemma still_ret {A} (a : A) : still (q_ret a).
Proof. by intros db a' db' [= <- <-]. Qed.
Lemma still_fail {A} : still (q_fail (A := A)).
Proof. done. Qed.
Lemma still_get {A} (f : DB → A) : still (q_get f).
Proof. by intros db a' db' [= <- <-]. Qed.
Lemma still_option {A} (f : DB → option A) : still (q_option f).
Proof. intros db a db'. unfold q_option. by destruct (f db); intros [= <- <-]. Qed.
Lemma still_guard f : still (q_guard f).
Proof. intros db a db'. unfold q_guard. by destruct (f db); intros [= <- <-]. Qed.
Lemma still_put f : (∀ db u, statuses (f db) u = statuses db u) → still (q_put f).
Proof. intros Hf db a db' [= <- <-]. apply Hf. Qed.
Lemma still_now c : still (server_now c).
Proof. by intros db a db' [= <- <-]. Qed.
Lemma still_uuid : still gen_random_uuid.
Proof. by intros db a db' [= <- <-]. Qed.
Lemma still_bind {A B} (q : query A) (k : A → query B) :
  still q → (∀ a, still (k a)) → still (q_bind q k).
Proof.
  intros Hq Hk db b db' Hb u. unfold q_bind in Hb. destruct (q db) as [[a db1]|] eqn:E; [|done].
  by rewrite (Hk a db1 b db' Hb u), (Hq db a db1 E u).
Qed.
End Still.

Create HintDb still discriminated.
#[export] Hint Resolve still_ret still_fail still_get still_option still_guard still_now still_uuid
  : still.
Ltac still_step :=
  match goal with
  | |- still (q_bind _ _) => apply still_bind; [|intros ?]
  | |- still (let '(_, _) := ?x in _) => destruct x
  | |- still (if ?b then _ else _) => destruct b
  | |- still (match ?x with _ => _ end) => destruct x
  | |- still (q_put _) => apply still_put; intros ? ?; try reflexivity
  | |- still _ => solve [auto with still]
  | |- still _ => progress unfold uuid_arg, text_args, jsonb_arg, primary_key, references,
      project_exists, slug_free, put_target, put_scenario, put_version
  end.
Ltac still_auto := repeat still_step.

Section Statements.
Context `{UT : UnicodeTables} `{PT : PgTypes} `{PC : PgColumns}.

Lemma still_insert_target c project slug t raw : still (insert_target c project slug t raw).
Proof. unfold insert_target. still_auto. Qed.
Lemma still_update_target c project id t raw : still (update_target c project id t raw).
Proof. unfold update_target. still_auto. Qed.
Lemma still_delete_target project id : still (delete_target project id).
Proof.
  unfold delete_target. still_auto. unfold statuses. cbn. rewrite lookup_fmap.
  by destruct (db_runs _ !! _).
Qed.
Lemma still_create_scenario project c sc raw sum : still (create_scenario_tx project c sc raw sum).
Proof. unfold create_scenario_tx, insert_scenario, insert_version, set_current_version. still_auto. Qed.
Lemma still_update_scenario c id sc n raw sum : still (update_scenario_tx c id sc n raw sum).
Proof. unfold update_scenario_tx, insert_version, update_scenario. still_auto. Qed.
Lemma still_nullable {R} (table : DB → gmap string R) o : still (nullable_reference table o).
Proof. unfold nullable_reference. still_auto. Qed.

(** ** Programs *)
Fixpoint still_pg {A} (p : pg A) : Prop :=
  match p with
  | Ret _ => True
  | Stmt q k => still q ∧ ∀ r, still_pg (k r)
  end.
Lemma still_run {A} (p : pg A) db u : still_pg p → statuses (snd (run p db)) u = statuses db u.
Proof.
  revert db. induction p as [a|R q k IH]; intros db Hp; [done|]. destruct Hp as [Hq Hk]. cbn [run].
  destruct (q db) as [[r db']|] eqn:E; [|by apply IH]. rewrite (IH (Some r)) by done. by eapply Hq.
Qed.
Lemma still_ask {A R} (q : query R) (other : A) (k : R → pg A) :
  still q → (∀ r, still_pg (k r)) → still_pg (ask q other k).
Proof. intros Hq Hk. split; [done|]. intros [r|]; [apply Hk|done]. Qed.
End Statements.

(** ** [CreateRun] *)
Section CreateRun.
Context `{UT : UnicodeTables} `{PT : PgTypes} `{PC : PgColumns} {PL : PgLaws} {PP : PgPlain}.

(** One queued run is new. *)
Lemma insert_run_queued c project target scenario version raw db id r db' :
  insert_run c project target scenario version raw db = Some ((id, r), db') →
  stored_id id ∧ statuses db' id = Some RunQueued
  ∧ ∀ u, u ≠ id → statuses db' u = statuses db u.
Proof.
  unfold insert_run.
  intros (? & db1 & E1 & (t & db2 & E2 & (s & db3 & E3 & (v & db4 & E4 & (now & db5 & E5 & H)
    %q_bind_Some)%q_bind_Some)%q_bind_Some)%q_bind_Some)%q_bind_Some.
  apply q_bind_Some in H as (u & db6 & E6 & (? & db7 & E7 & (? & db8 & E8 & H)%q_bind_Some)%q_bind_Some).
  injection H as <- <- <-. injection E8 as _ <-. injection E6 as <- <-.
  unfold primary_key, q_guard in E7. destruct (bool_decide _); [|done]. injection E7 as _ <-.
  split_and!; [apply uuid_plain|by unfold statuses; cbn; rewrite lookup_insert_eq|].
  intros u Hu. unfold statuses. cbn [put_run set_runs db_runs]. rewrite lookup_insert_ne by done.
  change (statuses (set_drawn (db_drawn db5 + 1) db5) u = statuses db u).
  trans (statuses db5 u); [done|].
  assert (∀ {R} (table : DB → gmap string R) o, still (nullable_reference table o)) as Hn
    by (intros; apply still_nullable).
  rewrite (still_now c _ _ _ E5), (Hn _ _ _ _ _ _ E4), (Hn _ _ _ _ _ _ E3), (Hn _ _ _ _ _ _ E2).
  eapply (still_guard _ _ _ _ E1).
Qed.

Lemma still_run_references s refs : still_pg (run_references s refs).
Proof.
  unfold run_references. destruct refs; [|done]. destruct (String.eqb s ""); [done|].
  unfold currentScenarioVersion, ask, select_scenario. cbn [pg_bind still_pg].
  split; [still_auto|]. intros [row|]; cbn; [|done]. by destruct ((λ '(_, _, (v, vr)), _) <$> row) as [[]|].
Qed.
Lemma still_append c id e db u : DBOk db → statuses (snd (run (pg_AppendRunEvent c id e) db)) u = statuses db u.
Proof.
  intros Hok. unfold statuses. destruct (uuid_in id) as [v|] eqn:Hv; [|by rewrite append_none].
  destruct (db_runs db !! v) as [r|] eqn:Hr; [|by rewrite (append_unknown _ _ _ _ v)].
  destruct (append_logs c id e db v) as [Ht Hrun _ _]; [done..|by rewrite Hr|].
  destruct (decide (u = v)) as [->|Hne]; [by rewrite Hrun|].
  by rewrite (to_runs _ _ _ Ht) by congruence.
Qed.

Lemma create_run_db project c sid tid sc refs db : DBOk db →
  let '(record, db') := run (pg_CreateRun project c sid tid sc refs) db in
  (∀ u, statuses db' u = statuses db u)
  ∨ stored_id (Run_ID record) ∧ uuid_in (Run_ID record) = Some (Run_ID record)
    ∧ statuses db' (Run_ID record) = Some RunQueued
    ∧ ∀ u, u ≠ Run_ID record → statuses db' u = statuses db u.
Proof.
  intros Hok. unfold pg_CreateRun, marshalScenario.
  destruct (write_scenario sc) as [raw|] eqn:Hm; [|by left]. cbn [mbind option_bind]. rewrite run_bind.
  pose proof (λ u, still_run _ db u (still_run_references sid refs)) as Href.
  destruct (run_safe _ db (safe_run_references sid refs) Hok) as [Hok1 _].
  destruct (run (run_references sid refs) db) as [[[scenario version] number] db1].
  cbn [fst snd] in *. rewrite run_ask.
  destruct (insert_run _ _ _ _ _ _ db1) as [[[id r] db2]|] eqn:Hins; [|by left].
  destruct (good_insert_run c project (nullif_empty tid) scenario version raw
    (scenario_readable sc raw Hm) db1 (id, r) db2 Hok1 Hins) as [Hok2 _].
  apply insert_run_queued in Hins as (Hid & Hst & Hother).
  rewrite run_then_event. right. cbn [Run_ID]. split; [done|].
  pose proof Hst as (row & Hrow & _)%fmap_Some. split; [by apply (ok_run _ Hok2 id row)|].
  split; [by rewrite still_append|]. intros u Hu. by rewrite still_append, Hother, Href.
Qed.
End CreateRun.

(** ** The promises *)
Section Instance.
Context `{UT : UnicodeTables} `{PT : PgTypes} `{PC : PgColumns} {PL : PgLaws} {PR : PgProject}
  {PP : PgPlain}.

Lemma run_status_row (s : Pg) id : run_status s id = u ← uuid_in id; statuses (pg_db s) u.
Proof.
  unfold run_status. destruct (row_cases s id) as [(u & r & Hu & Hr)|Hn].
  - destruct (GetRun_of s id u r Hu Hr) as (rec & -> & Hst & _). rewrite Hu. unfold statuses. cbn.
    by rewrite Hr, Hst.
  - rewrite (GetRun_none s id Hn). destruct (uuid_in id) as [u|]; [|done]. unfold statuses. cbn in *.
    by rewrite Hn.
Qed.
Lemma call_keeps {A} (p : pg A) Hp s : still_pg p → keeps_runs s (snd (call p Hp s)).
Proof.
  intros Hs id. rewrite !run_status_row. destruct (uuid_in id) as [u|]; [|done]. by apply still_run.
Qed.

#[export] Instance Pg_records : RunRecords Pg.
Proof.
  split; intros.
  - apply (call_keeps (pg_CreateTarget _ _ _)). unfold pg_CreateTarget. destruct (write_headers _); [|done].
    by apply still_ask; [apply still_insert_target|].
  - apply (call_keeps (pg_UpdateTarget _ _ _ _)). unfold pg_UpdateTarget.
    destruct (write_headers _); [|done]. by apply still_ask; [apply still_update_target|].
  - apply (call_keeps (pg_DeleteTarget _ _)). by apply still_ask; [apply still_delete_target|].
  - apply (call_keeps (pg_CreateScenario _ _ _)). unfold pg_CreateScenario, marshalScenario.
    destruct (write_scenario sc); [|done].
    by apply still_ask; [apply still_create_scenario|intros [[? ?] ?]].
  - apply (call_keeps (pg_UpdateScenario _ _ _)). unfold pg_UpdateScenario, marshalScenario.
    destruct (write_scenario sc); [|done].
    apply still_ask; [unfold next_version_number; still_auto|]. intros n. destruct (n =? 1); [done|].
    by apply still_ask; [apply still_update_scenario|intros [[? ?] ?]].
  - pose proof (create_run_db projectID c sid tid sc refs (pg_db s) (pg_ok s)) as H.
    cbn [st_CreateRun Pg_ApiStore]. generalize (pg_call_safe _ _ _ (call_create_run projectID c sid tid sc refs)).
    intros Hp. unfold call. set (s' := Build_Pg _ _).
    assert (pg_db s' = snd (run (pg_CreateRun projectID c sid tid sc refs) (pg_db s))) as Hdb by done.
    clearbody s'. destruct (run _ (pg_db s)) as [record db']. cbn [fst snd] in *. subst db'.
    destruct H as [H|(Hid & Hu & Hst & Hother)]; [left|right].
    + intros id. rewrite !run_status_row. destruct (uuid_in id) as [u|]; [|done]. apply H.
    + split_and!; [done|by rewrite run_status_row, Hu|]. intros id Hne. rewrite !run_status_row.
      destruct (uuid_in id) as [u|] eqn:Hid'; [|done]. apply Hother. intros ->.
      cbn [same_id Pg_RunStore] in Hne. unfold same_uuid in Hne. by rewrite Hid', Hu, String.eqb_refl in Hne.
Qed.
End Instance.

(** ** The system over Postgres *)
Section PgSystem.
Context `{UT : UnicodeTables} `{JE : JsonErrors} `{DE : DecodeErrors} `{RJ : EncodeErrors}
  `{PT : PgTypes} `{PC : PgColumns} {PL : PgLaws} {PR : PgProject} {PP : PgPlain} `{BL : BlobLaws B}.

(** In a database of ended runs no run gets lost either. *)
Lemma Pg_system_ok cfg os_env (s : Pg) (b : B) sy :
  all_ended s → rtc (sys_step cfg os_env) (sys_init s b) sy → system_ok sy.
Proof. intros Hs. by apply sys_steps_ok, sys_init_ok. Qed.
End PgSystem.

(** The ids of the sample server are plain. *)
#[export] Instance sample_plain : PgPlain (H := Sample.types).
Proof.
  split. intros n. by apply (stored_number "u").
Qed.
