(* ===== verification/App.v ===== *)
(** * The processes (src/apps/api/internal/app/store.go, cmd/api/main.go,
    cmd/worker/main.go, cmd/wreckr/main.go)

    What the API and the worker open and serve, or the error they end with; which
    runner the worker uses; and the command line tool: its flags, what it prints
    and the code it exits with.  The parser of flags is that of the package flag
    for the flags that the tool declares; the text of its usage message, which
    goes to the standard error with every flag error, is left out. *)

From S2P Require Export PgSpec Blob Worker K6Runner HttpApi.
From Stdlib Require Import Ascii.

Open Scope Z_scope.

(** ** The stores (app/store.go) *)
Section Stores.
Context `{UT : UnicodeTables} `{PT : PgTypes} `{PC : PgColumns}.

Inductive opened :=
| OpenedMemory (m : Memory)
| OpenedPostgres (projectID : string)
| PostgresError
| UnknownStoreError (Backend : string).
Definition UnknownStoreError_Error (Backend : string) : string :=
  "unknown WRECKR_STORE backend: " +:+ Backend.
(** The errors of [sql.Open] and [Ping] come from outside. *)
Definition OpenStore (cfg : Config) (open_error ping_error : error) : pg opened :=
  let backend := ToLower (StoreBackend cfg) in
  if String.eqb backend "" || String.eqb backend "memory" then Ret (OpenedMemory NewMemory)
  else if String.eqb backend "postgres" || String.eqb backend "postgresql" then
    pg_bind (NewPostgres open_error ping_error)
      (λ project, Ret match project with Some id => OpenedPostgres id | None => PostgresError end)
  else Ret (UnknownStoreError (StoreBackend cfg)).
End Stores.

(** ** The worker (cmd/worker/main.go) *)
Inductive engine := GoRunner | K6Engine.
Definition worker_concurrency (cfg : Config) : Z :=
  if WorkerConcurrency cfg <=? 0 then 1 else WorkerConcurrency cfg.
Definition worker_engine (cfg : Config) : engine :=
  if String.eqb (RunnerEngine cfg) "k6" then K6Engine else GoRunner.
Definition worker_executor (cfg : Config) : Executor := Build_Executor true (RunTimeout cfg) 0.
(** The handler whose [HandleError] the server calls, and the one registered for
    the tasks. *)
Definition worker_error_handler (cfg : Config) : Handler :=
  Build_Handler (worker_executor cfg) true None.
Definition worker_task_handler (cfg : Config) : Handler :=
  Build_Handler (worker_executor cfg) false None.

(** *** The mains *)
Section Mains.
Context `{UT : UnicodeTables} `{PT : PgTypes} `{PC : PgColumns} {C : Type} `{SD : S3Sdk C}.

(** [log.Fatal], with the text of the error unless the server made it, or a
    process that serves until its listener fails. *)
Inductive process (A : Type) :=
| Fatal (message : option string)
| Serving (p : A).
Arguments Fatal {A}.
Arguments Serving {A}.

(** The two stores, or the error with which both mains end. *)
Definition open_stores (cfg : Config) (open_error ping_error : error)
  : pg (process (opened * (MemoryStore + S3Store C))) :=
  pg_bind (OpenStore cfg open_error ping_error) (λ st,
    match st with
    | PostgresError => Ret (Fatal (match open_error with Some m => Some m | None => ping_error end))
    | UnknownStoreError backend => Ret (Fatal (Some (UnknownStoreError_Error backend)))
    | _ =>
        match OpenBlobStore cfg with
        | Err m => Ret (Fatal (Some m))
        | Ok blobs => Ret (Serving (st, blobs))
        end
    end).

Record api_process := {
  api_addr : string;
  api_config : Config;
  api_stores : opened * (MemoryStore + S3Store C);
  api_redis : string;
  api_task_options : string * Z * Z;         (* what the enqueuer gives every task *)
}.
Definition api_main (getenv : string → string) (open_error ping_error : error)
  : pg (process api_process) :=
  let cfg := FromEnv getenv in
  pg_bind (open_stores cfg open_error ping_error) (λ p, Ret
    match p with
    | Fatal m => Fatal m
    | Serving stores =>
        Serving (Build_api_process (Addr cfg) cfg stores (RedisAddr cfg)
                   (enqueue_options (RunTimeout cfg)))
    end).

Record worker_process := {
  wp_redis : string;
  wp_concurrency : Z;
  wp_queues : list (string * Z);
  wp_error_handler : Handler;
  wp_task_handler : Handler;
  wp_engine : engine;
  wp_stores : opened * (MemoryStore + S3Store C);
}.
Definition worker_main (getenv : string → string) (open_error ping_error : error)
  : pg (process worker_process) :=
  let cfg := FromEnv getenv in
  pg_bind (open_stores cfg open_error ping_error) (λ p, Ret
    match p with
    | Fatal m => Fatal m
    | Serving stores =>
        Serving (Build_worker_process (RedisAddr cfg) (worker_concurrency cfg) [(QueueRuns, 1)]
                   (worker_error_handler cfg) (worker_task_handler cfg) (worker_engine cfg) stores)
    end).
End Mains.
Arguments Fatal {A}.
Arguments Serving {A}.

(** ** The command line tool (cmd/wreckr/main.go) *)

(** What a command leaves behind: the exit code, the standard output, the lines
    of the standard error (without usage messages) and the file it wrote. *)
Record outcome := {
  exit_code : Z;
  stdout : string;
  stderr : list string;
  written : option (string * string);
}.
Definition exit_with (code : Z) (lines : list string) : outcome :=
  Build_outcome code "" lines None.

(** *** flag *)
Inductive flag_kind := FBool | FString | FDuration.
Inductive flag_value := VFBool (b : bool) | VFString (s : string) | VFDuration (d : Z).
Record flags := { fl_values : gmap string flag_value; fl_args : list string }.
(** The program goes on, or [ExitOnError] ends it. *)
Inductive parsed := Parsed (f : flags) | ParseExit (code : Z).

Section Flags.
Variable kinds : gmap string flag_kind.

Definition ParseBool (s : string) : option bool :=
  if string_in s ["1"; "t"; "T"; "TRUE"; "true"; "True"] then Some true
  else if string_in s ["0"; "f"; "F"; "FALSE"; "false"; "False"] then Some false
  else None.
Definition flag_set (kind : flag_kind) (s : string) : option flag_value :=
  match kind with
  | FBool => VFBool <$> ParseBool s
  | FString => Some (VFString s)
  | FDuration => VFDuration <$> ParseDuration s
  end.

(** The name and the value of "name=value", split at the first "=" after the
    first byte. *)
Fixpoint split_equals (s : string) : string * option string :=
  match s with
  | "" => ("", None)
  | String c r =>
      if Ascii.eqb c "="%char then ("", Some r)
      else let '(name, value) := split_equals r in (String c name, value)
  end.
Definition starts_with (c : ascii) (s : string) : bool :=
  match s with String d _ => Ascii.eqb c d | "" => false end.

(** A flag without its dashes, and what may follow it: the flags set and the
    arguments left, or the exit code. *)
Definition parse_flag (name : string) (rest : list string) (f : gmap string flag_value)
  : (gmap string flag_value * list string) + Z :=
  if String.eqb name "" || starts_with "-"%char name || starts_with "="%char name then inr 2
  else
    let '(name, value) := split_equals name in
    match kinds !! name with
    | None => inr (if String.eqb name "help" || String.eqb name "h" then 0 else 2)
    | Some FBool =>
        match flag_set FBool (default "true" value) with
        | Some v => inl (<[name := v]> f, rest)
        | None => inr 2
        end
    | Some kind =>
        match value, rest with
        | Some s, _ =>
            match flag_set kind s with Some v => inl (<[name := v]> f, rest) | None => inr 2 end
        | None, s :: rest =>
            match flag_set kind s with Some v => inl (<[name := v]> f, rest) | None => inr 2 end
        | None, [] => inr 2
        end
    end.
(** [FlagSet.Parse]; each round takes at least one argument. *)
Fixpoint parse_flags (fuel : nat) (args : list string) (f : gmap string flag_value) : parsed :=
  match fuel, args with
  | S fuel, String "-"%char (String _ _ as name) :: rest =>
      if String.eqb name "-" then Parsed (Build_flags f rest)
      else
        let name := match name with String "-"%char n => n | n => n end in
        match parse_flag name rest f with
        | inl (f, rest) => parse_flags fuel rest f
        | inr code => ParseExit code
        end
  | _, _ => Parsed (Build_flags f args)
  end.
Definition Parse (args : list string) : parsed := parse_flags (length args) args ∅.
End Flags.

(** *** Commands *)
Section Tool.
Context `{UT : UnicodeTables} `{JE : JsonErrors} `{DE : DecodeErrors} `{RJ : EncodeErrors}.
Variable read : string → result string.              (* os.ReadFile *)
Variable observed : Z → RunEnv.                      (* what a run with this timeout meets *)

Definition run_kinds : gmap string flag_kind := {["json" := FBool; "timeout" := FDuration]}.
Definition json_flag (f : flags) : bool :=
  match fl_values f !! "json" with Some (VFBool b) => b | _ => false end.
Definition timeout_flag (f : flags) : Z :=
  match fl_values f !! "timeout" with Some (VFDuration d) => d | _ => 5 * Minute end.
(** What is printed of a report. *)
Definition print_report (json : bool) (rep : Report) : result string :=
  if json then match report_json rep with Ok raw => Ok (raw +:+ newline) | Err m => Err m end
  else Ok (Text rep).
Definition cli_run (args : list string) : option outcome :=
  match Parse run_kinds args with
  | ParseExit code => Some (exit_with code [])
  | Parsed f =>
      match fl_args f with
      | [path] =>
          let e := observed (timeout_flag f) in
          match LoadFile (run_env e) read path with
          | Err m => Some (exit_with 2 [m])
          | Ok sc =>
              '(res, _) ← Run e sc;
              Some match res with
                   | Err m => exit_with 1 [m]
                   | Ok rep =>
                       match print_report (json_flag f) rep with
                       | Err m => exit_with 1 [m]
                       | Ok text =>
                           Build_outcome
                             (if negb (String.eqb (Report_Status rep) StatusPassed) then 1 else 0)
                             text [] None
                       end
                   end
          end
      | _ => Some (exit_with 2 ["scenario file is required";
                                "usage: wreckr run [flags] <scenario.json>"])
      end
  end.

Definition compile_kinds : gmap string flag_kind := {["o" := FString]}.
Definition output_flag (f : flags) : string :=
  match fl_values f !! "o" with Some (VFString s) => s | _ => "" end.
(** [write_file] is [os.WriteFile]. *)
Definition compileK6 (write_file : string → string → error) (env : string → string)
    (args : list string) : outcome :=
  match Parse compile_kinds args with
  | ParseExit code => exit_with code []
  | Parsed f =>
      match fl_args f with
      | [path] =>
          match LoadFile env read path with
          | Err m => exit_with 2 [m]
          | Ok sc =>
              match Compile env sc with
              | Err m => exit_with 2 [m]
              | Ok script =>
                  let output := output_flag f in
                  if String.eqb output "" then Build_outcome 0 (Script_Content script) [] None
                  else match write_file output (Script_Content script) with
                       | Some m => exit_with 1 [m]
                       | None => Build_outcome 0 "" [] (Some (output, Script_Content script))
                       end
              end
          end
      | _ => exit_with 2 ["scenario file is required"]
      end
  end.

Definition usage : list string :=
  ["Wreckr - production scenario testing for backend systems"; ""; "commands:";
   "  run <scenario.json>              run a scenario file";
   "  compile-k6 <scenario.json>       compile a scenario to a k6 script"].
(** [os.Args], the name of the program first. *)
Definition main (write_file : string → string → error) (env : string → string)
    (args : list string) : option outcome :=
  match args with
  | _ :: command :: rest =>
      if String.eqb command "run" then cli_run rest
      else if String.eqb command "compile-k6" then Some (compileK6 write_file env rest)
      else Some (exit_with 2 usage)
  | _ => Some (exit_with 2 usage)
  end.

(** ** What the exit code says *)
Lemma text_nonempty rep : Text rep ≠ "".
Proof.
  unfold Text. intros H. apply (f_equal String.length) in H. rewrite !length_append in H.
  cbn in H. lia.
Qed.

(** What makes a run pass: no failed setup check, no record with an error, and
    no failed threshold, invariant or teardown check. *)
Definition run_clean (e : RunEnv) (sc : Scenario) (opts : RunOptions) : Prop :=
  hasFailedCheck (snd (fst (setup_of e sc opts))) = false
  ∧ (∀ r, r ∈ fst (run_traffic e) → Response_Error r = "")
  ∧ ∀ ths c, evaluateThresholds sc (fst (run_traffic e)) = Some ths →
             c ∈ run_checks e sc (run_id e opts) (Options_Events opts) ths → Check_Passed c = true.
Lemma run_passes_iff e sc opts :
  let sc' := prepare (run_env e) sc in
  Validate sc' = None → small_run e sc' →
  ∃ rep evs, RunWithOptions e sc opts = Some (Ok rep, evs)
             ∧ (Report_Status rep = StatusPassed ↔ run_clean e sc' opts).
Proof.
  intros sc' Hv Hs. unfold run_clean.
  destruct (hasFailedCheck (snd (fst (setup_of e sc' opts)))) eqn:Hf.
  - destruct (run_setup_failed_spec e sc opts Hv Hs Hf) as (rep & Hrun & Hst & _).
    eexists rep, _. split; [exact Hrun|]. rewrite Hst. split; [done|]. by intros [? _].
  - destruct (run_verdict_spec e sc opts Hv Hs Hf) as (ths & rep & evs & Hths & Hrun & _ & Hp & _).
    exists rep, evs. split; [exact Hrun|]. rewrite Hp. fold sc' in Hths. rewrite Hths. naive_solver.
Qed.
Lemma cli_gate_spec args f path sc :
  Parse run_kinds args = Parsed f → fl_args f = [path] → json_flag f = false →
  let e := observed (timeout_flag f) in
  LoadFile (run_env e) read path = Ok sc →
  let sc' := prepare (run_env e) sc in
  Validate sc' = None → small_run e sc' →
  ∃ o, cli_run args = Some o ∧ stdout o ≠ "" ∧ (exit_code o = 0 ∨ exit_code o = 1)
       ∧ (exit_code o = 0 ↔ run_clean e sc' (Build_RunOptions "" false)).
Proof.
  intros Hp Hargs Hj e Hl sc' Hv Hs. unfold cli_run. rewrite Hp, Hargs. fold e. rewrite Hl.
  destruct (run_passes_iff e sc (Build_RunOptions "" false) Hv Hs) as (rep & evs & Hrun & Hpass).
  unfold Run. rewrite Hrun. cbn [mbind option_bind]. unfold print_report. rewrite Hj.
  eexists. split; [done|]. cbn [stdout exit_code]. split; [apply text_nonempty|].
  split; [by destruct (String.eqb _ _); [left|right]|].
  transitivity (Report_Status rep = StatusPassed); [|exact Hpass].
  destruct (String.eqb_spec (Report_Status rep) StatusPassed); cbn; naive_solver.
Qed.


(** Without a file that loads nothing is run and nothing printed, and the code is
    2, or what the parser of flags exits with. *)
Theorem cli_refused args :
  match Parse run_kinds args with
  | Parsed f =>
      match fl_args f with
      | [path] => is_ok (LoadFile (run_env (observed (timeout_flag f))) read path)
      | _ => false
      end
  | ParseExit _ => false
  end = false →
  ∃ o, cli_run args = Some o ∧ stdout o = ""
       ∧ (exit_code o = 2 ∨ Parse run_kinds args = ParseExit (exit_code o)).
Proof.
  unfold cli_run. destruct (Parse _ _) as [f|code]; [|eauto 10].
  destruct (fl_args f) as [|path [|]]; [eauto 10| |eauto 10].
  destruct (LoadFile _ _ _); [done|eauto 10].
Qed.
End Tool.

(** ** Flags *)

(** Flags after the file are arguments, and then there are too many. *)
Example flags_after_file :
  Parse run_kinds ["scenario.json"; "-json"]
  = Parsed (Build_flags ∅ ["scenario.json"; "-json"]).
Proof. reflexivity. Qed.
Example flags_forms :
  Parse run_kinds ["--json=false"; "-timeout"; "7ns"; "--"; "-x"]
  = Parsed (Build_flags {["json" := VFBool false; "timeout" := VFDuration 7]} ["-x"]).
Proof. reflexivity. Qed.
Example flags_help : Parse run_kinds ["-h"] = ParseExit 0.
Proof. reflexivity. Qed.

(** ** The worker *)

(** The handler of the tasks was built without a recorder of events: an attempt
    is never recorded, and a task does to the store what the executor does. *)
Theorem worker_attempts_unrecorded `{JsonErrors} `{UnicodeTables} `{EncodeErrors} `{RunStore St}
    `{BlobStore B} cfg ctx task c env id (s : St) (b : B) :
  DecodeRunPayload task = Ok id → id ≠ "" →
  handleRunExecute (worker_task_handler cfg) ctx task c env s b
  = Execute (worker_executor cfg) env id s b.
Proof.
  intros Hd Hne. unfold handleRunExecute. rewrite Hd.
  destruct (String.eqb_spec id ""); [done|]. done.
Qed.
(** *** The memory backend

    The worker of the memory backend has a store of its own, which no request
    fills: [deliver] gives it a task, and its error to [HandleError]. *)
Section MemoryWorker.
Context `{JE : JsonErrors} `{UT : UnicodeTables} `{RJ : EncodeErrors} `{BS : BlobStore B}.

Definition deliver (cfg : Config) (ctx : AsynqContext) (task : Task) (c : clock) (env : ExecEnv)
    (mb : Memory * B) : error * (Memory * B) :=
  let '(err, m, b) := handleRunExecute (worker_task_handler cfg) ctx task c env mb.1 mb.2 in
  match err with
  | Some e => (err, (HandleError (worker_error_handler cfg) ctx task c e m, b))
  | None => (None, (m, b))
  end.
Inductive worker_life (cfg : Config) : Memory * B → Prop :=
| wl_start b : worker_life cfg (NewMemory, b)
| wl_deliver ctx task c env mb :
    worker_life cfg mb → worker_life cfg (snd (deliver cfg ctx task c env mb)).

Lemma recorded_runs h ctx task c id e m : mem_runs (recordWorkerEvent h ctx task c id e m) = mem_runs m.
Proof. unfold recordWorkerEvent. destruct (negb _); done. Qed.
Lemma handled_runs h ctx task c err m : mem_runs (HandleError h ctx task c err m) = mem_runs m.
Proof.
  unfold HandleError. destruct (DecodeRunPayload task) as [id|]; [|done].
  destruct (String.eqb id ""); [done|]. repeat case_match; by rewrite ?recorded_runs.
Qed.

(** Every task fails: the run is never found, whatever was delivered before. *)
Lemma memory_worker_fails cfg ctx task c env m b id :
  mem_runs m = ∅ → DecodeRunPayload task = Ok id → id ≠ "" →
  handleRunExecute (worker_task_handler cfg) ctx task c env m b
  = (Some ("run " +:+ Quote id +:+ " not found"), m, b).
Proof.
  intros Hm Hd Hne. rewrite (worker_attempts_unrecorded cfg ctx task c env id m b Hd Hne).
  unfold Execute. cbn [GetRun]. change (GetRun m id) with (mem_runs m !! id). by rewrite Hm, lookup_empty.
Qed.
Theorem memory_worker_idle cfg mb ctx task c env id :
  worker_life cfg mb → DecodeRunPayload task = Ok id → id ≠ "" →
  mem_runs mb.1 = ∅
  ∧ fst (deliver cfg ctx task c env mb) = Some ("run " +:+ Quote id +:+ " not found").
Proof.
  intros Hl Hd Hne. assert (mem_runs mb.1 = ∅) as Hm.
  { clear Hd. induction Hl as [b|ctx' task' c' env' [m b] _ IH]; [done|]. cbn [fst] in IH. unfold deliver.
    cbn [fst snd]. destruct (DecodeRunPayload task') as [id'|e] eqn:Hd'.
    - destruct (decide (id' = "")) as [->|Hne'].
      + unfold handleRunExecute. rewrite Hd'. cbn. by rewrite handled_runs.
      + rewrite (memory_worker_fails cfg ctx' task' c' env' m b id' IH Hd' Hne'). cbn [fst snd].
        by rewrite handled_runs.
    - unfold handleRunExecute. rewrite Hd'. cbn [fst snd]. by rewrite handled_runs. }
  split; [done|]. destruct mb as [m b]. unfold deliver. cbn [fst snd] in *.
  by rewrite (memory_worker_fails cfg ctx task c env m b id Hm Hd Hne).
Qed.
End MemoryWorker.

(** ** The stores *)
Section OpenLemmas.
Context `{UT : UnicodeTables} `{PT : PgTypes} `{PC : PgColumns} {PL : PgLaws}.

(** Whatever the backend, opening it keeps the tables, but for the default
    project. *)
Lemma OpenStore_safe cfg e1 e2 : safe (OpenStore cfg e1 e2).
Proof.
  unfold OpenStore, NewPostgres. repeat case_match; try done.
  apply safe_bind; [|done]. split; [apply good_upsert_project|done].
Qed.
End OpenLemmas.

(** ** An example *)

#[local] Existing Instances RunExec.sample_json RunExec.sample_errors ascii_tables plain_errors.

Definition sample_observed (records : list ResponseRecord) (timeout : Z) : RunEnv :=
  sample_run ok_io records.

