(* ===== verification/DemoApi.v ===== *)
(** * The demo service (src/examples/demo-api/cmd/main.go)

    The service that the example scenarios attack.  The mutex makes every
    handler one function on [app], except [login], which enters, waits and
    leaves: [demo_step] interleaves any number of logins with the other
    handlers.  [demo_reply] is the service as a client sees it, through the
    multiplexer, the decoding of the body of a checkout and the encoding of the
    answers; the text of the time is an argument.  Its bugs are intended (an
    idempotency key that is stored but not enforced, an overload answered with
    500); that a reset makes the count of logins in flight negative is not. *)

From S2P Require Export GoMux JsonDecode Report.

Open Scope Z_scope.

Record order := {
  order_ID : string;
  order_UserID : string;
  order_SKU : string;
  order_Quantity : Z;
  order_IdempotencyKey : string;
  order_CreatedAt : string;
}.
Record checkoutRequest := {
  checkout_UserID : string;
  checkout_SKU : string;
  checkout_Quantity : Z;
}.
Record app := { orders : list order; active : Z }.
Definition zero_app : app := Build_app [] 0.

Definition checkoutRequest_names : list string := ["userId"; "sku"; "quantity"].
Definition decode_checkoutRequest : Decoder checkoutRequest := λ raws,
  ms ← struct_members false checkoutRequest_names raws;
  let field := field_texts checkoutRequest_names ms in
  user_id ← decode_string (field "userId");
  sku ← decode_string (field "sku");
  quantity ← decode_int (field "quantity");
  Some (Build_checkoutRequest user_id sku quantity).
Definition decode_checkout `{DecodeErrors} : string → result checkoutRequest :=
  decode_first false "checkoutRequest" decode_checkoutRequest.

(** A status and what [writeJSON] encodes, or a text. *)
Inductive payload :=
| POk
| PToken (token : string)
| PError (message : string)
| POrder (o : order)
| POrders (count : Z) (matches : list order)
| PMetrics (text : string).
Definition response : Type := Z * payload.

Definition health : response := (200, POk).
Definition metrics (a : app) : response :=
  (200, PMetrics ("wreckr_demo_api_up 1" +:+ newline
                  +:+ "wreckr_demo_api_orders_total " +:+ Itoa (Z.of_nat (length (orders a))) +:+ newline
                  +:+ "wreckr_demo_api_active_requests " +:+ Itoa (active a) +:+ newline)).
(** [decoded] is what [Decode] makes of the body, [key] the header
    Idempotency-Key, [created] the time as text. *)
Definition checkout (decoded : result checkoutRequest) (key created : string) (a : app)
  : response * app :=
  match decoded with
  | Err m => ((400, PError m), a)
  | Ok req =>
      let o := Build_order ("ord_" +:+ Itoa (Z.of_nat (length (orders a)) + 1))
                 (checkout_UserID req) (checkout_SKU req) (checkout_Quantity req) key created in
      ((201, POrder o), Build_app (orders a ++ [o]) (active a))
  end.
Definition query_matches (userID sku : string) (o : order) : bool :=
  negb (negb (String.eqb userID "") && negb (String.eqb (order_UserID o) userID))
  && negb (negb (String.eqb sku "") && negb (String.eqb (order_SKU o) sku)).
Definition ordersByQuery (userID sku : string) (a : app) : response :=
  let matches := List.filter (query_matches userID sku) (orders a) in
  (200, POrders (Z.of_nat (length matches)) matches).
Definition reset (a : app) : response * app := ((200, POk), zero_app).

(** [login] until it sleeps, with the count it read, and after. *)
Definition login_enter (a : app) : Z * app :=
  (active a + 1, Build_app (orders a) (active a + 1)).
Definition login_leave (count : Z) (a : app) : response * app :=
  (if 5 <? count then (500, PError "auth pool exhausted") else (200, PToken "demo-token"),
   Build_app (orders a) (active a - 1)).

(** ** The service over HTTP *)

(** What [writeJSON] writes; the members of a map by key, the fields of a struct
    in order, a nil slice as null. *)
Definition order_tree (o : order) : jtree :=
  TObj ([("id", TStr (order_ID o)); ("userId", TStr (order_UserID o)); ("sku", TStr (order_SKU o));
         ("quantity", TNum (Itoa (order_Quantity o)))]
        ++ (if String.eqb (order_IdempotencyKey o) "" then []
            else [("idempotencyKey", TStr (order_IdempotencyKey o))])
        ++ [("createdAt", TStr (order_CreatedAt o))]).
Definition orders_tree (l : list order) : jtree :=
  match l with [] => TNull | _ => TArr (map order_tree l) end.
Definition demo_body (p : payload) : string :=
  let encode t := render marshal_layout 0 t +:+ newline in
  match p with
  | POk => encode (TObj [("ok", TBool true)])
  | PToken token => encode (TObj [("token", TStr token)])
  | PError message => encode (TObj [("error", TStr message)])
  | POrder o => encode (order_tree o)
  | POrders count matches =>
      encode (TObj [("count", TNum (Itoa count)); ("orders", orders_tree matches)])
  | PMetrics text => text
  end.

Inductive demo_endpoint := DeHealth | DeMetrics | DeCheckout | DeOrders | DeReset | DeLogin.
Definition demo_handlers : list (string * demo_endpoint) :=
  [("GET /healthz", DeHealth); ("GET /metrics", DeMetrics); ("POST /checkout", DeCheckout);
   ("GET /orders", DeOrders); ("POST /reset", DeReset); ("POST /login", DeLogin)].

Section Serve.
Context `{UT : UnicodeTables} `{DE : DecodeErrors}.

Definition demo_mux : list (pattern * demo_endpoint) :=
  omap (λ '(s, e), (λ p, (p, e)) <$> parsePattern s) demo_handlers.
(** A login here is one that no other request overlaps. *)
Definition demo_serve (e : demo_endpoint) (r : HttpRequest) (created : string) (a : app)
  : response * app :=
  match e with
  | DeHealth => (health, a)
  | DeMetrics => (metrics a, a)
  | DeCheckout =>
      checkout (decode_checkout (default "" (hr_Body r))) (Header_Get "Idempotency-Key" (hr_Header r)) created a
  | DeOrders =>
      let query := URL_RawQuery (hr_URL r) in
      (ordersByQuery (Query_Get "userId" query) (Query_Get "sku" query) a, a)
  | DeReset => reset a
  | DeLogin => let '(count, a) := login_enter a in login_leave count a
  end.
(** The answer of the service, before a client follows a redirect. *)
Definition demo_reply (r : HttpRequest) (created : string) (a : app) : HttpReply * app :=
  match findHandler demo_mux (hr_Method r) (hr_URL r) with
  | MuxHandler e _ =>
      let '((status, p), a) := demo_serve e r created a in (Response status (demo_body p) None, a)
  | MuxBadRequest => (Response 400 "" None, a)
  | MuxRedirect _ => (Response 301 "" None, a)
  | MuxMethodNotAllowed _ => (Response 405 ("Method Not Allowed" +:+ newline) None, a)
  | MuxNotFound => (Response 404 ("404 page not found" +:+ newline) None, a)
  end.
End Serve.

(** [env]. *)
Definition demo_env (getenv : string → string) (key fallback : string) : string :=
  if String.eqb (getenv key) "" then fallback else getenv key.
(** The address of [main]. *)
Definition demo_addr (getenv : string → string) : string :=
  demo_env getenv "DEMO_API_ADDR" ":9090".

(** ** Requests at the same time *)
Record demo := { demo_app : app; demo_logins : list Z }.
Inductive demo_step (d : demo) : demo → Prop :=
| dm_checkout decoded key created :
    demo_step d (Build_demo (snd (checkout decoded key created (demo_app d))) (demo_logins d))
| dm_reset : demo_step d (Build_demo (snd (reset (demo_app d))) (demo_logins d))
| dm_enter :
    demo_step d (Build_demo (snd (login_enter (demo_app d)))
                   (demo_logins d ++ [fst (login_enter (demo_app d))]))
| dm_leave i count :
    demo_logins d !! i = Some count →
    demo_step d (Build_demo (snd (login_leave count (demo_app d))) (delete i (demo_logins d))).
Definition demo_init : demo := Build_demo zero_app [].

(** The orders are numbered in the order in which they came. *)
Definition OrdersNumbered (a : app) : Prop :=
  ∀ i o, orders a !! i = Some o → order_ID o = "ord_" +:+ Itoa (Z.of_nat i + 1).
Lemma checkout_numbered decoded key created a :
  OrdersNumbered a → OrdersNumbered (snd (checkout decoded key created a)).
Proof.
  intros Ha. unfold checkout. destruct decoded as [req|m]; [|done]. cbn. intros i o Ho.
  apply lookup_app_Some in Ho as [Ho|[Hi Ho]]; [by apply Ha|].
  apply list_lookup_singleton_Some in Ho as [Hx <-].
  by replace i with (length (orders a)) by lia.
Qed.
Lemma demo_step_numbered d d' :
  OrdersNumbered (demo_app d) → demo_step d d' → OrdersNumbered (demo_app d').
Proof.
  intros Hd Hs. destruct Hs as [decoded key created| | |i count Hi]; cbn; try done.
  by apply checkout_numbered.
Qed.

(** The number of an order identifies it, whatever requests came at the same
    time. *)
Theorem order_ids_unique d i j o o' :
  rtc demo_step demo_init d → orders (demo_app d) !! i = Some o →
  orders (demo_app d) !! j = Some o' → order_ID o = order_ID o' → i = j.
Proof.
  intros Hr Hi Hj Heq.
  assert (OrdersNumbered (demo_app d)) as Hn.
  { clear Hi Hj. assert (OrdersNumbered (demo_app demo_init)) as H0 by (by intros ? ?).
    induction Hr; eauto using demo_step_numbered. }
  rewrite (Hn _ _ Hi), (Hn _ _ Hj) in Heq.
  apply (inj (String.append "ord_")), Itoa_inj in Heq. lia.
Qed.

(** A second checkout under the same key makes a second order: the key is not
    enforced. *)
Theorem checkout_not_idempotent req key t t' a :
  let a1 := snd (checkout (Ok req) key t a) in
  let a2 := snd (checkout (Ok req) key t' a1) in
  length (orders a2) = (length (orders a) + 2)%nat
  ∧ Forall (λ o, order_IdempotencyKey o = key) (drop (length (orders a)) (orders a2)).
Proof.
  cbn. rewrite !length_app. cbn. split; [lia|]. rewrite <-app_assoc, drop_app_length.
  by repeat constructor.
Qed.

(** The count of logins in flight, until the first reset: the number that have
    entered and not left.  A reset sets it to zero while [n] are in flight; from
    then on it is [n] too small, so that [n] more logins are let in before the
    service answers that its pool is exhausted. *)
Definition counted (n : Z) (d : demo) : Prop :=
  active (demo_app d) = Z.of_nat (length (demo_logins d)) - n.
Theorem login_count d d' n :
  counted n d → demo_step d d' →
  counted n d' ∨ (active (demo_app d') = 0 ∧ counted (Z.of_nat (length (demo_logins d))) d').
Proof.
  unfold counted. intros Hc Hs. destruct Hs as [decoded key created| | |i count Hi]; cbn.
  - left. unfold checkout. by destruct decoded.
  - right. split; [done|lia].
  - left. rewrite length_app. cbn. lia.
  - left. pose proof (lookup_lt_Some _ _ _ Hi). rewrite length_delete by (by eexists). lia.
Qed.
Theorem login_overload count a :
  fst (fst (login_leave count a)) = 500 ↔ 5 < count.
Proof. unfold login_leave. destruct (Z.ltb_spec 5 count); cbn; lia. Qed.

(** After a login that is in flight during a reset, the count is negative. *)
Example reset_during_login :
  ∃ d, rtc demo_step demo_init d ∧ demo_logins d = [] ∧ active (demo_app d) = -1.
Proof.
  eexists. split; [|split].
  - eapply rtc_l; [exact (dm_enter demo_init)|]. eapply rtc_l; [exact (dm_reset _)|].
    apply rtc_once. exact (dm_leave (Build_demo zero_app [1]) 0 1 eq_refl).
  - reflexivity.
  - reflexivity.
Qed.
