(* ===== verification/DemoRun.v ===== *)
(** * The example scenario against the demo service
    (src/examples/scenarios/checkout-idempotency-race.json, src/examples/demo-api)

    The runner sends the example's requests to the demo service, whose state
    they share: [attack_step] interleaves the race of the runner with the
    checkouts that the service executes.  The service stores the idempotency key
    but does not enforce it; the example's invariant asks for one order.  Shown:
    whatever the interleaving, the run is reported as failed, by that invariant
    and not by a request. *)

From S2P Require Export Runner Race DemoApi.

Open Scope Z_scope.

(** ** The scenario *)
(** The text of the file; a single quote stands for a double one. *)
Definition race_file : string := quotes "{
  'version': 1,
  'name': 'checkout-idempotency-race',
  'description': 'Two simultaneous checkout requests with the same idempotency key must create only one order.',
  'target': {
    'base_url': 'http://localhost:9090'
  },
  'traffic': {
    'type': 'race',
    'concurrency': 2,
    'iterations': 1
  },
  'setup': [
    {
      'name': 'reset-demo-state',
      'method': 'POST',
      'path': '/reset',
      'expect': {
        'status': [200]
      }
    }
  ],
  'requests': [
    {
      'name': 'checkout',
      'method': 'POST',
      'path': '/checkout',
      'headers': {
        'Idempotency-Key': 'same-key-123'
      },
      'json': {
        'userId': 'user-123',
        'sku': 'item-abc',
        'quantity': 1
      },
      'expect': {
        'status': [201, 409]
      }
    }
  ],
  'thresholds': {
    'max_error_rate': 0,
    'p95_ms': 750
  },
  'invariants': [
    {
      'name': 'only-one-order-created',
      'type': 'http_probe',
      'method': 'GET',
      'path': '/orders?userId=user-123&sku=item-abc',
      'expect': {
        'json_path': '$.count',
        'equals': 1
      }
    }
  ]
}
".

(** What it means. *)
Definition checkout_json : string := quotes "{
        'userId': 'user-123',
        'sku': 'item-abc',
        'quantity': 1
      }".
Definition reset_request : Request :=
  Build_Request "reset-demo-state" "POST" "/reset" None "" "" (Some [200]).
Definition checkout_request : Request :=
  Build_Request "checkout" "POST" "/checkout" (Some {["Idempotency-Key" := "same-key-123"]})
    checkout_json "" (Some [201; 409]).
Definition one_order : Invariant :=
  Build_Invariant "only-one-order-created" "http_probe" "" "GET"
    "/orders?userId=user-123&sku=item-abc" None None None None None
    (Build_ProbeExpectation "$.count" (VFloat (float_of_int 1))).
Definition race_scenario : Scenario :=
  Build_Scenario 1 "checkout-idempotency-race"
    "Two simultaneous checkout requests with the same idempotency key must create only one order."
    (Build_Target "" "http://localhost:9090" None)
    (Build_Traffic "race" 2 1 0 (Build_RetryPolicy 0 0))
    [reset_request] [checkout_request] []
    (Build_Thresholds (Some (float_of_int 0)) (Some (float_of_int 750))) [one_order].
Definition checkout_decoded : checkoutRequest := Build_checkoutRequest "user-123" "item-abc" 1.

(** The same after preparation, in any environment. *)
Definition empty_headers (r : Request) : Request :=
  Build_Request (Request_Name r) (Request_Method r) (Request_Path r) (Some ∅) (Request_JSON r)
    (Request_Body r) (Request_Status r).
Definition one_order_probe : Invariant :=
  Build_Invariant "only-one-order-created" "http_probe" "" "GET"
    "/orders?userId=user-123&sku=item-abc" (Some ∅) None None None None
    (Build_ProbeExpectation "$.count" (VFloat (float_of_int 1))).
Definition race_prepared : Scenario :=
  Build_Scenario 1 "checkout-idempotency-race"
    "Two simultaneous checkout requests with the same idempotency key must create only one order."
    (Build_Target "" "http://localhost:9090" (Some ∅))
    (Build_Traffic "race" 2 1 0 (Build_RetryPolicy 0 0))
    [empty_headers reset_request] [checkout_request] []
    (Build_Thresholds (Some (float_of_int 0)) (Some (float_of_int 750))) [one_order_probe].

Section Attack.
Context `{UT : UnicodeTables} `{JE : JsonErrors} `{DE : DecodeErrors}.

Lemma decode_example : decode_checkout checkout_json = Ok checkout_decoded.
Proof. vm_compute. reflexivity. Qed.

Lemma race_decoded : unmarshal_scenario race_file = Ok race_scenario.
Proof. vm_compute. reflexivity. Qed.
Lemma prepare_example env : prepare env race_scenario = race_prepared.
Proof. vm_compute. reflexivity. Qed.
Lemma prepare_prepared env : prepare env race_prepared = race_prepared.
Proof. vm_compute. reflexivity. Qed.
Lemma prepared_valid : Validate race_prepared = None.
Proof. vm_compute. reflexivity. Qed.
(** The file loads, whatever the environment. *)
Lemma race_loads env read path :
  read path = Ok race_file → LoadFile env read path = Ok race_prepared.
Proof.
  intros Hr. unfold LoadFile. rewrite Hr. cbn [result_bind].
  by rewrite race_decoded, prepare_example, prepared_valid.
Qed.

(** ** A request of the runner that the service answers *)
Definition demo_client (created : string) (a : app) : HttpRequest → HttpReply :=
  λ r, fst (demo_reply r created a).
Definition demo_request (runID : string) (req : Request) (i attempt : Z) (t0 t1 : Time)
    (created : string) (a : app) : ResponseRecord * app :=
  (fst (executeRequest runID race_prepared req i attempt false
          (Build_RequestIO t0 t1 (demo_client created a))),
   match build_request runID race_prepared req i attempt with
   | Ok r => snd (demo_reply r created a)
   | Err _ => a
   end).

Lemma request_answered runID req i attempt recording io r status body :
  build_request runID race_prepared req i attempt = Ok r →
  io_reply io r = Response status body None → status_error req status = "" →
  let rec := fst (executeRequest runID race_prepared req i attempt recording io) in
  record_id rec = (Request_Name req, i, attempt) ∧ Response_StatusCode rec = status
  ∧ Response_Error rec = "".
Proof.
  intros Hb Hr Hs. rewrite executeRequest_record. unfold perform_request. rewrite Hb, Hr.
  assert (∃ raw, read_limited (maxBodyPreviewBytes + 1) body None = (raw, None)) as [raw ->]
    by (unfold read_limited; case_match; by eexists).
  rewrite Hs. by split_and!.
Qed.

Lemma build_checkout runID i at_ :
  ∃ r, build_request runID race_prepared checkout_request i at_ = Ok r
       ∧ hr_Method r = "POST" ∧ hr_Body r = Some checkout_json
       ∧ Header_Get "Idempotency-Key" (hr_Header r) = "same-key-123"
       ∧ findHandler demo_mux "POST" (hr_URL r) = MuxHandler DeCheckout ∅.
Proof.
  unfold build_request.
  assert (joinURL "http://localhost:9090" "/checkout" = Ok "http://localhost:9090/checkout") as Hj
    by (vm_compute; reflexivity).
  change (joinURL _ _) with (joinURL "http://localhost:9090" "/checkout"). rewrite Hj. cbn [result_bind].
  change (requestBody checkout_request) with (Some checkout_json, "application/json").
  assert (∃ u, NewRequest (Request_Method checkout_request) "http://localhost:9090/checkout" (Some checkout_json)
    = Ok (Build_HttpRequest "POST" u ∅ (Some checkout_json))
    ∧ findHandler demo_mux "POST" u = MuxHandler DeCheckout ∅) as (u & Hn & Hf).
  { eexists. split; [vm_compute; reflexivity|vm_compute; reflexivity]. }
  rewrite Hn. cbn [result_bind]. eexists. split; [reflexivity|]. cbn [with_headers hr_Method hr_Body hr_Header hr_URL].
  split_and!; [done|done| |done].
  rewrite !Header_Get_Set_ne by done. vm_compute. reflexivity.
Qed.

Definition new_order (created : string) (a : app) : order :=
  Build_order ("ord_" +:+ Itoa (Z.of_nat (length (orders a)) + 1)) "user-123" "item-abc" 1
    "same-key-123" created.
(** A checkout is answered 201 and makes an order. *)
Lemma checkout_answer runID i attempt t0 t1 created a :
  let '(rec, a') := demo_request runID checkout_request i attempt t0 t1 created a in
  Response_Error rec = "" ∧ a' = Build_app (orders a ++ [new_order created a]) (active a).
Proof.
  destruct (build_checkout runID i attempt) as (r & Hb & Hm & Hbody & Hkey & Hf).
  assert (demo_reply r created a
          = (Response 201 (demo_body (POrder (new_order created a))) None,
             Build_app (orders a ++ [new_order created a]) (active a))) as Hr.
  { unfold demo_reply. rewrite Hm, Hf. unfold demo_serve. rewrite Hbody, Hkey.
    cbn [default from_option id]. rewrite decode_example. reflexivity. }
  unfold demo_request. rewrite Hb, Hr. split; [|reflexivity].
  eapply (request_answered runID checkout_request i attempt false _ r 201); [exact Hb| |].
  - cbn [io_reply]. unfold demo_client. rewrite Hr. reflexivity.
  - vm_compute. reflexivity.
Qed.

(** *** The setup *)
Lemma build_reset runID i attempt :
  ∃ r, build_request runID race_prepared (empty_headers reset_request) i attempt = Ok r
       ∧ findHandler demo_mux (hr_Method r) (hr_URL r) = MuxHandler DeReset ∅.
Proof.
  unfold build_request. cbn [Request_Path empty_headers reset_request Scenario_Target race_prepared Target_BaseURL].
  assert (joinURL "http://localhost:9090" "/reset" = Ok "http://localhost:9090/reset") as ->
    by (vm_compute; reflexivity).
  cbn [result_bind]. change (requestBody _) with (None : option string, "").
  cbn [Request_Method empty_headers reset_request].
  assert (∃ u, NewRequest "POST" "http://localhost:9090/reset" None
    = Ok (Build_HttpRequest "POST" u ∅ None)
    ∧ findHandler demo_mux "POST" u = MuxHandler DeReset ∅) as (u & -> & Hf).
  { eexists. split; [vm_compute; reflexivity|vm_compute; reflexivity]. }
  cbn [result_bind]. by eexists.
Qed.
Lemma reset_reply runID i attempt r created a :
  build_request runID race_prepared (empty_headers reset_request) i attempt = Ok r →
  demo_reply r created a = (Response 200 (demo_body POk) None, zero_app).
Proof.
  intros Hr. destruct (build_reset runID i attempt) as (r' & Hb & Hf). rewrite Hb in Hr.
  injection Hr as <-. unfold demo_reply. rewrite Hf. reflexivity.
Qed.
Lemma reset_state runID i attempt t0 t1 created a :
  snd (demo_request runID (empty_headers reset_request) i attempt t0 t1 created a) = zero_app.
Proof.
  destruct (build_reset runID i attempt) as (r & Hb & _). unfold demo_request. rewrite Hb. cbn [snd].
  by rewrite (reset_reply runID i attempt r created a Hb).
Qed.
(** The setup passes. *)
Lemma setup_passes runID recording io created a :
  cio_cancelled (io 0%nat) = false → cio_admitted (io 0%nat) = true →
  (∀ r, io_reply (cio_request (io 0%nat)) r = demo_client created a r) →
  hasFailedCheck (snd (fst (runControlRequests runID race_prepared "setup"
    [empty_headers reset_request] recording io))) = false.
Proof.
  intros Hc Ha Hio. destruct (build_reset runID (-1) 1) as (r & Hb & _).
  pose proof (request_answered runID (empty_headers reset_request) (-1) 1 recording
    (cio_request (io 0%nat)) r 200 (demo_body POk) Hb) as Hrec.
  rewrite Hio in Hrec. unfold demo_client in Hrec.
  rewrite (reset_reply runID (-1) 1 r created a Hb) in Hrec.
  specialize (Hrec eq_refl eq_refl) as (_ & _ & He).
  unfold runControlRequests. change (length [_] =? 0)%nat with false. cbn iota.
  change (String.eqb "setup" "teardown") with false. cbn iota. cbn [control_loop]. rewrite Hc, Ha. cbn [negb].
  destruct (executeRequest _ _ _ _ _ _ _) as [rec evs]. cbn [fst] in He.
  unfold control_check. rewrite He. reflexivity.
Qed.

(** *** The probe *)

(** The time of an order as text: RFC 3339 with nanoseconds. *)
Definition created_ok (created : string) : Prop :=
  is_ascii_string created = true ∧ (String.length created ≤ 35)%nat.
Definition numbered (n : nat) (created : string) : order :=
  Build_order ("ord_" +:+ Itoa (Z.of_nat n + 1)) "user-123" "item-abc" 1 "same-key-123" created.
Definition two_orders (t1 t2 : string) : list order := [numbered 0 t1; numbered 1 t2].

Lemma escaped_length esc s :
  (∀ c, is_ascii_byte c = true → String.length (esc c) ≤ 6)%nat → is_ascii_string s = true →
  (String.length (escape_string esc (String.length s) s) ≤ 6 * String.length s)%nat.
Proof.
  intros Hesc. induction s as [|c s IH]; [done|]. unfold is_ascii_string in *. cbn [string_forall].
  intros [Hc Hs]%andb_true_iff. cbn [String.length escape_string]. rewrite Hc, length_append.
  specialize (Hesc c Hc). specialize (IH Hs). lia.
Qed.
Lemma created_length t :
  created_ok t → (String.length (string_literal escape_html t) ≤ 212)%nat.
Proof.
  intros [Ha Hl]. unfold string_literal. rewrite !length_append. change (String.length quote_char) with 1%nat.
  assert (∀ c, is_ascii_byte c = true → String.length (escape_html c) ≤ 6)%nat as Hc.
  { intros c _. destruct c as [[] [] [] [] [] [] [] []]; vm_compute; lia. }
  pose proof (escaped_length escape_html t Hc Ha). lia.
Qed.

Lemma probe_body t1 t2 :
  created_ok t1 → created_ok t2 →
  let body := demo_body (POrders 2 (two_orders t1 t2)) in
  LookupJSONPath body "$.count" = Ok (Some (VFloat (float_of_int 2)))
  ∧ (String.length body ≤ maxBodyPreviewBytes)%nat.
Proof.
  intros H1 H2. cbv zeta. split.
  - unfold LookupJSONPath. cbn [String.eqb Ascii.eqb Bool.eqb orb]. unfold Unmarshal.
    change (demo_body (POrders 2 (two_orders t1 t2))) with
      (render marshal_layout 0 (TObj [("count", TNum (Itoa 2)); ("orders", orders_tree (two_orders t1 t2))])
       +:+ newline).
    rewrite (rendered_parses marshal_layout).
    + vm_compute. reflexivity.
    + cbn [orders_tree two_orders map order_tree numbered].
      destruct H1 as [Ha1%ascii_ValidString _], H2 as [Ha2%ascii_ValidString _].
      cbv -[ValidString].
      rewrite Ha1, Ha2. reflexivity.
    + apply Nat.leb_le. vm_compute. reflexivity.
    + done.
    + done.
  - pose proof (created_length t1 H1). pose proof (created_length t2 H2).
    cbv -[string_literal escape_html String.append String.length maxBodyPreviewBytes].
    rewrite !length_append.
    generalize dependent (String.length (string_literal escape_html t1)).
    generalize dependent (String.length (string_literal escape_html t2)). intros n2 Hn2 n1 Hn1.
    repeat match goal with |- context [String.length ?s] =>
      let n := eval vm_compute in (String.length s) in change (String.length s) with n end.
    trans 1000%nat; [lia|]. apply Nat.leb_le. vm_compute. reflexivity.
Qed.

Lemma build_one_order runID :
  ∃ r, build_probe runID race_prepared one_order_probe = Ok r
       ∧ findHandler demo_mux (hr_Method r) (hr_URL r) = MuxHandler DeOrders ∅
       ∧ Query_Get "userId" (URL_RawQuery (hr_URL r)) = "user-123"
       ∧ Query_Get "sku" (URL_RawQuery (hr_URL r)) = "item-abc".
Proof.
  unfold build_probe. cbn [Invariant_Path one_order_probe Scenario_Target race_prepared Target_BaseURL].
  assert (joinURL "http://localhost:9090" "/orders?userId=user-123&sku=item-abc"
          = Ok "http://localhost:9090/orders?userId=user-123&sku=item-abc") as ->
    by (vm_compute; reflexivity).
  cbn [result_bind Invariant_Method one_order_probe].
  assert (∃ u, NewRequest "GET" "http://localhost:9090/orders?userId=user-123&sku=item-abc" None
    = Ok (Build_HttpRequest "GET" u ∅ None)
    ∧ findHandler demo_mux "GET" u = MuxHandler DeOrders ∅
    ∧ Query_Get "userId" (URL_RawQuery u) = "user-123"
    ∧ Query_Get "sku" (URL_RawQuery u) = "item-abc") as (u & -> & Hf & Hu & Hs).
  { eexists. split; [vm_compute; reflexivity|]. repeat split; vm_compute; reflexivity. }
  cbn [result_bind]. by eexists.
Qed.
Definition two_orders_check : CheckResult :=
  Build_CheckResult "only-one-order-created" false "failed: observed 2, expected 1" "1" "2".
Lemma probe_answer runID io created a t1 t2 :
  orders a = two_orders t1 t2 → created_ok t1 → created_ok t2 → pio_admitted io = true →
  (∀ r, pio_reply io r = demo_client created a r) →
  evaluateHTTPProbe runID race_prepared one_order_probe io = two_orders_check.
Proof.
  intros Ho H1 H2 Had Hio. unfold evaluateHTTPProbe.
  destruct (build_one_order runID) as (r & -> & Hf & Hu & Hs). rewrite Had, Hio. cbn [negb].
  assert (demo_client created a r
          = Response 200 (demo_body (POrders 2 (two_orders t1 t2))) None) as ->.
  { unfold demo_client, demo_reply. rewrite Hf. unfold demo_serve. rewrite Hu, Hs.
    unfold ordersByQuery. rewrite Ho. reflexivity. }
  destruct (probe_body t1 t2 H1 H2) as [Hl Hlen].
  assert (read_limited (maxBodyPreviewBytes + 1) (demo_body (POrders 2 (two_orders t1 t2))) None
          = (demo_body (POrders 2 (two_orders t1 t2)), None)) as ->.
  { unfold read_limited. by rewrite (proj2 (Nat.leb_gt _ _)) by lia. }
  change (400 <=? 200) with false. cbn iota.
  change (ProbeExpectation_JSONPath (Invariant_Expect one_order_probe)) with "$.count".
  rewrite Hl. vm_compute. reflexivity.
Qed.

(** ** The race *)

(** The race, and the state of the service. *)
Definition attack : Type := race_state * app.
Definition pending (x : racer) : nat := match x with RAdd _ _ => 1 | _ => 0 end.

Inductive attack_step (runID : string) : attack → attack → Prop :=
(** A step of the race in which no racer gets its answer. *)
| at_race s s' a :
    race_step race_prepared false s s' →
    (∀ w x, rc_racers s' !! w = Some x → pending x = 1%nat → rc_racers s !! w = Some x) →
    attack_step runID (s, a) (s', a)
(** The service executes the request of a racer. *)
| at_request c m rs items i r line w attempt t0 t1 created rec a a' :
    current_round m = Some (i, r, line) → rs !! w = Some (RExec attempt) → created_ok created →
    demo_request runID r i attempt t0 t1 created a = (rec, a') →
    attack_step runID (Build_race_state c m rs items, a)
      (Build_race_state c m (<[w := RAdd attempt rec]> rs) items, a').

(** The requests that are left in an iteration. *)
Definition round_requests (m : race_main) : list Request :=
  match m with
  | MReqs _ reqs => reqs
  | MSpawn _ r reqs | MWait _ r reqs => r :: reqs
  | _ => []
  end.
Definition racer_ok (x : racer) : Prop :=
  match x with RAdd _ rec => Response_Error rec = "" | _ => True end.
(** Every answer is an order; one that is not collected yet is pending. *)
Record attack_inv (x : attack) : Prop := {
  ai_requests : Forall (eq checkout_request) (round_requests (rc_main x.1));
  ai_idle : current_round (rc_main x.1) = None → sum_list_with pending (rc_racers x.1) = 0%nat;
  ai_orders : ∃ ts, orders x.2 = imap numbered ts ∧ Forall created_ok ts;
  ai_count : length (orders x.2) = (length (rc_items x.1) + sum_list_with pending (rc_racers x.1))%nat;
  ai_racers : Forall racer_ok (rc_racers x.1);
  ai_items : Forall (λ rec, Response_Error rec = "") (rc_items x.1);
}.

Lemma spawn_idle : sum_list_with pending (spawn race_prepared) = 0%nat ∧ Forall racer_ok (spawn race_prepared).
Proof. split; [reflexivity|]. repeat constructor. Qed.
Lemma done_idle rs : Forall (eq RDone) rs → sum_list_with pending rs = 0%nat.
Proof. induction 1 as [|x rs <- _ IH]; [done|]. simpl. exact IH. Qed.

Lemma rstep_pending c line i r x x' out :
  rstep false c line i r x x' out → pending x' = 1%nat
  ∨ (pending x = pending x' + length out)%nat ∧ (racer_ok x → racer_ok x' ∧ Forall (λ rec, Response_Error rec = "") out).
Proof. destruct 1; simpl; auto 10. Qed.

Lemma racer_move a c m rs items i r line w x x' out :
  current_round m = Some (i, r, line) → rs !! w = Some x → rstep false c line i r x x' out →
  (∀ v y, <[w:=x']> rs !! v = Some y → pending y = 1%nat → rs !! v = Some y) →
  attack_inv (Build_race_state c m rs items, a) →
  attack_inv (Build_race_state c m (<[w:=x']> rs) (items ++ out), a).
Proof.
  intros Hm Hw Hx Hno [Hrq Hidle Hord Hcnt Hrs Hit]. cbn in *.
  assert (Hlt : (w < length rs)%nat) by by eapply lookup_lt_Some.
  pose proof (sum_list_with_insert pending rs w x x' Hw) as Hsum.
  destruct (rstep_pending _ _ _ _ _ _ _ Hx) as [H1|[Hp Hok]].
  - exfalso. specialize (Hno w x' (list_lookup_insert_eq rs w x' Hlt) H1). simplify_eq.
    apply rstep_weight in Hx. lia.
  - destruct Hok as [Hx' Hout]; [by eapply Forall_lookup_1 in Hrs|].
    split; cbn; try done.
    + intros Hn. by rewrite Hn in Hm.
    + rewrite length_app. lia.
    + by apply Forall_insert.
    + by apply Forall_app.
Qed.

Lemma attack_race_inv s s' a :
  race_step race_prepared false s s' →
  (∀ w x, rc_racers s' !! w = Some x → pending x = 1%nat → rc_racers s !! w = Some x) →
  attack_inv (s, a) → attack_inv (s', a).
Proof.
  intros Hs Hno Hinv. destruct Hs as [m rs items|c i rs items Hi|i rs items Hi
    |i rs items Hi|c i rs items|i r reqs rs items|i r reqs rs items|c i r reqs rs items
    |c m rs items i r line w x x' out Hm Hw Hx|c i r reqs rs items Hd];
    [| | | | | | | |by eapply racer_move|];
    destruct Hinv as [Hrq Hidle Hord Hcnt Hrs Hit]; cbn in *;
    split; cbn; try done.
  - by repeat constructor.
  - by rewrite (proj1 spawn_idle), Hcnt, Hidle.
  - apply spawn_idle.
  - by apply Forall_cons in Hrq as [_ Hrq].
  - intros _. by apply done_idle.
Qed.

(** An answer brings an order. *)
Lemma attack_step_inv runID x x' : attack_inv x → attack_step runID x x' → attack_inv x'.
Proof.
  intros Hinv Hs. destruct Hs as [s s' a Hs Hno|c m rs items i r line w attempt t0 t1 created rec a a'
    Hm Hw Hcr Hreq]; [by eapply attack_race_inv|].
  destruct Hinv as [Hrq Hidle (ts & Ho & Hts) Hcnt Hrs Hit]. cbn in *.
  assert (r = checkout_request) as ->.
  { destruct m; simplify_eq/=; by apply Forall_cons in Hrq as [<- _]. }
  pose proof (checkout_answer runID i attempt t0 t1 created a) as Ha. rewrite Hreq in Ha.
  destruct Ha as [He ->]. clear Hreq.
  pose proof (sum_list_with_insert pending rs w _ (RAdd attempt rec) Hw) as Hsum. cbn in Hsum.
  split; cbn.
  - exact Hrq.
  - intros Hn. by rewrite Hn in Hm.
  - exists (ts ++ [created]). rewrite imap_app, Forall_app, Ho.
    split; [|split; [exact Hts|by apply Forall_singleton]].
    unfold new_order. cbn [imap]. rewrite Ho, length_imap. unfold numbered at 2. by rewrite Nat.add_0_r.
  - rewrite length_app. cbn. lia.
  - by apply Forall_insert.
  - exact Hit.
Qed.

Lemma attack_steps runID x x' :
  attack_inv x → rtc (attack_step runID) x x' →
  attack_inv x' ∧ rtc (race_step race_prepared false) x.1 x'.1.
Proof.
  intros Hinv H. induction H as [x|x y z Hxy _ IH]; [done|].
  destruct (IH (attack_step_inv _ _ _ Hinv Hxy)) as [Hz Hr]. split; [done|].
  eapply rtc_l; [|exact Hr]. destruct Hxy as [s s' a Hs _|c m rs items i r line w attempt t0 t1 created rec
    a a' Hm Hw _ Hreq]; [done|].
  cbn [fst]. rewrite <-(app_nil_r items) at 2. eapply rs_racer; [done|done|]. apply r_exec.
  unfold demo_request in Hreq. injection Hreq as <- _. rewrite executeRequest_record.
  destruct (perform_request_spec runID race_prepared r i attempt false
    (Build_RequestIO t0 t1 (demo_client created a))) as (H1 & H2 & H3 & _).
  unfold record_id. by rewrite H1, H2, H3.
Qed.

Lemma attack_starts : attack_inv (race_init, zero_app).
Proof. split; cbn; try done. by exists []. Qed.

(** A race that returns uncancelled has made two orders. *)
Lemma attack_ends runID s a :
  rtc (attack_step runID) (race_init, zero_app) (s, a) → rc_cancelled s = false → rc_main s = MReturn →
  (∃ t1 t2, orders a = two_orders t1 t2 ∧ created_ok t1 ∧ created_ok t2)
  ∧ length (rc_items s) = 2%nat ∧ Forall (λ rec, Response_Error rec = "") (rc_items s).
Proof.
  intros Hrun Hc Hm. destruct (attack_steps _ _ _ attack_starts Hrun) as [[_ Hidle (ts & Ho & Hts) Hcnt _ Hit] Hrace].
  cbn [fst snd] in *. apply (race_complete _ _ _ Hrace Hc) in Hm as Hp.
  apply Permutation_length in Hp. rewrite length_map in Hp. change (length (concat _)) with 2%nat in Hp.
  rewrite Hm in Hidle. rewrite Hidle, Hp, Ho, length_imap in Hcnt by done.
  split_and!; [|done|done].
  destruct ts as [|t1 [|t2 [|]]]; try discriminate Hcnt.
  exists t1, t2. apply Forall_cons in Hts as [H1 [H2 _]%Forall_cons].
  rewrite Ho. split; [reflexivity|split; [exact H1|exact H2]].
Qed.

(** ** Property *)

(** A run of the example against the service, from the state [a0] on: the setup
    finds the service in that state, the traffic is the race [s] against what
    the setup has left, and the probe sees the state [a] that the race has left. *)
Record runs_against (e : RunEnv) (runID : string) (a0 : app) (s : race_state) (a : app) : Prop := {
  ra_setup :
    let io := run_setup e 0%nat in
    cio_cancelled io = false ∧ cio_admitted io = true
    ∧ ∃ created,
        (∀ r, io_reply (cio_request io) r = demo_client created a0 r)
        ∧ rtc (attack_step runID)
            (race_init, snd (demo_request runID (empty_headers reset_request) (-1) 1
                               (io_started (cio_request io)) (io_done (cio_request io)) created a0))
            (s, a);
  ra_returned : rc_cancelled s = false ∧ rc_main s = MReturn ∧ fst (run_traffic e) = rc_items s;
  ra_probe :
    pio_admitted (run_probes e 0%nat) = true
    ∧ ∃ created, ∀ r, pio_reply (run_probes e 0%nat) r = demo_client created a r;
}.

(** C2: the example finds the bug that it is there for.  The file loads, and
    however the two checkouts of its run interleave, and whatever the service held
    before, the run of checkout-idempotency-race.json against the demo service is
    reported as failed: both checkouts succeed, and the invariant sees two orders
    instead of one. *)
Theorem race_finds_bug env read path e opts a0 s a :
  read path = Ok race_file → runs_against e (run_id e opts) a0 s a →
  ∃ sc rep evs,
    LoadFile env read path = Ok sc
    ∧ RunWithOptions e sc opts = Some (Ok rep, evs)
    ∧ Report_Status rep = StatusFailed
    ∧ length (fst (run_traffic e)) = 2%nat
    ∧ (∀ rec, rec ∈ fst (run_traffic e) → Response_Error rec = "")
    ∧ Report_Invariants rep = [two_orders_check].
Proof.
  intros Hread [(Hc & Ha & created & Hio & Hrun) (Hcan & Hret & Htr) (Hp & created' & Hprobe)].
  exists race_prepared. setoid_rewrite (race_loads env read path Hread).
  rewrite reset_state in Hrun.
  destruct (attack_ends _ _ _ Hrun Hcan Hret) as ((t1 & t2 & Ho & H1 & H2) & Hlen & Herr).
  rewrite <-Htr in Hlen, Herr. rewrite Forall_forall in Herr.
  pose proof (run_verdict_spec e race_prepared opts) as Hv. cbv zeta in Hv.
  rewrite prepare_prepared in Hv. destruct Hv as (ths & rep & evs & Hths & Hrep & Hst & Hpass & _ & Hinv).
  - apply prepared_valid.
  - unfold small_run. rewrite Hlen. by split; vm_compute.
  - by eapply setup_passes.
  - assert (Report_Invariants rep = [two_orders_check]) as Hrepinv.
    { rewrite Hinv. unfold evaluateInvariants. cbn. f_equal. by eapply probe_answer. }
    exists rep, evs. split; [done|]. split; [exact Hrep|]. split; [|done].
    destruct Hst as [Hst|Hst]; [|done]. apply Hpass in Hst as [_ Hall].
    specialize (Hall two_orders_check). unfold run_checks in Hall. rewrite <-Hinv, Hrepinv in Hall.
    discriminate Hall. apply elem_of_app. right. apply elem_of_app. left. apply list_elem_of_here.
Qed.
End Attack.

(** ** Example *)
#[local] Existing Instances ascii_tables plain_errors.
#[local] Instance example_errors : JsonErrors := {| json_error s := s |}.
Definition noon : string := "2024-01-01T12:00:00Z".
(** A step that leaves no answer to be collected. *)
Lemma silent_step runID s s' a :
  race_step race_prepared false s s' → forallb (λ x, pending x =? 0)%nat (rc_racers s') = true →
  attack_step runID (s, a) (s', a).
Proof.
  intros Hs Hq. apply at_race; [done|]. intros w x Hx Hp. rewrite forallb_forall in Hq.
  apply list_elem_of_lookup_2 in Hx. apply list_elem_of_In, Hq in Hx. rewrite Hp in Hx. discriminate Hx.
Qed.
(** The race moves; a racer gets its answer. *)
Ltac attack_race t := eapply rtc_l; [apply silent_step; [t|reflexivity]|].
Ltac attack_move w t := attack_race ltac:(eapply (rs_racer _ _ _ _ _ _ _ _ _ w); [reflexivity|reflexivity|t]).
Ltac attack_answer w :=
  eapply rtc_l;
  [eapply (at_request _ _ _ _ _ _ _ _ w _ 0 0 noon);
   [reflexivity|reflexivity|split; vm_compute; [reflexivity|lia]|apply surjective_pairing]|].

Lemma example_attack :
  ∃ s a, rtc (attack_step "run_1") (race_init, zero_app) (s, a)
         ∧ rc_cancelled s = false ∧ rc_main s = MReturn.
Proof.
  eexists _, _. split.
  - attack_race ltac:(apply rs_iteration; reflexivity).
    attack_race ltac:(apply rs_spawn).
    attack_race ltac:(apply rs_open).
    attack_move 0%nat ltac:(apply r_start; reflexivity). attack_move 1%nat ltac:(apply r_start; reflexivity).
    attack_move 1%nat ltac:(apply r_check; reflexivity). attack_move 1%nat ltac:(apply r_wait; right; reflexivity).
    attack_move 0%nat ltac:(apply r_check; reflexivity). attack_move 0%nat ltac:(apply r_wait; right; reflexivity).
    attack_answer 1%nat. attack_move 1%nat ltac:(apply r_add).
    attack_answer 0%nat. attack_move 0%nat ltac:(apply r_add).
    attack_race ltac:(apply rs_round_end; repeat constructor).
    attack_race ltac:(apply rs_requests_end).
    attack_race ltac:(apply rs_iterations_end; reflexivity).
    apply rtc_refl.
  - split; reflexivity.
Qed.

(** The run whose traffic is that race. *)
Definition example_env (s : race_state) (a : app) : RunEnv :=
  Build_RunEnv (λ _, "") 0 10 20
    (λ _, Build_ControlIO false true (Build_RequestIO 0 0 (demo_client noon zero_app)))
    (rc_items s, [])
    (λ _, Build_ProbeIO true "" (demo_client noon a))
    (λ _, Build_ControlIO false true (Build_RequestIO 0 0 (demo_client noon a))).
Definition example_opts : RunOptions := Build_RunOptions "run_1" false.

Lemma example_runs s a :
  rtc (attack_step "run_1") (race_init, zero_app) (s, a) →
  rc_cancelled s = false → rc_main s = MReturn →
  runs_against (example_env s a) "run_1" zero_app s a.
Proof.
  intros Hrun Hc Hm. split.
  - split; [reflexivity|]. split; [reflexivity|]. exists noon. split; [done|].
    rewrite reset_state. exact Hrun.
  - by repeat split.
  - split; [reflexivity|]. by exists noon.
Qed.

Lemma race_finds_bug_witness :
  ∃ s a sc rep evs,
    runs_against (example_env s a) "run_1" zero_app s a
    ∧ LoadFile no_env (λ _, Ok race_file) "race.json" = Ok sc
    ∧ RunWithOptions (example_env s a) sc example_opts = Some (Ok rep, evs)
    ∧ Report_Status rep = StatusFailed.
Proof.
  destruct example_attack as (s & a & Hrun & Hc & Hm).
  pose proof (example_runs s a Hrun Hc Hm) as H.
  destruct (race_finds_bug no_env (λ _, Ok race_file) "race.json" (example_env s a) example_opts
    zero_app s a eq_refl H) as (sc & rep & evs & Hl & Hr & Hst & _).
  exists s, a, sc, rep, evs. split; [exact H|]. split; [exact Hl|]. split; [exact Hr|exact Hst].
Defined.
